(* ===== verification/_CoqProject ===== *)
-Q . S2P
Prelude.v
CppString.v
Result.v
Url.v
Double.v
Constants.v
Ostream.v
TokenBucket.v
Ring.v
Collector.v
Sharded.v
ConnectionPool.v
Repo.v
Policy.v
HttpServer.v
Config.v
Engine.v
Redact.v
SyncHttp.v
Vault.v
Auth.v
Async.v
Tls.v
Protocol.v
HttpClient.v
RawClients.v
Connection.v
Factory.v
Otlp.v
CliArgs.v
Templates.v
CliMain.v
Presets.v
Prometheus.v
Workers.v
Slots.v
EngineLoop.v
Direct.v
DirectRun.v
Term.v
Report.v
Spans.v
GrpcLoad.v
WorkerRuns.v
ServerLife.v
ApiHelp.v
Bindings.v
