(* ===== verification/Prelude.v ===== *)
(** * volley: a verification development of the load-testing tool

    volley sends HTTP load at a configured rate, measures it, and reports; a small
    control plane keeps projects, scenarios, runs and policies.  This library models
    the parts of [src/] that carry its logic as executable definitions and proves what
    makes them correct.  It is a shallow embedding: pure functions are functions,
    objects are records passed explicitly, exceptions and undefined behaviour are
    [None], [Result] is a two-armed type, threads are steps of a relation or explicit
    sequences of events.  A comment [[src/file:first-last] symbol] above a definition
    names the lines it translates.

    ** How the program fits together

    [tools/main.cpp] loads a YAML scenario ([core/scenario/yaml_parser.cpp]), validates
    it and runs [core/scenario/engine.cpp]: stages one after the other, each with its
    worker threads, which poll one shared [core/token_bucket.cpp], take a client from
    [core/net/connection_pool.cpp], send the step of a scenario chosen by weight and
    record the outcome in [core/metrics/collector.cpp].  Authentication headers come
    from [core/security/auth_provider.cpp], secrets from [core/vault/vault_client.cpp],
    log text passes [include/cppload/core/redact.hpp].  The clients of the pool come from
    [core/net/protocol_factory.cpp] and are [core/net/http_client.cpp],
    [tcp_raw_client.cpp] and [ws_client.cpp], written in callback style over
    [core/io_context_pool.cpp] and [core/security/tls_context.cpp].  While a run lasts its
    numbers are exported by [core/metrics/prometheus_exporter*.cpp] and its spans by
    [core/otel/otlp_exporter.cpp].  [workers/] are two further load generators.  The
    control plane is [core/platform/]: a repository, policy evaluation and an HTTP server.

    ** Files, in dependency order

    - [Prelude]: machine integers, tactics, the hint database [volley].
    - [CppString]: what the code uses of [std::string], character classes and the
      [sto*] conversions; [Double]: IEEE binary64 with round-to-nearest-even as integer
      multiples of [2^-1074], [std::stod]; [Ostream]: numbers as an [std::ostream] prints
      them, lines and words; [Constants]: [constants.hpp].
    - [Result]: [include/cppload/result.hpp] and [error.hpp].
    - [Url]: [url_parse.hpp], [url_encode.hpp], the request target and Host header of
      [http_client.cpp].
    - [TokenBucket]: [token_bucket.cpp].
    - [Ring], [Collector]: [metrics/collector.cpp], the lock-free latency ring both as
      a sequential structure and as a step relation over any number of threads.
    - [Sharded]: [metrics/sharded_collector.cpp].
    - [ConnectionPool]: [net/connection_pool.cpp].
    - [Repo], [Policy], [HttpServer]: [core/platform/].  [Repository] is the interface
      the handlers are written against; [Repo] gives the in-memory instance.
    - [Config]: [yaml_parser.cpp]: durations, environment substitution, the parser over
      an abstract YAML library, validation.
    - [Engine]: [engine.cpp]: assertions, weights, the plan of a run, the events of a
      stage, client guards, the loop over the stages.
    - [Redact]: [redact.hpp].
    - [SyncHttp], [Vault], [Auth]: [vault_client.cpp] and [auth_provider.cpp] over one
      abstract blocking exchange, driven by [beast_sync.hpp], and an abstract JSON library.
    - [Async]: requests in flight as trees of operations ([Proc]) and the event loop as a
      step relation over any number of them; [Tls], [Protocol]: [tls_context.cpp] and
      what the clients share; [HttpClient], [RawClients], [Connection]: the clients of
      [core/net/]; [Factory]: [protocol_factory.cpp] and [io_context_pool.cpp].
    - [Otlp]: [otlp_exporter.cpp]; [Prometheus]: both [prometheus_exporter*.cpp].
    - [CliArgs], [Templates], [CliMain], [Presets]: [tools/main.cpp]: its arguments, the
      texts of the [--init] presets and the documents in them, what the process does, and
      the presets through the parser.
    - [Workers]: [workers/http_worker/main.cpp], [workers/grpc_worker/main.cpp] and
      [platform/control-plane/main.cpp].
    - [Slots], [EngineLoop]: the worker threads of [engine.cpp]: their pacing by the clock;
      setting up, failing, the interleaving of the workers on one [io_context], [stop()].
    - [Direct], [DirectRun], [Spans]: a worker of a direct run of [tools/main.cpp], which
      puts [Slots], [HttpClient] and [Collector] together; all its workers on one
      [TokenBucket] and one [Collector]; the calls on the tracer of [Otlp].
    - [Term], [Report]: [term.hpp] and what [tools/main.cpp] prints.
    - [GrpcLoad], [WorkerRuns]: the load loop of a gRPC task on [HttpClient]; [main] of the
      HTTP worker and the session of the gRPC worker with its controller; [ServerLife], [ApiHelp]: [start], [stop] and the accepting thread of
      [http_server.cpp], the control plane's [main] and help.
    - [Bindings]: [python/bindings.cpp], the table of what the Python module registers.

    ** What the theorems show

    - Load: the bucket's state is a finite number of tokens between 0 and the burst in
      every reachable state ([bucket_reachable_inv]); no sequence of calls gets more
      tokens than burst plus rate times time allows ([try_consume_rate_limit]), with
      the rounding of doubles accounted for; [consume] returns ([consume_returns]);
      at every point of a stage the requests recorded and under way are exactly the
      tokens granted and within that bound ([stage_respects_rate]).
    - Threads of a run: for every interleaving of the workers, the context and [stop()] a
      client has at most one request unanswered and none when it is given back
      ([one_request_per_client]), and the workers of a stage do not all wait for nothing
      ([stage_no_deadlock]); a worker polls once per slot, in time, and its loop ends
      ([slot_schedule]); the workers of a direct run together keep to the rate of the
      command line and record every answer, once ([direct_run_accounts]), and each of them
      every request it sent, wherever it is interrupted ([direct_worker_accounts]); [stop()] finds a live context
      or none ([stop_never_dangles]).
    - Runs: [multi_stage_run_fails], [stop_ends_run], [stage_deadline_spec],
      [first_slots_spread], [pick_weighted_proportional], [assertion_compares],
      [assertion_without_spaces_fails].
    - Metrics: no two writers of the ring own a cell ([ring_writers_exclusive]), the
      ring refines the log of what was recorded ([ring_refines_log],
      [ring_refines_list]); the collectors refine the list of observations
      ([collector_refines_list], [sharded_refines_list]); percentiles are those of the
      sorted samples ([snapshot_percentiles_sorted], [percentile_order_stat]);
      [error_rate_range].
    - Connections: [pool_safe], [acquire_reuses_target].
    - Clients, for every interleaving of callbacks and every outcome of an operation: a
      request is only written to, and answered from, a stream that was connected to its
      own host and port and, for TLS, checked for them ([http_requests_isolated],
      [raw_requests_isolated], [connector_hands_over]); a request that is not idempotent
      is written at most once ([http_write_at_most_once]); every request is answered
      within eleven operations ([http_request_answered]).  [tls_context_policy],
      [factory_create], [io_pool_round_robin].
    - Exporters: no span is exported twice or invented and the buffer is bounded
      ([spans_exported_once]), stopping exports what is left ([stop_drains_spans]); the
      Prometheus counters never count a request twice ([counters_count_once]), a scrape
      shows the last update ([scrape_reports_update]), connections are capped and none
      outlives the exporter ([connections_capped]), [parse_bind_address_spec].
    - Command line: [parse_args_wf], [option_value_forms], [parse_size_exact]; a dry run
      accepts exactly what a run starts with ([dry_run_predicts]); exit codes
      ([run_exit_codes]); every preset of [--init] is read as its configuration and
      accepted in every environment ([init_presets_accepted]); the help lists exactly the
      options of the parser ([help_documents_parser]); the summary of a run can be read back
      under any colours ([summary_reads_back]); [direct_plan], [progress_stage_current],
      [watch_spaced], [response_span_recorded].
    - Configuration: [validate_decides_wf], [substitute_env_template] and, for whole
      documents, [substitute_env_document]; [parse_duration_exact].
    - Texts and addresses: [parse_url_print_url], [sanitize_path_safe],
      [url_encode_roundtrip], [request_target_no_injection], [redact_masks_fields],
      [redact_quoted_leaks].
    - Secrets and tokens: [vault_secret_roundtrip], [vault_request_retries],
      [token_refresh], [token_body_fields].
    - Control plane: [repo_integrity], [finish_run_once], [listings_exact],
      [create_delete_race], [evaluate_correct], [route_answers],
      [malformed_policy_kills_server], [project_http_roundtrip]; the routes are those of the
      help ([api_help_documents_routes]); how [stop] ends ([server_stop_outcome]).
    - Workers: which runs of a gRPC task have a meaning ([grpc_load_outcome]), the session of
      the worker around them ([grpc_session]), how the HTTP worker ends ([http_main_ends]);
      each phase of a blocking exchange reports its own error ([phases_report]).
    - Python: what the module offers ([python_module_offers], [py_latency_readback]).

    Some of them state behaviour the code should not have: pooled clients that are
    never given back ([multi_stage_run_fails]), a stop that is not heeded
    ([stop_ends_run]), an overflow before its clamp ([stage_deadline_spec]), an
    assertion form that validation accepts and evaluation rejects
    ([assertion_without_spaces_fails]), secrets that are logged
    ([redact_quoted_leaks]), a race between creation and deletion
    ([create_delete_race]), an exception that ends the server
    ([malformed_policy_kills_server]) or the tool ([malformed_value_terminates]),
    timeouts that are not recognised ([kept_read_timeout_retried]), payloads, ports and
    spans of the OTLP exporter ([attribute_value_is_array], [endpoint_default_port],
    [inner_span_ends_outer]), a pool that cannot be restarted
    ([io_pool_restart_serves_nothing]), threads that pile up ([handlers_accumulate]),
    requests sent after a stop ([stop_sends_one_more]) or without their phase
    ([first_poll_at_once]), workers left waiting ([worker_parked], [lost_request_strands]),
    a stop that is lost or finds a destroyed context ([stop_before_run_lost],
    [stop_after_throw]), spans of concurrent requests that mix ([response_spans_mix]), a
    preset without rates ([spike_preset_unbounded]), a server that a stop may terminate
    ([server_stop_outcome]), and the workers' event loops and counts ([http_worker_stalls],
    [grpc_load_outcome], [grpc_error_rate_wrong], [grpc_rate_required],
    [port_option]), and Python classes and calls that cannot be used
    ([python_module_offers]).

    ** Parameters, fuel and bounds

    Libraries outside of [src/] are parameters with the documented behaviour the code
    relies on: [NthElement] (std::nth_element), [YamlLib], [JsonLib], [JsonDoc],
    [Network], [KvServer]; theorems that use laws of one have a witness with a concrete
    instance.  Asio, Beast and OpenSSL are the operations of [Async] and [Tls], whose
    outcomes are unconstrained (a call on a TLS context may throw: [throws]); which HTTP
    methods Beast knows is [known_verb].  [MainEnv] holds what the command line tool finds
    outside, prometheus-cpp is seen through the calls made on it.  Loops that are not structural take fuel: [ring_push_loop] two rounds
    ([ring_refines_list] shows they are enough), [drop_dot_segments] and [redact] one
    round per character ([drop_dot_segments_id], [redact_fuel]), the expansion of
    [substitute_env] the length of the scalar ([substitute_env_template]),
    [consume_loop] as many rounds as the clock needs ([consume_returns]), [export_loop]
    65 rounds of 64 spans for a buffer of 4096 ([stop_drains_spans]), [drive] as many
    rounds as a request has operations ([http_request_answered]; [drain], [settle] and
    [load_drain] run the eleven of that bound, per request), [wait_slot] and [worker_polls] as many readings as the clock needs to pass
    the end of the stage ([slot_schedule]), [floor_log10] the four exponents an estimate
    leaves.  Counters are kept at 64 bits; theorems on them bound the number of events by
    [2^64], those on the bucket bound clock gaps by [2^53] ns, rates by [2^20] and calls by
    [2^30].

    ** Not modelled

    Sockets, the resolver, TLS and HTTP framing themselves; in [engine.cpp] the stages of
    protocols other than HTTP/1.1, which differ in the client alone; gRPC, prometheus-cpp,
    pybind11, yaml-cpp and nlohmann::json, which are parameters or seen through the calls
    made on them; the forwarding members of the classes with a hidden implementation, which
    only pass calls on, and what the compiler generates for copies and moves. *)

From stdpp Require Export base tactics list numbers strings pretty gmap.
From Stdlib Require Export ZArith Lia Ascii String.

#[global] Set Default Goal Selector "!".
#[export] Set Warnings "-clear-no-such-hyp,-register-all".

(** ** Notation scope of the development *)

Declare Scope cpp_scope.
Delimit Scope cpp_scope with cpp.

(** Unsigned wrap-around at a machine width, as C++ computes on [uintN_t]. *)
Definition wrap (w : Z) (x : Z) : Z := x `mod` 2 ^ w.

Notation "'u64' x" := (wrap 64 x) (at level 9, x at level 9) : cpp_scope.
Notation "'u32' x" := (wrap 32 x) (at level 9, x at level 9) : cpp_scope.
Notation "'u16' x" := (wrap 16 x) (at level 9, x at level 9) : cpp_scope.

#[global] Open Scope cpp_scope.

Definition UINT64_MAX : Z := 2 ^ 64 - 1.
Definition INT64_MAX : Z := 2 ^ 63 - 1.
Definition INT64_MIN : Z := - 2 ^ 63.

(** The values an [int64_t] can hold. *)
Definition is_i64 (x : Z) : Prop := (INT64_MIN ≤ x ≤ INT64_MAX)%Z.
Definition is_u64 (x : Z) : Prop := (0 ≤ x ≤ UINT64_MAX)%Z.

(** ** Automation *)

Create HintDb volley discriminated.
Create Rewrite HintDb volley.

(** Case analysis on every [match]/[if] scrutinee of the goal, or of a
    hypothesis, keeping the equations. *)
Ltac split_match :=
  match goal with
  | |- context [match ?x with _ => _ end] =>
      lazymatch x with context [match _ with _ => _ end] => fail | _ => idtac end;
      let E := fresh "E" in destruct x eqn:E
  end.

Ltac split_match_in H :=
  match type of H with
  | context [match ?x with _ => _ end] =>
      lazymatch x with context [match _ with _ => _ end] => fail | _ => idtac end;
      let E := fresh "E" in destruct x eqn:E
  end.

(** Boolean comparisons into propositions, for [lia]. *)
Ltac reflect_bool :=
  repeat match goal with
  | H : (_ && _)%bool = true |- _ => apply andb_prop in H; destruct H
  | H : (_ || _)%bool = false |- _ => apply orb_false_elim in H; destruct H
  | H : negb _ = true |- _ => apply negb_true_iff in H
  | H : negb _ = false |- _ => apply negb_false_iff in H
  | H : (_ =? _)%Z = true |- _ => apply Z.eqb_eq in H
  | H : (_ =? _)%Z = false |- _ => apply Z.eqb_neq in H
  | H : (_ <? _)%Z = true |- _ => apply Z.ltb_lt in H
  | H : (_ <? _)%Z = false |- _ => apply Z.ltb_ge in H
  | H : (_ <=? _)%Z = true |- _ => apply Z.leb_le in H
  | H : (_ <=? _)%Z = false |- _ => apply Z.leb_gt in H
  | H : (_ =? _)%string = true |- _ => apply String.eqb_eq in H
  | H : (_ =? _)%string = false |- _ => apply String.eqb_neq in H
  end.

Ltac reflect_char :=
  reflect_bool;
  repeat match goal with
  | H : (_ =? _)%char = true |- _ => apply Ascii.eqb_eq in H
  | H : (_ =? _)%char = false |- _ => apply Ascii.eqb_neq in H
  end.

(** ** Machine-integer lemmas *)

Lemma wrap_range w x : (0 ≤ w)%Z → (0 ≤ wrap w x < 2 ^ w)%Z.
Proof. intros. apply Z.mod_pos_bound, Z.pow_pos_nonneg; lia. Qed.

Lemma wrap_small w x : (0 ≤ x < 2 ^ w)%Z → wrap w x = x.
Proof. apply Z.mod_small. Qed.

Lemma wrap_idemp w x : wrap w (wrap w x) = wrap w x.
Proof.
  unfold wrap. destruct (Z.eq_dec (2 ^ w) 0) as [E|E].
  - by rewrite E, !Z.mod_0_r.
  - by apply Z.mod_mod.
Qed.

Lemma wrap_add_l w x y : (0 ≤ w)%Z → wrap w (wrap w x + y) = wrap w (x + y).
Proof. intros. unfold wrap. apply Zplus_mod_idemp_l. Qed.

Lemma u64_is_u64 x : is_u64 (u64 x).
Proof. unfold is_u64, UINT64_MAX. pose proof (wrap_range 64 x). lia. Qed.

#[export] Hint Resolve u64_is_u64 : volley.
#[export] Hint Rewrite wrap_idemp : volley.

Lemma last_cons_default {A} (x d : A) (l : list A) : List.last (x :: l) d = List.last l x.
Proof.
  revert x d. induction l as [|y l IH]; intros x d; [done|].
  change (List.last (y :: l) d = List.last (y :: l) x). by rewrite !IH.
Qed.

(** ** List lemmas *)

Lemma filter_all {A} (P : A → Prop) `{!∀ x, Decision (P x)} (l : list A) :
  (∀ x, x ∈ l → P x) → filter P l = l.
Proof.
  induction l as [|x l IH]; intros Hl; [done|].
  rewrite filter_cons_True by (apply Hl; by left). f_equal. apply IH. intros y Hy. apply Hl. by right.
Qed.

Lemma filter_none {A} (P : A → Prop) `{!∀ x, Decision (P x)} (l : list A) :
  (∀ x, x ∈ l → ¬ P x) → filter P l = [].
Proof.
  induction l as [|x l IH]; intros Hl; [done|].
  rewrite filter_cons_False by (apply Hl; by left). apply IH. intros y Hy. apply Hl. by right.
Qed.
