(* ===== verification/CppString.v ===== *)
(** * [std::string] and the character functions the sources use

    A [std::string] is a [string] of bytes.  [find], [substr], the C-locale
    character classes and the [std::sto*] family are written out here once; the
    components call them under the names the sources use. *)

From S2P Require Import Prelude.

Local Open Scope string_scope.

#[global] Arguments String.append !_ _ / : simpl nomatch.

(** ** Slicing *)

Fixpoint stake (n : nat) (s : string) : string :=
  match n, s with
  | S n', String c s' => String c (stake n' s')
  | _, _ => ""
  end.

Fixpoint sdrop (n : nat) (s : string) : string :=
  match n, s with
  | S n', String _ s' => sdrop n' s'
  | O, _ => s
  | S _, "" => ""
  end.

(** [s.substr(pos, len)] for [pos <= s.size()] (the sources never pass more). *)
Definition substr (pos len : nat) (s : string) : string := stake len (sdrop pos s).

(** [s.substr(pos)]. *)
Definition substr_from (pos : nat) (s : string) : string := sdrop pos s.

(** ** Searching: [None] is [std::string::npos] *)

Fixpoint find_if (p : ascii → bool) (s : string) : option nat :=
  match s with
  | "" => None
  | String c s' => if p c then Some O else option_map S (find_if p s')
  end.

Definition find_char (c : ascii) : string → option nat := find_if (λ a, Ascii.eqb a c).

(** [s.find(c, pos)]. *)
Definition find_char_from (c : ascii) (pos : nat) (s : string) : option nat :=
  option_map (Nat.add pos) (find_char c (sdrop pos s)).

(** [s.find(p)] for a string [p]. *)
Fixpoint find_sub (p s : string) : option nat :=
  if String.prefix p s then Some O
  else match s with
       | "" => None
       | String _ s' => option_map S (find_sub p s')
       end.

Definition find_sub_from (p : string) (pos : nat) (s : string) : option nat :=
  option_map (Nat.add pos) (find_sub p (sdrop pos s)).

(** Length of the longest prefix of characters satisfying [p]: the index at
    which a [while (i < s.size() && p(s[i])) ++i;] loop started at 0 stops. *)
Fixpoint span_len (p : ascii → bool) (s : string) : nat :=
  match s with
  | String c s' => if p c then S (span_len p s') else O
  | "" => O
  end.

Fixpoint sforall (p : ascii → bool) (s : string) : bool :=
  match s with "" => true | String c s' => p c && sforall p s' end.

Fixpoint sfilter (p : ascii → bool) (s : string) : string :=
  match s with
  | "" => ""
  | String c s' => if p c then String c (sfilter p s') else sfilter p s'
  end.

Fixpoint smap (f : ascii → ascii) (s : string) : string :=
  match s with "" => "" | String c s' => String (f c) (smap f s') end.

Fixpoint last_char (s : string) : option ascii :=
  match s with
  | "" => None
  | String c "" => Some c
  | String _ s' => last_char s'
  end.

(** [i < s.size() && s[i] == c]. *)
Definition char_is (i : nat) (c : ascii) (s : string) : bool :=
  match sdrop i s with String a _ => Ascii.eqb a c | "" => false end.

Definition is_empty (s : string) : bool := match s with "" => true | _ => false end.

(** ** Character classes of the C locale *)

Definition code (c : ascii) : N := N_of_ascii c.

Definition in_range (lo hi : N) (c : ascii) : bool := (lo <=? code c)%N && (code c <=? hi)%N.

Definition isdigit : ascii → bool := in_range 48 57.
Definition isupper : ascii → bool := in_range 65 90.
Definition islower : ascii → bool := in_range 97 122.
Definition isalpha (c : ascii) : bool := isupper c || islower c.
Definition isalnum (c : ascii) : bool := isalpha c || isdigit c.
(** space, \t \n \v \f \r *)
Definition isspace (c : ascii) : bool := (code c =? 32)%N || in_range 9 13 c.

Definition tolower (c : ascii) : ascii :=
  if isupper c then ascii_of_N (code c + 32) else c.

Definition stolower (s : string) : string := smap tolower s.

(** ** [std::stoul], [std::stol], [std::stoll], [std::stoi]: base 10 *)

Inductive sto_result :=
  | StoOk (v : Z)
  | StoInvalid       (** [std::invalid_argument] *)
  | StoOutOfRange.   (** [std::out_of_range] *)

Definition digit_val (c : ascii) : Z := Z.of_N (code c) - 48.

Fixpoint digits_val (acc : Z) (s : string) : Z :=
  match s with
  | "" => acc
  | String c s' => digits_val (acc * 10 + digit_val c) s'
  end.

(** [strtol]'s scan: white space, an optional sign, the maximal run of digits;
    what follows the digits is ignored.  [(negative, magnitude)]. *)
Definition scan_int (s : string) : option (bool * Z) :=
  let s1 := sdrop (span_len isspace s) s in
  let '(neg, s2) := match s1 with
                    | String "-" r => (true, r)
                    | String "+" r => (false, r)
                    | _ => (false, s1)
                    end in
  let n := span_len isdigit s2 in
  if (n =? 0)%nat then None else Some (neg, digits_val 0 (stake n s2)).

Definition sto_signed (lo hi : Z) (s : string) : sto_result :=
  match scan_int s with
  | None => StoInvalid
  | Some (neg, m) =>
      let v := if neg then (- m)%Z else m in
      if (lo <=? v)%Z && (v <=? hi)%Z then StoOk v else StoOutOfRange
  end.

Definition stol : string → sto_result := sto_signed INT64_MIN INT64_MAX.
Definition stoll : string → sto_result := sto_signed INT64_MIN INT64_MAX.
Definition stoi : string → sto_result := sto_signed (- 2 ^ 31) (2 ^ 31 - 1).

(** [strtoul] negates a magnitude that follows a minus sign in the unsigned type. *)
Definition stoul (s : string) : sto_result :=
  match scan_int s with
  | None => StoInvalid
  | Some (neg, m) =>
      if (m <=? UINT64_MAX)%Z then StoOk (if neg then u64 (- m) else m)
      else StoOutOfRange
  end.

(** [std::to_string] of an unsigned integer. *)
Definition to_string (n : Z) : string := pretty n.

(** ** Lemmas *)

Lemma sapp_nil_r s : s +:+ "" = s.
Proof. induction s; simpl; congruence. Qed.

Lemma sapp_assoc a b c : (a +:+ b) +:+ c = a +:+ (b +:+ c).
Proof. induction a; simpl; congruence. Qed.

Lemma sapp_length a b : String.length (a +:+ b) = (String.length a + String.length b)%nat.
Proof. induction a; simpl; congruence. Qed.

Lemma stake_sdrop n s : stake n s +:+ sdrop n s = s.
Proof. revert s; induction n; destruct s; simpl; congruence. Qed.

Lemma stake_app a b : stake (String.length a) (a +:+ b) = a.
Proof. induction a; simpl; [by destruct b | congruence]. Qed.

Lemma sdrop_app a b : sdrop (String.length a) (a +:+ b) = b.
Proof. induction a; simpl; [by destruct b | done]. Qed.

Lemma sdrop_0 s : sdrop 0 s = s.
Proof. by destruct s. Qed.

Lemma sdrop_app_ge a b n : sdrop (String.length a + n) (a +:+ b) = sdrop n b.
Proof. induction a; simpl; auto. Qed.

Lemma stake_all s : stake (String.length s) s = s.
Proof. induction s; simpl; congruence. Qed.

Lemma sforall_app p a b : sforall p (a +:+ b) = sforall p a && sforall p b.
Proof. induction a as [|c a IH]; simpl; [done|]. by rewrite IH, andb_assoc. Qed.

Lemma sforall_stake p n s : sforall p s = true → sforall p (stake n s) = true.
Proof.
  intros H. rewrite <-(stake_sdrop n s), sforall_app in H. by reflect_bool.
Qed.

Lemma sforall_sdrop p n s : sforall p s = true → sforall p (sdrop n s) = true.
Proof.
  intros H. rewrite <-(stake_sdrop n s), sforall_app in H. by reflect_bool.
Qed.

Lemma sforall_impl (p q : ascii → bool) s :
  (∀ c, p c = true → q c = true) → sforall p s = true → sforall q s = true.
Proof.
  intros Hpq. induction s as [|c s IH]; simpl; intros H; [done|].
  reflect_bool. by rewrite Hpq, IH.
Qed.

Lemma sfilter_forall p s : sforall p (sfilter p s) = true.
Proof.
  induction s as [|c s IH]; simpl; [done|].
  destruct (p c) eqn:E; simpl; [by rewrite E | done].
Qed.

Lemma sfilter_id p s : sforall p s = true → sfilter p s = s.
Proof.
  induction s as [|c s IH]; simpl; intros H; [done|]. reflect_bool.
  rewrite H. f_equal. auto.
Qed.

(** Absence of a match. *)
Lemma find_if_None p s : find_if p s = None ↔ sforall (λ c, negb (p c)) s = true.
Proof.
  induction s as [|c s IH]; simpl; [done|]. destruct (p c); simpl; [done|].
  rewrite <-IH. destruct (find_if p s); simpl; split; congruence.
Qed.

Lemma find_if_Some p s i :
  find_if p s = Some i →
  ∃ c, s = stake i s +:+ String c (sdrop (S i) s) ∧ p c = true ∧ find_if p (stake i s) = None
       ∧ (i < String.length s)%nat.
Proof.
  revert i; induction s as [|c s IH]; simpl; intros i H; [done|].
  destruct (p c) eqn:E; simpl in H; simplify_eq.
  - exists c. simpl. repeat split; auto. lia.
  - destruct (find_if p s) as [j|] eqn:Ej; simpl in H; simplify_eq.
    destruct (IH j eq_refl) as (d & Hs & Hd & Hn & Hl).
    exists d. split; [| simpl; rewrite E, Hn; repeat split; auto; lia].
    change (stake (S j) (String c s)) with (String c (stake j s)).
    change (sdrop (S (S j)) (String c s)) with (sdrop (S j) s).
    simpl. by f_equal.
Qed.

Lemma find_if_app p a c b :
  sforall (λ x, negb (p x)) a = true → p c = true →
  find_if p (a +:+ String c b) = Some (String.length a).
Proof.
  induction a as [|d a IH]; simpl; intros Ha Hc; [by rewrite Hc|].
  reflect_bool. by rewrite H, IH.
Qed.

Lemma find_sub_None_char p c s :
  String.prefix p "" = false → (∀ t, String.prefix p t = true → ∃ r, t = String c r) →
  find_char c s = None → find_sub p s = None.
Proof.
  intros Hp Hpre.
  induction s as [|a s IH]; intros H; cbn [find_sub]; [by rewrite Hp|].
  destruct (String.prefix p (String a s)) eqn:E.
  - destruct (Hpre _ E) as [r Hr]. simplify_eq. unfold find_char in H; simpl in H.
    by rewrite Ascii.eqb_refl in H.
  - unfold find_char in H; simpl in H. destruct (Ascii.eqb a c); [done|].
    unfold find_char in IH. destruct (find_if _ s); [done|]. by rewrite IH.
Qed.

Lemma prefix_app p s : String.prefix p (p +:+ s) = true.
Proof.
  induction p as [|c p IH]; simpl; [by destruct s|].
  destruct (ascii_dec c c); [done | congruence].
Qed.

(** [s] contains no character [c]. *)
Definition lacks (c : ascii) (s : string) : bool := sforall (λ a, negb (Ascii.eqb a c)) s.

Lemma lacks_app c a b : lacks c (a +:+ b) = lacks c a && lacks c b.
Proof. apply sforall_app. Qed.

Lemma find_char_None c s : find_char c s = None ↔ lacks c s = true.
Proof. apply find_if_None. Qed.

Lemma find_char_app c a b :
  lacks c a = true → find_char c (a +:+ String c b) = Some (String.length a).
Proof. intros. by apply find_if_app; [|apply Ascii.eqb_refl]. Qed.

Lemma find_char_Some c s i :
  find_char c s = Some i →
  s = stake i s +:+ String c (sdrop (S i) s) ∧ lacks c (stake i s) = true ∧ (i < String.length s)%nat.
Proof.
  intros (d & Hs & Hd & Hn & Hl)%find_if_Some. reflect_char. subst d.
  split; [done|]. split; [|done]. by apply find_if_None.
Qed.

Lemma find_sub_app_char c p a b :
  lacks c a = true → find_sub (String c p) (a +:+ String c (p +:+ b)) = Some (String.length a).
Proof.
  induction a as [|d a IH]; intros Ha.
  - simpl. destruct (ascii_dec c c); [|congruence]. by rewrite prefix_app.
  - unfold lacks in Ha. simpl in Ha. reflect_char.
    change (find_sub (String c p) (String d (a +:+ String c (p +:+ b))) = Some (S (String.length a))).
    cbn [find_sub String.prefix].
    destruct (ascii_dec c d); [congruence|]. by rewrite IH.
Qed.

Lemma is_empty_spec s : is_empty s = true ↔ s = "".
Proof. by destruct s. Qed.

#[export] Hint Rewrite sapp_nil_r sapp_assoc sapp_length stake_app sdrop_app sdrop_0
  sforall_app : volley.
#[export] Hint Resolve sforall_stake sforall_sdrop sfilter_forall : volley.

(** ** Decimal printing *)

Lemma pretty_N_char_digit n : isdigit (pretty_N_char (n `mod` 10)) = true.
Proof.
  assert (Hlt : (n `mod` 10 < 10)%N) by (apply N.mod_lt; lia).
  destruct (n `mod` 10)%N as [|p]; [done|].
  do 4 (destruct p as [p|p|]; [..|done]); lia || done.
Qed.

Lemma pretty_N_go_digits x s : sforall isdigit s = true → sforall isdigit (pretty_N_go x s) = true.
Proof.
  revert s. induction x as [x IH] using (well_founded_induction N.lt_wf_0); intros s Hs.
  destruct (decide (0 < x)%N) as [Hx|Hx].
  - rewrite pretty_N_go_step by done. apply IH; [by apply N.div_lt|].
    simpl. by rewrite pretty_N_char_digit.
  - replace x with 0%N by lia. by rewrite pretty_N_go_0.
Qed.

Lemma to_string_digits n : (0 ≤ n)%Z → sforall isdigit (to_string n) = true.
Proof.
  intros Hn. unfold to_string. destruct n as [|p|p]; [done| |lia].
  change (sforall isdigit (pretty (N.pos p)) = true). unfold pretty, pretty_N.
  destruct (decide _); [done|]. by apply pretty_N_go_digits.
Qed.

Lemma digits_lack c s : isdigit c = false → sforall isdigit s = true → lacks c s = true.
Proof.
  intros Hc. induction s as [|a s IH]; [done|]. unfold lacks. simpl. intros H. reflect_bool.
  fold (lacks c s). rewrite (IH H0), andb_true_r.
  apply negb_true_iff, Ascii.eqb_neq. intros ->. congruence.
Qed.

(** The last occurrence of a separator splits uniquely. *)
Lemma last_split_inj c a b s t :
  lacks c s = true → lacks c t = true → a +:+ String c s = b +:+ String c t → a = b ∧ s = t.
Proof.
  intros Hs Ht. revert b. induction a as [|x a IH]; intros [|y b] E; simplify_eq/=.
  - done.
  - rewrite lacks_app in Hs. unfold lacks at 2 in Hs. simpl in Hs.
    rewrite Ascii.eqb_refl, andb_false_r in Hs. done.
  - rewrite lacks_app in Ht. unfold lacks at 2 in Ht. simpl in Ht.
    rewrite Ascii.eqb_refl, andb_false_r in Ht. done.
  - by destruct (IH b) as [-> ->].
Qed.

Lemma pretty_N_char_val n : digit_val (pretty_N_char (n `mod` 10)) = Z.of_N (n `mod` 10).
Proof.
  assert (Hlt : (n `mod` 10 < 10)%N) by (apply N.mod_lt; lia).
  destruct (n `mod` 10)%N as [|p]; [done|].
  do 4 (destruct p as [p|p|]; [..|done]); lia || done.
Qed.

Lemma digits_val_pretty x s : digits_val 0 (pretty_N_go x s) = digits_val (Z.of_N x) s.
Proof.
  revert s. induction x as [x IH] using (well_founded_induction N.lt_wf_0); intros s.
  destruct (decide (0 < x)%N) as [Hx|Hx].
  - rewrite pretty_N_go_step by done. rewrite IH by (by apply N.div_lt). cbn [digits_val].
    rewrite pretty_N_char_val. f_equal. pose proof (N.div_mod x 10). lia.
  - replace x with 0%N by lia. done.
Qed.

(** Reading back a printed number. *)
Lemma digits_val_to_string n : (0 ≤ n)%Z → digits_val 0 (to_string n) = n.
Proof.
  intros Hn. unfold to_string. destruct n as [|p|p]; [done| |lia].
  change (digits_val 0 (pretty (N.pos p)) = Z.pos p). unfold pretty, pretty_N.
  destruct (decide _); [done|]. by rewrite digits_val_pretty.
Qed.

Lemma to_string_nonempty n : (0 ≤ n)%Z → is_empty (to_string n) = false.
Proof.
  intros Hn. destruct (to_string n) eqn:E; [|done].
  assert (H : to_string n = to_string 0 → n = 0%Z) by (by intros ?%(inj pretty)).
  pose proof (digits_val_to_string n Hn) as Hd. rewrite E in Hd. simpl in Hd. by subst n.
Qed.

Lemma span_len_all p s : sforall p s = true → span_len p s = String.length s.
Proof. induction s as [|c s IH]; simpl; [done|]. intros H. reflect_bool. by rewrite H, IH. Qed.

Lemma span_len_app p s c t :
  sforall p s = true → p c = false → span_len p (s +:+ String c t) = String.length s.
Proof.
  intros Hs Hc. induction s as [|a s IH]; simpl in *; [by rewrite Hc|].
  apply andb_prop in Hs as [-> Hs]. by rewrite IH.
Qed.

Lemma sdrop_all s : sdrop (String.length s) s = "".
Proof. induction s; simpl; done. Qed.

(** A digit is none of the other characters the scanners look for. *)
Lemma isdigit_not c d : isdigit c = true → isdigit d = false → Ascii.eqb c d = false.
Proof. intros Hc Hd. apply Ascii.eqb_neq. intros ->. congruence. Qed.

Lemma isdigit_not_space c : isdigit c = true → isspace c = false.
Proof.
  unfold isdigit, isspace, in_range. intros H. apply andb_prop in H as [H1 H2].
  apply N.leb_le in H1, H2. destruct (code c =? 32)%N eqn:E1; [apply N.eqb_eq in E1; lia|].
  destruct (9 <=? code c)%N, (code c <=? 13)%N eqn:E3; try done. apply N.leb_le in E3. lia.
Qed.

Lemma isdigit_tolower c : isdigit c = true → tolower c = c.
Proof.
  unfold isdigit, tolower, isupper, in_range. intros H. apply andb_prop in H as [H1 H2].
  apply N.leb_le in H1, H2. destruct (65 <=? code c)%N eqn:E; [apply N.leb_le in E; lia|done].
Qed.

(** Digits alone scan as their value. *)
Lemma scan_int_digits s : sforall isdigit s = true → is_empty s = false → scan_int s = Some (false, digits_val 0 s).
Proof.
  intros Hd He. destruct s as [|c s]; [done|].
  assert (Hc : isdigit c = true) by (cbn [sforall] in Hd; by apply andb_prop in Hd as [? _]).
  unfold scan_int. cbn [span_len]. rewrite isdigit_not_space by done. cbn [sdrop].
  assert (Hsign : match String c s with
    | String "-" r => (true, r) | String "+" r => (false, r) | _ => (false, String c s) end
    = (false, String c s)).
  { clear -Hc. destruct c as [[] [] [] [] [] [] [] []]; done. }
  rewrite Hsign, span_len_all, stake_all by done. done.
Qed.

Lemma scan_int_to_string n : (0 ≤ n)%Z → scan_int (to_string n) = Some (false, n).
Proof.
  intros Hn. rewrite scan_int_digits, digits_val_to_string; [done|done|by apply to_string_digits|by apply to_string_nonempty].
Qed.

Lemma stoul_digits s : sforall isdigit s = true → is_empty s = false →
  stoul s = if (digits_val 0 s <=? UINT64_MAX)%Z then StoOk (digits_val 0 s) else StoOutOfRange.
Proof. intros Hd He. unfold stoul. by rewrite scan_int_digits. Qed.
