(* ===== verification/Result.v ===== *)
(** * Results and error codes

    [include/cppload/result.hpp] and [include/cppload/error.hpp]: the two-armed
    [Result] the fallible parts return, its combinators, and the error enumeration
    with its category. *)

From S2P Require Import Prelude.

Local Open Scope Z_scope.

(** [src/include/cppload/result.hpp:12-38] Result *)
Inductive Result (T E : Type) := Ok (value : T) | Error (error : E).
Arguments Ok {T E} value.
Arguments Error {T E} error.

(** [src/include/cppload/result.hpp:29-30] Result::has_value *)
Definition has_value {T E} (r : Result T E) : bool := match r with Ok _ => true | Error _ => false end.

(** [src/include/cppload/result.hpp:40-46] Result::value_or *)
Definition value_or {T E} (d : T) (r : Result T E) : T := match r with Ok x => x | Error _ => d end.

(** [src/include/cppload/result.hpp:48-58] Result::map *)
Definition result_map {T U E} (f : T → U) (r : Result T E) : Result U E :=
  match r with Ok x => Ok (f x) | Error e => Error e end.

(** [src/include/cppload/result.hpp:60-72] Result::and_then *)
Definition and_then {T U E} (r : Result T E) (f : T → Result U E) : Result U E :=
  match r with Ok x => f x | Error e => Error e end.

(** [src/include/cppload/result.hpp:74-94] Result::or_else *)
Definition or_else {T E} (r : Result T E) (f : E → Result T E) : Result T E :=
  match r with Ok x => Ok x | Error e => f e end.

(** [src/include/cppload/result.hpp:96-106] Result::transform_error *)
Definition transform_error {T E F} (f : E → F) (r : Result T E) : Result T F :=
  match r with Ok x => Ok x | Error e => Error (f e) end.

(** [Result<void, E>]: nothing, or an error. *)
(** [src/include/cppload/result.hpp:122-136] Result *)
Inductive VoidResult (E : Type) := VoidOk | VoidErr (error : E).
Arguments VoidOk {E}.
Arguments VoidErr {E} error.

(** [src/include/cppload/result.hpp:138-139] Result::has_value *)
Definition void_has_value {E} (r : VoidResult E) : bool := match r with VoidOk => true | VoidErr _ => false end.

(** [None]: the assertion fails. *)
(** [src/include/cppload/result.hpp:141-143] Result::error *)
Definition void_error {E} (r : VoidResult E) : option E := match r with VoidOk => None | VoidErr e => Some e end.

(** [f] is called for its effect, on a state. *)
(** [src/include/cppload/result.hpp:145-153] Result::or_else *)
Definition void_or_else {E S} (r : VoidResult E) (f : E → S → S) (s : S) : S :=
  match r with VoidOk => s | VoidErr e => f e s end.

(** [src/include/cppload/result.hpp:155-165] Result::transform_error *)
Definition void_transform_error {E F} (f : E → F) (r : VoidResult E) : VoidResult F :=
  match r with VoidOk => VoidOk | VoidErr e => VoidErr (f e) end.

(** The specialisation behaves as a [Result] whose value says nothing. *)
Definition void_result {E} (r : VoidResult E) : Result unit E := match r with VoidOk => Ok tt | VoidErr e => Error e end.

Lemma void_result_agrees {E F} (f : E → F) (r : VoidResult E) :
  void_has_value r = has_value (void_result r)
  ∧ void_result (void_transform_error f r) = transform_error f (void_result r).
Proof. by destruct r. Qed.

Notation "'let*' x := m 'in' k" := (and_then m (λ x, k))
  (at level 10, x name, m at level 100, k at level 200) : cpp_scope.

(** Run a fallible function over a list from the left, stopping at the first error. *)
Fixpoint result_mapM {T U E} (f : T → Result U E) (l : list T) : Result (list U) E :=
  match l with
  | [] => Ok []
  | x :: l => and_then (f x) (λ y, and_then (result_mapM f l) (λ ys, Ok (y :: ys)))
  end.

(** ** Error codes *)

(** [src/include/cppload/error.hpp:11-44] Err *)
Inductive Err :=
  | E_success | E_invalid_method | E_invalid_target | E_dns_failure
  | E_connection_refused | E_connection_reset | E_connection_timeout | E_read_error
  | E_write_error | E_tls_handshake_failed | E_tls_verify_failed | E_protocol_violation
  | E_invalid_response | E_operation_cancelled | E_timeout | E_invalid_config
  | E_parse_error | E_auth_failed | E_not_implemented | E_unknown
  | E_vault_not_found | E_vault_permission_denied | E_vault_token_invalid | E_vault_server_error
  | E_vault_unreachable | E_auth_token_expired | E_auth_invalid_grant | E_auth_invalid_client
  | E_auth_server_error | E_auth_parse_error.

#[global] Instance err_eq_dec : EqDecision Err.
Proof. solve_decision. Defined.

Definition all_errors : list Err :=
  [ E_success; E_invalid_method; E_invalid_target; E_dns_failure;
    E_connection_refused; E_connection_reset; E_connection_timeout; E_read_error;
    E_write_error; E_tls_handshake_failed; E_tls_verify_failed; E_protocol_violation;
    E_invalid_response; E_operation_cancelled; E_timeout; E_invalid_config;
    E_parse_error; E_auth_failed; E_not_implemented; E_unknown;
    E_vault_not_found; E_vault_permission_denied; E_vault_token_invalid; E_vault_server_error;
    E_vault_unreachable; E_auth_token_expired; E_auth_invalid_grant; E_auth_invalid_client;
    E_auth_server_error; E_auth_parse_error ].

(** The enumerators are numbered from 0 in the order of their declaration. *)
(** [src/include/cppload/error.hpp:46-57] Err *)
Definition err_code (e : Err) : nat :=
  default 0%nat (fst <$> list_find (e =.) all_errors).

(** [src/include/cppload/error.hpp:65-99] ErrCategory::message *)
Definition err_message (ev : nat) : string :=
  match all_errors !! ev with
  | None => "unrecognized error"
  | Some E_success => "success"
  | Some E_invalid_method => "invalid HTTP method"
  | Some E_invalid_target => "invalid request target"
  | Some E_dns_failure => "DNS resolution failed"
  | Some E_connection_refused => "connection refused"
  | Some E_connection_reset => "connection reset"
  | Some E_connection_timeout => "connection timeout"
  | Some E_read_error => "read error"
  | Some E_write_error => "write error"
  | Some E_tls_handshake_failed => "TLS handshake failed"
  | Some E_tls_verify_failed => "TLS certificate verification failed"
  | Some E_protocol_violation => "protocol violation"
  | Some E_invalid_response => "invalid response"
  | Some E_operation_cancelled => "operation cancelled"
  | Some E_timeout => "timeout"
  | Some E_invalid_config => "invalid configuration"
  | Some E_parse_error => "parse error"
  | Some E_auth_failed => "authentication failed"
  | Some E_not_implemented => "not implemented"
  | Some E_unknown => "unknown error"
  | Some E_vault_not_found => "vault: secret not found"
  | Some E_vault_permission_denied => "vault: permission denied"
  | Some E_vault_token_invalid => "vault: invalid token"
  | Some E_vault_server_error => "vault: server error"
  | Some E_vault_unreachable => "vault: server unreachable"
  | Some E_auth_token_expired => "auth: token expired"
  | Some E_auth_invalid_grant => "auth: invalid grant"
  | Some E_auth_invalid_client => "auth: invalid client"
  | Some E_auth_server_error => "auth: server error"
  | Some E_auth_parse_error => "auth: response parse error"
  end.

Lemma err_code_lookup e : all_errors !! err_code e = Some e.
Proof. by destruct e. Qed.

Lemma err_messages_NoDup : NoDup (err_message <$> seq 0 31).
Proof. apply (bool_decide_unpack _). vm_compute. exact I. Qed.

Lemma err_message_inj i j :
  (i < 31)%nat → (j < 31)%nat → err_message i = err_message j → i = j.
Proof.
  intros Hi Hj E. apply (NoDup_lookup _ i j (err_message i) err_messages_NoDup);
    apply list_lookup_fmap_Some; [exists i | exists j]; split; try done;
    apply lookup_seq; lia.
Qed.

Lemma err_code_lt e : (err_code e < 30)%nat.
Proof. pose proof (lookup_lt_Some _ _ _ (err_code_lookup e)). done. Qed.

(** Error codes are the pinned numbers, distinct, and each has a message of its
    own (none of them the fallback), so a code or a message identifies the error. *)
Theorem err_codes_distinct (e1 e2 : Err) :
  all_errors !! err_code e1 = Some e1
  ∧ (err_code e1 = err_code e2 → e1 = e2)
  ∧ (err_message (err_code e1) = err_message (err_code e2) → e1 = e2)
  ∧ err_message (err_code e1) ≠ "unrecognized error"
  ∧ err_code E_success = 0%nat ∧ err_code E_timeout = 14%nat ∧ err_code E_invalid_config = 15%nat
  ∧ err_code E_vault_not_found = 20%nat ∧ err_code E_auth_parse_error = 29%nat.
Proof.
  assert (Hc : err_code e1 = err_code e2 → e1 = e2).
  { intros E. pose proof (err_code_lookup e1) as H1. rewrite E, err_code_lookup in H1. congruence. }
  pose proof (err_code_lt e1). pose proof (err_code_lt e2).
  split_and!; [apply err_code_lookup|done| | |done..].
  - intros E. apply Hc, err_message_inj; [lia..|done].
  - intros E. change "unrecognized error" with (err_message 30) in E.
    apply err_message_inj in E; lia.
Qed.

(** ** [std::error_code]

    A number with the category it belongs to; the default is 0 of the system's category. *)
Inductive Category := SystemCategory | CpploadCategory.

#[global] Instance Category_eq_dec : EqDecision Category.
Proof. solve_decision. Defined.

Record StdErrorCode := mkErrorCode { ec_value : nat; ec_category : Category }.

#[global] Instance StdErrorCode_eq_dec : EqDecision StdErrorCode.
Proof. solve_decision. Defined.

Definition no_error_code : StdErrorCode := mkErrorCode 0 SystemCategory.

(** There is one category object in the process, so that codes made anywhere compare. *)
(** [src/core/error.cpp:6-9] err_category *)
Definition err_category : Category := CpploadCategory.

(** [src/include/cppload/error.hpp:59-63] ErrCategory::name *)
Definition category_name (c : Category) : string :=
  match c with CpploadCategory => "cppload" | SystemCategory => "system" end.

(** [src/include/cppload/error.hpp:108-110] make_error_code *)
Definition make_error_code (e : Err) : StdErrorCode := mkErrorCode (err_code e) err_category.

(** The conversion to [bool] that [if (ec)] makes. *)
Definition ec_bool (c : StdErrorCode) : bool := negb (ec_value c =? 0)%nat.

(** The error code of a response is modelled as an [option Err]: [None] is the default. *)
Definition to_error_code (o : option Err) : StdErrorCode :=
  match o with Some e => make_error_code e | None => no_error_code end.

(** That loses nothing: codes are equal exactly when the options are, a code converts to
    [true] exactly if it stands for an error other than [success], and its message is the
    one of its error. *)
Theorem error_code_faithful (o o' : option Err) :
  (to_error_code o = to_error_code o' ↔ o = o')
  ∧ (ec_bool (to_error_code o) = true ↔ ∃ e, o = Some e ∧ e ≠ E_success)
  ∧ (∀ e, o = Some e → category_name (ec_category (to_error_code o)) = "cppload"
       ∧ all_errors !! ec_value (to_error_code o) = Some e).
Proof.
  split_and!.
  - split; [|by intros ->]. destruct o as [e|], o' as [e'|]; cbn; try done. unfold make_error_code.
    intros [= E]. f_equal.
    pose proof (err_code_lookup e) as H. rewrite E, err_code_lookup in H. congruence.
  - destruct o as [e|]; cbn.
    + split; [intros H; exists e; split; [done|by intros ->]|]. intros (e' & [= <-] & Hne). by destruct e.
    + split; [done|]. by intros (e & ? & _).
  - intros e ->. split; [done|apply err_code_lookup].
Qed.
