(* ===== verification/Url.v ===== *)
(** * URLs, request targets and path sanitising

    [include/cppload/core/url_parse.hpp], [include/cppload/core/url_encode.hpp],
    [include/cppload/net/utils.hpp] and the helpers at the top of
    [core/net/http_client.cpp].  Every entry point that turns a configured URL
    into a host, a port and a request target goes through these functions. *)

From S2P Require Import Prelude CppString.

Local Open Scope string_scope.

(** ** [parse_url] *)

(** [src/include/cppload/core/url_parse.hpp:8-13] UrlParts *)
Record UrlParts := mkUrlParts {
  url_host : string;
  url_port : string;
  url_path : string;
  url_tls : bool
}.

Definition is_tls_scheme (scheme : string) : bool :=
  (scheme =? "https") || (scheme =? "wss").

(** [host_port] split into host and port: the bracketed form keeps the literal
    without its brackets. *)
(** [src/include/cppload/core/url_parse.hpp:33-57] parse_url *)
Definition split_host_port (host_port default_port : string) : string * string :=
  if (1 <? String.length host_port)%nat && char_is 0 "[" host_port then
    match find_char "]" host_port with
    | Some close =>
        (substr 1 (close - 1) host_port,
         if char_is (close + 1) ":" host_port then substr_from (close + 2) host_port
         else default_port)
    | None => (host_port, default_port)
    end
  else
    match find_char ":" host_port with
    | Some colon => (substr 0 colon host_port, substr_from (colon + 1) host_port)
    | None => (host_port, default_port)
    end.

(** [src/include/cppload/core/url_parse.hpp:15-59] parse_url *)
Definition parse_url (url : string) : UrlParts :=
  let proto_end := find_sub "://" url in
  let start := match proto_end with Some i => i + 3 | None => 0 end%nat in
  let tls := match proto_end with
             | Some i => is_tls_scheme (substr 0 i url)
             | None => false
             end in
  let default_port := if tls then "443" else "80" in
  let path_start := find_char_from "/" start url in
  let path := match path_start with Some i => substr_from i url | None => "/" end in
  let host_port := match path_start with
                   | Some i => substr start (i - start) url
                   | None => substr_from start url
                   end in
  let '(host, port) := split_host_port host_port default_port in
  mkUrlParts host port path tls.

(** ** [sanitize_path] *)

Definition path_char (c : ascii) : bool :=
  Ascii.eqb c "/" || Ascii.eqb c "-" || Ascii.eqb c "_" || Ascii.eqb c "." || Ascii.eqb c "~"
  || islower c || isupper c || isdigit c.

(** The segment loop; [rest] is [result.substr(pos)].  Each round consumes one
    ['/'], so [String.length rest + 1] rounds are enough. *)
(** [src/include/cppload/core/url_parse.hpp:79-90] sanitize_path *)
Fixpoint drop_dot_segments (fuel : nat) (rest : string) : string :=
  match fuel with
  | O => ""
  | S fuel' =>
      let slash := find_char "/" rest in
      let seg := match slash with Some i => substr 0 i rest | None => rest end in
      let emitted := if (seg =? ".") || (seg =? "..") then ""
                     else seg +:+ match slash with Some _ => "/" | None => "" end in
      match slash with
      | None => emitted
      | Some i => emitted +:+ drop_dot_segments fuel' (substr_from (i + 1) rest)
      end
  end.

(** [src/include/cppload/core/url_parse.hpp:61-92] sanitize_path *)
Definition sanitize_path (path : string) : string :=
  let result := sfilter path_char path in
  match find_char "." result with
  | None => result
  | Some _ => drop_dot_segments (S (String.length result)) result
  end.

(** ** Percent encoding *)

(** [src/include/cppload/core/url_encode.hpp:11-11] url_encode *)
Definition hex_digit (n : N) : ascii :=
  if (n <? 10)%N then ascii_of_N (48 + n) else ascii_of_N (55 + n).

Definition percent (c : ascii) : string :=
  String "%" (String (hex_digit (N.shiftr (code c) 4))
                     (String (hex_digit (N.land (code c) 15)) "")).

Fixpoint encode_with (keep : ascii → bool) (s : string) : string :=
  match s with
  | "" => ""
  | String c s' => (if keep c then String c "" else percent c) +:+ encode_with keep s'
  end.

Definition unreserved (c : ascii) : bool :=
  isalnum c || Ascii.eqb c "-" || Ascii.eqb c "_" || Ascii.eqb c "." || Ascii.eqb c "~".

(** [src/include/cppload/core/url_encode.hpp:10-23] url_encode *)
Definition url_encode (value : string) : string := encode_with unreserved value.

Definition path_unreserved (c : ascii) : bool :=
  isalnum c || match find_char c "/@!$&'()*+,;=:?._-" with Some _ => true | None => false end.

(** [src/core/net/http_client.cpp:24-40] url_encode_path *)
Definition url_encode_path (raw : string) : string := encode_with path_unreserved raw.

(** The request target of [build_request]: CR and LF are erased, the rest is
    percent-encoded. *)
(** [src/core/net/http_client.cpp:140-144] Http11Client::Impl::build_request *)
Definition request_target (path : string) : string :=
  url_encode_path (sfilter (λ c, negb (Ascii.eqb c "013" || Ascii.eqb c "010")) path).

(** ** Host helpers *)

(** [src/include/cppload/net/utils.hpp:8-15] host_is_ip_literal *)
Definition host_is_ip_literal (host : string) : bool :=
  match find_char ":" host with
  | Some _ => true
  | None => negb (is_empty host) && sforall (λ c, Ascii.eqb c "." || isdigit c) host
  end.

(** [src/core/net/http_client.cpp:52-63] format_host_header *)
Definition format_host_header (host : string) (port : Z) (use_tls : bool) : string :=
  let h := match find_char ":" host with
           | Some _ => "[" +:+ host +:+ "]"
           | None => host
           end in
  let default_port := (if use_tls then 443 else 80)%Z in
  if (port =? default_port)%Z then h else h +:+ ":" +:+ to_string port.

(** ** Round trip of [parse_url] *)

(** A URL by its parts, and its text. *)
Record UrlSpec := mkUrlSpec {
  u_scheme : option string;
  u_bracketed : bool;
  u_host : string;
  u_port : option string;
  u_path : string
}.

Definition authority (u : UrlSpec) : string :=
  (if u_bracketed u then "[" +:+ u_host u +:+ "]" else u_host u)
  +:+ match u_port u with Some p => ":" +:+ p | None => "" end.

Definition print_url (u : UrlSpec) : string :=
  match u_scheme u with Some s => s +:+ "://" | None => "" end +:+ authority u +:+ u_path u.

(** Which URLs the grammar of [parse_url] reads unambiguously. *)
Definition wf_url (u : UrlSpec) : bool :=
  match u_scheme u with
  | Some s => lacks ":" s
  | None => match find_sub "://" (authority u +:+ u_path u) with None => true | Some _ => false end
  end
  && lacks "/" (u_host u)
  && (if u_bracketed u then lacks "]" (u_host u)
      else lacks ":" (u_host u) && negb (char_is 0 "[" (u_host u)))
  && match u_port u with Some p => lacks "/" p | None => true end
  && (is_empty (u_path u) || char_is 0 "/" (u_path u)).

Definition expected_parts (u : UrlSpec) : UrlParts :=
  let tls := match u_scheme u with Some s => is_tls_scheme s | None => false end in
  mkUrlParts (u_host u)
    (match u_port u with Some p => p | None => if tls then "443" else "80" end)
    (if is_empty (u_path u) then "/" else u_path u)
    tls.

Lemma char_is_0_app c a b : a ≠ "" → char_is 0 c (a +:+ b) = char_is 0 c a.
Proof. by destruct a. Qed.

Lemma split_host_port_print u dflt :
  wf_url u = true →
  split_host_port (authority u) dflt
  = (u_host u, match u_port u with Some p => p | None => dflt end).
Proof.
  destruct u as [sch br host port path]. unfold wf_url, authority, split_host_port.
  cbn [u_scheme u_bracketed u_host u_port u_path].
  intros H. reflect_bool. clear H H0 H1 H3. destruct br.
  - set (tail := match port with Some p => ":" +:+ p | None => "" end).
    assert (Hsz : (1 <? String.length (("[" +:+ host +:+ "]") +:+ tail))%nat = true).
    { apply Nat.ltb_lt. rewrite !sapp_length. simpl. lia. }
    rewrite Hsz. rewrite !sapp_assoc. simpl.
    assert (Hf : find_char "]" (String "[" (host +:+ String "]" tail)) = Some (S (String.length host))).
    { apply (find_char_app "]" (String "[" host)). by unfold lacks in *. }
    simpl in *. rewrite Hf. unfold substr, substr_from. simpl.
    rewrite Nat.sub_0_r, stake_app. unfold char_is. simpl.
    f_equal. rewrite !sdrop_app_ge. simpl. by destruct port.
  - reflect_bool.
    assert (Hb : char_is 0 "[" (host +:+ match port with Some p => ":" +:+ p | None => "" end) = false).
    { destruct host as [|c h]; [by destruct port|]. by rewrite char_is_0_app. }
    rewrite Hb, andb_false_r. destruct port as [p|]; simpl.
    + rewrite find_char_app by done. unfold substr, substr_from.
      by rewrite sdrop_0, stake_app, sdrop_app_ge.
    + rewrite sapp_nil_r. by rewrite (proj2 (find_char_None ":" host)).
Qed.

Lemma find_slash_after_authority u :
  wf_url u = true →
  find_char "/" (authority u +:+ u_path u)
  = (if is_empty (u_path u) then None else Some (String.length (authority u))).
Proof.
  intros H. assert (Ha : lacks "/" (authority u) = true).
  { destruct u as [sch br host port path]. unfold wf_url, authority in *; simpl in *.
    reflect_bool. rewrite lacks_app. apply andb_true_intro; split.
    - destruct br; [|done]. unfold lacks in *. simpl. by rewrite sforall_app, H3.
    - by destruct port. }
  assert (Hp : is_empty (u_path u) || char_is 0 "/" (u_path u) = true).
  { unfold wf_url in H. by apply andb_prop in H as [_ ?]. }
  destruct (u_path u) as [|c r]; simpl in *.
  - rewrite sapp_nil_r. by apply find_char_None.
  - unfold char_is in Hp. simpl in Hp. reflect_char. subst c. by apply find_char_app.
Qed.

Lemma parse_url_expected (u : UrlSpec) :
  wf_url u = true → parse_url (print_url u) = expected_parts u.
Proof.
  intros Hwf. pose proof (find_slash_after_authority u Hwf) as Hsl.
  pose proof (split_host_port_print u) as Hsp.
  unfold parse_url, print_url, expected_parts, find_char_from, substr, substr_from.
  destruct (u_scheme u) as [s|] eqn:Es.
  - assert (Hs : lacks ":" s = true) by (unfold wf_url in Hwf; rewrite Es in Hwf; by reflect_bool).
    rewrite sapp_assoc. change ("://" +:+ authority u +:+ u_path u)
      with (String ":" ("//" +:+ (authority u +:+ u_path u))).
    rewrite find_sub_app_char by done. rewrite sdrop_app_ge. cbn [sdrop String.append].
    rewrite Hsl, stake_app. destruct (is_empty (u_path u)) eqn:Ep; cbn [option_map].
    + apply is_empty_spec in Ep. by rewrite Ep, sapp_nil_r, Hsp.
    + rewrite <-Nat.add_assoc, !sdrop_app_ge. cbn [sdrop String.append Nat.add].
      rewrite sdrop_app. replace (_ - _)%nat with (String.length (authority u)) by lia.
      by rewrite stake_app, Hsp.
  - assert (Hn : find_sub "://" (authority u +:+ u_path u) = None).
    { unfold wf_url in Hwf. rewrite Es in Hwf. reflect_bool. by destruct (find_sub _ _). }
    cbn [String.append]. rewrite Hn. cbn [sdrop]. rewrite Hsl.
    destruct (is_empty (u_path u)) eqn:Ep; cbn [option_map Nat.add].
    + apply is_empty_spec in Ep. by rewrite Ep, sapp_nil_r, Hsp.
    + by rewrite Nat.sub_0_r, sdrop_app, stake_app, Hsp.
Qed.

(** C37.  [parse_url] inverts the printing of every well-formed URL: with or
    without a scheme, a bracketed IPv6 literal, a port and a path, the parts come
    back; the port defaults to 443 exactly for [https]/[wss] and to 80 otherwise,
    an absent path to ["/"]. *)
Theorem parse_url_print_url (u : UrlSpec) :
  wf_url u = true → parse_url (print_url u) = expected_parts u.
Proof. apply parse_url_expected. Qed.

Lemma parse_url_print_url_witness :
  parse_url (print_url (mkUrlSpec (Some "wss") true "::1" (Some "8443") "/live"))
  = mkUrlParts "::1" "8443" "/live" true.
Proof.
  apply (parse_url_print_url (mkUrlSpec (Some "wss") true "::1" (Some "8443") "/live")).
  vm_compute. reflexivity.
Defined.

(** ** Path sanitising *)

(** The ['/']-separated segments of a path. *)
Fixpoint segments (s : string) : list string :=
  match s with
  | "" => [""]
  | String c s' =>
      if Ascii.eqb c "/" then "" :: segments s'
      else match segments s' with
           | [] => [String c ""]
           | x :: xs => String c x :: xs
           end
  end.

Definition is_dot_segment (seg : string) : bool := (seg =? ".") || (seg =? "..").

Definition traversal_free (s : string) : Prop :=
  Forall (λ seg, is_dot_segment seg = false) (segments s).

Lemma segments_app_slash a b :
  lacks "/" a = true → segments (a +:+ String "/" b) = a :: segments b.
Proof.
  induction a as [|c a IH]; simpl; intros H; [done|].
  unfold lacks in H. simpl in H. reflect_bool.
  rewrite H. by rewrite IH.
Qed.

Lemma segments_lacks a : lacks "/" a = true → segments a = [a].
Proof.
  induction a as [|c a IH]; intros H; [done|].
  unfold lacks in H. simpl in H. reflect_bool. simpl. by rewrite H, IH.
Qed.

Lemma drop_dot_segments_traversal_free fuel s :
  traversal_free (drop_dot_segments fuel s).
Proof.
  revert s; induction fuel as [|fuel IH]; intros s; simpl; [by repeat constructor|].
  destruct (find_char "/" s) as [i|] eqn:Ef.
  - apply find_char_Some in Ef as (_ & Hl & _). unfold substr. rewrite sdrop_0.
    fold (is_dot_segment (stake i s)).
    destruct (is_dot_segment (stake i s)) eqn:Ed; [apply IH|].
    rewrite sapp_assoc. unfold traversal_free.
    change ("/" +:+ ?r) with (String "/" r). rewrite segments_app_slash by done.
    constructor; [done | apply IH].
  - apply find_char_None in Ef. fold (is_dot_segment s).
    destruct (is_dot_segment s) eqn:Ed; [by repeat constructor|].
    rewrite sapp_nil_r. unfold traversal_free. rewrite segments_lacks by done.
    by repeat constructor.
Qed.

(** On a path without dot segments the loop copies its input, given a round per
    remaining character. *)
Lemma drop_dot_segments_id fuel s :
  (String.length s < fuel)%nat → traversal_free s → drop_dot_segments fuel s = s.
Proof.
  revert s; induction fuel as [|fuel IH]; intros s Hl Ht; [lia|]. simpl.
  destruct (find_char "/" s) as [i|] eqn:Ef.
  - apply find_char_Some in Ef as (Hs & Hlk & Hi). unfold substr. rewrite sdrop_0.
    unfold traversal_free in Ht. rewrite Hs, segments_app_slash in Ht by done. inv Ht.
    fold (is_dot_segment (stake i s)). rewrite H1, sapp_assoc, Nat.add_1_r, IH.
    + done.
    + apply (f_equal String.length) in Hs. rewrite sapp_length in Hs. cbn [String.length] in Hs.
      unfold substr_from. lia.
    + done.
  - apply find_char_None in Ef. unfold traversal_free in Ht.
    rewrite segments_lacks in Ht by done. inv Ht. fold (is_dot_segment s).
    by rewrite H1, sapp_nil_r.
Qed.

Lemma drop_dot_segments_forall p fuel s :
  p "/"%char = true → sforall p s = true → sforall p (drop_dot_segments fuel s) = true.
Proof.
  intros Hp. revert s; induction fuel as [|fuel IH]; intros s H; simpl; [done|].
  destruct (find_char "/" s) as [i|] eqn:Ef; repeat case_match;
    rewrite ?sforall_app; unfold substr, substr_from; simpl;
    rewrite ?Hp, ?IH by auto with volley; rewrite ?andb_true_r; auto with volley.
Qed.

Lemma lacks_dot_traversal_free s : lacks "." s = true → traversal_free s.
Proof.
  assert (H : ∀ s, lacks "." s = true → Forall (λ x, lacks "." x = true) (segments s)).
  { clear s. induction s as [|c s IH]; intros H; simpl; [by repeat constructor|].
    unfold lacks in H. simpl in H. reflect_bool. specialize (IH H0).
    destruct (Ascii.eqb c "/"); [by constructor|].
    destruct (segments s) as [|x xs]; constructor; unfold lacks in *; simpl; rewrite ?H; auto.
    - by inv IH.
    - by inv IH. }
  intros Hl. unfold traversal_free. eapply Forall_impl; [by apply H|].
  intros seg Hs. unfold is_dot_segment. apply orb_false_intro; apply String.eqb_neq;
    intros ->; discriminate.
Qed.

Lemma sanitize_path_clean path :
  sforall path_char (sanitize_path path) = true ∧ traversal_free (sanitize_path path).
Proof.
  unfold sanitize_path. destruct (find_char "." _) eqn:Ef; split.
  - apply drop_dot_segments_forall; [done | apply sfilter_forall].
  - apply drop_dot_segments_traversal_free.
  - apply sfilter_forall.
  - by apply lacks_dot_traversal_free, find_char_None.
Qed.

Lemma sanitize_path_id path :
  sforall path_char path = true → traversal_free path → sanitize_path path = path.
Proof.
  intros Hc Ht. unfold sanitize_path. rewrite sfilter_id by done.
  destruct (find_char "." path); [|done]. apply drop_dot_segments_id; [lia | done].
Qed.

(** A sanitised Vault path cannot escape its mount: only the characters of
    the whitelist remain, no segment is ["."] or [".."], a path that already has
    this form is kept as it is, and sanitising twice is sanitising once. *)
Theorem sanitize_path_safe (path : string) :
  sforall path_char (sanitize_path path) = true
  ∧ traversal_free (sanitize_path path)
  ∧ (sforall path_char path = true → traversal_free path → sanitize_path path = path)
  ∧ sanitize_path (sanitize_path path) = sanitize_path path.
Proof.
  destruct (sanitize_path_clean path) as [Hc Ht].
  repeat split; auto using sanitize_path_id.
Qed.

(** ** Percent encoding *)

Definition hex_val (c : ascii) : option N :=
  if isdigit c then Some (code c - 48)%N
  else if in_range 65 70 c then Some (code c - 55)%N else None.

(** The decoder of the receiving side: ["%XY"] is the byte [XY]. *)
Fixpoint url_decode (s : string) : option string :=
  match s with
  | "" => Some ""
  | String c s1 =>
      if Ascii.eqb c "%" then
        match s1 with
        | String h (String l s2) =>
            a ← hex_val h; b ← hex_val l; r ← url_decode s2;
            Some (String (ascii_of_N (16 * a + b)) r)
        | _ => None
        end
      else r ← url_decode s1; Some (String c r)
  end.

Lemma url_decode_percent c s :
  url_decode (percent c +:+ s) = (r ← url_decode s; Some (String c r)).
Proof. by destruct c as [[] [] [] [] [] [] [] []]. Qed.

Lemma url_decode_encode_with keep s :
  keep "%"%char = false → url_decode (encode_with keep s) = Some s.
Proof.
  intros Hk. induction s as [|c s IH]; [done|]. cbn [encode_with].
  destruct (keep c) eqn:E.
  - cbn [String.append url_decode]. destruct (Ascii.eqb c "%") eqn:Ec.
    + reflect_char. congruence.
    + by rewrite IH.
  - by rewrite url_decode_percent, IH.
Qed.

Lemma encode_with_forall (keep safe : ascii → bool) s :
  (∀ c, keep c = true → safe c = true) →
  (∀ c, sforall safe (percent c) = true) →
  sforall safe (encode_with keep s) = true.
Proof.
  intros Hk Hp. induction s as [|c s IH]; [done|]. cbn [encode_with].
  rewrite sforall_app, IH, andb_true_r. destruct (keep c) eqn:E; [|done].
  simpl. by rewrite Hk.
Qed.

(** [url_encode] loses nothing: percent-decoding the encoded client id or
    secret gives the value back, and the encoding uses only unreserved characters
    and ['%'], so neither ['&'] nor ['='] of a form body is forged. *)
Theorem url_encode_roundtrip (value : string) :
  url_decode (url_encode value) = Some value
  ∧ sforall (λ c, unreserved c || Ascii.eqb c "%") (url_encode value) = true.
Proof.
  split; [by apply url_decode_encode_with|].
  apply encode_with_forall; [by intros c -> |].
  intros c. by destruct c as [[] [] [] [] [] [] [] []].
Qed.

(** A byte that may appear in a request line: visible ASCII. *)
Definition request_line_char (c : ascii) : bool := in_range 33 126 c.

(** The request target written on the wire cannot inject a header or split
    the request line: whatever the configured path, every byte is visible ASCII
    (no CR, LF, space or control byte), and decoding it gives the path without its
    CR and LF bytes. *)
Theorem request_target_no_injection (path : string) :
  sforall request_line_char (request_target path) = true
  ∧ url_decode (request_target path)
    = Some (sfilter (λ c, negb (Ascii.eqb c "013" || Ascii.eqb c "010")) path).
Proof.
  split; [|by apply url_decode_encode_with].
  apply encode_with_forall; intros c; by destruct c as [[] [] [] [] [] [] [] []].
Qed.
