(* ===== verification/Double.v ===== *)
(** * [double]: IEEE 754 binary64 with round to nearest even

    Every finite binary64 value is an integer multiple of [2^-1074], the least
    subnormal, so a finite [double] is that integer: comparisons are comparisons
    of [Z] and the arithmetic lemmas are integer lemmas.  The operations compute
    the exact rational result and round it to 53 significant bits, ties to even,
    with gradual underflow and overflow to infinity.  The sign of zero and NaN
    payloads are not represented (no source of this development observes them). *)

From S2P Require Import Prelude CppString.

Local Open Scope Z_scope.

(** ** Rounding *)

(** The integer nearest to [n / d], ties to even; [d > 0]. *)
Definition rhe (n d : Z) : Z :=
  let q := n / d in
  let r := n mod d in
  match 2 * r ?= d with
  | Lt => q
  | Gt => q + 1
  | Eq => if Z.even q then q else q + 1
  end.

(** Exponent (in units of the least subnormal) of the last place of [n / d]. *)
Definition ulp_exp (n d : Z) : Z := Z.max 0 (Z.log2 (n / d) - 52).

(** [n / d >= 0] rounded to 53 bits. *)
Definition rnd_pos (n d : Z) : Z :=
  let u := ulp_exp n d in rhe n (d * 2 ^ u) * 2 ^ u.

Definition rnd (n d : Z) : Z := if n <? 0 then - rnd_pos (- n) d else rnd_pos n d.

Inductive double := Fin (k : Z) | Inf (neg : bool) | NaN.

(** 1.0 in units of the least subnormal, and the first magnitude that overflows. *)
Definition one_k : Z := 2 ^ 1074.
Definition overflow_k : Z := 2 ^ 2098.

Definition to_double (n d : Z) : double :=
  let r := rnd n d in
  if overflow_k <=? r then Inf false
  else if r <=? - overflow_k then Inf true else Fin r.

(** ** Operations *)

Definition dneg (x : double) : double :=
  match x with Fin a => Fin (- a) | Inf s => Inf (negb s) | NaN => NaN end.

Definition dadd (x y : double) : double :=
  match x, y with
  | Fin a, Fin b => to_double (a + b) 1
  | NaN, _ | _, NaN => NaN
  | Inf s, Inf t => if Bool.eqb s t then Inf s else NaN
  | Inf s, _ => Inf s
  | _, Inf t => Inf t
  end.

Definition dsub (x y : double) : double := dadd x (dneg y).

Definition dmul (x y : double) : double :=
  match x, y with
  | Fin a, Fin b => to_double (a * b) one_k
  | NaN, _ | _, NaN => NaN
  | Inf s, Inf t => Inf (xorb s t)
  | Inf s, Fin b | Fin b, Inf s => if b =? 0 then NaN else Inf (xorb s (b <? 0))
  end.

Definition ddiv (x y : double) : double :=
  match x, y with
  | Fin a, Fin b =>
      if b =? 0 then (if a =? 0 then NaN else Inf (a <? 0))
      else to_double (a * one_k * Z.sgn b) (Z.abs b)
  | NaN, _ | _, NaN => NaN
  | Inf _, Inf _ => NaN
  | Inf s, Fin b => Inf (xorb s (b <? 0))
  | Fin _, Inf _ => Fin 0
  end.

Definition dabs (x : double) : double :=
  match x with Fin a => Fin (Z.abs a) | Inf _ => Inf false | NaN => NaN end.

Definition dltb (x y : double) : bool :=
  match x, y with
  | Fin a, Fin b => a <? b
  | NaN, _ | _, NaN => false
  | Inf s, Inf t => s && negb t
  | Inf s, Fin _ => s
  | Fin _, Inf t => negb t
  end.

Definition dleb (x y : double) : bool :=
  match x, y with
  | Fin a, Fin b => a <=? b
  | NaN, _ | _, NaN => false
  | Inf s, Inf t => s || negb t
  | Inf s, Fin _ => s
  | Fin _, Inf t => negb t
  end.

Abbreviation dgtb x y := (dltb y x).
Abbreviation dgeb x y := (dleb y x).

(** [static_cast<double>(z)] of an integer. *)
Definition d_of_Z (z : Z) : double := to_double (z * one_k) 1.

(** A decimal literal [num / den] of the source. *)
Definition d_lit (num den : Z) : double := to_double (num * one_k) den.

(** [static_cast<intN_t>(x)]: truncation towards zero.  [None] where the
    conversion is undefined (NaN, infinities, values out of [lo..hi]). *)
Definition d_to_int (lo hi : Z) (x : double) : option Z :=
  match x with
  | Fin a => let z := Z.quot a one_k in if (lo <=? z) && (z <=? hi) then Some z else None
  | _ => None
  end.

Definition d_to_i64 : double → option Z := d_to_int INT64_MIN INT64_MAX.
Definition d_to_u64 : double → option Z := d_to_int 0 UINT64_MAX.

#[global] Instance double_eq_dec : EqDecision double.
Proof. solve_decision. Defined.

#[global] Arguments to_double : simpl never.
#[global] Arguments d_of_Z : simpl never.
#[global] Arguments d_lit : simpl never.
#[global] Arguments one_k : simpl never.
#[global] Arguments overflow_k : simpl never.

(** ** Rounding lemmas *)

Lemma rhe_spec n d : 0 < d → 2 * n - d ≤ 2 * (rhe n d * d) ≤ 2 * n + d.
Proof.
  intros Hd. unfold rhe. pose proof (Z.div_mod n d). pose proof (Z.mod_pos_bound n d).
  destruct (Z.compare_spec (2 * (n mod d)) d); [destruct (Z.even _)|..]; nia.
Qed.

Lemma rhe_exact q d : 0 < d → rhe (q * d) d = q.
Proof.
  intros. unfold rhe. rewrite Z.div_mul, Z.mod_mul by lia.
  destruct (Z.compare_spec (2 * 0) d); [lia | done | lia].
Qed.

(** Rounding is monotone in the rational [n / d]. *)
Lemma rhe_mono n d n' d' : 0 < d → 0 < d' → n * d' ≤ n' * d → rhe n d ≤ rhe n' d'.
Proof.
  intros Hd Hd' Hle.
  pose proof (Z.div_mod n d ltac:(lia)). pose proof (Z.mod_pos_bound n d ltac:(lia)).
  pose proof (Z.div_mod n' d' ltac:(lia)). pose proof (Z.mod_pos_bound n' d' ltac:(lia)).
  assert (Hq : n / d ≤ n' / d').
  { apply Z.div_le_lower_bound; [lia|]. apply Z.mul_le_mono_pos_r with d; [lia|]. nia. }
  unfold rhe.
  destruct (Z.eq_dec (n / d) (n' / d')) as [E|E].
  - rewrite <-E. assert ((n mod d) * d' ≤ (n' mod d') * d) by nia.
    destruct (Z.compare_spec (2 * (n mod d)) d), (Z.compare_spec (2 * (n' mod d')) d');
      repeat case_match; try lia; nia.
  - repeat case_match; lia.
Qed.

Lemma rhe_le n d b : 0 < d → n ≤ b * d → rhe n d ≤ b.
Proof.
  intros. rewrite <-(rhe_exact b d) by lia.
  apply rhe_mono; [lia..|]. by apply Z.mul_le_mono_nonneg_r; [lia|].
Qed.

Lemma rhe_ge n d b : 0 < d → b * d ≤ n → b ≤ rhe n d.
Proof.
  intros. rewrite <-(rhe_exact b d) at 1 by lia.
  apply rhe_mono; [lia..|]. by apply Z.mul_le_mono_nonneg_r; [lia|].
Qed.

Lemma ulp_exp_nonneg n d : 0 ≤ ulp_exp n d.
Proof. unfold ulp_exp. lia. Qed.

#[local] Hint Resolve ulp_exp_nonneg : core.

Lemma pow2_pos k : 0 ≤ k → 0 < 2 ^ k.
Proof. intros. apply Z.pow_pos_nonneg; lia. Qed.

Lemma rnd_pos_nonneg n d : 0 ≤ n → 0 < d → 0 ≤ rnd_pos n d.
Proof.
  intros. unfold rnd_pos. pose proof (pow2_pos _ (ulp_exp_nonneg n d)).
  apply Z.mul_nonneg_nonneg; [|lia]. apply rhe_ge; nia.
Qed.

Lemma pow2_split L u : 0 ≤ u ≤ L → 2 ^ L = 2 ^ (L - u) * 2 ^ u.
Proof. intros. rewrite <-Z.pow_add_r by lia. f_equal. lia. Qed.

(** A bound [2^L] on the argument bounds the rounded value, when [2^L] is a
    multiple of the last place. *)
Lemma rnd_pos_le_pow2 n d L :
  0 < d → ulp_exp n d ≤ L → n ≤ d * 2 ^ L → rnd_pos n d ≤ 2 ^ L.
Proof.
  intros Hd HL Hle. unfold rnd_pos. pose proof (ulp_exp_nonneg n d) as Hu.
  pose proof (pow2_pos _ Hu). rewrite (pow2_split L (ulp_exp n d)) in * by lia.
  apply Z.mul_le_mono_nonneg_r; [lia|]. apply rhe_le; [nia | lia].
Qed.

Lemma rnd_pos_ge_pow2 n d L :
  0 < d → ulp_exp n d ≤ L → d * 2 ^ L ≤ n → 2 ^ L ≤ rnd_pos n d.
Proof.
  intros Hd HL Hle. unfold rnd_pos. pose proof (ulp_exp_nonneg n d) as Hu.
  pose proof (pow2_pos _ Hu). rewrite (pow2_split L (ulp_exp n d)) in * by lia.
  apply Z.mul_le_mono_nonneg_r; [lia|]. apply rhe_ge; [nia | lia].
Qed.

Lemma rnd_pos_mono n d n' d' :
  0 ≤ n → 0 < d → 0 < d' → n * d' ≤ n' * d → rnd_pos n d ≤ rnd_pos n' d'.
Proof.
  intros Hn Hd Hd' Hle.
  assert (Hq : n / d ≤ n' / d').
  { pose proof (Z.mul_div_le n d Hd).
    apply Z.div_le_lower_bound; [lia|]. apply Z.mul_le_mono_pos_r with d; [lia|]. nia. }
  assert (0 ≤ n / d) by (apply Z.div_pos; lia).
  destruct (Z.eq_dec (ulp_exp n d) (ulp_exp n' d')) as [E|E].
  - unfold rnd_pos. rewrite <-E. pose proof (pow2_pos _ (ulp_exp_nonneg n d)).
    apply Z.mul_le_mono_nonneg_r; [lia|]. apply rhe_mono; nia.
  - pose proof (Z.log2_le_mono _ _ Hq) as HL.
    assert (Hlt : Z.log2 (n / d) < Z.log2 (n' / d')) by (unfold ulp_exp in E; lia).
    assert (0 < n' / d').
    { destruct (Z.eq_dec (n' / d') 0) as [E0|]; [|lia]. rewrite E0 in Hlt. simpl in Hlt.
      pose proof (Z.log2_nonneg (n / d)). lia. }
    transitivity (2 ^ (Z.log2 (n / d) + 1)).
    + apply rnd_pos_le_pow2; [lia | |].
      * unfold ulp_exp. pose proof (Z.log2_nonneg (n / d)). lia.
      * pose proof (Z.mod_pos_bound n d). pose proof (Z.div_mod n d).
        assert (n / d < 2 ^ (Z.log2 (n / d) + 1)).
        { destruct (Z.eq_dec (n / d) 0) as [->|]; [done|].
          rewrite Z.add_1_r. by apply Z.log2_spec; lia. }
        nia.
    + transitivity (2 ^ Z.log2 (n' / d')).
      * apply Z.pow_le_mono_r; lia.
      * apply rnd_pos_ge_pow2; [lia | |].
        -- unfold ulp_exp. pose proof (Z.log2_nonneg (n' / d')). lia.
        -- pose proof (Z.log2_spec (n' / d')). pose proof (Z.mul_div_le n' d'). nia.
Qed.

Lemma rnd_mono n d n' d' : 0 < d → 0 < d' → n * d' ≤ n' * d → rnd n d ≤ rnd n' d'.
Proof.
  intros Hd Hd' Hle. unfold rnd.
  destruct (Z.ltb_spec n 0), (Z.ltb_spec n' 0).
  - apply -> Z.opp_le_mono. apply rnd_pos_mono; nia.
  - pose proof (rnd_pos_nonneg (- n) d ltac:(lia) Hd).
    pose proof (rnd_pos_nonneg n' d' ltac:(lia) Hd'). lia.
  - nia.
  - apply rnd_pos_mono; lia.
Qed.

(** Integers of at most 53 bits, scaled by a power of two, are representable. *)
Lemma rnd_pos_exact m u d :
  0 ≤ m ≤ 2 ^ 53 → 0 ≤ u → 0 < d → rnd_pos (m * 2 ^ u * d) d = m * 2 ^ u.
Proof.
  intros Hm Hu Hd. unfold rnd_pos, ulp_exp. rewrite Z.div_mul by lia.
  set (k := m * 2 ^ u). set (v := Z.max 0 (Z.log2 k - 52)).
  pose proof (pow2_pos u Hu).
  assert (Hdiv : ∃ w, k = w * 2 ^ v).
  { destruct (Z.le_gt_cases v u) as [Hv|Hv].
    - exists (m * 2 ^ (u - v)). unfold k. rewrite <-Z.mul_assoc, <-Z.pow_add_r by lia.
      do 2 f_equal. lia.
    - assert (Hk : 2 ^ (53 + u) ≤ k).
      { assert (0 < k).
        { destruct (Z.lt_ge_cases 0 k); [done|]. pose proof (Z.log2_nonpos k). lia. }
        apply Z.log2_le_pow2; lia. }
      assert (m = 2 ^ 53) as ->.
      { unfold k in Hk. rewrite Z.pow_add_r in Hk by lia. nia. }
      unfold v, k. rewrite <-Z.pow_add_r, Z.log2_pow2 by lia.
      exists (2 ^ 52). rewrite <-Z.pow_add_r by lia. f_equal. lia. }
  destruct Hdiv as [w Hw]. pose proof (pow2_pos v ltac:(lia)).
  replace (k * d) with (w * (d * 2 ^ v)) by (rewrite Hw; ring).
  rewrite rhe_exact by nia. lia.
Qed.

(** A [Z] in units of the least subnormal that binary64 represents exactly. *)
Definition representable (k : Z) : Prop := ∃ m u, Z.abs k = m * 2 ^ u ∧ 0 ≤ m ≤ 2 ^ 53 ∧ 0 ≤ u.

Lemma rnd_representable k : representable k → rnd k 1 = k.
Proof.
  intros (m & u & Hk & Hm & Hu). unfold rnd.
  destruct (Z.ltb_spec k 0).
  - replace (- k) with (m * 2 ^ u * 1) by lia. rewrite rnd_pos_exact by lia. lia.
  - replace k with (m * 2 ^ u * 1) at 1 by lia. rewrite rnd_pos_exact by lia. lia.
Qed.

Lemma representable_rnd_pos n d : 0 ≤ n → 0 < d → representable (rnd_pos n d).
Proof.
  intros Hn Hd. exists (rhe n (d * 2 ^ ulp_exp n d)), (ulp_exp n d).
  pose proof (rnd_pos_nonneg n d Hn Hd) as Hr.
  pose proof (pow2_pos _ (ulp_exp_nonneg n d)).
  split; [unfold rnd_pos in *; lia|]. split; [|auto]. split.
  - unfold rnd_pos in Hr. nia.
  - apply rhe_le; [nia|]. unfold ulp_exp at 1.
    assert (0 ≤ n / d) by (apply Z.div_pos; lia).
    assert (n / d < 2 ^ (Z.log2 (n / d) + 1)).
    { destruct (Z.eq_dec (n / d) 0) as [->|]; [done|].
      rewrite Z.add_1_r. by apply Z.log2_spec; lia. }
    assert (2 ^ (Z.log2 (n / d) + 1) ≤ 2 ^ 53 * 2 ^ Z.max 0 (Z.log2 (n / d) - 52)).
    { rewrite <-Z.pow_add_r by lia. apply Z.pow_le_mono_r; lia. }
    pose proof (Z.mod_pos_bound n d). pose proof (Z.div_mod n d). nia.
Qed.

Lemma representable_opp k : representable k → representable (- k).
Proof. intros (m & u & ? & ?). exists m, u. by rewrite Z.abs_opp. Qed.

Lemma representable_rnd n d : 0 < d → representable (rnd n d).
Proof.
  intros. unfold rnd. destruct (Z.ltb_spec n 0).
  - apply representable_opp, representable_rnd_pos; lia.
  - apply representable_rnd_pos; lia.
Qed.

(** Relative error of one rounding: half a unit in the last place. *)
Lemma rnd_pos_error n d :
  0 ≤ n → 0 < d → 2 ^ 53 * Z.abs (rnd_pos n d * d - n) ≤ Z.max n (2 ^ 52 * d).
Proof.
  intros Hn Hd. unfold rnd_pos. pose proof (ulp_exp_nonneg n d) as Hu.
  pose proof (pow2_pos _ Hu) as Hp.
  pose proof (rhe_spec n (d * 2 ^ ulp_exp n d) ltac:(nia)) as Hr.
  assert (2 ^ 52 * (d * 2 ^ ulp_exp n d) ≤ Z.max n (2 ^ 52 * d)); [|nia].
  unfold ulp_exp. destruct (Z.max_spec 0 (Z.log2 (n / d) - 52)) as [[H ->]|[H ->]]; [|lia].
  pose proof (Z.log2_nonneg (n / d)).
  assert (0 < n / d).
  { destruct (Z.lt_ge_cases 0 (n / d)); [done|]. pose proof (Z.log2_nonpos (n / d)). lia. }
  pose proof (Z.log2_spec (n / d)) as Hl. pose proof (Z.mul_div_le n d Hd).
  rewrite (pow2_split (Z.log2 (n / d)) (Z.log2 (n / d) - 52)) in Hl by lia.
  replace (Z.log2 (n / d) - (Z.log2 (n / d) - 52)) with 52 in Hl by lia. nia.
Qed.

Lemma rnd_error n d :
  0 < d → 2 ^ 53 * Z.abs (rnd n d * d - n) ≤ Z.max (Z.abs n) (2 ^ 52 * d).
Proof.
  intros Hd. unfold rnd. destruct (Z.ltb_spec n 0).
  - pose proof (rnd_pos_error (- n) d). lia.
  - pose proof (rnd_pos_error n d). lia.
Qed.

(** An integer sum is never rounded below the 53rd bit. *)
Lemma rnd_error_1 n : 2 ^ 53 * Z.abs (rnd n 1 - n) ≤ Z.abs n.
Proof.
  destruct (Z.le_gt_cases (Z.abs n) (2 ^ 53)).
  - rewrite rnd_representable; [lia|]. exists (Z.abs n), 0. lia.
  - pose proof (rnd_error n 1). lia.
Qed.

(** ** Values that binary64 can hold *)

Definition valid_double (x : double) : Prop :=
  match x with Fin k => representable k ∧ Z.abs k < overflow_k | _ => True end.

Lemma to_double_valid n d : 0 < d → valid_double (to_double n d).
Proof.
  intros. unfold to_double. repeat case_match; simpl; auto. reflect_bool.
  split; [by apply representable_rnd | lia].
Qed.

Lemma to_double_id k : representable k → Z.abs k < overflow_k → to_double k 1 = Fin k.
Proof.
  intros Hk Hlt. unfold to_double. rewrite rnd_representable by done.
  destruct (Z.leb_spec overflow_k k), (Z.leb_spec k (- overflow_k)); try lia. done.
Qed.

Lemma to_double_mono n d n' d' :
  0 < d → 0 < d' → n * d' ≤ n' * d → dleb (to_double n d) (to_double n' d') = true.
Proof.
  intros. pose proof (rnd_mono n d n' d'). pose proof (pow2_pos 2098).
  unfold to_double, overflow_k in *. repeat case_match; reflect_bool; simpl; try lia; done.
Qed.

Lemma representable_small k : Z.abs k ≤ 2 ^ 53 → representable (k * one_k).
Proof.
  intros. exists (Z.abs k), 1074. unfold one_k. rewrite Z.abs_mul, (Z.abs_eq (2 ^ 1074)).
  - lia.
  - apply Z.pow_nonneg. lia.
Qed.

Lemma d_of_Z_small z : Z.abs z ≤ 2 ^ 53 → d_of_Z z = Fin (z * one_k).
Proof.
  intros. apply to_double_id; [by apply representable_small|].
  rewrite Z.abs_mul, (Z.abs_eq one_k) by (apply Z.pow_nonneg; lia).
  apply Z.le_lt_trans with (2 ^ 53 * one_k).
  - apply Z.mul_le_mono_nonneg_r; [apply Z.pow_nonneg; lia | done].
  - unfold one_k, overflow_k. rewrite <-Z.pow_add_r by lia. apply Z.pow_lt_mono_r; lia.
Qed.

Lemma dleb_trans x y z : dleb x y = true → dleb y z = true → dleb x z = true.
Proof.
  destruct x as [a|[]|], y as [b|[]|], z as [c|[]|]; simpl; intros; try done. reflect_bool.
  apply Z.leb_le. lia.
Qed.

Lemma dleb_ltb_dual x y : x ≠ NaN → y ≠ NaN → dltb x y = negb (dleb y x).
Proof.
  destruct x as [a|[]|], y as [b|[]|]; simpl; intros; try done. by rewrite Z.leb_antisym, negb_involutive.
Qed.

(** ** [std::stod] *)

Inductive stod_result := StodOk (x : double) | StodInvalid | StodOutOfRange.

Definition ishex (c : ascii) : bool := isdigit c || in_range 97 102 (tolower c).

Definition hex_digit_val (c : ascii) : Z :=
  if isdigit c then digit_val c else Z.of_N (code (tolower c)) - 87.

Fixpoint hex_val_acc (acc : Z) (s : string) : Z :=
  match s with
  | EmptyString => acc
  | String c s' => hex_val_acc (acc * 16 + hex_digit_val c) s'
  end.

Definition split_span (p : ascii → bool) (s : string) : string * string :=
  let n := span_len p s in (stake n s, sdrop n s).

(** Integer and fraction digits of a number in the given digit class. *)
Definition scan_mantissa (p : ascii → bool) (s : string) : string * string * string :=
  let '(ip, r) := split_span p s in
  if char_is 0 "." r then let '(fp, r') := split_span p (sdrop 1 r) in (ip, fp, r')
  else (ip, EmptyString, r).

(** An exponent introduced by [c] (or its capital), or 0 when none can be read. *)
Definition scan_exponent (c : ascii) (s : string) : Z :=
  if char_is 0 c (stolower s) then
    let r := sdrop 1 s in
    let '(neg, ds) := if char_is 0 "-" r then (true, sdrop 1 r)
                      else if char_is 0 "+" r then (false, sdrop 1 r) else (false, r) in
    let n := span_len isdigit ds in
    if (n =? 0)%nat then 0
    else let v := digits_val 0 (stake n ds) in if neg then - v else v
  else 0.

(** [num / den] as [strtod] returns it, with ERANGE turned into the exception. *)
Definition stod_value (neg : bool) (num den : Z) : stod_result :=
  let n := (if neg then - num else num) * one_k in
  match to_double n den with
  | Fin k =>
      if (Z.abs n <? 2 ^ 52 * den) && negb (k * den =? n) then StodOutOfRange
      else StodOk (Fin k)
  | _ => StodOutOfRange
  end.

Definition stod (s : string) : stod_result :=
  let s1 := sdrop (span_len isspace s) s in
  let '(neg, s2) := if char_is 0 "-" s1 then (true, sdrop 1 s1)
                    else if char_is 0 "+" s1 then (false, sdrop 1 s1) else (false, s1) in
  let low := stolower s2 in
  if String.prefix "inf" low then StodOk (Inf neg)
  else if String.prefix "nan" low then StodOk NaN
  else
    let '(hip, hfp, hrest) := scan_mantissa ishex (sdrop 2 s2) in
    if String.prefix "0x" low && negb (is_empty (hip +:+ hfp)) then
      let e := scan_exponent "p" hrest - 4 * Z.of_nat (String.length hfp) in
      stod_value neg (hex_val_acc 0 (hip +:+ hfp) * 2 ^ Z.max 0 e) (2 ^ Z.max 0 (- e))
    else
      let '(ip, fp, rest) := scan_mantissa isdigit s2 in
      if is_empty (ip +:+ fp) then StodInvalid
      else
        let e := scan_exponent "e" rest - Z.of_nat (String.length fp) in
        stod_value neg (digits_val 0 (ip +:+ fp) * 10 ^ Z.max 0 e) (10 ^ Z.max 0 (- e)).

(** Known binary64 encodings. *)
Example d_lit_tenth : d_lit 1 10 = Fin (3602879701896397 * 2 ^ 1019).
Proof. vm_compute. reflexivity. Qed.

Example dadd_tenths : dadd (d_lit 1 10) (d_lit 2 10) = Fin (5404319552844596 * 2 ^ 1020)
  ∧ d_lit 3 10 = Fin (5404319552844595 * 2 ^ 1020).
Proof. vm_compute. auto. Qed.

Example stod_examples :
  stod " 0.5x" = StodOk (d_lit 1 2) ∧ stod "1e400" = StodOutOfRange ∧ stod "ms" = StodInvalid
  ∧ stod "-12.5e1" = StodOk (d_of_Z (-125)) ∧ stod "0x1.8p1" = StodOk (d_of_Z 3).
Proof. vm_compute. auto. Qed.

Lemma to_double_0 : to_double 0 1 = Fin 0.
Proof. vm_compute. reflexivity. Qed.

Lemma to_double_1 : to_double 1 1 = Fin 1.
Proof. vm_compute. reflexivity. Qed.

Lemma rnd_0 : rnd 0 1 = 0.
Proof. reflexivity. Qed.

Lemma one_k_pos : 0 < one_k.
Proof. by apply pow2_pos. Qed.

Lemma overflow_k_pos : 0 < overflow_k.
Proof. by apply pow2_pos. Qed.

(** The three outcomes of rounding a rational to a double. *)
Lemma to_double_cases n d :
  (to_double n d = Fin (rnd n d) ∧ - overflow_k < rnd n d < overflow_k)
  ∨ (overflow_k ≤ rnd n d ∧ to_double n d = Inf false)
  ∨ (rnd n d ≤ - overflow_k ∧ to_double n d = Inf true).
Proof.
  unfold to_double. destruct (Z.leb_spec overflow_k (rnd n d)); [by right; left|].
  destruct (Z.leb_spec (rnd n d) (- overflow_k)); [by right; right|]. left. done.
Qed.

Lemma one_k_large : 2 ^ 128 ≤ one_k.
Proof. apply Z.pow_le_mono_r; lia. Qed.

Lemma d_of_Z_mono x y : x ≤ y → dleb (d_of_Z x) (d_of_Z y) = true.
Proof. intros. pose proof one_k_pos. apply to_double_mono; nia. Qed.

Lemma overflow_k_large : 2 ^ 128 * one_k ≤ overflow_k.
Proof. unfold one_k, overflow_k. rewrite <-Z.pow_add_r by lia. apply Z.pow_le_mono_r; lia. Qed.

Lemma d_of_Z_valid z : valid_double (d_of_Z z).
Proof. by apply to_double_valid. Qed.

(** The relative error of a quotient away from the subnormal range. *)
Lemma rnd_scale_error a m q :
  0 < m → 0 < q → 2 ^ 52 * m ≤ a → 2 ^ 53 * Z.abs (rnd (a * q) (m * q) * m - a) ≤ a.
Proof.
  intros Hm Hq Ha. pose proof (rnd_error (a * q) (m * q) ltac:(nia)) as He.
  replace (rnd (a * q) (m * q) * (m * q) - a * q)
    with ((rnd (a * q) (m * q) * m - a) * q) in He by ring.
  set (x := rnd (a * q) (m * q) * m - a) in *.
  assert (Haq : 2 ^ 52 * (m * q) ≤ a * q) by nia.
  rewrite Z.abs_mul, (Z.abs_eq q), (Z.abs_eq (a * q)), Z.max_l in He by lia.
  apply Z.mul_le_mono_pos_r with q; [done|]. lia.
Qed.

Lemma representable_one : representable one_k.
Proof. rewrite <-(Z.mul_1_l one_k). by apply representable_small. Qed.

Lemma rnd_ge_one n d : 0 < d → d * one_k ≤ n → one_k ≤ rnd n d.
Proof.
  intros. pose proof (rnd_mono one_k 1 n d ltac:(lia) ltac:(lia) ltac:(lia)) as Hm.
  by rewrite (rnd_representable one_k) in Hm by apply representable_one.
Qed.

(** Unsigned 64-bit integers convert to finite doubles. *)
Lemma d_of_Z_fin z : 0 ≤ z ≤ 2 ^ 64 → ∃ k, d_of_Z z = Fin k ∧ z * one_k ≤ 2 * k ∧ 0 ≤ k.
Proof.
  intros Hz. pose proof one_k_pos. pose proof overflow_k_large. unfold d_of_Z.
  pose proof (rnd_error_1 (z * one_k)) as He.
  pose proof (rnd_mono 0 1 (z * one_k) 1 ltac:(lia) ltac:(lia) ltac:(nia)) as Hlo. rewrite rnd_0 in Hlo.
  assert (Hb : 0 ≤ z * one_k ≤ 2 ^ 64 * one_k) by nia.
  destruct (to_double_cases (z * one_k) 1) as [[-> ?]|[[? _]|[? _]]]; [|lia..].
  exists (rnd (z * one_k) 1). split; [done|]. lia.
Qed.

(** The quotient of two doubles [0 ≤ a ≤ b], scaled by a small whole number. *)
Lemma ddiv_ratio a b : 0 ≤ a ≤ b → 0 < b →
  ∃ c, ddiv (Fin a) (Fin b) = Fin c ∧ 0 ≤ c ≤ one_k.
Proof.
  intros Ha Hb. pose proof one_k_pos. unfold ddiv. destruct (Z.eqb_spec b 0); [lia|].
  rewrite Z.sgn_pos, Z.abs_eq, Z.mul_1_r by lia.
  pose proof (rnd_mono 0 1 (a * one_k) b ltac:(lia) ltac:(lia) ltac:(nia)) as Hlo. rewrite rnd_0 in Hlo.
  pose proof (rnd_mono (a * one_k) b one_k 1 ltac:(lia) ltac:(lia) ltac:(nia)) as Hhi.
  rewrite (rnd_representable one_k) in Hhi by apply representable_one.
  pose proof overflow_k_large.
  destruct (to_double_cases (a * one_k) b) as [[-> ?]|[[? _]|[? _]]]; [|lia..]. eauto.
Qed.

Lemma dmul_ratio c z : 0 ≤ c ≤ one_k → 0 ≤ z ≤ 2 ^ 53 →
  ∃ k, dmul (Fin c) (d_of_Z z) = Fin k ∧ 0 ≤ k ≤ z * one_k.
Proof.
  intros Hc Hz. pose proof one_k_pos. rewrite d_of_Z_small by lia. cbn [dmul].
  assert (Hzk : 0 ≤ z * one_k ≤ 2 ^ 53 * one_k) by nia.
  pose proof (rnd_mono 0 1 (c * (z * one_k)) one_k ltac:(lia) ltac:(lia) ltac:(nia)) as Hlo. rewrite rnd_0 in Hlo.
  pose proof (rnd_mono (c * (z * one_k)) one_k (z * one_k) 1 ltac:(lia) ltac:(lia) ltac:(nia)) as Hhi.
  rewrite (rnd_representable (z * one_k)) in Hhi by (apply representable_small; lia).
  pose proof overflow_k_large.
  destruct (to_double_cases (c * (z * one_k)) one_k) as [[-> ?]|[[? _]|[? _]]]; [|lia..]. eauto.
Qed.

(** [std::to_string(double)]: six decimals, the exact value rounded half to even
    (the sign of a zero is not kept). *)
Definition d_to_string (x : double) : string :=
  match x with
  | Fin k =>
      let n := rhe (Z.abs k * 1000000) one_k in
      let frac := to_string (n `mod` 1000000) in
      (if k <? 0 then "-" else "") +:+ to_string (n `div` 1000000) +:+ "."
        +:+ String.concat "" (replicate (6 - String.length frac) "0") +:+ frac
  | Inf s => if s then "-inf" else "inf"
  | NaN => "nan"
  end.

Lemma prefix_char_ne a p c s : Ascii.eqb a c = false → String.prefix (String a p) (String c s) = false.
Proof.
  intros E. apply Ascii.eqb_neq in E. cbn [String.prefix]. destruct (ascii_dec a c); [done|done].
Qed.

(** Whole numbers read exactly. *)
Lemma stod_digits s :
  sforall isdigit s = true → is_empty s = false → 0 ≤ digits_val 0 s ≤ 2 ^ 53 →
  stod s = StodOk (Fin (digits_val 0 s * one_k)).
Proof.
  intros Hd Hne Hv. unfold stod. destruct s as [|c s]; [done|]. set (t := String c s) in *.
  assert (Hc : isdigit c = true ∧ sforall isdigit s = true) by (by apply andb_prop in Hd).
  assert (Hsp : span_len isspace t = 0%nat) by (unfold t; cbn [span_len]; by rewrite (isdigit_not_space c) by apply Hc).
  rewrite Hsp. cbn [sdrop].
  assert (Hm : char_is 0 "-" t = false) by (apply isdigit_not; [apply Hc|done]).
  assert (Hp : char_is 0 "+" t = false) by (apply isdigit_not; [apply Hc|done]).
  assert (Hlow : stolower t = String c (stolower s)) by (unfold t, stolower; cbn [smap]; by rewrite (isdigit_tolower c) by apply Hc).
  rewrite Hm, Hp, Hlow.
  rewrite (prefix_char_ne "i"), (prefix_char_ne "n")
    by (rewrite Ascii.eqb_sym; by apply isdigit_not; [apply Hc|]).
  assert (H0x : String.prefix "0x" (String c (stolower s)) = false).
  { cbn [String.prefix]. destruct (ascii_dec "0" c); [|done].
    destruct s as [|c2 s2]; [done|]. cbn [stolower smap].
    assert (Hc2 : isdigit c2 = true) by (destruct Hc as [_ Hc]; cbn [sforall] in Hc; by apply andb_prop in Hc as [? _]).
    rewrite isdigit_tolower by done. apply prefix_char_ne. rewrite Ascii.eqb_sym.
    by apply isdigit_not. }
  rewrite H0x. destruct (scan_mantissa ishex _) as [[hip hfp] hrest]. cbn [andb].
  assert (Hsm : scan_mantissa isdigit t = (t, EmptyString, EmptyString)).
  { unfold scan_mantissa, split_span. by rewrite span_len_all, stake_all, sdrop_all. }
  rewrite Hsm, sapp_nil_r. cbn [is_empty t].
  change (scan_exponent "e" "" - Z.of_nat (String.length "")) with 0.
  change (10 ^ Z.max 0 0) with 1. change (10 ^ Z.max 0 (- 0)) with 1.
  unfold stod_value. rewrite Z.mul_1_r. fold (d_of_Z (digits_val 0 t)).
  rewrite d_of_Z_small by lia. rewrite !Z.mul_1_r, Z.eqb_refl, andb_false_r. done.
Qed.

Lemma stod_to_string n : 0 ≤ n ≤ 2 ^ 53 → stod (to_string n) = StodOk (Fin (n * one_k)).
Proof.
  intros Hn. rewrite stod_digits, digits_val_to_string; try lia; try done.
  - by apply to_string_digits; lia.
  - by apply to_string_nonempty; lia.
  - rewrite digits_val_to_string; lia.
Qed.

Lemma to_double_scale x d : 0 < d → to_double (x * d) d = to_double x 1.
Proof.
  intros Hd. assert (E : rnd (x * d) d = rnd x 1) by (apply Z.le_antisymm; apply rnd_mono; lia).
  unfold to_double. by rewrite E.
Qed.

(** Products of whole numbers in the exact range. *)
Lemma dmul_whole a b : Z.abs (a * b) ≤ 2 ^ 53 → dmul (Fin (a * one_k)) (Fin (b * one_k)) = Fin (a * b * one_k).
Proof.
  intros Hab. cbn [dmul]. replace (a * one_k * (b * one_k)) with (a * b * one_k * one_k) by ring.
  rewrite to_double_scale by apply one_k_pos. by apply d_of_Z_small.
Qed.

Lemma d_to_i64_whole z : is_i64 z → d_to_i64 (Fin (z * one_k)) = Some z.
Proof.
  intros [Hlo Hhi]. unfold d_to_i64, d_to_int. rewrite Z.quot_mul by (pose proof one_k_pos; lia).
  by apply Z.leb_le in Hlo as ->, Hhi as ->.
Qed.

Lemma d_to_u64_whole z : is_u64 z → d_to_u64 (Fin (z * one_k)) = Some z.
Proof.
  intros [Hlo Hhi]. unfold d_to_u64, d_to_int. rewrite Z.quot_mul by (pose proof one_k_pos; lia).
  by apply Z.leb_le in Hlo as ->, Hhi as ->.
Qed.

(** Keep the tactics' unifier from computing with these; [vm_compute] still does. *)
Lemma representable_pow2 n : 0 ≤ n → representable (2 ^ n * one_k).
Proof.
  intros Hn. exists 1, (n + 1074). unfold one_k. rewrite <-Z.pow_add_r, Z.abs_eq by (try apply Z.pow_nonneg; lia). lia.
Qed.

(** The mean of whole numbers can be cut to a whole number. *)
Lemma mean_defined n total :
  0 ≤ n ≤ 2 ^ 63 → 1 ≤ total ≤ 2 ^ 64 → ∃ z, d_to_u64 (ddiv (d_of_Z n) (d_of_Z total)) = Some z.
Proof.
  intros Hn Ht. pose proof one_k_pos. pose proof overflow_k_large.
  pose proof (representable_pow2 63 ltac:(lia)) as Hr63.
  assert (H63 : d_of_Z (2 ^ 63) = Fin (2 ^ 63 * one_k)) by (unfold d_of_Z; rewrite to_double_id; [done..|lia]).
  destruct (d_of_Z_fin n) as (a & Ea & _ & Ha); [lia|]. destruct (d_of_Z_fin total) as (b & Eb & _ & _); [lia|].
  pose proof (d_of_Z_mono n (2 ^ 63) ltac:(lia)) as Hle. pose proof (d_of_Z_mono 1 total ltac:(lia)) as Hge.
  rewrite (d_of_Z_small 1), Eb in Hge by lia. rewrite Ea, H63 in Hle. cbn [dleb] in Hle, Hge. reflect_bool.
  rewrite Ea, Eb. unfold ddiv. destruct (Z.eqb_spec b 0); [lia|]. rewrite Z.sgn_pos, Z.abs_eq, Z.mul_1_r by lia.
  pose proof (rnd_mono 0 1 (a * one_k) b ltac:(lia) ltac:(lia) ltac:(nia)) as Hlo. rewrite rnd_0 in Hlo.
  pose proof (rnd_mono (a * one_k) b (2 ^ 63 * one_k) 1 ltac:(lia) ltac:(lia) ltac:(nia)) as Hhi.
  rewrite (rnd_representable _ Hr63) in Hhi.
  destruct (to_double_cases (a * one_k) b) as [[-> ?]|[[? _]|[? _]]]; [|lia..].
  unfold d_to_u64, d_to_int.
  assert (0 ≤ rnd (a * one_k) b `quot` one_k ≤ 2 ^ 63).
  { split; [by apply Z.quot_pos|]. apply Z.quot_le_upper_bound; lia. }
  assert (Hu : UINT64_MAX = 2 ^ 64 - 1) by done.
  destruct (Z.leb_spec 0 (rnd (a * one_k) b `quot` one_k)), (Z.leb_spec (rnd (a * one_k) b `quot` one_k) UINT64_MAX); try lia.
  by eexists.
Qed.

#[global] Opaque one_k overflow_k to_double rnd d_of_Z d_lit.
