(* ===== verification/Constants.v ===== *)
(** * Constants

    [include/cppload/core/constants.hpp]; the exit codes are in [CliMain]. *)

From S2P Require Import Prelude Double.

Local Open Scope Z_scope.

(** Milliseconds. *)
(** [src/include/cppload/core/constants.hpp:11-13] kDefaultTimeout *)
Definition kDefaultTimeout : Z := 5000.
Definition kHttpVersion : Z := 11.

(** [src/include/cppload/core/constants.hpp:15-16] kVersion *)
Definition kVersion : string := "1.1.0".
Definition kUserAgent : string := "volley/1.1.0".

(** [src/include/cppload/core/constants.hpp:18-19] kOtlpBatchSize *)
Definition kOtlpBatchSize : nat := 64.
Definition kOtlpMaxBufferedSpans : nat := 4096.

(** [src/include/cppload/core/constants.hpp:21-22] kSpanKindClient *)
Definition kSpanKindClient : Z := 2.
Definition kOtlpStatusCodeOk : Z := 1.

(** Seconds. *)
(** [src/include/cppload/core/constants.hpp:24-26] kDefaultTokenExpirySec *)
Definition kDefaultTokenExpirySec : Z := 3600.
Definition kExpiryMarginSec : Z := 60.
Definition kDefaultAuthTimeoutSec : Z := 10.

(** The latency is in milliseconds. *)
(** [src/include/cppload/core/constants.hpp:28-30] kDefaultErrorRate *)
Definition kDefaultErrorRate : double := d_of_Z 10.
Definition kDefaultLatencyMs : Z := 500.
Definition kDefaultConcurrency : Z := 10.

(** [src/include/cppload/core/constants.hpp:32-32] kMinShards *)
Definition kMinShards : Z := 4.

(** [src/include/cppload/core/constants.hpp:41-42] kDefaultMaxBodyBytes *)
Definition kDefaultMaxBodyBytes : Z := 100 * 1024 * 1024.
Definition kDefaultRecvBufferSize : Z := 8192.

(** The name sent to servers carries the version. *)
Lemma kUserAgent_version : kUserAgent = "volley/" +:+ kVersion.
Proof. reflexivity. Qed.
