(* ===== verification/Ostream.v ===== *)
(** * Numbers as text

    [operator<<] of [std::ostream] for a [double]: the default notation with a precision
    ([%.*g]) and the fixed one ([%.*f]).  The exporters, the summary of a run and the
    progress display print their numbers this way. *)

From S2P Require Import Prelude CppString Double.

Local Open Scope Z_scope.

(** [10^e ≤ num / den]. *)
Definition ge_pow10 (e num den : Z) : bool :=
  if 0 <=? e then 10 ^ e * den <=? num else den <=? num * 10 ^ (- e).

(** The decimal exponent of [num / den], searched downwards from [e]. *)
Fixpoint floor_log10 (fuel : nat) (e num den : Z) : Z :=
  match fuel with
  | O => e
  | S fuel => if ge_pow10 e num den then e else floor_log10 fuel (e - 1) num den
  end.

(** An exponent not below that of [num / den], and above it by three at most: the quotient
    is less than [2^(l + 1)] and more than [2^(l - 1)], and 30103 / 100000 is [log10 2] up to
    [2^-27]. *)
Definition log10_above (num den : Z) : Z :=
  let l := Z.log2 num - Z.log2 den in ((l + 1) * 30103) `div` 100000 + 1.

(** [num / den * 10^p] to the nearest whole number. *)
Definition scaled (p num den : Z) : Z :=
  if 0 <=? p then rhe (num * 10 ^ p) den else rhe num (den * 10 ^ (- p)).

Definition zeros (n : nat) : string := String.concat "" (replicate n "0").

Definition pad_left (n : nat) (s : string) : string := zeros (n - String.length s) +:+ s.

Fixpoint strip_zeros (s : string) : string :=
  match s with
  | "" => ""
  | String c s' => match strip_zeros s' with
                   | "" => if Ascii.eqb c "0" then "" else String c ""
                   | t => String c t
                   end
  end.

Definition with_fraction (whole frac : string) : string :=
  if is_empty (strip_zeros frac) then whole else whole +:+ "." +:+ strip_zeros frac.

Definition sign (k : Z) : string := if k <? 0 then "-" else "".

(** The default notation, with [p] significant digits.  (The sign of a zero is not kept.) *)
Definition ostream_prec (p : Z) (x : double) : string :=
  match x with
  | Fin k =>
      if k =? 0 then "0"
      else
        let num := Z.abs k in
        let e := floor_log10 4 (log10_above num one_k) num one_k in
        let n := scaled (p - 1 - e) num one_k in
        let '(n, e) := if n =? 10 ^ p then (10 ^ (p - 1), e + 1) else (n, e) in
        sign k +:+
        (if (-4 <=? e) && (e <? p)
         then with_fraction (to_string (n `div` 10 ^ (p - 1 - e)))
                (pad_left (Z.to_nat (p - 1 - e)) (to_string (n `mod` 10 ^ (p - 1 - e))))
         else with_fraction (to_string (n `div` 10 ^ (p - 1))) (pad_left (Z.to_nat (p - 1)) (to_string (n `mod` 10 ^ (p - 1))))
              +:+ "e" +:+ (if e <? 0 then "-" else "+") +:+ pad_left 2 (to_string (Z.abs e)))
  | Inf s => if s then "-inf" else "inf"
  | NaN => "nan"
  end.

(** The precision of a stream that sets none. *)
Definition ostream_double : double → string := ostream_prec 6.

(** [std::fixed] with [p] digits after the point, [p] at least 1. *)
Definition ostream_fixed (p : Z) (x : double) : string :=
  match x with
  | Fin k =>
      let n := scaled p (Z.abs k) one_k in
      sign k +:+ to_string (n `div` 10 ^ p) +:+ "." +:+ pad_left (Z.to_nat p) (to_string (n `mod` 10 ^ p))
  | Inf s => if s then "-inf" else "inf"
  | NaN => "nan"
  end.

Example ostream_double_examples :
  ostream_double (d_lit 5 2) = "2.5" ∧ ostream_double (d_lit 1000000 1) = "1e+06"
  ∧ ostream_double (d_lit 999999 1) = "999999" ∧ ostream_double (d_lit 1 10000) = "0.0001"
  ∧ ostream_double (d_lit (-1) 30000) = "-3.33333e-05" ∧ ostream_double (d_lit 100 3) = "33.3333"
  ∧ ostream_double (d_lit 1234567 1) = "1.23457e+06" ∧ ostream_double (Fin 0) = "0".
Proof. by vm_compute. Qed.

Example ostream_prec_examples :
  ostream_prec 1 (d_of_Z 499) = "5e+02" ∧ ostream_prec 1 (d_lit 94 10) = "9" ∧ ostream_prec 3 (d_lit 1 30) = "0.0333"
  ∧ ostream_prec 3 (d_lit 999999 10000) = "100" ∧ ostream_fixed 1 (d_lit 4996 10) = "499.6"
  ∧ ostream_fixed 3 (d_lit 1 8) = "0.125" ∧ ostream_fixed 1 (Fin 0) = "0.0".
Proof. by vm_compute. Qed.

(** ** Lines of text *)

Definition newline : ascii := "010".
Definition line (s : string) : string := s +:+ String newline "".

Fixpoint lines_of (s : string) : list string :=
  match s with
  | "" => []
  | String c s' =>
      if Ascii.eqb c newline then "" :: lines_of s'
      else match lines_of s' with
           | [] => [String c ""]
           | l :: ls => String c l :: ls
           end
  end.

Lemma lines_of_line a b : lacks newline a = true → lines_of (line a +:+ b) = a :: lines_of b.
Proof.
  induction a as [|c a IH]; intros Ha; [done|]. unfold lacks in Ha. cbn [sforall] in Ha.
  apply andb_prop in Ha as [Hc Ha]. apply negb_true_iff in Hc.
  change (line (String c a) +:+ b) with (String c (line a +:+ b)). cbn [lines_of]. rewrite Hc.
  by rewrite (IH Ha).
Qed.

(** The words of a line, between blanks. *)
Fixpoint words_of (s : string) : list string :=
  match s with
  | "" => [""]
  | String c s =>
      match words_of s with
      | w :: ws => if Ascii.eqb c " " then "" :: w :: ws else String c w :: ws
      | [] => []
      end
  end.

(** ** The characters of a number *)

Definition number_char (c : ascii) : bool :=
  isdigit c || bool_decide (c ∈ ["-"; "+"; "."; "e"; "i"; "n"; "f"; "a"]%char).

Section Lacks.
Context (c : ascii) (Hc : number_char c = false).

Lemma not_digit : isdigit c = false.
Proof. unfold number_char in Hc. by apply orb_false_iff in Hc as [? _]. Qed.

Lemma lacks_of (s : string) : sforall number_char s = true → lacks c s = true.
Proof.
  induction s as [|d s IH]; [done|]. unfold lacks in *. cbn [sforall]. intros [Hd Hs]%andb_prop. rewrite IH by done.
  rewrite andb_true_r. apply negb_true_iff, Ascii.eqb_neq. intros ->. congruence.
Qed.

Lemma to_string_lacks n : lacks c (to_string n) = true.
Proof.
  assert (H0 : ∀ m, 0 ≤ m → lacks c (to_string m) = true)
    by (intros m Hm; apply digits_lack; [apply not_digit|by apply to_string_digits]).
  destruct n as [|p|p]; [apply H0; lia..|].
  change (lacks c ("-" +:+ to_string (Z.pos p)) = true). rewrite lacks_app, H0 by lia. by rewrite (lacks_of "-").
Qed.

Lemma zeros_lacks n : lacks c (zeros n) = true.
Proof.
  apply lacks_of. unfold zeros. induction n as [|n IH]; [done|]. cbn [replicate String.concat].
  destruct (replicate n "0"); [done|]. rewrite !sforall_app, IH. done.
Qed.

Lemma strip_zeros_lacks s : lacks c s = true → lacks c (strip_zeros s) = true.
Proof.
  induction s as [|d s IH]; [done|]. unfold lacks in *. cbn [sforall strip_zeros]. intros H.
  apply andb_prop in H as [Hd Hs]. specialize (IH Hs).
  destruct (strip_zeros s) as [|x t]; [destruct (Ascii.eqb d "0"); [done|]|]; cbn [sforall] in *; by rewrite Hd.
Qed.

Lemma pad_left_lacks n m : lacks c (pad_left n (to_string m)) = true.
Proof. unfold pad_left. by rewrite lacks_app, zeros_lacks, to_string_lacks. Qed.

Lemma with_fraction_lacks w n m : lacks c (with_fraction (to_string w) (pad_left n (to_string m))) = true.
Proof.
  unfold with_fraction. destruct (is_empty _); [apply to_string_lacks|].
  rewrite !lacks_app, to_string_lacks, strip_zeros_lacks by apply pad_left_lacks. by rewrite (lacks_of ".").
Qed.

Lemma sign_lacks k : lacks c (sign k) = true.
Proof. unfold sign. destruct (k <? 0); [|done]. by apply lacks_of. Qed.

(** A number is printed with the characters of numbers only. *)
Lemma ostream_prec_lacks p x : lacks c (ostream_prec p x) = true.
Proof.
  destruct x as [k|[]|]; [|by apply lacks_of..]. unfold ostream_prec. destruct (k =? 0); [by apply lacks_of|].
  destruct (if _ =? 10 ^ p then _ else _) as [n e]. rewrite lacks_app, sign_lacks. cbn [andb].
  destruct ((-4 <=? e) && (e <? p)); [apply with_fraction_lacks|]. rewrite !lacks_app, with_fraction_lacks, pad_left_lacks.
  rewrite (lacks_of "e") by done. destruct (e <? 0); by rewrite lacks_of.
Qed.

Lemma ostream_double_lacks x : lacks c (ostream_double x) = true.
Proof. apply ostream_prec_lacks. Qed.

Lemma ostream_fixed_lacks p x : lacks c (ostream_fixed p x) = true.
Proof.
  destruct x as [k|[]|]; [|by apply lacks_of..]. unfold ostream_fixed.
  by rewrite !lacks_app, sign_lacks, to_string_lacks, pad_left_lacks, (lacks_of ".").
Qed.

End Lacks.

(** ** A number is never printed as nothing *)

Lemma to_string_ne n : to_string n ≠ "".
Proof.
  destruct n as [|p|p]; [done| |done]. intros E. pose proof (to_string_nonempty (Z.pos p) ltac:(lia)) as H. by rewrite E in H.
Qed.

Lemma sapp_ne a b : a ≠ "" ∨ b ≠ "" → a +:+ b ≠ "".
Proof. destruct a; [|done]. by intros [?|?]. Qed.

Lemma with_fraction_ne w f : w ≠ "" → with_fraction w f ≠ "".
Proof. intros Hw. unfold with_fraction. destruct (is_empty _); [done|]. apply sapp_ne. by left. Qed.

Lemma ostream_prec_ne p x : ostream_prec p x ≠ "".
Proof.
  destruct x as [k|[]|]; [|done..]. unfold ostream_prec. destruct (k =? 0); [done|].
  destruct (if _ =? 10 ^ p then _ else _) as [n e]. apply sapp_ne. right.
  destruct ((-4 <=? e) && (e <? p)); [|apply sapp_ne; left]; apply with_fraction_ne, to_string_ne.
Qed.
