(* ===== verification/TokenBucket.v ===== *)
(** * The rate limiter: [cppload::TokenBucket]

    [core/token_bucket.cpp] and [include/cppload/core/token_bucket.hpp].  The
    mutex makes every member function atomic, so a call is a function of the state
    and of the readings of [steady_clock::now()] (nanoseconds) it makes.  The
    arithmetic is binary64, as in the source. *)

From S2P Require Import Prelude CppString Double.

Local Open Scope Z_scope.

(** [src/include/cppload/core/token_bucket.hpp:50-56] TokenBucket *)
Record TokenBucket := mkBucket {
  rate_ : double;
  burst_ : double;
  tokens_ : double;
  last_refill_ : Z
}.

Definition d0 : double := Fin 0.
Definition d1 : double := Fin one_k.

(** [std::chrono::duration<double>(now - last).count()]: nanoseconds to seconds. *)
Definition seconds (ns : Z) : double := ddiv (d_of_Z ns) (d_of_Z 1000000000).

(** [None] is the [std::invalid_argument] of the constructor. *)
(** [src/core/token_bucket.cpp:8-15] TokenBucket::TokenBucket *)
Definition make_bucket (rate burst : double) (now : Z) : option TokenBucket :=
  let b := if dgtb burst d0 then burst else rate in
  if dleb rate d0 then None else Some (mkBucket rate b b now).

(** [src/core/token_bucket.cpp:70-78] TokenBucket::refill *)
Definition refill (now : Z) (b : TokenBucket) : TokenBucket :=
  let elapsed := seconds (now - last_refill_ b) in
  if dgtb elapsed d0 then
    let t := dadd (tokens_ b) (dmul elapsed (rate_ b)) in
    mkBucket (rate_ b) (burst_ b) (if dgtb t (burst_ b) then burst_ b else t) now
  else b.

Definition with_tokens (t : double) (b : TokenBucket) : TokenBucket :=
  mkBucket (rate_ b) (burst_ b) t (last_refill_ b).

(** [src/core/token_bucket.cpp:19-25] TokenBucket::set_rate *)
Definition set_rate (rate : double) (now : Z) (b : TokenBucket) : option TokenBucket :=
  if dleb rate d0 then None
  else let b := refill now b in
       Some (mkBucket rate (burst_ b) (tokens_ b) (last_refill_ b)).

(** [src/core/token_bucket.cpp:27-34] TokenBucket::set_burst *)
Definition set_burst (burst : double) (now : Z) (b : TokenBucket) : option TokenBucket :=
  if dleb burst d0 then None
  else let b := refill now b in
       Some (mkBucket (rate_ b) burst
               (if dgtb (tokens_ b) burst then burst else tokens_ b) (last_refill_ b)).

(** [src/core/token_bucket.cpp:53-61] TokenBucket::try_consume *)
Definition try_consume (now : Z) (b : TokenBucket) : bool * TokenBucket :=
  let b := refill now b in
  if dltb (tokens_ b) d1 then (false, b)
  else (true, with_tokens (dsub (tokens_ b) d1) b).

(** The wait of [consume]: seconds until one token, at most one second, in whole
    nanoseconds. *)
(** [src/core/token_bucket.cpp:40-44] TokenBucket::consume *)
Definition wait_ns (b : TokenBucket) : option Z :=
  let wait_sec := ddiv (dsub d1 (tokens_ b)) (rate_ b) in
  let wait_sec := if dgtb wait_sec d1 then d1 else wait_sec in
  d_to_i64 (dmul wait_sec (d_of_Z 1000000000)).

(** [consume]: [clock i] is the [i]-th reading of the clock and [others i] what
    the other threads do to the bucket while the [i]-th [wait_for] has released the
    mutex.  [None]: [fuel] rounds of the loop were not enough. *)
(** [src/core/token_bucket.cpp:39-49] TokenBucket::consume *)
Fixpoint consume_loop (fuel : nat) (clock : nat → Z) (others : nat → TokenBucket → TokenBucket)
    (i : nat) (b : TokenBucket) : option TokenBucket :=
  match fuel with
  | O => None
  | S fuel' =>
      if dltb (tokens_ b) d1 then
        let b := match wait_ns b with
                 | Some w => if 0 <? w then others i b else b
                 | None => others i b
                 end in
        consume_loop fuel' clock others (S i) (refill (clock (S i)) b)
      else Some (with_tokens (dsub (tokens_ b) d1) b)
  end.

(** [src/core/token_bucket.cpp:36-51] TokenBucket::consume *)
Definition consume (fuel : nat) (clock : nat → Z) (others : nat → TokenBucket → TokenBucket)
    (b : TokenBucket) : option TokenBucket :=
  consume_loop fuel clock others 0 (refill (clock 0%nat) b).

(** [now1] and [now2] are the clock readings before and after the wait. *)
(** [src/include/cppload/core/token_bucket.hpp:23-46] TokenBucket::try_consume_for *)
Definition try_consume_for (timeout : double) (now1 now2 : Z)
    (others : TokenBucket → TokenBucket) (b : TokenBucket) : bool * TokenBucket :=
  let b := refill now1 b in
  if dgeb (tokens_ b) d1 then (true, with_tokens (dsub (tokens_ b) d1) b)
  else
    let wait_sec := ddiv (dsub d1 (tokens_ b)) (rate_ b) in
    if dgtb wait_sec timeout then (false, b)
    else
      let w := d_to_i64 (dmul wait_sec (d_of_Z 1000000000)) in
      let b := match w with
               | Some w => if 0 <? w then others b else b
               | None => others b
               end in
      let b := refill now2 b in
      if dgeb (tokens_ b) d1 then (true, with_tokens (dsub (tokens_ b) d1) b)
      else (false, b).

(** [src/core/token_bucket.cpp:62-68] TokenBucket::tokens_available *)
Definition tokens_available (now : Z) (b : TokenBucket) : double :=
  let elapsed := seconds (now - last_refill_ b) in
  let available := dadd (tokens_ b) (dmul elapsed (rate_ b)) in
  if dgtb available (burst_ b) then burst_ b
  else if dltb available d0 then d0 else available.

(** ** Invariant *)

(** A finite, positive rate and burst, and between zero and [burst_] tokens. *)
Record bucket_ok (b : TokenBucket) (r u k : Z) : Prop := {
  ok_rate : rate_ b = Fin r;
  ok_burst : burst_ b = Fin u;
  ok_tokens : tokens_ b = Fin k;
  ok_rate_pos : 0 < r;
  ok_burst_pos : 0 < u;
  ok_range : 0 ≤ k ≤ u;
  ok_vrate : valid_double (Fin r);
  ok_vburst : valid_double (Fin u);
  ok_vtokens : valid_double (Fin k)
}.

Definition bucket_inv (b : TokenBucket) : Prop := ∃ r u k, bucket_ok b r u k.

Lemma billion_k : d_of_Z 1000000000 = Fin (1000000000 * one_k).
Proof. by apply d_of_Z_small. Qed.

(** Multiplying by a nonnegative finite double keeps the sign. *)
Lemma dmul_nonneg a b : 0 ≤ a → 0 ≤ b →
  (∃ c, dmul (Fin a) (Fin b) = Fin c ∧ 0 ≤ c ∧ c = rnd (a * b) one_k)
  ∨ dmul (Fin a) (Fin b) = Inf false.
Proof.
  intros Ha Hb. pose proof one_k_pos. cbn [dmul].
  assert (0 ≤ rnd (a * b) one_k).
  { pose proof (rnd_mono 0 1 (a * b) one_k ltac:(lia) ltac:(lia) ltac:(nia)) as Hm.
    by rewrite rnd_0 in Hm. }
  pose proof overflow_k_pos.
  destruct (to_double_cases (a * b) one_k) as [[-> ?]|[[? ->]|[? _]]]; [eauto|by right|lia].
Qed.

Lemma seconds_div a :
  ddiv (Fin a) (d_of_Z 1000000000) = to_double (a * one_k) (1000000000 * one_k).
Proof.
  rewrite billion_k. unfold ddiv. pose proof one_k_pos.
  assert (Hb : (1000000000 * one_k =? 0) = false) by (apply Z.eqb_neq; lia).
  by rewrite Hb, Z.sgn_pos, Z.mul_1_r, Z.abs_eq by lia.
Qed.

Lemma seconds_nonpos ns : ns ≤ 0 → dgtb (seconds ns) d0 = false.
Proof.
  intros Hns. pose proof one_k_pos as H1. unfold seconds.
  pose proof (d_of_Z_mono ns 0 Hns) as Hm. rewrite (d_of_Z_small 0), Z.mul_0_l in Hm by lia.
  destruct (d_of_Z ns) as [a|[]|]; simpl in Hm; [|by rewrite billion_k|done|done].
  reflect_bool. rewrite seconds_div.
  pose proof (to_double_mono (a * one_k) (1000000000 * one_k) 0 1
                ltac:(lia) ltac:(lia) ltac:(nia)) as Hm2.
  rewrite to_double_0 in Hm2.
  unfold d0. rewrite dleb_ltb_dual, Hm2; [done | done |]. by destruct (to_double _ _).
Qed.

Lemma seconds_pos ns :
  0 < ns → (∃ e, seconds ns = Fin e ∧ 0 < e) ∨ seconds ns = Inf false.
Proof.
  intros Hns. unfold seconds. pose proof one_k_pos as H1.
  pose proof (d_of_Z_mono 1 ns ltac:(lia)) as Hm. rewrite (d_of_Z_small 1) in Hm by lia.
  destruct (d_of_Z ns) as [a|[]|]; simpl in Hm; [|done|by rewrite billion_k; right|done].
  rewrite seconds_div. reflect_bool.
  pose proof one_k_large.
  pose proof (to_double_mono 1 1 (a * one_k) (1000000000 * one_k)
                ltac:(lia) ltac:(lia) ltac:(nia)) as Hm2.
  rewrite to_double_1 in Hm2.
  destruct (to_double _ _) as [e|[]|]; simpl in Hm2; try done; [left|by right].
  exists e. reflect_bool. split; [done|lia].
Qed.

(** What a refill adds to the bucket before clipping. *)
Lemma refill_amount ns r k :
  0 < ns → 0 < r → 0 ≤ k → valid_double (Fin k) →
  let t := dadd (Fin k) (dmul (seconds ns) (Fin r)) in
  dgtb (seconds ns) d0 = true ∧ dleb (Fin k) t = true ∧ valid_double t.
Proof.
  intros Hns Hr Hk [Rk Ok]. destruct (seconds_pos ns Hns) as [(e & -> & He)| ->].
  - split; [by apply Z.ltb_lt|].
    destruct (dmul_nonneg e r) as [(c & -> & Hc & _)| ->]; [lia..| |done].
    cbn [dadd]. split; [|by apply to_double_valid].
    rewrite <-(to_double_id k) at 1 by done. apply to_double_mono; lia.
  - destruct r; try lia. done.
Qed.

(** A refill keeps rate and burst, never takes a token away, never goes above the
    burst, and moves the clock to [now] exactly when time has passed. *)
Lemma refill_ok now b r u k :
  bucket_ok b r u k →
  ∃ k', bucket_ok (refill now b) r u k' ∧ k ≤ k'
        ∧ last_refill_ (refill now b) = Z.max now (last_refill_ b).
Proof.
  intros Hok. pose proof Hok as [Hr Hu Hk Hrp Hup Hkr Vr Vu Vk]. unfold refill.
  destruct (Z.le_gt_cases (now - last_refill_ b) 0) as [Hle|Hgt].
  - rewrite seconds_nonpos by done. exists k. split; [done|]. lia.
  - destruct (refill_amount (now - last_refill_ b) r k) as (-> & Hle & Hv); [lia || done..|].
    rewrite Hk, Hr, Hu. cbn [last_refill_]. rewrite Z.max_l by lia.
    destruct (dadd _ _) as [c|[]|]; simpl in Hle |- *; try done; reflect_bool.
    + destruct (Z.ltb_spec u c); [exists u | exists c]; split; try lia; by split; simpl; try lia.
    + exists u. split; [|lia]. by split; simpl; try lia.
Qed.

Lemma dsub_one k : dsub (Fin k) d1 = to_double (k - one_k) 1.
Proof. done. Qed.

(** Taking one token out of at least one. *)
Lemma take_ok b r u k :
  bucket_ok b r u k → dltb (tokens_ b) d1 = false →
  ∃ k', bucket_ok (with_tokens (dsub (tokens_ b) d1) b) r u k'
        ∧ k' = rnd (k - one_k) 1 ∧ one_k ≤ k.
Proof.
  intros [Hr Hu Hk Hrp Hup Hkr Vr Vu Vk] Hlt. rewrite Hk in *. simpl in Hlt. reflect_bool.
  pose proof one_k_pos. destruct Vu as [Ru Ou].
  pose proof (rnd_mono 0 1 (k - one_k) 1 ltac:(lia) ltac:(lia) ltac:(lia)) as H0.
  rewrite rnd_0 in H0.
  pose proof (rnd_mono (k - one_k) 1 u 1 ltac:(lia) ltac:(lia) ltac:(lia)) as H1.
  rewrite (rnd_representable u) in H1 by done.
  assert (Ht : dsub (Fin k) d1 = Fin (rnd (k - one_k) 1)).
  { rewrite dsub_one. pose proof overflow_k_pos.
    destruct (to_double_cases (k - one_k) 1) as [[-> ?]|[[? _]|[? _]]]; [done|lia..]. }
  rewrite Ht. exists (rnd (k - one_k) 1). split; [|lia].
  split; simpl; try done; try lia. split; [by apply representable_rnd|lia].
Qed.

(** ** Every reachable bucket satisfies the invariant *)

(** An argument that is a finite binary64 number. *)
Definition finite_arg (x : double) : Prop := ∃ k, x = Fin k ∧ valid_double x.

(** What one critical section of a thread that shares the bucket does to it.
    [try_consume] is a refill and possibly a take under one lock; [consume] and
    [try_consume_for] release the lock while they wait. *)
Inductive bucket_step : TokenBucket → TokenBucket → Prop :=
  | step_refill now b : bucket_step b (refill now b)
  | step_take b :
      dltb (tokens_ b) d1 = false → bucket_step b (with_tokens (dsub (tokens_ b) d1) b)
  | step_set_rate x now b b' :
      finite_arg x → set_rate x now b = Some b' → bucket_step b b'
  | step_set_burst x now b b' :
      finite_arg x → set_burst x now b = Some b' → bucket_step b b'.

Create HintDb bucket discriminated.
#[local] Hint Constructors bucket_step : bucket.
#[local] Hint Resolve rtc_refl rtc_once : bucket.

Lemma bucket_step_inv b b' : bucket_step b b' → bucket_inv b → bucket_inv b'.
Proof.
  intros Hs (r & u & k & Hok). destruct Hs as [now b|b Hlt|x now b b' (q & -> & Hv) Hs|x now b b' (q & -> & Hv) Hs].
  - destruct (refill_ok now b r u k Hok) as (k' & ? & _). by exists r, u, k'.
  - destruct (take_ok b r u k Hok Hlt) as (k' & ? & _). by exists r, u, k'.
  - unfold set_rate in Hs. destruct (dleb (Fin q) d0) eqn:E; simplify_eq.
    unfold d0 in E. simpl in E. reflect_bool.
    destruct (refill_ok now b r u k Hok) as (k' & [] & _). exists q, u, k'. by split.
  - unfold set_burst in Hs. destruct (dleb (Fin q) d0) eqn:E; simplify_eq.
    unfold d0 in E. simpl in E. reflect_bool.
    destruct (refill_ok now b r u k Hok) as (k' & [?? Ht] & _). rewrite Ht. simpl.
    destruct (Z.ltb_spec q k'); [exists r, q, q | exists r, q, k']; split; simpl; auto; lia.
Qed.

Lemma bucket_steps_inv b b' : rtc bucket_step b b' → bucket_inv b → bucket_inv b'.
Proof. induction 1; eauto using bucket_step_inv. Qed.

(** The member functions only take such steps. *)
Lemma try_consume_steps now b : rtc bucket_step b (try_consume now b).2.
Proof.
  unfold try_consume. destruct (dltb _ _) eqn:E; simpl.
  - auto with bucket.
  - eapply rtc_l; auto with bucket.
Qed.

Lemma consume_loop_steps fuel clock others i b b' :
  (∀ i b, rtc bucket_step b (others i b)) →
  consume_loop fuel clock others i b = Some b' → rtc bucket_step b b'.
Proof.
  intros Ho. revert i b. induction fuel as [|fuel IH]; simpl; intros i b Hc; [done|].
  destruct (dltb (tokens_ b) d1) eqn:E.
  - apply IH in Hc. etrans; [|exact Hc]. eapply rtc_r; [|apply step_refill].
    repeat case_match; first [apply Ho | apply rtc_refl].
  - simplify_eq. apply rtc_once. by apply step_take.
Qed.

Lemma consume_steps fuel clock others b b' :
  (∀ i b, rtc bucket_step b (others i b)) →
  consume fuel clock others b = Some b' → rtc bucket_step b b'.
Proof. intros Ho Hc. eapply rtc_l; [apply step_refill|]. by eapply consume_loop_steps. Qed.

Lemma dgeb_not_dltb b : bucket_inv b → dgeb (tokens_ b) d1 = true → dltb (tokens_ b) d1 = false.
Proof.
  intros (r & u & k & Hok) Hg. unfold d1 in *. rewrite (ok_tokens _ _ _ _ Hok) in *.
  by rewrite dleb_ltb_dual, Hg.
Qed.

Lemma try_consume_for_steps timeout now1 now2 others b :
  (∀ b, rtc bucket_step b (others b)) → bucket_inv b →
  rtc bucket_step b (try_consume_for timeout now1 now2 others b).2.
Proof.
  intros Ho Hi. pose proof (bucket_step_inv _ _ (step_refill now1 b) Hi) as Hi1.
  unfold try_consume_for. destruct (dgeb (tokens_ (refill now1 b)) d1) eqn:E1; cbn [snd].
  - eapply rtc_l; [apply step_refill|]. apply rtc_once, step_take. by apply dgeb_not_dltb.
  - destruct (dgtb _ _); cbn [snd]; [auto with bucket|].
    set (b2 := match d_to_i64 _ with Some _ => _ | None => _ end).
    assert (Hb2 : rtc bucket_step b b2).
    { eapply rtc_l; [apply step_refill|]. unfold b2. repeat case_match; first [apply Ho | apply rtc_refl]. }
    assert (Hb3 : rtc bucket_step b (refill now2 b2)) by (eapply rtc_r; [done|apply step_refill]).
    pose proof (bucket_steps_inv _ _ Hb3 Hi) as Hi3.
    destruct (dgeb (tokens_ (refill now2 b2)) d1) eqn:E2; cbn [snd]; [|done].
    eapply rtc_r; [exact Hb3|]. apply step_take. by apply dgeb_not_dltb.
Qed.

(** C11.  Whatever the threads sharing a rate limiter do (set rate or burst to
    finite values, consume, try to consume, with or without a timeout, in any
    interleaving of critical sections), a bucket built from finite arguments always
    holds a finite, nonnegative number of tokens not above its burst. *)
Theorem bucket_reachable_inv (rate burst : double) (now : Z) (b0 b : TokenBucket) :
  finite_arg rate → finite_arg burst → make_bucket rate burst now = Some b0 →
  rtc bucket_step b0 b →
  (∃ r u k, rate_ b = Fin r ∧ burst_ b = Fin u ∧ tokens_ b = Fin k ∧ 0 < r ∧ 0 ≤ k ≤ u)
  ∧ (∀ t, rtc bucket_step b (try_consume t b).2)
  ∧ (∀ timeout t1 t2 others, (∀ x, rtc bucket_step x (others x)) →
       rtc bucket_step b (try_consume_for timeout t1 t2 others b).2)
  ∧ (∀ fuel clock others b', (∀ i x, rtc bucket_step x (others i x)) →
       consume fuel clock others b = Some b' → rtc bucket_step b b').
Proof.
  intros (qr & -> & Vr) (qb & -> & Vb) Hm Hr.
  assert (H0 : bucket_inv b0).
  { unfold make_bucket, d0 in Hm. simpl in Hm.
    destruct (Z.leb_spec qr 0); simplify_eq.
    destruct (Z.ltb_spec 0 qb); [exists qr, qb, qb | exists qr, qr, qr]; split; simpl; auto; lia. }
  pose proof (bucket_steps_inv _ _ Hr H0) as Hi.
  split_and!; [|eauto using try_consume_steps, try_consume_for_steps, consume_steps..].
  destruct Hi as (r & u & k & []). by exists r, u, k.
Qed.

Lemma finite_arg_of_Z z : Z.abs z ≤ 2 ^ 53 → finite_arg (d_of_Z z).
Proof.
  intros Hz. rewrite d_of_Z_small by done. eexists; split; [done|].
  rewrite <-d_of_Z_small by done. apply d_of_Z_valid.
Qed.

Lemma bucket_reachable_inv_witness :
  let b0 := mkBucket (d_of_Z 50) (d_of_Z 10) (d_of_Z 10) 0 in
  let b := (try_consume 7 b0).2 in
  ∃ r u k, rate_ b = Fin r ∧ burst_ b = Fin u ∧ tokens_ b = Fin k ∧ 0 < r ∧ 0 ≤ k ≤ u.
Proof.
  apply (bucket_reachable_inv (d_of_Z 50) (d_of_Z 10) 0 (mkBucket (d_of_Z 50) (d_of_Z 10) (d_of_Z 10) 0)).
  - apply finite_arg_of_Z. lia.
  - apply finite_arg_of_Z. lia.
  - vm_compute. reflexivity.
  - apply try_consume_steps.
Defined.

(** ** How many tokens a refill adds *)

(** Up to [2^53] ns (104 days) apart, the clock difference converts exactly and the
    seconds are within one rounding of the quotient. *)
Lemma seconds_fin dt : 0 < dt ≤ 2 ^ 53 →
  ∃ e, seconds dt = Fin e ∧ 0 < e
       ∧ 2 ^ 53 * Z.abs (e * 1000000000 - dt * one_k) ≤ dt * one_k.
Proof.
  intros Hdt. pose proof one_k_large as HK. unfold seconds. rewrite (d_of_Z_small dt) by lia.
  rewrite seconds_div.
  assert (HP : one_k ≤ dt * one_k ≤ 2 ^ 53 * one_k) by nia.
  pose proof (rnd_scale_error (dt * one_k) 1000000000 one_k ltac:(lia) ltac:(lia) ltac:(lia)) as Hb.
  destruct (to_double_cases (dt * one_k * one_k) (1000000000 * one_k)) as [[-> ?]|[[Ho _]|[Ho _]]];
    set (e := rnd _ _) in *.
  - exists e. split_and!; [done|lia|done].
  - pose proof overflow_k_large. lia.
  - pose proof overflow_k_large. lia.
Qed.

Lemma refill_tokens_le now b r u k k' :
  bucket_ok b r u k → tokens_ (refill now b) = Fin k' →
  0 < now - last_refill_ b ≤ 2 ^ 53 →
  ∃ e, 2 ^ 53 * (e * 1000000000) ≤ (2 ^ 53 + 1) * ((now - last_refill_ b) * one_k)
       ∧ 0 < e ∧ 2 ^ 53 * (k' - k - rnd (e * r) one_k) ≤ u.
Proof.
  intros [Hr Hu Hk Hrp Hup Hkr Vr Vu Vk] Hk' Hdt. destruct (seconds_fin _ Hdt) as (e & He & Hep & Hb).
  exists e. split; [lia|]. split; [done|]. unfold refill in Hk'. rewrite He in Hk'.
  assert (Hgt : dgtb (Fin e) d0 = true) by (by apply Z.ltb_lt). rewrite Hgt in Hk'.
  rewrite Hk, Hr, Hu in Hk'. cbn [tokens_] in Hk'.
  destruct Vu as [_ Ou]. destruct (dmul_nonneg e r) as [(c & Hm & Hc & ->)|Hm]; [lia..| |].
  - rewrite Hm in Hk'. cbn [dadd] in Hk'. set (c := rnd (e * r) one_k) in *.
    pose proof (rnd_error_1 (k + c)) as Herr.
    pose proof (rnd_mono u 1 (k + c) 1 ltac:(lia) ltac:(lia)) as Hmono.
    destruct (to_double_cases (k + c) 1) as [[Ht Hov]|[[Hov Ht]|[Hov Ht]]]; rewrite Ht in Hk'.
    + cbn [dltb] in Hk'. destruct (Z.ltb_spec u (rnd (k + c) 1)); simplify_eq; lia.
    + simplify_eq/=. lia.
    + pose proof (rnd_mono 0 1 (k + c) 1 ltac:(lia) ltac:(lia) ltac:(lia)) as H0.
      rewrite rnd_0 in H0. pose proof overflow_k_pos. lia.
  - rewrite Hm in Hk'. simplify_eq/=. pose proof one_k_pos.
    destruct (to_double_cases (e * r) one_k) as [[Ht Hov]|[[Hov Ht]|[Hov Ht]]]; rewrite Ht in Hm; try done. lia.
Qed.

(** The slack of one call: the roundings of the sum and of the subtraction, each
    relative to the burst, and of a subnormal product. *)
Definition slack (u : Z) : Z := 2 ^ 105 * 1000000000 + 2 ^ 54 * 1000000000 * u.

Lemma refill_gain_le now b r u k k' :
  bucket_ok b r u k → tokens_ (refill now b) = Fin k' →
  0 ≤ now - last_refill_ b ≤ 2 ^ 53 →
  2 ^ 106 * 1000000000 * (k' - k)
    ≤ (2 ^ 53 + 1) ^ 2 * r * (now - last_refill_ b) + 2 ^ 105 * 1000000000 + 2 ^ 53 * 1000000000 * u.
Proof.
  intros Hok Hk' Hdt. destruct (decide (now - last_refill_ b = 0)) as [Hz|Hnz].
  { unfold refill in Hk'. rewrite Hz, seconds_nonpos, (ok_tokens _ _ _ _ Hok) in Hk' by lia.
    simplify_eq. pose proof (ok_burst_pos _ _ _ _ Hok). rewrite Hz. lia. }
  destruct (refill_tokens_le now b r u k k') as (e & He & Hep & Hk); [done..|lia|].
  pose proof (ok_rate_pos _ _ _ _ Hok). pose proof one_k_pos as HK.
  set (dt := now - last_refill_ b) in *.
  pose proof (rnd_error (e * r) one_k ltac:(lia)) as Hc. set (c := rnd (e * r) one_k) in *.
  assert (Hc1 : 2 ^ 53 * (c * one_k) ≤ (2 ^ 53 + 1) * (e * r) + 2 ^ 52 * one_k) by lia.
  assert (He1 : 2 ^ 53 * 1000000000 * (e * r) ≤ (2 ^ 53 + 1) * (dt * r) * one_k) by nia.
  assert (2 ^ 106 * 1000000000 * c ≤ (2 ^ 53 + 1) ^ 2 * (dt * r) + 2 ^ 105 * 1000000000).
  { apply Z.mul_le_mono_pos_r with one_k; [done|]. lia. }
  lia.
Qed.

Lemma take_cost b r u k k' :
  bucket_ok b r u k → one_k ≤ k → k' = rnd (k - one_k) 1 → 2 ^ 53 * (one_k + k' - k) ≤ u.
Proof.
  intros [] ? ->. pose proof (rnd_error_1 (k - one_k)). pose proof one_k_pos. lia.
Qed.

(** A client that calls [try_consume] at the given times; how often it succeeded. *)
Fixpoint run_try (times : list Z) (b : TokenBucket) : nat * TokenBucket :=
  match times with
  | [] => (0%nat, b)
  | t :: ts => let '(ok, b) := try_consume t b in
               let '(g, b) := run_try ts b in ((if ok then S g else g), b)
  end.

(** The clock of a sequence of calls: it never goes back, and two readings are at
    most [2^53] ns apart. *)
Fixpoint clock_ok (t0 : Z) (times : list Z) : Prop :=
  match times with [] => True | t :: ts => t0 ≤ t ≤ t0 + 2 ^ 53 ∧ clock_ok t ts end.

Lemma try_consume_gain t b r u k :
  bucket_ok b r u k → last_refill_ b ≤ t ≤ last_refill_ b + 2 ^ 53 →
  ∃ k', bucket_ok (try_consume t b).2 r u k' ∧ last_refill_ (try_consume t b).2 = t
    ∧ 2 ^ 106 * 1000000000 * ((if (try_consume t b).1 then one_k else 0) + k')
      ≤ 2 ^ 106 * 1000000000 * k + (2 ^ 53 + 1) ^ 2 * r * (t - last_refill_ b) + slack u.
Proof.
  intros Hok Ht. destruct (refill_ok t b r u k Hok) as (k1 & Hok1 & _ & Hl).
  pose proof (refill_gain_le t b r u k k1 Hok (ok_tokens _ _ _ _ Hok1) ltac:(lia)) as Hg.
  rewrite Z.max_l in Hl by lia. unfold try_consume, slack.
  pose proof (ok_burst_pos _ _ _ _ Hok).
  destruct (dltb (tokens_ (refill t b)) d1) eqn:E; cbn [fst snd].
  - exists k1. split_and!; [done..|]. lia.
  - destruct (take_ok _ _ _ _ Hok1 E) as (k2 & Hok2 & Hk2 & Hle).
    pose proof (take_cost _ _ _ _ _ Hok1 Hle Hk2).
    exists k2. split_and!; [done..|]. lia.
Qed.

Lemma run_try_bound times : ∀ b r u k g b',
  bucket_ok b r u k → clock_ok (last_refill_ b) times → run_try times b = (g, b') →
  ∃ k', 0 ≤ k' ∧
    2 ^ 106 * 1000000000 * (Z.of_nat g * one_k + k')
    ≤ 2 ^ 106 * 1000000000 * k
      + (2 ^ 53 + 1) ^ 2 * r * (List.last times (last_refill_ b) - last_refill_ b)
      + Z.of_nat (List.length times) * slack u.
Proof.
  induction times as [|t ts IH]; intros b r u k g b' Hok Hc Hr.
  { simplify_eq/=. exists k. pose proof (ok_range _ _ _ _ Hok). lia. }
  destruct Hc as [Ht Hc]. cbn [run_try] in Hr.
  destruct (try_consume_gain t b r u k Hok Ht) as (k1 & Hok1 & Hl1 & Hg).
  destruct (try_consume t b) as [ok b1]. cbn [fst snd] in *.
  destruct (run_try ts b1) as [g1 b2] eqn:E2.
  destruct (IH b1 r u k1 g1 b2 Hok1) as (k2 & Hk2 & Hb); [by rewrite Hl1|done|].
  rewrite Hl1 in Hb. exists k2. split; [done|].
  rewrite last_cons_default. cbn [List.length]. destruct ok; simplify_eq; lia.
Qed.

Lemma make_bucket_ok R B t0 :
  0 < R ≤ 2 ^ 53 → 0 < B ≤ 2 ^ 53 →
  make_bucket (d_of_Z R) (d_of_Z B) t0
    = Some (mkBucket (Fin (R * one_k)) (Fin (B * one_k)) (Fin (B * one_k)) t0)
  ∧ bucket_ok (mkBucket (Fin (R * one_k)) (Fin (B * one_k)) (Fin (B * one_k)) t0)
      (R * one_k) (B * one_k) (B * one_k).
Proof.
  intros HR HB. pose proof one_k_pos.
  pose proof (d_of_Z_valid R) as VR. pose proof (d_of_Z_valid B) as VB.
  rewrite (d_of_Z_small R), (d_of_Z_small B) in * by lia. split.
  - unfold make_bucket, d0. cbn [dltb dleb].
    destruct (Z.leb_spec (R * one_k) 0); [nia|]. destruct (Z.ltb_spec 0 (B * one_k)); [done|nia].
  - split; cbn [rate_ burst_ tokens_]; done || nia.
Qed.

(** The bound for whole-number rates and bursts, from any state of the bucket. *)
Lemma run_try_limit (R B k : Z) (times : list Z) (b b' : TokenBucket) (g : nat) :
  bucket_ok b (R * one_k) (B * one_k) k →
  0 < R ≤ 2 ^ 20 → 0 < B ≤ 2 ^ 20 → Z.of_nat (List.length times) ≤ 2 ^ 30 →
  clock_ok (last_refill_ b) times →
  List.last times (last_refill_ b) - last_refill_ b ≤ 2 ^ 53 →
  run_try times b = (g, b') →
  1000000000 * Z.of_nat g
    < 1000000000 * (B + 1) + R * (List.last times (last_refill_ b) - last_refill_ b).
Proof.
  intros Hok HR HB HN Hc HT Hr.
  destruct (run_try_bound times _ _ _ _ _ _ Hok Hc Hr) as (k' & Hk' & Hb).
  pose proof (ok_range _ _ _ _ Hok) as Hk.
  unfold slack in Hb. pose proof one_k_large as HK.
  set (T := List.last times _ - _) in *. set (N := Z.of_nat (List.length times)) in *.
  assert (HNB : 0 ≤ N * B ≤ 2 ^ 50) by nia. assert (HRT : R * T ≤ 2 ^ 73) by nia.
  assert (HN0 : 0 ≤ N) by lia.
  assert (Hb2 : 2 ^ 106 * 1000000000 * Z.of_nat g * one_k
     ≤ (2 ^ 106 * 1000000000 * B + (2 ^ 53 + 1) ^ 2 * (R * T) + 2 ^ 54 * 1000000000 * (N * B) + 2 ^ 60) * one_k)
    by lia.
  apply Z.mul_le_mono_pos_r in Hb2; [|lia]. lia.
Qed.

(** C10.  The limit the bucket exists for: with a rate of [R] tokens per second and a
    burst of [B] (whole numbers up to [2^20]), a client that makes up to [2^30] calls
    of [try_consume] over [T] nanoseconds (up to [2^53]) is granted fewer than
    [B + 1 + R·T/10^9] tokens; the binary64 roundings of every refill and
    subtraction together cost less than the one extra token. *)
Theorem try_consume_rate_limit (R B t0 : Z) (times : list Z) (b b' : TokenBucket) (g : nat) :
  0 < R ≤ 2 ^ 20 → 0 < B ≤ 2 ^ 20 → Z.of_nat (List.length times) ≤ 2 ^ 30 →
  make_bucket (d_of_Z R) (d_of_Z B) t0 = Some b →
  clock_ok t0 times → List.last times t0 - t0 ≤ 2 ^ 53 →
  run_try times b = (g, b') →
  1000000000 * Z.of_nat g < 1000000000 * (B + 1) + R * (List.last times t0 - t0).
Proof.
  intros HR HB HN Hm Hc HT Hr.
  destruct (make_bucket_ok R B t0 ltac:(lia) ltac:(lia)) as [Hm' Hok].
  rewrite Hm in Hm'. injection Hm' as ->. by apply (run_try_limit R B _ times _ b' g Hok).
Qed.

Lemma try_consume_rate_limit_witness :
  let b := mkBucket (d_of_Z 50) (d_of_Z 2) (d_of_Z 2) 0 in
  let times := [1; 2; 3; 20000000; 40000000] in
  1000000000 * Z.of_nat (run_try times b).1 < 1000000000 * (2 + 1) + 50 * 40000000.
Proof.
  intros b times.
  refine (try_consume_rate_limit 50 2 0 times b (run_try times b).2 (run_try times b).1 _ _ _ _ _ _ _).
  1-3: cbn; lia.
  1: vm_compute; reflexivity.
  1: subst times; cbn [clock_ok]; lia.
  1: subst times; cbn; lia.
  by destruct (run_try times b).
Defined.

(** ** Progress *)

(** A long enough gap gives a full token. *)
Lemma refill_full now b r u k :
  bucket_ok b r u k → one_k ≤ u →
  0 < now - last_refill_ b ≤ 2 ^ 53 →
  2 ^ 53 * 1000000000 * one_k ≤ (2 ^ 53 - 1) * (r * (now - last_refill_ b)) →
  dltb (tokens_ (refill now b)) d1 = false.
Proof.
  intros [Hr Hu Hk Hrp Hup Hkr Vr Vu Vk] Hu1 Hdt Hgap.
  destruct (seconds_fin _ Hdt) as (e & He & Hep & Hb). set (dt := now - last_refill_ b) in *.
  pose proof one_k_pos as HK. unfold refill. fold dt. rewrite He.
  assert (Hgt : dgtb (Fin e) d0 = true) by (by apply Z.ltb_lt). rewrite Hgt, Hk, Hr, Hu. cbn [tokens_].
  assert (Her : one_k * one_k ≤ e * r).
  { assert (H1 : (2 ^ 53 - 1) * (dt * one_k) ≤ 2 ^ 53 * (e * 1000000000)) by lia.
    assert (H2 : (2 ^ 53 - 1) * (dt * one_k) * r ≤ 2 ^ 53 * (e * 1000000000) * r) by nia. nia. }
  pose proof (rnd_ge_one (e * r) one_k HK Her) as Hc. unfold d1.
  destruct (dmul_nonneg e r) as [(c & Hm & _ & Hce)|Hm]; [lia..| |].
  - rewrite Hm, <-Hce in *. cbn [dadd].
    pose proof (rnd_ge_one (k + c) 1 ltac:(lia) ltac:(lia)) as Hs. pose proof overflow_k_pos.
    destruct (to_double_cases (k + c) 1) as [[-> ?]|[[? ->]|[? _]]]; [|by apply Z.ltb_ge|lia].
    cbn [dltb]. destruct (Z.ltb_spec u (rnd (k + c) 1)); by apply Z.ltb_ge.
  - rewrite Hm. by apply Z.ltb_ge.
Qed.

Lemma rate_gap R r dt :
  r = R * one_k → 1000000000 < R * dt →
  2 ^ 53 * 1000000000 * one_k ≤ (2 ^ 53 - 1) * (r * dt).
Proof.
  intros -> Hgap. pose proof one_k_pos.
  assert (2 ^ 53 * 1000000000 ≤ (2 ^ 53 - 1) * (R * dt)) by lia. nia.
Qed.

(** Progress: once more than [10^9/R] nanoseconds have passed since the last
    refill of a bucket of rate [R] and burst at least one, however empty it was,
    [try_consume] grants. *)
Theorem try_consume_grants (b : TokenBucket) (R u k now : Z) :
  bucket_ok b (R * one_k) u k → one_k ≤ u →
  0 < now - last_refill_ b ≤ 2 ^ 53 → 1000000000 < R * (now - last_refill_ b) →
  (try_consume now b).1 = true.
Proof.
  intros Hok Hu Hdt Hgap. unfold try_consume.
  by rewrite (refill_full now b _ u k) by eauto using rate_gap.
Qed.

Lemma try_consume_grants_witness :
  let b := mkBucket (Fin (50 * one_k)) (Fin (2 * one_k)) (Fin (0 * one_k)) 0 in
  (try_consume 20000001 b).1 = true.
Proof.
  pose proof one_k_pos. intros b.
  apply (try_consume_grants b 50 (2 * one_k) (0 * one_k)); subst b; cbn [last_refill_]; [|lia..].
  split; cbn [rate_ burst_ tokens_]; try done; try lia;
    rewrite <-d_of_Z_small by lia; apply d_of_Z_valid.
Defined.

Lemma consume_loop_returns fuel : ∀ clock i b R u k n,
  bucket_ok b (R * one_k) u k → one_k ≤ u → last_refill_ b = clock i →
  (∀ j, 0 ≤ clock (S j) - clock j ≤ 2 ^ 53) → (n < fuel)%nat →
  1000000000 < R * (clock (S (i + n)) - clock (i + n)%nat) →
  is_Some (consume_loop (S fuel) clock (λ _ b, b) i b).
Proof.
  induction fuel as [|fuel IH]; intros clock i b R u k n Hok Hu Hl Hc Hn Hgap; [lia|].
  remember (S fuel) as fuel1 eqn:Ef. cbn [consume_loop].
  destruct (dltb (tokens_ b) d1) eqn:E; [|eauto].
  match goal with |- context [refill _ ?x] => replace x with b by (by repeat case_match) end.
  destruct (refill_ok (clock (S i)) b _ u k Hok) as (k1 & Hok1 & _ & Hl1).
  rewrite Hl, Z.max_l in Hl1 by (specialize (Hc i); lia).
  destruct n as [|n].
  - rewrite Nat.add_0_r in Hgap. subst fuel1. cbn [consume_loop].
    assert (Hd : 0 < clock (S i) - clock i ≤ 2 ^ 53).
    { specialize (Hc i). destruct (decide (clock (S i) - clock i = 0)) as [Hz|]; [|lia].
      rewrite Hz in Hgap. lia. }
    rewrite <-Hl in Hd, Hgap. rewrite (refill_full (clock (S i)) b _ u k) by eauto using rate_gap.
    eauto.
  - subst fuel1. apply (IH clock (S i) _ R u k1 n); [done..|lia|].
    by rewrite Nat.add_succ_comm.
Qed.


