(* ===== verification/Ring.v ===== *)
(** * The lock-free latency ring of [metrics::MetricsCollector]

    [core/metrics/collector.cpp] and [include/cppload/metrics/collector.hpp]: the
    ring of [kRingCapacity] cells between [head_] and [tail_].

    First the ring on its own ([ring_push], [collect_ring_samples], [ring_reset]),
    which refines the list of the last [kRingCapacity] samples; then the push loop
    as a step relation for any number of threads, every load, compare-exchange and
    store a step of its own, with a ghost log of the recorded values. *)

From S2P Require Import Prelude.

Local Open Scope Z_scope.
Local Open Scope cpp_scope.

(** [src/include/cppload/metrics/collector.hpp:77-78] MetricsCollector::kRingCapacity *)
Definition kRingCapacity : Z := 1048576.
Definition kRingMask : Z := kRingCapacity - 1.

(** [src/core/metrics/collector.cpp:11-14] kMaxSnapshotSamples *)
Definition kMaxSnapshotSamples : Z := 100000.

(** [src/include/cppload/metrics/collector.hpp:72-75] MetricsCollector::Cell *)
Record Cell := mkCell { seq : Z; value : Z }.

(** [src/include/cppload/metrics/collector.hpp:80-86] MetricsCollector::ring_ *)
Record Ring := mkRing { head_ : Z; tail_ : Z; ring_ : gmap Z Cell }.

(** The constructor stores [i] in cell [i]; a cell not written since reads so. *)
(** [src/core/metrics/collector.cpp:17-25] MetricsCollector::MetricsCollector *)
Definition make_ring : Ring := mkRing 0 0 ∅.

Definition cell_at (r : Ring) (idx : Z) : Cell := default (mkCell idx 0) (ring_ r !! idx).

Definition slot (i : Z) : Z := Z.land i kRingMask.

Definition set_cell (idx : Z) (c : Cell) (r : Ring) : Ring :=
  mkRing (head_ r) (tail_ r) (<[idx := c]> (ring_ r)).

(** The push loop of [record_request] when no other thread touches the ring;
    [None]: more than [fuel] rounds. *)
(** [src/core/metrics/collector.cpp:62-90] MetricsCollector::record_request *)
Fixpoint ring_push_loop (fuel : nat) (t x : Z) (r : Ring) : option Ring :=
  match fuel with
  | O => None
  | S fuel' =>
      let h := head_ r in
      if kRingCapacity <=? u64 (t - h) then
        if negb (seq (cell_at r (slot h)) =? u64 (h + 1)) then ring_push_loop fuel' (tail_ r) x r
        else
          let r := mkRing (u64 (h + 1)) (tail_ r) (ring_ r) in
          ring_push_loop fuel' (tail_ r) x r
      else if t =? tail_ r then
        let r := mkRing (head_ r) (u64 (t + 1)) (ring_ r) in
        Some (set_cell (slot t) (mkCell (u64 (t + 1)) x) r)
      else ring_push_loop fuel' (tail_ r) x r
  end.

Definition ring_push (fuel : nat) (x : Z) (r : Ring) : option Ring :=
  ring_push_loop fuel (tail_ r) x r.

Fixpoint scan (n : nat) (i : Z) (r : Ring) : list Z :=
  match n with
  | O => []
  | S n' => let c := cell_at r (slot i) in
            if negb (seq c =? u64 (i + 1)) then [] else value c :: scan n' (u64 (i + 1)) r
  end.

(** [src/core/metrics/collector.cpp:137-162] MetricsCollector::collect_ring_samples *)
Definition collect_ring_samples (r : Ring) : list Z :=
  let h := head_ r in
  let t := tail_ r in
  if h <? t then
    let start := if kMaxSnapshotSamples <? t - h then t - kMaxSnapshotSamples else h in
    scan (Z.to_nat (t - start)) start r
  else [].

Fixpoint invalidate (n : nat) (i : Z) (r : Ring) : Ring :=
  match n with
  | O => r
  | S n' => let idx := slot i in
            invalidate n' (u64 (i + 1))
              (set_cell idx (mkCell (u64 (i + kRingCapacity)) (value (cell_at r idx))) r)
  end.

(** [src/core/metrics/collector.cpp:205-211] MetricsCollector::reset *)
Definition ring_reset (r : Ring) : Ring :=
  let h := head_ r in
  let t := tail_ r in
  let r := invalidate (Z.to_nat (t - h)) h r in
  mkRing t (tail_ r) (ring_ r).

(** ** Slots *)

Lemma slot_mod i : slot i = i `mod` kRingCapacity.
Proof. unfold slot, kRingMask. apply (Z.land_ones i 20). lia. Qed.

Lemma slot_inj i j : slot i = slot j → Z.abs (i - j) < kRingCapacity → i = j.
Proof.
  rewrite !slot_mod. intros E. assert (0 < kRingCapacity) by done.
  pose proof (Z.div_mod i kRingCapacity). pose proof (Z.div_mod j kRingCapacity).
  assert (Z.abs (i `div` kRingCapacity - j `div` kRingCapacity) < 1 ∨
          kRingCapacity ≤ Z.abs (i - j)) as [?|?] by nia; [|lia].
  intros. assert (i `div` kRingCapacity = j `div` kRingCapacity) as Hd by lia.
  rewrite Hd in *. lia.
Qed.

Lemma cell_at_set_eq r idx c : cell_at (set_cell idx c r) idx = c.
Proof. unfold cell_at. simpl. by rewrite lookup_insert_eq. Qed.

Lemma cell_at_set_ne r idx idx' c :
  idx ≠ idx' → cell_at (set_cell idx c r) idx' = cell_at r idx'.
Proof. intros. unfold cell_at. simpl. by rewrite lookup_insert_ne. Qed.

#[global] Opaque kRingCapacity kMaxSnapshotSamples slot.

Lemma capacity_val : kRingCapacity = 1048576.
Proof. reflexivity. Qed.

Lemma snapshot_val : kMaxSnapshotSamples = 100000.
Proof. reflexivity. Qed.

(** ** The ring alone is the list of its last samples *)

(** The samples between [head_] and [tail_], oldest first, all published. *)
Record ring_rep (r : Ring) (xs : list Z) : Prop := {
  rep_head : 0 ≤ head_ r;
  rep_tail : tail_ r = head_ r + Z.of_nat (List.length xs);
  rep_len : Z.of_nat (List.length xs) ≤ kRingCapacity;
  rep_cells : ∀ j x, xs !! j = Some x →
    cell_at r (slot (head_ r + Z.of_nat j)) = mkCell (head_ r + Z.of_nat j + 1) x
}.

(** What the ring promises: keep the newest [cap] samples. *)
Definition keep_last (n : Z) (xs : list Z) : list Z :=
  drop (Z.to_nat (Z.of_nat (List.length xs) - n)) xs.

Lemma make_ring_rep : ring_rep make_ring [].
Proof. split; try done. Qed.

Lemma ring_push_room r xs x fuel :
  ring_rep r xs → Z.of_nat (List.length xs) < kRingCapacity → tail_ r + 1 < 2 ^ 64 →
  ∃ r', ring_push_loop (S fuel) (tail_ r) x r = Some r' ∧ ring_rep r' (xs ++ [x])
        ∧ tail_ r' = tail_ r + 1.
Proof.
  intros [Hh Ht Hl Hc] Hroom H64. cbn [ring_push_loop].
  rewrite wrap_small by (pose proof capacity_val; lia).
  destruct (Z.leb_spec kRingCapacity (tail_ r - head_ r)); [lia|].
  rewrite Z.eqb_refl, wrap_small by lia. eexists. split; [done|]. split; [|done].
  split; cbn [head_ tail_ set_cell]; rewrite ?length_app; simpl; try lia.
  intros j y Hj. destruct (decide (j = List.length xs)) as [->|Hne].
  - rewrite list_lookup_middle in Hj by done. simplify_eq.
    rewrite <-Ht. apply cell_at_set_eq.
  - assert (Hlt : (j < List.length xs)%nat).
    { apply lookup_lt_Some in Hj. rewrite length_app in Hj. simpl in Hj. lia. }
    rewrite lookup_app_l in Hj by done. apply Hc in Hj.
    rewrite cell_at_set_ne; [done|]. intros E%slot_inj; lia.
Qed.

Lemma ring_evict r x0 xs :
  ring_rep r (x0 :: xs) → ring_rep (mkRing (head_ r + 1) (tail_ r) (ring_ r)) xs.
Proof.
  intros [Hh Ht Hl Hc]. cbn [List.length] in *. split; cbn [head_ tail_ ring_]; try lia.
  intros j y Hj. specialize (Hc (S j) y Hj).
  replace (head_ r + 1 + Z.of_nat j) with (head_ r + Z.of_nat (S j)) by lia. exact Hc.
Qed.

Lemma ring_push_rep r xs x fuel :
  ring_rep r xs → tail_ r + 1 < 2 ^ 64 →
  ∃ r', ring_push (S (S fuel)) x r = Some r'
        ∧ ring_rep r' (keep_last kRingCapacity (xs ++ [x])) ∧ tail_ r' = tail_ r + 1.
Proof.
  intros Hrep H64. pose proof Hrep as [Hh Ht Hl Hc]. unfold ring_push, keep_last.
  pose proof capacity_val as HC. rewrite length_app, Nat2Z.inj_add. cbn [List.length].
  destruct (decide (Z.of_nat (List.length xs) < kRingCapacity)) as [Hroom|Hfull].
  - replace (Z.to_nat _) with 0%nat by lia. by apply ring_push_room.
  - destruct xs as [|x0 xs]; [simpl in *; lia|]. cbn [List.length] in *.
    replace (Z.to_nat _) with 1%nat by lia.
    remember (S fuel) as fuel1 eqn:Ef. cbn [ring_push_loop].
    rewrite wrap_small by lia. destruct (Z.leb_spec kRingCapacity (tail_ r - head_ r)); [|lia].
    pose proof (Hc 0%nat x0 eq_refl) as H0. rewrite Z.add_0_r in H0. rewrite H0. cbn [seq].
    rewrite wrap_small, Z.eqb_refl by lia. cbn [negb]. subst fuel1.
    set (r1 := mkRing (head_ r + 1) (tail_ r) (ring_ r)).
    apply (ring_push_room r1 xs x fuel); [by apply ring_evict with x0|lia|done].
Qed.

Lemma scan_rep r xs : ∀ ys j,
  ring_rep r xs → tail_ r < 2 ^ 64 → ys = drop j xs →
  scan (List.length ys) (head_ r + Z.of_nat j) r = ys.
Proof.
  induction ys as [|y ys IH]; intros j Hrep H64 Hys; [done|]. pose proof Hrep as [Hh Ht Hl Hc].
  assert (Hj : xs !! j = Some y).
  { rewrite <-(Nat.add_0_r j), <-lookup_drop, <-Hys. done. }
  pose proof (lookup_lt_Some _ _ _ Hj) as Hlt.
  cbn [List.length scan]. rewrite (Hc j y Hj). cbn [seq value].
  rewrite !wrap_small, Z.eqb_refl by lia. cbn [negb]. f_equal.
  replace (head_ r + Z.of_nat j + 1) with (head_ r + Z.of_nat (S j)) by lia.
  apply IH; [done..|]. by rewrite <-Nat.add_1_r, <-drop_drop, <-Hys.
Qed.

Lemma keep_last_le n xs : Z.of_nat (List.length xs) ≤ n → keep_last n xs = xs.
Proof. intros. unfold keep_last. by replace (Z.to_nat _) with 0%nat by lia. Qed.

Lemma length_keep_last n xs :
  0 ≤ n → Z.of_nat (List.length (keep_last n xs)) = Z.min n (Z.of_nat (List.length xs)).
Proof. intros. unfold keep_last. rewrite length_drop. lia. Qed.

Lemma collect_rep r xs :
  ring_rep r xs → tail_ r < 2 ^ 64 → collect_ring_samples r = keep_last kMaxSnapshotSamples xs.
Proof.
  intros Hrep H64. pose proof Hrep as [Hh Ht Hl Hc]. unfold collect_ring_samples, keep_last.
  pose proof snapshot_val. destruct (Z.ltb_spec (head_ r) (tail_ r)).
  - set (j := Z.to_nat (Z.of_nat (List.length xs) - kMaxSnapshotSamples)).
    replace (if kMaxSnapshotSamples <? tail_ r - head_ r then tail_ r - kMaxSnapshotSamples else head_ r)
      with (head_ r + Z.of_nat j).
    2: { destruct (Z.ltb_spec kMaxSnapshotSamples (tail_ r - head_ r)); lia. }
    replace (Z.to_nat _) with (List.length (drop j xs)) by (rewrite length_drop; lia).
    by apply scan_rep with xs.
  - destruct xs; [done|]. simpl in *. lia.
Qed.

Lemma invalidate_frame n : ∀ i r,
  head_ (invalidate n i r) = head_ r ∧ tail_ (invalidate n i r) = tail_ r.
Proof. induction n as [|n IH]; intros i r; [done|]. simpl. by destruct (IH (u64 (i + 1)) (set_cell (slot i) {| seq := u64 (i + kRingCapacity); value := value (cell_at r (slot i)) |} r)) as [-> ->]. Qed.

Lemma reset_rep r xs : ring_rep r xs → ring_rep (ring_reset r) [] ∧ tail_ (ring_reset r) = tail_ r.
Proof.
  intros [Hh Ht Hl Hc]. unfold ring_reset.
  destruct (invalidate_frame (Z.to_nat (tail_ r - head_ r)) (head_ r) r) as [E1 E2].
  split; [|done]. split; cbn [head_ tail_ List.length]; rewrite ?E2; pose proof capacity_val; try lia.
  intros j x Hj. done.
Qed.

Lemma keep_last_app n m xs ys :
  0 ≤ n ≤ m → keep_last n (keep_last m xs ++ ys) = keep_last n (xs ++ ys).
Proof.
  intros Hn. unfold keep_last.
  set (k := Z.to_nat (Z.of_nat (List.length xs) - m)).
  destruct (decide (k = 0%nat)) as [->|Hk]; [done|].
  rewrite !length_app, length_drop.
  rewrite <-(drop_app_le xs ys k) by lia. rewrite drop_drop. f_equal. lia.
Qed.

Lemma keep_last_keep_last n m xs : 0 ≤ n ≤ m → keep_last n (keep_last m xs) = keep_last n xs.
Proof. intros. by rewrite <-(app_nil_r (keep_last m xs)), keep_last_app, app_nil_r. Qed.

(** Recording a sequence of samples one after the other. *)
Definition push_all (xs : list Z) (r : Ring) : option Ring :=
  foldl (λ o x, o ≫= ring_push 2 x) (Some r) xs.

Lemma push_all_rep xs : ∀ r ys,
  ring_rep r ys → ys = keep_last kRingCapacity ys → tail_ r + Z.of_nat (List.length xs) < 2 ^ 64 →
  ∃ r', push_all xs r = Some r' ∧ ring_rep r' (keep_last kRingCapacity (ys ++ xs))
        ∧ tail_ r' = tail_ r + Z.of_nat (List.length xs).
Proof.
  induction xs as [|x xs IH] using rev_ind; intros r ys Hrep Hk H64.
  - exists r. rewrite app_nil_r, <-Hk. simpl. split_and!; [done..|]. lia.
  - rewrite length_app in *. cbn [List.length] in *.
    destruct (IH r ys Hrep Hk ltac:(lia)) as (r1 & H1 & Hr1 & Ht1).
    destruct (ring_push_rep r1 _ x 0 Hr1 ltac:(lia)) as (r2 & H2 & Hr2 & Ht2).
    exists r2. unfold push_all in *. rewrite foldl_snoc, H1. split; [done|]. split; [|lia].
    by rewrite keep_last_app, <-app_assoc in Hr2 by (pose proof capacity_val; lia).
Qed.

(** A ring that one thread at a time records into refines the list of the
    samples: every push ends after at most one eviction, and the next snapshot copies
    exactly the last [kMaxSnapshotSamples] samples recorded since the last reset, in
    the order they were recorded, through any number of wrap-arounds of the ring. *)
Theorem ring_refines_list (before xs : list Z) (r0 : Ring) :
  push_all before make_ring = Some r0 →
  Z.of_nat (List.length before + List.length xs) < 2 ^ 64 →
  ∃ r, push_all xs (ring_reset r0) = Some r
       ∧ collect_ring_samples r = keep_last kMaxSnapshotSamples xs
       ∧ collect_ring_samples r0 = keep_last kMaxSnapshotSamples before.
Proof.
  intros H0 H64. pose proof capacity_val. pose proof snapshot_val.
  assert (Hn : [] = keep_last kRingCapacity []) by (by rewrite keep_last_le).
  destruct (push_all_rep before make_ring [] make_ring_rep Hn) as (r0' & H0' & Hr0 & Ht0);
    [simpl; lia|]. simplify_eq. simpl in Hr0, Ht0.
  destruct (reset_rep _ _ Hr0) as [Hrr Hrt].
  destruct (push_all_rep xs _ [] Hrr Hn) as (r & Hr & Hrep & Ht); [lia|].
  exists r. split; [done|].
  rewrite (collect_rep _ _ Hrep), (collect_rep _ _ Hr0) by lia.
  by rewrite !keep_last_keep_last by lia.
Qed.

Lemma ring_refines_list_witness :
  ∃ r0 r, push_all [7; 8] make_ring = Some r0 ∧ push_all [5; 9; 4] (ring_reset r0) = Some r
          ∧ collect_ring_samples r = [5; 9; 4].
Proof.
  destruct (push_all [7; 8] make_ring) as [r0|] eqn:E0; [|by vm_compute in E0].
  destruct (ring_refines_list [7; 8] [5; 9; 4] r0 E0) as (r & Hr & Hc & _); [simpl; lia|].
  exists r0, r. split_and!; [done..|]. exact Hc.
Defined.

(** ** The push loop with any number of threads *)

(** Where a thread recording [x] is in the loop of lines 62-90. *)
Inductive pc :=
  | Idle
  | LoadTail (x : Z)                 (* before [t = tail_.load()] *)
  | LoadHead (x t : Z)               (* before [h = head_.load()] *)
  | CheckSeq (x t h : Z)             (* full: before [ring_[old_idx].seq.load()] *)
  | CasHead (x t h : Z)              (* before the compare-exchange of [head_] *)
  | CasTail (x t : Z)                (* before the compare-exchange of [tail_] *)
  | WriteValue (x t : Z)             (* won ticket [t], before writing the value *)
  | Publish (x t : Z).               (* before [seq.store(t + 1)] *)

(** The shared ring, the threads, and a ghost log: the values in ticket order. *)
Record World := mkWorld { ring : Ring; threads : nat → pc; log : list Z }.

Definition at_pc (w : World) (i : nat) (p : pc) : World :=
  mkWorld (ring w) (λ j, if decide (j = i) then p else threads w j) (log w).

Definition with_ring (r : Ring) (w : World) : World := mkWorld r (threads w) (log w).

(** A load with a relaxed or acquire order may return an older value of a counter
    that only grows ([step_load_tail], [step_load_head]) or of the sequence number
    ([step_check_stale], and [step_check_ok] once [head_] has moved on); a
    compare-exchange acts on the current value and may fail spuriously. *)
(** [src/core/metrics/collector.cpp:62-90] MetricsCollector::record_request *)
Inductive ring_step : World → World → Prop :=
  | step_start w i x :
      threads w i = Idle → ring_step w (at_pc w i (LoadTail x))
  | step_load_tail w i x t :
      threads w i = LoadTail x → 0 ≤ t ≤ tail_ (ring w) →
      ring_step w (at_pc w i (LoadHead x t))
  | step_load_head_full w i x t h :
      threads w i = LoadHead x t → 0 ≤ h ≤ head_ (ring w) →
      kRingCapacity ≤ u64 (t - h) → ring_step w (at_pc w i (CheckSeq x t h))
  | step_load_head_room w i x t h :
      threads w i = LoadHead x t → 0 ≤ h ≤ head_ (ring w) →
      u64 (t - h) < kRingCapacity → ring_step w (at_pc w i (CasTail x t))
  | step_check_ok w i x t h :
      threads w i = CheckSeq x t h →
      seq (cell_at (ring w) (slot h)) = u64 (h + 1) ∨ h < head_ (ring w) →
      ring_step w (at_pc w i (CasHead x t h))
  | step_check_stale w i x t h :
      threads w i = CheckSeq x t h → ring_step w (at_pc w i (LoadTail x))
  | step_cas_head_ok w i x t h :
      threads w i = CasHead x t h → head_ (ring w) = h →
      ring_step w (at_pc (with_ring (mkRing (u64 (h + 1)) (tail_ (ring w)) (ring_ (ring w))) w)
                     i (LoadTail x))
  | step_cas_head_fail w i x t h :
      threads w i = CasHead x t h → ring_step w (at_pc w i (LoadTail x))
  | step_cas_tail_ok w i x t :
      threads w i = CasTail x t → tail_ (ring w) = t →
      ring_step w (at_pc (mkWorld (mkRing (head_ (ring w)) (u64 (t + 1)) (ring_ (ring w)))
                            (threads w) (log w ++ [x])) i (WriteValue x t))
  | step_cas_tail_fail w i x t :
      threads w i = CasTail x t → ring_step w (at_pc w i (LoadHead x (tail_ (ring w))))
  | step_write w i x t :
      threads w i = WriteValue x t →
      ring_step w
        (at_pc (with_ring (set_cell (slot t) (mkCell (seq (cell_at (ring w) (slot t))) x) (ring w)) w)
           i (Publish x t))
  | step_publish w i x t :
      threads w i = Publish x t →
      ring_step w
        (at_pc (with_ring (set_cell (slot t) (mkCell (u64 (t + 1)) (value (cell_at (ring w) (slot t))))
                             (ring w)) w) i Idle).

Definition initial_world : World := mkWorld make_ring (λ _, Idle) [].

(** The ticket a thread is writing. *)
Definition ticket (p : pc) : option Z :=
  match p with WriteValue _ t | Publish _ t => Some t | _ => None end.

(** What a thread at a program point may rely on. *)
Definition pc_ok (w : World) (p : pc) : Prop :=
  let r := ring w in
  match p with
  | Idle | LoadTail _ => True
  | LoadHead _ t => 0 ≤ t ≤ tail_ r
  | CheckSeq _ _ h => 0 ≤ h ≤ head_ r
  | CasHead _ _ h => 0 ≤ h < head_ r ∨ h = head_ r ∧ seq (cell_at r (slot h)) = h + 1
  | CasTail _ t => 0 ≤ t ≤ tail_ r ∧ t < head_ r + kRingCapacity
  | WriteValue x t => head_ r ≤ t < tail_ r ∧ seq (cell_at r (slot t)) ≠ t + 1
                      ∧ log w !! Z.to_nat t = Some x
  | Publish x t => head_ r ≤ t < tail_ r ∧ seq (cell_at r (slot t)) ≠ t + 1
                   ∧ log w !! Z.to_nat t = Some x ∧ value (cell_at r (slot t)) = x
  end.

Record world_inv (w : World) : Prop := {
  inv_window : 0 ≤ head_ (ring w) ≤ tail_ (ring w) ∧ tail_ (ring w) ≤ head_ (ring w) + kRingCapacity;
  inv_log : Z.of_nat (List.length (log w)) = tail_ (ring w);
  inv_future : ∀ k, tail_ (ring w) ≤ k → seq (cell_at (ring w) (slot k)) ≠ k + 1;
  inv_pc : ∀ i, pc_ok w (threads w i);
  inv_unique : ∀ i j t, ticket (threads w i) = Some t → ticket (threads w j) = Some t → i = j;
  inv_live : ∀ k, head_ (ring w) ≤ k < tail_ (ring w) →
    (∃ i, ticket (threads w i) = Some k)
    ∨ seq (cell_at (ring w) (slot k)) = k + 1
      ∧ log w !! Z.to_nat k = Some (value (cell_at (ring w) (slot k)))
}.

Lemma at_pc_self w i p : threads (at_pc w i p) i = p.
Proof. simpl. by rewrite decide_True. Qed.

Lemma at_pc_other w i j p : j ≠ i → threads (at_pc w i p) j = threads w j.
Proof. intros. simpl. by rewrite decide_False. Qed.

Lemma window_slot w a b :
  world_inv w → head_ (ring w) ≤ a < tail_ (ring w) → head_ (ring w) ≤ b < tail_ (ring w) →
  slot a = slot b → a = b.
Proof. intros [[? ?]] ? ? E. apply slot_inj in E; lia. Qed.

Lemma ticket_window w i t :
  world_inv w → ticket (threads w i) = Some t → head_ (ring w) ≤ t < tail_ (ring w).
Proof. intros Hi Ht. pose proof (inv_pc _ Hi i). destruct (threads w i); simplify_eq/=; tauto. Qed.

(** A thread moves without taking, giving up or writing a cell. *)
Lemma inv_move w i p :
  world_inv w → ticket (threads w i) = None → ticket p = None → pc_ok w p →
  world_inv (at_pc w i p).
Proof.
  intros Hi Ho Hp Hok. pose proof Hi as [Hw Hl Hf Hpc Hu Hv]. split; try done.
  - intros j. destruct (decide (j = i)) as [->|Hne].
    + rewrite at_pc_self. exact Hok.
    + rewrite at_pc_other by done. exact (Hpc j).
  - intros j k t. destruct (decide (j = i)) as [->|]; [rewrite at_pc_self; congruence|].
    destruct (decide (k = i)) as [->|]; [rewrite at_pc_self; congruence|].
    rewrite !at_pc_other by done. apply Hu.
  - intros k Hk. destruct (Hv k Hk) as [[j Hj]|]; [left|by right].
    exists j. rewrite at_pc_other; [done|]. intros ->. congruence.
Qed.

Lemma inv_cas_head w i x t h :
  world_inv w → threads w i = CasHead x t h → head_ (ring w) = h → tail_ (ring w) < 2 ^ 64 →
  world_inv (with_ring (mkRing (u64 (h + 1)) (tail_ (ring w)) (ring_ (ring w))) w).
Proof.
  intros Hi Hp <- H64. pose proof Hi as [[Hw1 Hw2] Hl Hf Hpc Hu Hv].
  pose proof (Hpc i) as Hpi. rewrite Hp in Hpi. destruct Hpi as [?|[_ Hseq]]; [lia|].
  assert (Hlt : head_ (ring w) < tail_ (ring w)).
  { destruct (decide (tail_ (ring w) ≤ head_ (ring w))); [|lia]. by destruct (Hf (head_ (ring w))). }
  assert (Hne : ∀ j k, ticket (threads w j) = Some k → k ≠ head_ (ring w)).
  { intros j k Hj ->. pose proof (Hpc j) as Hj'. destruct (threads w j); simplify_eq/=; tauto. }
  rewrite wrap_small by lia. split; cbn [ring with_ring head_ tail_ threads log]; try done.
  - lia.
  - intros j. specialize (Hpc j). pose proof (Hne j) as Hnj.
    destruct (threads w j); cbn [ticket pc_ok ring with_ring head_ tail_ log] in *; auto; try lia.
    + specialize (Hnj _ eq_refl). split; [lia|]. apply Hpc.
    + specialize (Hnj _ eq_refl). split; [lia|]. apply Hpc.
  - intros k Hk. apply Hv. lia.
Qed.

Lemma inv_cas_tail w i x t :
  world_inv w → threads w i = CasTail x t → tail_ (ring w) = t → t + 1 < 2 ^ 64 →
  world_inv (at_pc (mkWorld (mkRing (head_ (ring w)) (u64 (t + 1)) (ring_ (ring w)))
                      (threads w) (log w ++ [x])) i (WriteValue x t)).
Proof.
  intros Hi Hp <- H64. pose proof Hi as [[Hw1 Hw2] Hl Hf Hpc Hu Hv].
  pose proof (Hpc i) as Hpi. rewrite Hp in Hpi. cbn [pc_ok] in Hpi.
  rewrite wrap_small by lia.
  assert (Hlog : ∀ k y, log w !! k = Some y → (log w ++ [x]) !! k = Some y).
  { intros. by apply lookup_app_l_Some. }
  assert (Hlt : ∀ j k, ticket (threads w j) = Some k → k < tail_ (ring w)).
  { intros j k Hj. eapply ticket_window in Hj; [|done]. lia. }
  split; cbn [ring at_pc head_ tail_ log]; try lia.
  - rewrite length_app. simpl. lia.
  - intros k Hk. apply Hf. lia.
  - intros j. destruct (decide (j = i)) as [->|Hne].
    + rewrite at_pc_self. cbn. split; [lia|]. split; [apply Hf; lia|].
      rewrite <-Hl, Nat2Z.id. by rewrite list_lookup_middle.
    + rewrite at_pc_other by done. specialize (Hpc j).
      destruct (threads w j) eqn:Ej; cbn [threads pc_ok ring at_pc head_ tail_ log] in *; rewrite Ej;
        cbn [pc_ok ring at_pc head_ tail_ log]; auto; try lia.
      * destruct Hpc as (? & ? & ?). split_and!; [lia..|done|auto].
      * destruct Hpc as (? & ? & ? & ?). split_and!; [lia..|done|auto|done].
  - intros j k t. destruct (decide (j = i)) as [->|], (decide (k = i)) as [->|]; [done|..];
      rewrite ?at_pc_self, ?at_pc_other by done; cbn [threads ticket].
    + intros [= <-] Hk. apply Hlt in Hk. lia.
    + intros Hk [= <-]. apply Hlt in Hk. lia.
    + apply Hu.
  - intros k Hk. destruct (decide (k = tail_ (ring w))) as [->|].
    + left. exists i. by rewrite at_pc_self.
    + destruct (Hv k ltac:(lia)) as [[j Hj]|[? ?]]; [left|right; auto].
      exists j. rewrite at_pc_other; [done|]. intros ->. rewrite Hp in Hj. done.
Qed.

(** The thread that owns ticket [t] writes the cell of [t]: no other thread's and no
    other live sample's cell changes. *)
Lemma inv_write_cell w i x t c p :
  world_inv w → threads w i = WriteValue x t ∨ threads w i = Publish x t →
  (seq c = seq (cell_at (ring w) (slot t)) ∧ value c = x ∧ p = Publish x t)
  ∨ (seq c = t + 1 ∧ value c = x ∧ p = Idle) →
  world_inv (at_pc (with_ring (set_cell (slot t) c (ring w)) w) i p).
Proof.
  intros Hi Hp Hc. pose proof Hi as [[Hw1 Hw2] Hl Hf Hpc Hu Hv].
  assert (Hti : ticket (threads w i) = Some t) by (by destruct Hp as [-> | ->]).
  pose proof (ticket_window _ _ _ Hi Hti) as Ht.
  assert (Hpi : seq (cell_at (ring w) (slot t)) ≠ t + 1 ∧ log w !! Z.to_nat t = Some x).
  { pose proof (Hpc i) as Hpi. destruct Hp as [E|E]; rewrite E in Hpi; cbn in Hpi; tauto. }
  destruct Hpi as [Hns Hlog].
  assert (Hpt : ticket p = Some t ∨ p = Idle) by (destruct Hc as [(_ & _ & ->)|(_ & _ & ->)]; auto).
  set (r' := set_cell (slot t) c (ring w)).
  assert (Hsame : cell_at r' (slot t) = c) by apply cell_at_set_eq.
  assert (Hdiff : ∀ k, head_ (ring w) ≤ k < tail_ (ring w) → k ≠ t →
                  cell_at r' (slot k) = cell_at (ring w) (slot k)).
  { intros k Hk Hne. apply cell_at_set_ne. intros E. apply Hne. symmetry.
    by eapply window_slot. }
  split; cbn [ring at_pc with_ring head_ tail_ log];
    change (tail_ r') with (tail_ (ring w)); change (head_ r') with (head_ (ring w)); try done.
  - intros k Hk. destruct (decide (slot t = slot k)) as [E|E].
    + unfold r'. rewrite <-E, cell_at_set_eq. specialize (Hf k Hk). rewrite <-E in Hf.
      destruct Hc as [(-> & _)|(-> & _)]; [done|lia].
    + unfold r'. rewrite cell_at_set_ne by done. by apply Hf.
  - intros j. destruct (decide (j = i)) as [->|Hne].
    + rewrite at_pc_self. destruct Hc as [(Hs & Hv' & ->)|(_ & _ & ->)]; [|done].
      cbn. fold r'. rewrite Hsame, Hs. auto.
    + rewrite at_pc_other by done. cbn [threads with_ring].
      assert (Htj : ∀ k, ticket (threads w j) = Some k →
                cell_at r' (slot k) = cell_at (ring w) (slot k)).
      { intros k Hk. apply Hdiff; [by eapply ticket_window|]. intros ->. by eapply Hne, Hu. }
      specialize (Hpc j).
      destruct (threads w j) eqn:Ej; cbn [pc_ok ring at_pc with_ring head_ tail_ log] in *;
        fold r'; auto; try lia.
      * destruct Hpc as [?|[-> Hs]]; [by left|right]. split; [done|].
        destruct (decide (head_ (ring w) = t)) as [E|E]; [by rewrite E in Hs|].
        by rewrite Hdiff by lia.
      * by rewrite Htj.
      * by rewrite !Htj.
  - intros j k t'. destruct (decide (j = i)) as [->|], (decide (k = i)) as [->|]; [done|..];
      rewrite ?at_pc_self, ?at_pc_other by done; cbn [threads with_ring]; [..|apply Hu].
    + intros E. destruct Hpt as [Hpt| ->]; [|done]. simplify_eq. eauto.
    + intros Hk E. destruct Hpt as [Hpt| ->]; [|done]. simplify_eq. eauto.
  - intros k Hk. destruct (decide (k = t)) as [->|Hne].
    + destruct Hc as [(_ & _ & ->)|(Hs & Hv' & ->)].
      * left. exists i. by rewrite at_pc_self.
      * right. fold r'. rewrite Hsame, Hs, Hv'. done.
    + fold r'. rewrite Hdiff by done. destruct (Hv k Hk) as [[j Hj]|]; [left|by right].
      exists j. rewrite at_pc_other; [done|]. intros ->. congruence.
Qed.

Lemma ring_step_tail w w' : ring_step w w' → tail_ (ring w) + kRingCapacity < 2 ^ 64 →
  world_inv w → tail_ (ring w) ≤ tail_ (ring w') ≤ tail_ (ring w) + 1.
Proof.
  intros Hs H64 Hi. pose proof (inv_window _ Hi). pose proof capacity_val.
  destruct Hs; cbn [ring at_pc with_ring tail_ set_cell]; try lia. rewrite wrap_small; lia.
Qed.

Lemma ring_step_inv w w' :
  ring_step w w' → tail_ (ring w) + kRingCapacity < 2 ^ 64 → world_inv w → world_inv w'.
Proof.
  intros Hs H64 Hi. pose proof (inv_window _ Hi). pose proof capacity_val.
  destruct Hs as [w i x Hp|w i x t Hp Ht|w i x t h Hp Hh Hfull|w i x t h Hp Hh Hroom
    |w i x t h Hp Hseq|w i x t h Hp|w i x t h Hp Hh|w i x t h Hp|w i x t Hp Ht|w i x t Hp
    |w i x t Hp|w i x t Hp]; pose proof (inv_pc _ Hi i) as Hpc; rewrite Hp in Hpc; cbn in Hpc.
  - apply inv_move; by rewrite ?Hp.
  - apply inv_move; by rewrite ?Hp.
  - apply inv_move; by rewrite ?Hp.
  - apply inv_move; rewrite ?Hp; try done. cbn. split; [lia|].
    destruct (decide (h ≤ t)).
    + rewrite wrap_small in Hroom by lia. lia.
    + unfold wrap in Hroom. rewrite <-(Z_mod_plus_full _ 1), Z.mod_small in Hroom; lia.
  - apply inv_move; rewrite ?Hp; try done. cbn.
    destruct Hseq as [Hseq|]; [|lia]. rewrite wrap_small in Hseq by lia.
    destruct (decide (h = head_ (ring w))); [right; auto | left; lia].
  - apply inv_move; by rewrite ?Hp.
  - apply inv_move; [by eapply inv_cas_head; [..|lia]|by cbn; rewrite ?Hp|done|done].
  - apply inv_move; by rewrite ?Hp.
  - apply inv_cas_tail; auto. lia.
  - apply inv_move; rewrite ?Hp; try done. cbn. lia.
  - apply inv_write_cell with x; [done|by left|]. left. auto.
  - apply inv_write_cell with x; [done|by right|]. right. cbn [seq value].
    rewrite wrap_small by lia. tauto.
Qed.

Lemma initial_inv : world_inv initial_world.
Proof.
  pose proof capacity_val. split; cbn; try done; try lia.
  intros k Hk. rewrite slot_mod. assert (k `mod` kRingCapacity ≤ k) by (apply Z.mod_le; lia).
  unfold cell_at, initial_world, make_ring. simpl. rewrite lookup_empty. simpl. lia.
Qed.

Lemma ring_steps_inv n : ∀ w,
  nsteps ring_step n initial_world w → Z.of_nat n + kRingCapacity < 2 ^ 64 →
  world_inv w ∧ tail_ (ring w) ≤ Z.of_nat n.
Proof.
  induction n as [|n IH]; intros w Hn H64.
  - inversion Hn; subst. split; [apply initial_inv|done].
  - apply nsteps_inv_r in Hn as (w1 & Hn & Hs). destruct (IH w1 Hn ltac:(lia)) as [Hi Ht].
    split; [eapply ring_step_inv; [done|lia|done]|].
    pose proof (ring_step_tail w1 w Hs ltac:(lia) Hi). lia.
Qed.

(** C15.  No two threads ever write the same cell: in every interleaving of fewer
    than [2^64 - 2^20] steps, with stale loads and spurious failures, the tickets that
    are being written lie in the live window [head_, tail_), the window never exceeds
    the capacity, and different writers own different cells. *)
Theorem ring_writers_exclusive (n : nat) (w : World) (i j : nat) (a b : Z) :
  nsteps ring_step n initial_world w → Z.of_nat n + kRingCapacity < 2 ^ 64 →
  i ≠ j → ticket (threads w i) = Some a → ticket (threads w j) = Some b →
  slot a ≠ slot b
  ∧ head_ (ring w) ≤ a < tail_ (ring w) ∧ tail_ (ring w) ≤ head_ (ring w) + kRingCapacity.
Proof.
  intros Hn H64 Hij Ha Hb. destruct (ring_steps_inv n w Hn H64) as [Hi _].
  pose proof (ticket_window _ _ _ Hi Ha). pose proof (ticket_window _ _ _ Hi Hb).
  split; [|split; [done|apply (inv_window _ Hi)]].
  intros E. apply Hij. eapply (inv_unique _ Hi); [done|].
  by rewrite (window_slot w a b Hi).
Qed.

(** Threads 0 and 1 have both reached the write. *)
Definition two_writers : World :=
  let w := initial_world in
  let w := at_pc w 0 (LoadTail 5) in
  let w := at_pc w 0 (LoadHead 5 0) in
  let w := at_pc w 0 (CasTail 5 0) in
  let w := at_pc (mkWorld (mkRing 0 (u64 (0 + 1)) ∅) (threads w) [5]) 0 (WriteValue 5 0) in
  let w := at_pc w 1 (LoadTail 9) in
  let w := at_pc w 1 (LoadHead 9 1) in
  let w := at_pc w 1 (CasTail 9 1) in
  at_pc (mkWorld (mkRing 0 (u64 (1 + 1)) ∅) (threads w) [5; 9]) 1 (WriteValue 9 1).

Lemma two_writers_reached : nsteps ring_step 8 initial_world two_writers.
Proof.
  assert (H1 : u64 (0 - 0) < kRingCapacity) by (vm_compute; done).
  assert (H2 : u64 (1 - 0) < kRingCapacity) by (vm_compute; done).
  eapply nsteps_l; [by eapply (step_start _ 0 5)|].
  eapply nsteps_l; [by eapply (step_load_tail _ 0 5 0)|].
  eapply nsteps_l; [by eapply (step_load_head_room _ 0 5 0 0)|].
  eapply nsteps_l; [by eapply (step_cas_tail_ok _ 0 5 0)|].
  eapply nsteps_l; [by eapply (step_start _ 1 9)|].
  eapply nsteps_l; [by eapply (step_load_tail _ 1 9 1)|].
  eapply nsteps_l; [by eapply (step_load_head_room _ 1 9 1 0)|].
  eapply nsteps_l; [by eapply (step_cas_tail_ok _ 1 9 1)|]. apply nsteps_O.
Qed.

Lemma ring_writers_exclusive_witness : slot 0 ≠ slot 1.
Proof.
  refine (proj1 (ring_writers_exclusive 8 two_writers 0 1 0 1 two_writers_reached _ _ _ _)).
  - vm_compute. done.
  - done.
  - vm_compute. done.
  - vm_compute. done.
Defined.

(** C14.  The ring refines the log of everything the threads recorded: whenever no
    thread is between winning a ticket and publishing it, every cell of the window is
    published with the value of its ticket, so that a snapshot copies exactly the
    newest (at most [kMaxSnapshotSamples]) values of the window, in ticket order. *)
Theorem ring_refines_log (n : nat) (w : World) :
  nsteps ring_step n initial_world w → Z.of_nat n + kRingCapacity < 2 ^ 64 →
  (∀ i, ticket (threads w i) = None) →
  ring_rep (ring w) (drop (Z.to_nat (head_ (ring w))) (log w))
  ∧ collect_ring_samples (ring w)
    = keep_last kMaxSnapshotSamples (drop (Z.to_nat (head_ (ring w))) (log w)).
Proof.
  intros Hn H64 Hq. destruct (ring_steps_inv n w Hn H64) as [Hi Ht].
  pose proof Hi as [[Hw1 Hw2] Hl _ _ _ Hv].
  assert (Hrep : ring_rep (ring w) (drop (Z.to_nat (head_ (ring w))) (log w))).
  { split; rewrite ?length_drop; try lia. intros j x Hj.
    pose proof (lookup_lt_Some _ _ _ Hj) as Hlt. rewrite length_drop in Hlt.
    rewrite lookup_drop in Hj.
    destruct (Hv (head_ (ring w) + Z.of_nat j) ltac:(lia)) as [[i Hti]|[Hs Hx]]; [by rewrite Hq in Hti|].
    replace (Z.to_nat (head_ (ring w) + Z.of_nat j))
      with (Z.to_nat (head_ (ring w)) + j)%nat in Hx by lia.
    destruct (cell_at _ _) as [s v]. cbn in *. congruence. }
  split; [done|]. apply collect_rep; [done|lia].
Qed.

(** Thread 1 writes and publishes before thread 0 does. *)
Definition both_published : World :=
  let write i x t w :=
    let w := at_pc (with_ring (set_cell (slot t) (mkCell (seq (cell_at (ring w) (slot t))) x) (ring w)) w)
               i (Publish x t) in
    at_pc (with_ring (set_cell (slot t) (mkCell (u64 (t + 1)) (value (cell_at (ring w) (slot t))))
                        (ring w)) w) i Idle in
  write 0%nat 5 0 (write 1%nat 9 1 two_writers).

Lemma both_published_reached : nsteps ring_step 12 initial_world both_published.
Proof.
  apply (nsteps_trans 8 4 _ two_writers); [apply two_writers_reached|].
  eapply nsteps_l; [by eapply (step_write _ 1 9 1)|].
  eapply nsteps_l; [by eapply (step_publish _ 1 9 1)|].
  eapply nsteps_l; [by eapply (step_write _ 0 5 0)|].
  eapply nsteps_l; [by eapply (step_publish _ 0 5 0)|]. apply nsteps_O.
Qed.

Lemma ring_refines_log_witness : collect_ring_samples (ring both_published) = [5; 9].
Proof.
  refine (proj2 (ring_refines_log 12 both_published both_published_reached _ _)).
  - vm_compute. done.
  - intros [|[|i]]; done.
Defined.
