(* ===== verification/Collector.v ===== *)
(** * Request metrics: [metrics::MetricsCollector]

    [core/metrics/collector.cpp]: the counters, the minimum and maximum, the latency
    ring of [Ring.v] and the percentiles a snapshot takes from it by partitioning.
    Calls are taken one after the other here; the interleaving of the ring pushes is
    in [Ring.v]. *)

From stdpp Require Import sorting.
From S2P Require Import Prelude CppString Double Ring.

Local Open Scope Z_scope.
Local Open Scope cpp_scope.

(** ** Order statistics *)

(** What the code uses of [std::nth_element] on a range [l] with position [n]: the
    range is permuted so that position [n] holds a value with nothing greater before
    it and nothing smaller after it. *)
Class NthElement := {
  nth_element : nat → list Z → list Z;
  nth_element_perm n l : nth_element n l ≡ₚ l;
  nth_element_spec n l x : nth_element n l !! n = Some x →
    (∀ y, y ∈ take n (nth_element n l) → y ≤ x) ∧ (∀ y, y ∈ drop (S n) (nth_element n l) → x ≤ y)
}.

Lemma Sorted_lookup_le (l : list Z) i j x y :
  StronglySorted Z.le l → l !! i = Some x → l !! j = Some y → (i < j)%nat → x ≤ y.
Proof.
  intros Hs. revert i j. induction Hs as [|a l Hs IH Hall]; intros i j Hi Hj Hij; [done|].
  destruct j as [|j]; [lia|]. destruct i as [|i]; simplify_eq/=.
  - rewrite Forall_forall in Hall. apply Hall. by eapply list_elem_of_lookup_2.
  - apply (IH i j); [done..|lia].
Qed.

Lemma sort_sorted (l : list Z) : StronglySorted Z.le (merge_sort Z.le l).
Proof. apply StronglySorted_merge_sort; [|intros x y]; [intros x y z|]; lia. Qed.

(** Sorting the whole range is one such function. *)
#[global, refine] Instance sorting_nth_element : NthElement :=
  {| nth_element := λ _ l, merge_sort Z.le l |}.
Proof.
  - intros n l. apply merge_sort_Permutation.
  - intros n l x Hx. set (s := merge_sort Z.le l) in *.
    assert (Hs : StronglySorted Z.le s) by apply sort_sorted.
    split; intros y [j Hj]%list_elem_of_lookup.
    + apply lookup_take_Some in Hj as [Hj Hlt]. by eapply (Sorted_lookup_le s j n).
    + rewrite lookup_drop in Hj. eapply (Sorted_lookup_le s n (S n + j)); [done..|lia].
Defined.

(** The reference: the element at position [n] of the sorted samples. *)
Definition order_stat (n : nat) (l : list Z) : option Z := merge_sort Z.le l !! n.

Lemma merge_sort_unique (l s : list Z) : StronglySorted Z.le s → s ≡ₚ l → merge_sort Z.le l = s.
Proof.
  intros Hs Hp. apply (StronglySorted_unique Z.le); [apply sort_sorted|done|].
  by rewrite merge_sort_Permutation.
Qed.

(** A partitioned list sorts part by part. *)
Lemma merge_sort_partition (l1 l2 : list Z) x :
  (∀ y, y ∈ l1 → y ≤ x) → (∀ y, y ∈ l2 → x ≤ y) →
  merge_sort Z.le (l1 ++ x :: l2) = merge_sort Z.le l1 ++ x :: merge_sort Z.le l2.
Proof.
  intros H1 H2. apply merge_sort_unique.
  - apply StronglySorted_app. split_and!.
    + intros y z Hy Hz. rewrite merge_sort_Permutation in Hy. apply H1 in Hy.
      apply elem_of_cons in Hz as [->|Hz]; [done|].
      rewrite merge_sort_Permutation in Hz. apply H2 in Hz. lia.
    + apply sort_sorted.
    + apply StronglySorted_cons. split; [|apply sort_sorted].
      apply Forall_forall. intros z Hz. rewrite merge_sort_Permutation in Hz. by apply H2.
  - by rewrite !merge_sort_Permutation.
Qed.

Section nth_element.
Context `{NthElement}.

Lemma length_nth_element n l : List.length (nth_element n l) = List.length l.
Proof. apply Permutation_length, nth_element_perm. Qed.

Lemma nth_element_split n l :
  (n < List.length l)%nat →
  ∃ x, nth_element n l !! n = Some x
       ∧ merge_sort Z.le l = merge_sort Z.le (take n (nth_element n l))
                             ++ x :: merge_sort Z.le (drop (S n) (nth_element n l)).
Proof.
  intros Hn. rewrite <-(length_nth_element n l) in Hn.
  destruct (lookup_lt_is_Some_2 _ _ Hn) as [x Hx]. exists x. split; [done|].
  destruct (nth_element_spec n l x Hx) as [H1 H2].
  rewrite <-merge_sort_partition by done. rewrite take_drop_middle by done.
  apply merge_sort_unique; [apply sort_sorted|].
  by rewrite merge_sort_Permutation, nth_element_perm.
Qed.

(** Partitioning finds the order statistic. *)
Lemma nth_element_order_stat n l :
  (n < List.length l)%nat → nth_element n l !! n = order_stat n l.
Proof.
  intros Hn. destruct (nth_element_split n l Hn) as (x & -> & E). unfold order_stat. rewrite E.
  symmetry. apply list_lookup_middle. rewrite merge_sort_Permutation, length_take, length_nth_element. lia.
Qed.

(** A smaller position may be looked for in the left part only. *)
Lemma nth_element_left n m l :
  (n < m)%nat → (m < List.length l)%nat →
  nth_element n (take m (nth_element m l)) !! n = order_stat n l.
Proof.
  intros Hn Hm. assert (Hlen : List.length (take m (nth_element m l)) = m).
  { rewrite length_take, length_nth_element. lia. }
  rewrite nth_element_order_stat by lia. unfold order_stat.
  destruct (nth_element_split m l Hm) as (x & _ & ->).
  rewrite lookup_app_l; [done|]. rewrite merge_sort_Permutation. lia.
Qed.
End nth_element.

(** ** The collector *)

(** [src/include/cppload/metrics/collector.hpp:15-27] RequestMetrics *)
Record RequestMetrics := mkMetrics {
  m_total_requests : Z;
  m_successful_requests : Z;
  m_failed_requests : Z;
  m_total_bytes_sent : Z;
  m_total_bytes_received : Z;
  m_min_latency : Z;
  m_max_latency : Z;
  m_mean_latency_us : double;
  m_p95_latency_us : Z;
  m_p99_latency_us : Z
}.

(** [src/include/cppload/metrics/collector.hpp:57-70] MetricsCollector *)
Record MetricsCollector := mkCollector {
  total_requests_ : Z;
  successful_requests_ : Z;
  failed_requests_ : Z;
  total_bytes_sent_ : Z;
  total_bytes_received_ : Z;
  cumulative_latency_us_ : Z;
  min_latency_us_ : Z;
  max_latency_us_ : Z;
  start_time_ : Z;
  latency_ring : Ring
}.

(** [src/core/metrics/collector.cpp:8-10] kP95 *)
Definition kP95 : double := d_lit 95 100.
Definition kP99 : double := d_lit 99 100.
Definition kMinElapsedSeconds : double := d_lit 1 1000.

Definition make_collector (now : Z) : MetricsCollector :=
  mkCollector 0 0 0 0 0 0 INT64_MAX INT64_MIN now make_ring.

(** A status that counts as a success. *)
Definition is_success (status : Z) : bool := (200 <=? status) && (status <? 400).

#[global] Arguments is_success : simpl never.

(** One call, not overlapping another: the compare-exchange loops on the minimum and
    the maximum succeed at once, and two rounds of the ring's loop are enough
    ([record_request_Some] below). *)
(** [src/core/metrics/collector.cpp:29-91] MetricsCollector::record_request *)
Definition record_request (status_code latency bytes_sent bytes_received : Z)
    (c : MetricsCollector) : option MetricsCollector :=
  let ok := is_success status_code in
  r ← ring_push 2 latency (latency_ring c);
  Some (mkCollector
    (u64 (total_requests_ c + 1))
    (if ok then u64 (successful_requests_ c + 1) else successful_requests_ c)
    (if ok then failed_requests_ c else u64 (failed_requests_ c + 1))
    (u64 (total_bytes_sent_ c + bytes_sent))
    (u64 (total_bytes_received_ c + bytes_received))
    (u64 (cumulative_latency_us_ c + latency))
    (if latency <? min_latency_us_ c then latency else min_latency_us_ c)
    (if max_latency_us_ c <? latency then latency else max_latency_us_ c)
    (start_time_ c) r).

(** [static_cast<ptrdiff_t>(samples.size() * p)], capped to the last index; [None]
    when the conversion is undefined. *)
(** [src/core/metrics/collector.cpp:186-187] MetricsCollector::percentile *)
Definition pct_index (n : Z) (p : double) : option nat :=
  idx ← d_to_i64 (dmul (d_of_Z n) p);
  Some (Z.to_nat (Z.min idx (n - 1))).

Section snapshot.
Context `{NthElement}.

(** [src/core/metrics/collector.cpp:113-132] MetricsCollector::snapshot *)
Definition percentiles (samples : list Z) : option (Z * Z) :=
  match samples with
  | [] => Some (0, 0)
  | _ =>
      let n := Z.of_nat (List.length samples) in
      p95_idx ← pct_index n kP95;
      p99_idx ← pct_index n kP99;
      if (p95_idx <? p99_idx)%nat then
        let s := nth_element p99_idx samples in
        let s := nth_element p95_idx (take p99_idx s) ++ drop p99_idx s in
        p99 ← s !! p99_idx;
        p95 ← s !! p95_idx;
        Some (u64 p95, u64 p99)
      else
        let s := nth_element p95_idx samples in
        p99 ← s !! p95_idx;
        p95 ← s !! p95_idx;
        Some (u64 p95, u64 p99)
  end.

(** [src/core/metrics/collector.cpp:93-135] MetricsCollector::snapshot *)
Definition snapshot (c : MetricsCollector) : option RequestMetrics :=
  let total := total_requests_ c in
  let mean := if 0 <? total then ddiv (d_of_Z (cumulative_latency_us_ c)) (d_of_Z total)
              else Fin 0 in
  '(p95, p99) ← percentiles (collect_ring_samples (latency_ring c));
  Some (mkMetrics total (successful_requests_ c) (failed_requests_ c)
          (total_bytes_sent_ c) (total_bytes_received_ c)
          (min_latency_us_ c) (max_latency_us_ c) mean p95 p99).

(** [src/core/metrics/collector.cpp:181-190] MetricsCollector::percentile *)
Definition percentile (p : double) (c : MetricsCollector) : option Z :=
  if dltb p (Fin 0) || dgtb p (Fin one_k) then Some 0
  else
    let samples := collect_ring_samples (latency_ring c) in
    match samples with
    | [] => Some 0
    | _ => idx ← pct_index (Z.of_nat (List.length samples)) p;
           v ← nth_element idx samples !! idx;
           Some (u64 v)
    end.
End snapshot.

(** [src/core/metrics/collector.cpp:164-173] MetricsCollector::requests_per_second *)
Definition requests_per_second (now : Z) (c : MetricsCollector) : double :=
  let elapsed := ddiv (d_of_Z (now - start_time_ c)) (d_of_Z 1000000000) in
  if dltb elapsed kMinElapsedSeconds then Fin 0
  else ddiv (d_of_Z (total_requests_ c)) elapsed.

(** [src/core/metrics/collector.cpp:175-179] MetricsCollector::error_rate *)
Definition error_rate (c : MetricsCollector) : double :=
  if total_requests_ c =? 0 then Fin 0
  else dmul (ddiv (d_of_Z (failed_requests_ c)) (d_of_Z (total_requests_ c))) (d_of_Z 100).

(** [src/core/metrics/collector.cpp:192-212] MetricsCollector::reset *)
Definition reset (now : Z) (c : MetricsCollector) : MetricsCollector :=
  mkCollector 0 0 0 0 0 0 INT64_MAX INT64_MIN now (ring_reset (latency_ring c)).

(** ** Percentile indices *)

Lemma trunc_mono a b : a ≤ b → Z.quot a one_k ≤ Z.quot b one_k.
Proof. pose proof one_k_pos. intros. by apply Z.quot_le_mono. Qed.

(** For a factor between 0 and 1 the conversion is defined and the index is inside
    the samples. *)
Lemma pct_index_Some n p :
  0 < n ≤ 2 ^ 53 → dleb (Fin 0) p = true → dleb p (Fin one_k) = true →
  ∃ idx, pct_index n p = Some idx ∧ Z.of_nat idx ≤ n - 1
         ∧ ∃ k, dmul (d_of_Z n) p = Fin k ∧ Z.of_nat idx = Z.min (Z.quot k one_k) (n - 1).
Proof.
  intros Hn H0 H1. destruct p as [q|[]|]; try done. cbn [dleb] in H0, H1. reflect_bool.
  pose proof one_k_pos as HK. pose proof one_k_large.
  unfold pct_index. rewrite d_of_Z_small by lia. cbn [dmul].
  pose proof (rnd_mono 0 1 (n * one_k * q) one_k ltac:(lia) ltac:(lia) ltac:(nia)) as Hlo.
  rewrite rnd_0 in Hlo.
  pose proof (rnd_mono (n * one_k * q) one_k (n * one_k) 1 ltac:(lia) ltac:(lia) ltac:(nia)) as Hhi.
  rewrite (rnd_representable (n * one_k)) in Hhi by (apply representable_small; lia).
  assert (Hov : n * one_k < overflow_k) by (pose proof overflow_k_large; nia).
  destruct (to_double_cases (n * one_k * q) one_k) as [[-> ?]|[[? _]|[? _]]]; [|lia..].
  set (k := rnd (n * one_k * q) one_k) in *.
  assert (Hq : 0 ≤ Z.quot k one_k ≤ n).
  { split; [by apply Z.quot_pos|]. pose proof (trunc_mono k (n * one_k) Hhi) as Ht.
    by rewrite Z.quot_mul in Ht by lia. }
  unfold d_to_i64, d_to_int.
  replace ((INT64_MIN <=? k `quot` one_k) && (k `quot` one_k <=? INT64_MAX)) with true.
  2: { symmetry. unfold INT64_MIN, INT64_MAX. apply andb_true_intro. split; apply Z.leb_le; lia. }
  cbn [mbind option_bind]. eexists. split; [done|]. split; [lia|]. exists k. split; [done|]. lia.
Qed.

Lemma pct_index_mono n p p' i j :
  0 < n ≤ 2 ^ 53 → dleb (Fin 0) p = true → dleb p p' = true → dleb p' (Fin one_k) = true →
  pct_index n p = Some i → pct_index n p' = Some j → (i ≤ j)%nat.
Proof.
  intros Hn H0 Hle H1 Hi Hj.
  destruct (pct_index_Some n p Hn H0) as (i' & Hi' & _ & k & Hk & Ei); [by eapply dleb_trans|].
  destruct (pct_index_Some n p' Hn) as (j' & Hj' & _ & k' & Hk' & Ej); [by eapply dleb_trans|done|].
  simplify_eq. destruct p as [q|[]|], p' as [q'|[]|]; try done. cbn [dleb] in Hle. reflect_bool.
  rewrite d_of_Z_small in Hk, Hk' by lia. cbn [dmul] in Hk, Hk'. pose proof one_k_pos.
  assert (Hnk : 0 ≤ n * one_k) by nia.
  pose proof (to_double_mono (n * one_k * q) one_k (n * one_k * q') one_k ltac:(lia) ltac:(lia)
    (Z.mul_le_mono_nonneg_r _ _ one_k ltac:(lia) (Z.mul_le_mono_nonneg_l _ _ _ Hnk Hle))) as Hm.
  rewrite Hk, Hk' in Hm. cbn [dleb] in Hm. reflect_bool. pose proof (trunc_mono k k' Hm). lia.
Qed.

Lemma kP_range : dleb (Fin 0) kP95 = true ∧ dleb kP95 kP99 = true ∧ dleb kP99 (Fin one_k) = true.
Proof. by vm_compute. Qed.

#[global] Opaque kP95 kP99.

Section percentile_correct.
Context `{NthElement}.

Lemma percentiles_sorted samples :
  (0 < List.length samples)%nat → Z.of_nat (List.length samples) ≤ 2 ^ 53 →
  ∃ i j p95 p99,
    pct_index (Z.of_nat (List.length samples)) kP95 = Some i
    ∧ pct_index (Z.of_nat (List.length samples)) kP99 = Some j
    ∧ (i ≤ j < List.length samples)%nat
    ∧ order_stat i samples = Some p95 ∧ order_stat j samples = Some p99
    ∧ p95 ≤ p99 ∧ percentiles samples = Some (u64 p95, u64 p99).
Proof.
  intros Hpos Hlen. set (n := Z.of_nat (List.length samples)) in *.
  destruct kP_range as (H0 & H1 & H2).
  destruct (pct_index_Some n kP95) as (i & Hi & Hi' & _); [lia|exact H0|exact (dleb_trans _ _ _ H1 H2)|].
  destruct (pct_index_Some n kP99) as (j & Hj & Hj' & _); [lia|exact (dleb_trans _ _ _ H0 H1)|exact H2|].
  pose proof (pct_index_mono n kP95 kP99 i j ltac:(lia) H0 H1 H2 Hi Hj) as Hij.
  assert (Hls : List.length (merge_sort Z.le samples) = List.length samples)
    by (apply Permutation_length, merge_sort_Permutation).
  destruct (lookup_lt_is_Some_2 (merge_sort Z.le samples) i) as [p95 H95]; [lia|].
  destruct (lookup_lt_is_Some_2 (merge_sort Z.le samples) j) as [p99 H99]; [lia|].
  exists i, j, p95, p99. split_and!; [exact Hi|exact Hj|lia|lia|exact H95|exact H99| |].
  - destruct (decide (i = j)) as [->|]; [rewrite H95 in H99; injection H99; lia|].
    apply (Sorted_lookup_le _ i j _ _ (sort_sorted samples)); [done..|lia].
  - unfold percentiles. fold n. rewrite Hi, Hj. cbn [mbind option_bind].
    destruct samples as [|y samples]; [simpl in Hpos; lia|]. remember (y :: samples) as l eqn:El.
    destruct (Nat.ltb_spec i j).
    + assert (Hlt : List.length (take j (nth_element j l)) = j)
        by (rewrite length_take, length_nth_element; lia).
      rewrite (lookup_app_r _ _ j); rewrite length_nth_element, Hlt; [|lia].
      rewrite Nat.sub_diag, lookup_drop, Nat.add_0_r, nth_element_order_stat by lia.
      unfold order_stat at 1. rewrite H99. cbn [mbind option_bind].
      rewrite lookup_app_l by (rewrite length_nth_element; lia).
      rewrite nth_element_left by lia. unfold order_stat. by rewrite H95.
    + assert (i = j) as -> by lia. rewrite nth_element_order_stat by lia.
      unfold order_stat. rewrite H99. cbn [mbind option_bind]. congruence.
Qed.

(** For any partitioning function a standard library may use, the two-pass
    partition of a snapshot is defined, stays inside the samples and reports exactly
    the elements a full sort would put at the two percentile positions; p95 never
    exceeds p99. *)
Theorem snapshot_percentiles_sorted (samples : list Z) :
  (0 < List.length samples)%nat → Z.of_nat (List.length samples) ≤ kMaxSnapshotSamples →
  Forall (λ x, 0 ≤ x ≤ INT64_MAX) samples →
  ∃ i j p95 p99,
    pct_index (Z.of_nat (List.length samples)) kP95 = Some i
    ∧ pct_index (Z.of_nat (List.length samples)) kP99 = Some j
    ∧ order_stat i samples = Some p95 ∧ order_stat j samples = Some p99
    ∧ p95 ≤ p99 ∧ percentiles samples = Some (p95, p99).
Proof.
  intros Hpos Hlen Hall. pose proof snapshot_val.
  destruct (percentiles_sorted samples Hpos ltac:(lia))
    as (i & j & p95 & p99 & Hi & Hj & _ & H95 & H99 & Hle & Hp).
  exists i, j, p95, p99. rewrite Forall_forall in Hall.
  assert (Hin : ∀ k v, order_stat k samples = Some v → u64 v = v).
  { intros k v Hv%list_elem_of_lookup_2. rewrite merge_sort_Permutation in Hv.
    apply Hall in Hv. apply wrap_small. unfold INT64_MAX in Hv. lia. }
  by rewrite <-(Hin _ _ H95), <-(Hin _ _ H99) at 3.
Qed.

(** [percentile(p)] is 0 outside [0, 1] and on an empty window; inside it is
    the element of the sorted window at the capped position, whatever [p]. *)
Theorem percentile_order_stat (p : double) (c : MetricsCollector) (l : list Z) :
  collect_ring_samples (latency_ring c) = l → l ≠ [] →
  Z.of_nat (List.length l) ≤ kMaxSnapshotSamples →
  dleb (Fin 0) p = true → dleb p (Fin one_k) = true →
  ∃ idx v, pct_index (Z.of_nat (List.length l)) p = Some idx
           ∧ order_stat idx l = Some v ∧ percentile p c = Some (u64 v).
Proof.
  intros Hl Hne Hlen H0 H1. pose proof snapshot_val.
  assert (Hpos : (0 < List.length l)%nat) by (destruct l; [done|simpl; lia]).
  destruct (pct_index_Some (Z.of_nat (List.length l)) p) as (idx & Hi & Hb & _); [lia|done..|].
  assert (Hlt : (idx < List.length l)%nat) by lia.
  pose proof (nth_element_order_stat idx l Hlt) as Ho.
  destruct (lookup_lt_is_Some_2 (nth_element idx l) idx) as [v Hv]; [by rewrite length_nth_element|].
  exists idx, v. split; [done|]. split; [congruence|]. unfold percentile. rewrite Hl, !dleb_ltb_dual, H0, H1.
  2-5: by destruct p.
  cbn [negb orb]. rewrite Hi. destruct l; [done|]. cbn [mbind option_bind]. by rewrite Hv.
Qed.
End percentile_correct.

Lemma snapshot_percentiles_sorted_witness :
  ∃ i j p95 p99, order_stat i [30; 10; 20] = Some p95 ∧ order_stat j [30; 10; 20] = Some p99
    ∧ percentiles [30; 10; 20] = Some (p95, p99).
Proof.
  destruct (snapshot_percentiles_sorted [30; 10; 20])
    as (i & j & p95 & p99 & _ & _ & H1 & H2 & _ & H3).
  - simpl. lia.
  - rewrite snapshot_val. simpl. lia.
  - unfold INT64_MAX. repeat constructor; lia.
  - exists i, j, p95, p99. exact (conj H1 (conj H2 H3)).
Defined.

(** A collector whose ring holds two samples. *)
Definition two_samples : MetricsCollector :=
  mkCollector 2 2 0 0 0 18 5 9 0 (ring both_published).

Lemma percentile_order_stat_witness :
  ∃ idx v, order_stat idx [5; 9] = Some v ∧ percentile (d_of_Z 1) two_samples = Some (u64 v).
Proof.
  destruct (percentile_order_stat (d_of_Z 1) two_samples [5; 9]) as (idx & v & _ & H1 & H2).
  - vm_compute. reflexivity.
  - done.
  - rewrite snapshot_val. simpl. lia.
  - vm_compute. reflexivity.
  - vm_compute. reflexivity.
  - exists idx, v. exact (conj H1 H2).
Defined.

(** ** Error rate *)

(** The percentage of failures among [total] requests. *)
Lemma error_ratio_range failed total :
  0 ≤ failed ≤ total → 0 < total < 2 ^ 64 →
  ∃ k, dmul (ddiv (d_of_Z failed) (d_of_Z total)) (d_of_Z 100) = Fin k ∧ 0 ≤ k ≤ 100 * one_k.
Proof.
  intros Hf Ht. pose proof one_k_pos.
  destruct (d_of_Z_fin failed) as (a & Ha & _ & Ha0); [lia|].
  destruct (d_of_Z_fin total) as (b & Hb & Hb1 & _); [lia|].
  pose proof (d_of_Z_mono failed total ltac:(lia)) as Hle. rewrite Ha, Hb in *. cbn [dleb] in Hle.
  reflect_bool. destruct (ddiv_ratio a b) as (c & -> & Hc); [lia|nia|]. apply dmul_ratio; lia.
Qed.

(** ** The collector refines the list of what was recorded *)

Record Obs := mkObs { o_status : Z; o_latency : Z; o_sent : Z; o_received : Z }.

Definition record_obs (o : Obs) (c : MetricsCollector) : option MetricsCollector :=
  record_request (o_status o) (o_latency o) (o_sent o) (o_received o) c.

Definition record_all (os : list Obs) (c : MetricsCollector) : option MetricsCollector :=
  foldl (λ r o, r ≫= record_obs o) (Some c) os.

Definition zsum (f : Obs → Z) (os : list Obs) : Z := foldr (λ o n, f o + n) 0 os.
Definition successes (os : list Obs) : Z :=
  Z.of_nat (List.length (filter (λ o, is_success (o_status o) = true) os)).

(** The state of a collector that has recorded [os] since it was made or reset. *)
Record collector_rep (c : MetricsCollector) (os : list Obs) : Prop := {
  crep_total : total_requests_ c = Z.of_nat (List.length os);
  crep_ok : successful_requests_ c = successes os;
  crep_failed : failed_requests_ c = Z.of_nat (List.length os) - successes os;
  crep_sent : total_bytes_sent_ c = u64 (zsum o_sent os);
  crep_received : total_bytes_received_ c = u64 (zsum o_received os);
  crep_latency : cumulative_latency_us_ c = u64 (zsum o_latency os);
  crep_min : min_latency_us_ c = foldr Z.min INT64_MAX (o_latency <$> os);
  crep_max : max_latency_us_ c = foldr Z.max INT64_MIN (o_latency <$> os);
  crep_ring : ring_rep (latency_ring c) (keep_last kRingCapacity (o_latency <$> os))
}.

Lemma zsum_snoc f os o : zsum f (os ++ [o]) = zsum f os + f o.
Proof. induction os as [|a os IH]; simpl; [lia|]. rewrite IH. lia. Qed.

Lemma zsum_nonneg f os : (∀ o, o ∈ os → 0 ≤ f o) → 0 ≤ zsum f os.
Proof.
  induction os as [|o os IH]; intros Ho; simpl; [lia|].
  pose proof (Ho o ltac:(by left)). pose proof (IH (λ x Hx, Ho x ltac:(by right))). lia.
Qed.

Lemma successes_snoc os o :
  successes (os ++ [o]) = successes os + (if is_success (o_status o) then 1 else 0).
Proof.
  unfold successes. rewrite filter_app, length_app. unfold filter at 2. simpl.
  destruct (decide _); destruct (is_success (o_status o)); simpl; try done; lia.
Qed.

Lemma successes_range os : 0 ≤ successes os ≤ Z.of_nat (List.length os).
Proof. unfold successes. pose proof (length_filter (λ o, is_success (o_status o) = true) os). lia. Qed.

Lemma foldr_min_snoc l x d : foldr Z.min d (l ++ [x]) = Z.min (foldr Z.min d l) x.
Proof. induction l as [|a l IH]; simpl; [lia|]. rewrite IH. lia. Qed.

Lemma foldr_max_snoc l x d : foldr Z.max d (l ++ [x]) = Z.max (foldr Z.max d l) x.
Proof. induction l as [|a l IH]; simpl; [lia|]. rewrite IH. lia. Qed.

Lemma latencies_snoc os o : o_latency <$> os ++ [o] = (o_latency <$> os) ++ [o_latency o].
Proof. by rewrite fmap_app. Qed.

Lemma record_request_Some c os o :
  collector_rep c os → tail_ (latency_ring c) + 1 < 2 ^ 64 → Z.of_nat (List.length os) + 1 < 2 ^ 64 →
  ∃ c', record_obs o c = Some c' ∧ collector_rep c' (os ++ [o])
        ∧ tail_ (latency_ring c') = tail_ (latency_ring c) + 1.
Proof.
  intros [Ht Hok Hf Hs Hr Hl Hmin Hmax Hring] H64 Hn. pose proof capacity_val.
  destruct (ring_push_rep _ _ (o_latency o) 0 Hring H64) as (r' & Hp & Hrep & Htail).
  rewrite keep_last_app in Hrep by lia. pose proof (successes_range os).
  unfold record_obs, record_request. rewrite Hp. cbn [mbind option_bind].
  eexists. split; [reflexivity|]. split; [|exact Htail].
  split; cbn [total_requests_ successful_requests_ failed_requests_ total_bytes_sent_
    total_bytes_received_ cumulative_latency_us_ min_latency_us_ max_latency_us_ latency_ring];
    rewrite ?length_app, ?successes_snoc, ?zsum_snoc, ?latencies_snoc, ?foldr_min_snoc,
      ?foldr_max_snoc; cbn [List.length].
  - rewrite wrap_small; lia.
  - destruct (is_success _); [rewrite wrap_small|]; lia.
  - destruct (is_success _); [|rewrite wrap_small]; lia.
  - by rewrite Hs, wrap_add_l.
  - by rewrite Hr, wrap_add_l.
  - by rewrite Hl, wrap_add_l.
  - rewrite <-Hmin. destruct (Z.ltb_spec (o_latency o) (min_latency_us_ c)); lia.
  - rewrite <-Hmax. destruct (Z.ltb_spec (max_latency_us_ c) (o_latency o)); lia.
  - exact Hrep.
Qed.

Lemma record_all_rep os : ∀ c os0,
  collector_rep c os0 →
  tail_ (latency_ring c) + Z.of_nat (List.length os) < 2 ^ 64 →
  Z.of_nat (List.length os0) + Z.of_nat (List.length os) < 2 ^ 64 →
  ∃ c', record_all os c = Some c' ∧ collector_rep c' (os0 ++ os)
        ∧ tail_ (latency_ring c') = tail_ (latency_ring c) + Z.of_nat (List.length os).
Proof.
  induction os as [|o os IH] using rev_ind; intros c os0 Hrep H64 Hn.
  - exists c. rewrite app_nil_r. split_and!; [done..|]. simpl. lia.
  - rewrite length_app in *. cbn [List.length] in *.
    destruct (IH c os0 Hrep ltac:(lia) ltac:(lia)) as (c1 & H1 & Hr1 & Ht1).
    destruct (record_request_Some c1 (os0 ++ os) o Hr1 ltac:(lia)) as (c2 & H2 & Hr2 & Ht2);
      [rewrite length_app; lia|].
    exists c2. unfold record_all in *. rewrite foldl_snoc, H1. split; [done|].
    rewrite app_assoc. split; [done|lia].
Qed.

Lemma make_collector_rep now : collector_rep (make_collector now) [].
Proof. by split.  Qed.

Lemma reset_rep' now c os : collector_rep c os → collector_rep (reset now c) [].
Proof.
  intros [? ? ? ? ? ? ? ? Hring]. split; try done. apply (reset_rep _ _ Hring).
Qed.

Section refinement.
Context `{NthElement}.

Lemma snapshot_rep c os :
  collector_rep c os → tail_ (latency_ring c) < 2 ^ 64 →
  ∃ m, snapshot c = Some m
    ∧ m_total_requests m = Z.of_nat (List.length os)
    ∧ m_successful_requests m = successes os
    ∧ m_failed_requests m = Z.of_nat (List.length os) - successes os
    ∧ m_total_bytes_sent m = u64 (zsum o_sent os)
    ∧ m_total_bytes_received m = u64 (zsum o_received os)
    ∧ m_min_latency m = foldr Z.min INT64_MAX (o_latency <$> os)
    ∧ m_max_latency m = foldr Z.max INT64_MIN (o_latency <$> os)
    ∧ percentiles (keep_last kMaxSnapshotSamples (o_latency <$> os))
      = Some (m_p95_latency_us m, m_p99_latency_us m).
Proof.
  intros [Ht Hok Hf Hs Hr Hl Hmin Hmax Hring] H64.
  pose proof snapshot_val. pose proof capacity_val.
  pose proof (collect_rep _ _ Hring H64) as Hc. rewrite keep_last_keep_last in Hc by lia.
  set (w := keep_last kMaxSnapshotSamples (o_latency <$> os)) in *.
  assert (Hp : ∃ p95 p99, percentiles w = Some (p95, p99)).
  { destruct w as [|x w'] eqn:Ew; [by exists 0, 0|]. rewrite <-Ew.
    destruct (percentiles_sorted w) as (_ & _ & p95 & p99 & _ & _ & _ & _ & _ & _ & Hp).
    - rewrite Ew. simpl. lia.
    - subst w. rewrite length_keep_last by lia. lia.
    - eauto. }
  destruct Hp as (p95 & p99 & Hp). unfold snapshot. rewrite Hc, Hp. cbn [mbind option_bind].
  eexists. split; [reflexivity|]. cbn. auto 20.
Qed.

(** C16.  The collector refines the list of requests it was told about, for any
    history before its last [reset] and up to [2^64] requests in all: every call
    returns, no request is lost or counted twice (totals, successes and failures
    are exact and add up; byte totals are the sums modulo [2^64]), the extremes are
    those of the list, and the percentiles are taken from its newest
    [kMaxSnapshotSamples] latencies. *)
Theorem collector_refines_list (before os : list Obs) (t0 t1 : Z) (c0 : MetricsCollector) :
  record_all before (make_collector t0) = Some c0 →
  Z.of_nat (List.length before + List.length os) < 2 ^ 64 →
  ∃ c m, record_all os (reset t1 c0) = Some c ∧ snapshot c = Some m
    ∧ m_total_requests m = Z.of_nat (List.length os)
    ∧ m_successful_requests m = successes os
    ∧ m_successful_requests m + m_failed_requests m = m_total_requests m
    ∧ m_total_bytes_sent m = u64 (zsum o_sent os)
    ∧ m_total_bytes_received m = u64 (zsum o_received os)
    ∧ m_min_latency m = foldr Z.min INT64_MAX (o_latency <$> os)
    ∧ m_max_latency m = foldr Z.max INT64_MIN (o_latency <$> os)
    ∧ percentiles (keep_last kMaxSnapshotSamples (o_latency <$> os))
      = Some (m_p95_latency_us m, m_p99_latency_us m).
Proof.
  intros H0 Hn.
  destruct (record_all_rep before _ [] (make_collector_rep t0)) as (c0' & H0' & Hr0 & Ht0);
    [simpl; lia..|]. rewrite H0 in H0'. injection H0' as <-. simpl in Hr0, Ht0.
  destruct (reset_rep _ _ (crep_ring _ _ Hr0)) as [_ Hrt].
  change (tail_ (latency_ring (reset t1 c0)) = tail_ (latency_ring c0)) in Hrt.
  destruct (record_all_rep os _ [] (reset_rep' t1 _ _ Hr0)) as (c & Hc & Hr & Ht);
    [rewrite Hrt; lia|simpl; lia|]. rewrite Hrt in Ht. cbn [app] in Hr.
  destruct (snapshot_rep c os Hr) as (m & Hm & E1 & E2 & E3 & Hrest); [lia|].
  exists c, m. split_and!; try apply Hrest; [done..|lia].
Qed.
End refinement.

Lemma collector_refines_list_witness :
  ∃ c m, record_all [mkObs 200 7 10 20; mkObs 500 3 1 2] (reset 5 (make_collector 0)) = Some c
         ∧ snapshot c = Some m ∧ m_total_requests m = 2 ∧ m_min_latency m = 3.
Proof.
  destruct (collector_refines_list [] [mkObs 200 7 10 20; mkObs 500 3 1 2] 0 5 (make_collector 0))
    as (c & m & H1 & H2 & H3 & _ & _ & _ & _ & H8 & _); [done|simpl; lia|].
  exists c, m. exact (conj H1 (conj H2 (conj H3 H8))).
Defined.

(** Whatever was recorded, [error_rate] is a finite percentage between 0 and 100
    (and 0 when nothing was recorded). *)
Theorem error_rate_range (os : list Obs) (t0 : Z) (c : MetricsCollector) :
  record_all os (make_collector t0) = Some c → Z.of_nat (List.length os) < 2 ^ 64 →
  ∃ k, error_rate c = Fin k ∧ 0 ≤ k ≤ 100 * one_k ∧ (os = [] → k = 0).
Proof.
  intros Hc Hn. pose proof one_k_pos.
  destruct (record_all_rep os _ [] (make_collector_rep t0)) as (c' & Hc' & Hr & _); [simpl; lia..|].
  rewrite Hc in Hc'. injection Hc' as <-. destruct Hr as [Ht _ Hf _ _ _ _ _ _]. simpl in Ht, Hf.
  pose proof (successes_range os). unfold error_rate. rewrite Ht, Hf.
  destruct (Z.eqb_spec (Z.of_nat (List.length os)) 0) as [Hz|Hz].
  - exists 0. split; [done|]. split; [lia|done].
  - destruct (error_ratio_range (Z.of_nat (List.length os) - successes os) (Z.of_nat (List.length os)))
      as (k & -> & Hk); [lia..|]. exists k. split; [done|]. split; [done|]. intros ->. by simpl in Hz.
Qed.

Lemma error_rate_range_witness :
  ∃ c k, record_all [mkObs 200 7 10 20; mkObs 500 3 1 2] (make_collector 0) = Some c
         ∧ error_rate c = Fin k ∧ 0 ≤ k ≤ 100 * one_k.
Proof.
  destruct (record_all [mkObs 200 7 10 20; mkObs 500 3 1 2] (make_collector 0)) as [c|] eqn:E;
    [|by vm_compute in E].
  destruct (error_rate_range _ 0 c E) as (k & H1 & H2 & _); [simpl; lia|].
  exists c, k. exact (conj eq_refl (conj H1 H2)).
Defined.
