(* ===== verification/Sharded.v ===== *)
(** * Sharded metrics: [metrics::ShardedMetricsCollector]

    [core/metrics/sharded_collector.cpp]: per-thread shards of counters, summed by a
    snapshot, and one bounded window of raw latencies under a mutex for the
    percentiles.  The thread-local shard index and the process-wide shard counter are
    explicit state ([Process]). *)

From stdpp Require Import sorting.
From S2P Require Import Prelude CppString Double Constants Ring Collector.

Local Open Scope Z_scope.
Local Open Scope cpp_scope.

(** [src/include/cppload/metrics/sharded_collector.hpp:51-54] kMaxShards *)
Definition kMaxShards : Z := 128.
Definition kMaxLatencySamples : Z := 8192.

(** [src/include/cppload/metrics/sharded_collector.hpp:57-66] ShardedMetricsCollector::Shard *)
Record Shard := mkShard {
  requests : Z;
  successful : Z;
  failed : Z;
  bytes_sent : Z;
  bytes_received : Z;
  latency_sum_us : Z;
  min_latency_us : Z;
  max_latency_us : Z
}.

Definition empty_shard : Shard := mkShard 0 0 0 0 0 0 INT64_MAX INT64_MIN.

(** [src/include/cppload/metrics/sharded_collector.hpp:74-88] ShardedMetricsCollector *)
Record ShardedCollector := mkSharded {
  shards_ : list Shard;
  latency_samples_ : list Z;
  samples_head_ : Z;
  samples_count_ : Z;
  rps_count_ : Z;
  rps_window_start_ : Z
}.

(** [src/include/cppload/metrics/sharded_collector.hpp:68-69] t_shard_index *)
Record Process := mkProcess { t_shard_index : gmap nat Z; s_next_shard : Z }.

(** [src/include/cppload/metrics/sharded_collector.hpp:16-27] ShardedMetrics *)
Record ShardedMetrics := mkShardedMetrics {
  sm_total_requests : Z;
  sm_successful_requests : Z;
  sm_failed_requests : Z;
  sm_total_bytes_sent : Z;
  sm_total_bytes_received : Z;
  sm_mean_latency_us : double;
  sm_min_latency_us : Z;
  sm_max_latency_us : Z;
  sm_p95_latency_us : Z;
  sm_p99_latency_us : Z
}.

(** [src/core/metrics/sharded_collector.cpp:15-18] ShardedMetricsCollector::ShardedMetricsCollector *)
Definition num_shards (hardware_concurrency : Z) : Z :=
  Z.min kMaxShards (Z.max kMinShards (hardware_concurrency * 2)).

(** [src/core/metrics/sharded_collector.cpp:15-22] ShardedMetricsCollector::ShardedMetricsCollector *)
Definition make_sharded (hardware_concurrency now : Z) : ShardedCollector :=
  mkSharded (replicate (Z.to_nat (num_shards hardware_concurrency)) empty_shard)
    (replicate (Z.to_nat kMaxLatencySamples) 0) 0 0 0 now.

(** [src/core/metrics/sharded_collector.cpp:26-31] ShardedMetricsCollector::get_shard_index *)
Definition get_shard_index (n : Z) (tid : nat) (p : Process) : Z * Process :=
  match t_shard_index p !! tid with
  | Some i => (i, p)
  | None => let i := s_next_shard p `mod` n in
            (i, mkProcess (<[tid := i]> (t_shard_index p)) (u64 (s_next_shard p + 1)))
  end.

(** [src/core/metrics/sharded_collector.cpp:43-57] ShardedMetricsCollector::record_request *)
Definition add_latency (lat sum : Z) : Z :=
  if lat <=? 0 then sum
  else if UINT64_MAX - lat <? sum then UINT64_MAX else sum + lat.

(** [src/core/metrics/sharded_collector.cpp:40-76] ShardedMetricsCollector::record_request *)
Definition record_shard (status_code latency sent received : Z) (s : Shard) : Shard :=
  let ok := is_success status_code in
  let lat_val := if latency <? 0 then 0 else latency in
  mkShard (u64 (requests s + 1))
    (if ok then u64 (successful s + 1) else successful s)
    (if ok then failed s else u64 (failed s + 1))
    (u64 (bytes_sent s + sent)) (u64 (bytes_received s + received))
    (add_latency latency (latency_sum_us s))
    (if lat_val <? min_latency_us s then lat_val else min_latency_us s)
    (if max_latency_us s <? lat_val then lat_val else max_latency_us s).

(** [src/core/metrics/sharded_collector.cpp:78-85] ShardedMetricsCollector::record_request *)
Definition record_sample (latency : Z) (c : ShardedCollector) : ShardedCollector :=
  let lat_val := if latency <? 0 then 0 else latency in
  mkSharded (shards_ c)
    (<[Z.to_nat (samples_head_ c) := lat_val]> (latency_samples_ c))
    ((samples_head_ c + 1) `mod` kMaxLatencySamples)
    (if samples_count_ c <? kMaxLatencySamples then samples_count_ c + 1 else samples_count_ c)
    (u64 (rps_count_ c + 1)) (rps_window_start_ c).

(** [src/core/metrics/sharded_collector.cpp:33-86] ShardedMetricsCollector::record_request *)
Definition record_request (tid : nat) (status_code latency sent received : Z)
    (pc : Process * ShardedCollector) : Process * ShardedCollector :=
  let '(p, c) := pc in
  let '(idx, p) := get_shard_index (Z.of_nat (List.length (shards_ c))) tid p in
  let shards := alter (record_shard status_code latency sent received) (Z.to_nat idx) (shards_ c) in
  let c := mkSharded shards (latency_samples_ c) (samples_head_ c) (samples_count_ c)
             (rps_count_ c) (rps_window_start_ c) in
  (p, record_sample latency c).

(** Unsigned accumulation over the shards. *)
Definition sum_shards (f : Shard → Z) (ss : list Shard) : Z :=
  foldl (λ acc s, u64 (acc + f s)) 0 ss.

(** [src/core/metrics/sharded_collector.cpp:118-133] ShardedMetricsCollector::snapshot *)
Definition sample_window (c : ShardedCollector) : list Z :=
  if samples_count_ c =? kMaxLatencySamples then
    drop (Z.to_nat (samples_head_ c)) (latency_samples_ c)
      ++ take (Z.to_nat (samples_head_ c)) (latency_samples_ c)
  else take (Z.to_nat (samples_count_ c)) (latency_samples_ c).

(** [src/core/metrics/sharded_collector.cpp:136-142] ShardedMetricsCollector::snapshot *)
Definition nearest_rank (pct : Z) (n : Z) : nat := Z.to_nat ((n * pct + 99) `div` 100 - 1).

(** [None] would be an access past the end of the sorted samples. *)
(** [src/core/metrics/sharded_collector.cpp:88-146] ShardedMetricsCollector::snapshot *)
Definition snapshot (c : ShardedCollector) : option ShardedMetrics :=
  let ss := shards_ c in
  let total := sum_shards requests ss in
  let total_latency_sum := sum_shards latency_sum_us ss in
  let global_min := foldl (λ m s, if min_latency_us s <? m then min_latency_us s else m) INT64_MAX ss in
  let global_max := foldl (λ m s, if m <? max_latency_us s then max_latency_us s else m) INT64_MIN ss in
  let mean := if 0 <? total then ddiv (d_of_Z total_latency_sum) (d_of_Z total) else Fin 0 in
  let minl := if global_min =? INT64_MAX then 0 else u64 global_min in
  let maxl := if global_max =? INT64_MIN then 0 else u64 global_max in
  let sorted := if 0 <? total then merge_sort Z.le (sample_window c) else [] in
  let n := Z.of_nat (List.length sorted) in
  '(p95, p99) ← (if 0 <? n then
                   p95 ← sorted !! nearest_rank 95 n;
                   p99 ← sorted !! nearest_rank 99 n;
                   Some (p95, p99)
                 else Some (0, 0));
  Some (mkShardedMetrics total (sum_shards successful ss) (sum_shards failed ss)
          (sum_shards bytes_sent ss) (sum_shards bytes_received ss) mean minl maxl p95 p99).

(** [src/core/metrics/sharded_collector.cpp:148-165] ShardedMetricsCollector::requests_per_second *)
Definition requests_per_second (now : Z) (c : ShardedCollector) : double * ShardedCollector :=
  let elapsed := ddiv (d_of_Z (now - rps_window_start_ c)) (d_of_Z 1000000000) in
  if dleb elapsed (Fin 0) then (Fin 0, c)
  else if dgeb elapsed (d_of_Z 1) then
    (ddiv (d_of_Z (rps_count_ c)) elapsed,
     mkSharded (shards_ c) (latency_samples_ c) (samples_head_ c) (samples_count_ c) 0 now)
  else (ddiv (d_of_Z (rps_count_ c)) elapsed, c).

(** [src/core/metrics/sharded_collector.cpp:167-177] ShardedMetricsCollector::error_rate *)
Definition error_rate (c : ShardedCollector) : double :=
  let total := sum_shards requests (shards_ c) in
  let failed := sum_shards failed (shards_ c) in
  if total =? 0 then Fin 0 else dmul (ddiv (d_of_Z failed) (d_of_Z total)) (d_of_Z 100).

(** [src/core/metrics/sharded_collector.cpp:179-201] ShardedMetricsCollector::reset *)
Definition reset (now : Z) (c : ShardedCollector) : ShardedCollector :=
  mkSharded ((λ _, empty_shard) <$> shards_ c) (latency_samples_ c) 0 0 0 now.

#[global] Opaque kMaxLatencySamples.

Lemma max_samples_val : kMaxLatencySamples = 8192.
Proof. reflexivity. Qed.

(** ** The window of latencies *)

Definition clip (x : Z) : Z := if x <? 0 then 0 else x.

(** The window holds [xs], oldest first. *)
Record window_rep (c : ShardedCollector) (xs : list Z) : Prop := {
  wr_buf : Z.of_nat (List.length (latency_samples_ c)) = kMaxLatencySamples;
  wr_head : 0 ≤ samples_head_ c < kMaxLatencySamples;
  wr_count : samples_count_ c = Z.of_nat (List.length xs);
  wr_len : Z.of_nat (List.length xs) ≤ kMaxLatencySamples;
  wr_fill : Z.of_nat (List.length xs) < kMaxLatencySamples →
            samples_head_ c = Z.of_nat (List.length xs);
  wr_window : sample_window c = xs
}.

Lemma take_insert_next (l : list Z) n x :
  (n < List.length l)%nat → take (S n) (<[n := x]> l) = take n l ++ [x].
Proof.
  intros Hn. rewrite (take_S_r _ _ x) by (by apply list_lookup_insert_eq).
  by rewrite take_insert_ge.
Qed.

Lemma record_sample_room c xs lat :
  window_rep c xs → Z.of_nat (List.length xs) < kMaxLatencySamples →
  window_rep (record_sample lat c) (xs ++ [clip lat]).
Proof.
  intros [Hb Hh Hc Hl Hf Hw] Hroom. pose proof max_samples_val as HN. specialize (Hf Hroom).
  unfold sample_window in Hw. rewrite Hc in Hw.
  destruct (Z.eqb_spec (Z.of_nat (List.length xs)) kMaxLatencySamples); [lia|]. rewrite Nat2Z.id in Hw.
  unfold record_sample. fold (clip lat). rewrite Hc, Hf, Nat2Z.id.
  destruct (Z.ltb_spec (Z.of_nat (List.length xs)) kMaxLatencySamples); [|lia].
  assert (Htake : take (S (List.length xs)) (<[List.length xs := clip lat]> (latency_samples_ c)) = xs ++ [clip lat])
    by (rewrite take_insert_next, Hw by lia; done).
  pose proof (Z.mod_pos_bound (Z.of_nat (List.length xs) + 1) kMaxLatencySamples ltac:(lia)).
  split; cbn [latency_samples_ samples_head_ samples_count_]; rewrite ?length_insert, ?length_app; simpl; try lia.
  - intros. rewrite Z.mod_small; lia.
  - unfold sample_window. cbn [latency_samples_ samples_head_ samples_count_].
    destruct (Z.eqb_spec (Z.of_nat (List.length xs) + 1) kMaxLatencySamples) as [E|E].
    + rewrite E, Z.mod_same by lia. simpl. rewrite drop_0, app_nil_r, <-Htake.
      rewrite take_ge; [done|]. rewrite length_insert. lia.
    + by replace (Z.to_nat _) with (S (List.length xs)) by lia.
Qed.

Lemma record_sample_full c xs lat :
  window_rep c xs → Z.of_nat (List.length xs) = kMaxLatencySamples →
  window_rep (record_sample lat c) (drop 1 (xs ++ [clip lat])).
Proof.
  intros [Hb Hh Hc Hl Hf Hw] Hfull. pose proof max_samples_val as HN.
  unfold sample_window in Hw. rewrite Hc, Hfull, Z.eqb_refl in Hw.
  set (h := Z.to_nat (samples_head_ c)) in *. set (b := latency_samples_ c) in *.
  unfold record_sample. fold (clip lat) h b. rewrite Hc, Hfull.
  destruct (Z.ltb_spec kMaxLatencySamples kMaxLatencySamples); [lia|].
  assert (Hlen : List.length (drop 1 (xs ++ [clip lat])) = List.length xs)
    by (rewrite length_drop, length_app; simpl; lia).
  pose proof (Z.mod_pos_bound (samples_head_ c + 1) kMaxLatencySamples ltac:(lia)).
  split; cbn [latency_samples_ samples_head_ samples_count_]; rewrite ?length_insert, ?Hlen; try lia.
  unfold sample_window. cbn [latency_samples_ samples_head_ samples_count_]. rewrite Z.eqb_refl.
  assert (Hd : drop h b = b !!! h :: drop (S h) b) by (apply drop_S, list_lookup_lookup_total_lt; lia).
  assert (Hxs : drop 1 (xs ++ [clip lat]) = drop (S h) b ++ take h b ++ [clip lat]).
  { rewrite <-Hw, Hd. simpl. by rewrite drop_0, <-app_assoc. }
  rewrite Hxs. destruct (decide (samples_head_ c + 1 = kMaxLatencySamples)) as [E|E].
  - rewrite E, Z.mod_same by lia. simpl. rewrite drop_0, app_nil_r.
    rewrite (drop_ge b (S h)) by lia. simpl. rewrite <-take_insert_next by lia.
    rewrite take_ge; [done|]. rewrite length_insert. lia.
  - rewrite Z.mod_small by lia. replace (Z.to_nat (samples_head_ c + 1)) with (S h) by lia.
    rewrite drop_insert_lt by lia. by rewrite take_insert_next by lia.
Qed.

Lemma record_sample_rep c xs lat :
  window_rep c (keep_last kMaxLatencySamples xs) →
  window_rep (record_sample lat c) (keep_last kMaxLatencySamples (xs ++ [clip lat])).
Proof.
  intros Hw. pose proof max_samples_val as HN.
  pose proof (length_keep_last kMaxLatencySamples xs ltac:(lia)) as Hlen.
  rewrite <-(keep_last_app kMaxLatencySamples kMaxLatencySamples) by lia.
  set (ys := keep_last kMaxLatencySamples xs) in *.
  destruct (decide (Z.of_nat (List.length ys) < kMaxLatencySamples)).
  - rewrite keep_last_le by (rewrite length_app; simpl; lia). by apply record_sample_room.
  - assert (Hk : keep_last kMaxLatencySamples (ys ++ [clip lat]) = drop 1 (ys ++ [clip lat])).
    { unfold keep_last. rewrite length_app. simpl. f_equal. lia. }
    rewrite Hk. apply record_sample_full; [done|lia].
Qed.

(** ** Sums over the shards *)

Definition ssum (f : Shard → Z) (ss : list Shard) : Z := foldr (λ s n, f s + n) 0 ss.

Lemma sum_shards_ssum f ss : sum_shards f ss = u64 (ssum f ss).
Proof.
  unfold sum_shards. assert (Hg : ∀ a, foldl (λ acc s, u64 (acc + f s)) (u64 a) ss = u64 (a + ssum f ss)).
  - induction ss as [|s ss IH]; intros a; simpl; [by rewrite Z.add_0_r|].
    rewrite wrap_add_l, IH by lia. f_equal. lia.
  - apply (Hg 0).
Qed.

Lemma ssum_alter f g ss i s :
  ss !! i = Some s → ssum f (alter g i ss) = ssum f ss + (f (g s) - f s).
Proof.
  revert i. induction ss as [|a ss IH]; intros [|i] Hi; simplify_eq/=; [lia|].
  rewrite IH by done. lia.
Qed.

Lemma ssum_ge f ss i s :
  Forall (λ s, 0 ≤ f s) ss → ss !! i = Some s → 0 ≤ f s ≤ ssum f ss.
Proof.
  intros Hall. revert i. induction Hall as [|a ss Ha Hall IH]; intros [|i] Hi; simplify_eq/=.
  - split; [done|]. clear IH. assert (0 ≤ ssum f ss); [|lia]. induction Hall; simpl; lia.
  - apply IH in Hi. lia.
Qed.

Lemma foldr_min_alter (f : Shard → Z) g ss i s x d :
  ss !! i = Some s → f (g s) = Z.min (f s) x →
  foldr Z.min d (f <$> alter g i ss) = Z.min (foldr Z.min d (f <$> ss)) x.
Proof.
  revert i. induction ss as [|a ss IH]; intros [|i] Hi Hx; simplify_eq/=; [lia|].
  rewrite (IH i) by done. lia.
Qed.

Lemma foldr_max_alter (f : Shard → Z) g ss i s x d :
  ss !! i = Some s → f (g s) = Z.max (f s) x →
  foldr Z.max d (f <$> alter g i ss) = Z.max (foldr Z.max d (f <$> ss)) x.
Proof.
  revert i. induction ss as [|a ss IH]; intros [|i] Hi Hx; simplify_eq/=; [lia|].
  rewrite (IH i) by done. lia.
Qed.

(** The loops of [snapshot] compute the same extremes. *)
Lemma loop_min ss d :
  foldl (λ m s, if min_latency_us s <? m then min_latency_us s else m) d ss
  = foldr Z.min d (min_latency_us <$> ss).
Proof.
  induction ss as [|s ss IH] using rev_ind; [done|].
  rewrite foldl_snoc, IH, fmap_app. cbn [fmap list_fmap]. rewrite foldr_min_snoc.
  destruct (Z.ltb_spec (min_latency_us s) (foldr Z.min d (min_latency_us <$> ss))); lia.
Qed.

Lemma loop_max ss d :
  foldl (λ m s, if m <? max_latency_us s then max_latency_us s else m) d ss
  = foldr Z.max d (max_latency_us <$> ss).
Proof.
  induction ss as [|s ss IH] using rev_ind; [done|].
  rewrite foldl_snoc, IH, fmap_app. cbn [fmap list_fmap]. rewrite foldr_max_snoc.
  destruct (Z.ltb_spec (foldr Z.max d (max_latency_us <$> ss)) (max_latency_us s)); lia.
Qed.

(** ** The collector refines the list of requests *)

Definition latencies (os : list Obs) : list Z := (λ o, clip (o_latency o)) <$> os.

Definition proc_ok (n : Z) (p : Process) : Prop :=
  map_Forall (λ _ i, 0 ≤ i < n) (t_shard_index p).

Definition shard_ok (s : Shard) : Prop :=
  0 ≤ requests s ∧ 0 ≤ successful s ∧ 0 ≤ failed s ∧ 0 ≤ latency_sum_us s.

Record sharded_rep (c : ShardedCollector) (os : list Obs) : Prop := {
  sr_shards : (0 < List.length (shards_ c))%nat;
  sr_ok : Forall shard_ok (shards_ c);
  sr_requests : ssum requests (shards_ c) = Z.of_nat (List.length os);
  sr_successful : ssum successful (shards_ c) = successes os;
  sr_failed : ssum failed (shards_ c) = Z.of_nat (List.length os) - successes os;
  sr_sent : u64 (ssum bytes_sent (shards_ c)) = u64 (zsum o_sent os);
  sr_received : u64 (ssum bytes_received (shards_ c)) = u64 (zsum o_received os);
  sr_latency : zsum (λ o, clip (o_latency o)) os < 2 ^ 64 →
    ssum latency_sum_us (shards_ c) = zsum (λ o, clip (o_latency o)) os;
  sr_min : foldr Z.min INT64_MAX (min_latency_us <$> shards_ c) = foldr Z.min INT64_MAX (latencies os);
  sr_max : foldr Z.max INT64_MIN (max_latency_us <$> shards_ c) = foldr Z.max INT64_MIN (latencies os);
  sr_window : window_rep c (keep_last kMaxLatencySamples (latencies os))
}.

Lemma get_shard_index_ok n tid p :
  0 < n → proc_ok n p →
  0 ≤ (get_shard_index n tid p).1 < n ∧ proc_ok n (get_shard_index n tid p).2.
Proof.
  intros Hn Hp. unfold get_shard_index. pose proof (Z.mod_pos_bound (s_next_shard p) n Hn).
  destruct (t_shard_index p !! tid) as [i|] eqn:E; simpl.
  - split; [|done]. by apply (Hp tid i).
  - split; [done|]. by apply map_Forall_insert_2.
Qed.

Lemma clip_nonneg x : 0 ≤ clip x.
Proof. unfold clip. destruct (Z.ltb_spec x 0); lia. Qed.

Lemma add_latency_clip lat sum :
  0 ≤ sum → sum + clip lat < 2 ^ 64 → add_latency lat sum = sum + clip lat.
Proof.
  unfold add_latency, clip, UINT64_MAX. intros.
  destruct (Z.leb_spec lat 0), (Z.ltb_spec lat 0); try lia.
  destruct (Z.ltb_spec (2 ^ 64 - 1 - lat) sum); lia.
Qed.

Lemma u64_add_congr a b x : u64 a = u64 b → u64 (a + x) = u64 (b + x).
Proof. intros E. by rewrite <-(wrap_add_l 64 a), <-(wrap_add_l 64 b), E by lia. Qed.

Lemma u64_sub_congr a x y : u64 (a + (u64 (x + y) - x)) = u64 (a + y).
Proof.
  replace (a + (u64 (x + y) - x)) with (u64 (x + y) + (a - x)) by lia.
  rewrite wrap_add_l by lia. f_equal. lia.
Qed.

Lemma record_shard_ok status lat sent received s : shard_ok s → shard_ok (record_shard status lat sent received s).
Proof.
  intros (H1 & H2 & H3 & H4). pose proof (wrap_range 64 (requests s + 1)).
  pose proof (wrap_range 64 (successful s + 1)). pose proof (wrap_range 64 (failed s + 1)).
  unfold shard_ok, record_shard. cbn. unfold add_latency, UINT64_MAX.
  destruct (is_success status), (Z.leb_spec lat 0), (Z.ltb_spec (2 ^ 64 - 1 - lat) (latency_sum_us s)); lia.
Qed.

Lemma shards_ok_proj ss : Forall shard_ok ss →
  Forall (λ s, 0 ≤ requests s) ss ∧ Forall (λ s, 0 ≤ successful s) ss
  ∧ Forall (λ s, 0 ≤ failed s) ss ∧ Forall (λ s, 0 ≤ latency_sum_us s) ss.
Proof. intros Hall. split_and!; eapply Forall_impl; try done; unfold shard_ok; tauto. Qed.

Lemma shard_latencies_snoc os o : latencies (os ++ [o]) = latencies os ++ [clip (o_latency o)].
Proof. unfold latencies. by rewrite fmap_app. Qed.

Lemma record_rep p c os o tid :
  proc_ok (Z.of_nat (List.length (shards_ c))) p → sharded_rep c os →
  Z.of_nat (List.length os) + 1 < 2 ^ 64 →
  let pc := record_request tid (o_status o) (o_latency o) (o_sent o) (o_received o) (p, c) in
  proc_ok (Z.of_nat (List.length (shards_ pc.2))) pc.1 ∧ sharded_rep pc.2 (os ++ [o]).
Proof.
  intros Hp [Hn Hok Hreq Hsucc Hfail Hsent Hrecv Hlat Hmin Hmax Hwin] H64. unfold record_request.
  destruct (get_shard_index_ok (Z.of_nat (List.length (shards_ c))) tid p ltac:(lia) Hp) as [Hi Hp'].
  destruct (get_shard_index _ tid p) as [idx p']. cbn [fst snd] in *.
  destruct (lookup_lt_is_Some_2 (shards_ c) (Z.to_nat idx)) as [s Hs]; [lia|].
  pose proof (successes_range os). pose proof (successes_range (os ++ [o])) as Hsr.
  rewrite successes_snoc, length_app in Hsr. simpl in Hsr.
  destruct (shards_ok_proj _ Hok) as (O1 & O2 & O3 & O4).
  pose proof (ssum_ge _ _ _ _ O1 Hs). pose proof (ssum_ge _ _ _ _ O2 Hs).
  pose proof (ssum_ge _ _ _ _ O3 Hs). pose proof (ssum_ge _ _ _ _ O4 Hs).
  split; [by cbn; rewrite length_alter|].
  split; cbn [record_sample shards_];
    rewrite ?length_alter, ?(ssum_alter _ _ _ _ _ Hs), ?length_app, ?successes_snoc, ?zsum_snoc,
      ?shard_latencies_snoc, ?foldr_min_snoc, ?foldr_max_snoc; cbn [List.length].
  - done.
  - apply Forall_alter; [done|]. intros s' Hs' _. apply record_shard_ok.
    by eapply Forall_lookup_1 in Hs'.
  - cbn. rewrite wrap_small; lia.
  - cbn. destruct (is_success _); [rewrite wrap_small|]; lia.
  - cbn. destruct (is_success _); [|rewrite wrap_small]; lia.
  - cbn. rewrite u64_sub_congr. by apply u64_add_congr.
  - cbn. rewrite u64_sub_congr. by apply u64_add_congr.
  - intros Hb. pose proof (clip_nonneg (o_latency o)). cbn. rewrite add_latency_clip; lia.
  - rewrite <-Hmin. apply (foldr_min_alter _ _ _ _ s); [done|]. cbn. fold (clip (o_latency o)).
    destruct (Z.ltb_spec (clip (o_latency o)) (min_latency_us s)); lia.
  - rewrite <-Hmax. apply (foldr_max_alter _ _ _ _ s); [done|]. cbn. fold (clip (o_latency o)).
    destruct (Z.ltb_spec (max_latency_us s) (clip (o_latency o))); lia.
  - apply record_sample_rep. by destruct Hwin; split.
Qed.

(** Requests reported by threads, in the order of their calls. *)
Definition record_all (os : list (nat * Obs)) (pc : Process * ShardedCollector) :
    Process * ShardedCollector :=
  foldl (λ pc o, record_request o.1 (o_status o.2) (o_latency o.2) (o_sent o.2) (o_received o.2) pc) pc os.

Lemma shard_record_all_rep (os : list (nat * Obs)) : ∀ p c os0,
  proc_ok (Z.of_nat (List.length (shards_ c))) p → sharded_rep c os0 →
  Z.of_nat (List.length os0) + Z.of_nat (List.length os) < 2 ^ 64 →
  let pc := record_all os (p, c) in
  proc_ok (Z.of_nat (List.length (shards_ pc.2))) pc.1 ∧ sharded_rep pc.2 (os0 ++ (snd <$> os)).
Proof.
  induction os as [|[tid o] os IH] using rev_ind; intros p c os0 Hp Hr Hn.
  - simpl. by rewrite app_nil_r.
  - rewrite length_app in Hn. simpl in Hn. unfold record_all. rewrite foldl_snoc, fmap_app, app_assoc.
    destruct (IH p c os0 Hp Hr ltac:(lia)) as [Hp' Hr']. fold (record_all os (p, c)).
    destruct (record_all os (p, c)) as [p' c'].
    apply (record_rep p' c' _ o tid Hp' Hr'). rewrite length_app, length_fmap. lia.
Qed.

Lemma empty_window c :
  Z.of_nat (List.length (latency_samples_ c)) = kMaxLatencySamples →
  samples_head_ c = 0 → samples_count_ c = 0 → window_rep c [].
Proof.
  intros Hb Hh Hc. pose proof max_samples_val. split; simpl; try lia.
  unfold sample_window. rewrite Hc. destruct (Z.eqb_spec 0 kMaxLatencySamples); [lia|done].
Qed.

Lemma empty_sums (ss : list Shard) :
  Forall (λ s, s = empty_shard) ss → (0 < List.length ss)%nat →
  ∀ c, shards_ c = ss → window_rep c [] → sharded_rep c [].
Proof.
  intros Hall Hn c Hc Hw.
  assert (Hs : ∀ f, f empty_shard = 0 → ssum f ss = 0).
  { intros f Hf. clear -Hall Hf. induction Hall as [|s ss -> _ IH]; simpl; lia. }
  assert (Hm : foldr Z.min INT64_MAX (min_latency_us <$> ss) = INT64_MAX).
  { clear -Hall. induction Hall as [|s ss -> _ IH]; [done|]. rewrite fmap_cons. cbn [foldr]. by rewrite IH. }
  assert (HM : foldr Z.max INT64_MIN (max_latency_us <$> ss) = INT64_MIN).
  { clear -Hall. induction Hall as [|s ss -> _ IH]; [done|]. rewrite fmap_cons. cbn [foldr]. by rewrite IH. }
  split; rewrite ?Hc, ?Hs by done; try done. eapply Forall_impl; [exact Hall|]. intros s ->. by repeat split.
Qed.

Lemma num_shards_range hc : 0 ≤ hc → 4 ≤ num_shards hc ≤ 128.
Proof. intros. unfold num_shards, kMaxShards, kMinShards. lia. Qed.

Lemma make_sharded_rep hc now : 0 ≤ hc → sharded_rep (make_sharded hc now) [].
Proof.
  intros Hhc. pose proof (num_shards_range hc Hhc). pose proof max_samples_val.
  eapply empty_sums; [| |reflexivity|].
  - apply Forall_replicate. done.
  - simpl. rewrite length_replicate. lia.
  - apply empty_window; [|done..]. simpl. rewrite length_replicate. lia.
Qed.

Lemma shard_reset_rep now c os : sharded_rep c os → sharded_rep (reset now c) [].
Proof.
  intros [Hn _ _ _ _ _ _ _ _ _ [Hb _ _ _ _ _]]. eapply empty_sums; [| |reflexivity|].
  - simpl. apply Forall_fmap, Forall_true. done.
  - simpl. by rewrite length_fmap.
  - by apply empty_window.
Qed.

Lemma nearest_rank_lt pct n : 0 < pct ≤ 100 → 0 < n → Z.of_nat (nearest_rank pct n) < n.
Proof.
  intros Hp Hn. unfold nearest_rank.
  pose proof (Z.div_mod (n * pct + 99) 100 ltac:(lia)).
  pose proof (Z.mod_pos_bound (n * pct + 99) 100 ltac:(lia)). nia.
Qed.

Lemma shard_snapshot_rep c os :
  sharded_rep c os → Z.of_nat (List.length os) < 2 ^ 64 →
  ∃ m, snapshot c = Some m
    ∧ sm_total_requests m = Z.of_nat (List.length os)
    ∧ sm_successful_requests m = successes os
    ∧ sm_failed_requests m = Z.of_nat (List.length os) - successes os
    ∧ sm_total_bytes_sent m = u64 (zsum o_sent os)
    ∧ sm_total_bytes_received m = u64 (zsum o_received os)
    ∧ let w := keep_last kMaxLatencySamples (latencies os) in
      let n := Z.of_nat (List.length w) in
      (os ≠ [] →
       order_stat (nearest_rank 95 n) w = Some (sm_p95_latency_us m)
       ∧ order_stat (nearest_rank 99 n) w = Some (sm_p99_latency_us m)
       ∧ sm_min_latency_us m = (let x := foldr Z.min INT64_MAX (latencies os) in
                                if x =? INT64_MAX then 0 else u64 x)).
Proof.
  intros [Hn Hok Hreq Hsucc Hfail Hsent Hrecv Hlat Hmin Hmax Hwin] H64.
  pose proof (successes_range os). pose proof max_samples_val.
  set (w := keep_last kMaxLatencySamples (latencies os)) in *.
  assert (Hw : sample_window c = w) by apply Hwin.
  assert (Hlw : Z.of_nat (List.length w) = Z.min kMaxLatencySamples (Z.of_nat (List.length os))).
  { unfold w. rewrite length_keep_last by lia. unfold latencies. by rewrite length_fmap. }
  assert (Hls : List.length (merge_sort Z.le w) = List.length w)
    by (apply Permutation_length, merge_sort_Permutation).
  unfold snapshot. rewrite !sum_shards_ssum, loop_min, Hmin, Hreq, Hsucc, Hfail, Hsent, Hrecv, Hw.
  rewrite !(wrap_small 64 (Z.of_nat _)), !(wrap_small 64 (successes os)), !(wrap_small 64 (_ - _)) by lia.
  destruct (Z.ltb_spec 0 (Z.of_nat (List.length os))).
  - rewrite Hls. destruct (Z.ltb_spec 0 (Z.of_nat (List.length w))); [|lia].
    pose proof (nearest_rank_lt 95 (Z.of_nat (List.length w)) ltac:(lia) ltac:(lia)).
    pose proof (nearest_rank_lt 99 (Z.of_nat (List.length w)) ltac:(lia) ltac:(lia)).
    destruct (lookup_lt_is_Some_2 (merge_sort Z.le w) (nearest_rank 95 (Z.of_nat (List.length w)))) as [a Ha]; [lia|].
    destruct (lookup_lt_is_Some_2 (merge_sort Z.le w) (nearest_rank 99 (Z.of_nat (List.length w)))) as [b Hb]; [lia|].
    rewrite Ha, Hb. cbn [mbind option_bind]. eexists. split; [reflexivity|]. by split_and!.
  - cbn [List.length Z.of_nat Z.ltb Z.compare]. cbn [mbind option_bind]. eexists. split; [reflexivity|].
    split_and!; try done. intros Hne. destruct os; [done|]. simpl in *. lia.
Qed.


