(* ===== verification/ConnectionPool.v ===== *)
(** * The keep-alive pool: [net::ConnectionPool]

    [core/net/connection_pool.cpp].  A pooled [Http11Client] is its identity, a
    number; [next_client] is the identity the next [make_unique] creates.  The mutex
    makes every member function atomic. *)

From S2P Require Import Prelude CppString.

Local Open Scope Z_scope.

(** [src/core/net/connection_pool.cpp:9-12] PoolEntry *)
Record PoolEntry := mkEntry { client : nat; idle_since : Z }.

(** [src/include/cppload/net/connection_pool.hpp:14-23] PoolConfig *)
Record PoolConfig := mkPoolConfig {
  min_connections : Z;
  max_connections : Z;
  idle_timeout : Z;   (* seconds *)
  keep_alive : bool
}.

(** [src/core/net/connection_pool.cpp:101-107] ConnectionPool::Impl *)
Record Pool := mkPool {
  config_ : PoolConfig;
  pools_ : gmap string (list PoolEntry);
  total_created_ : Z;
  next_client : nat
}.

(** [src/core/net/connection_pool.cpp:16-18] ConnectionPool::Impl::Impl *)
Definition make_pool (cfg : PoolConfig) : Pool := mkPool cfg ∅ 0 0.

(** [src/core/net/connection_pool.cpp:24-24] ConnectionPool::Impl::acquire *)
Definition pool_key (host : string) (port : Z) : string := host ++ ":" ++ to_string port.

(** [pools_[key]]: the queue, created empty when it is missing. *)
Definition queue_at (key : string) (p : Pool) : list PoolEntry := default [] (pools_ p !! key).

(** [src/core/net/connection_pool.cpp:20-40] ConnectionPool::Impl::acquire *)
Definition acquire (host : string) (port : Z) (p : Pool) : option nat * Pool :=
  let key := pool_key host port in
  match queue_at key p with
  | entry :: rest =>
      (Some (client entry),
       mkPool (config_ p) (<[key := rest]> (pools_ p)) (total_created_ p) (next_client p))
  | [] =>
      let pools := <[key := []]> (pools_ p) in
      if total_created_ p <? max_connections (config_ p) then
        (Some (next_client p), mkPool (config_ p) pools (total_created_ p + 1) (S (next_client p)))
      else (None, mkPool (config_ p) pools (total_created_ p) (next_client p))
  end.

(** [if (total_created_ > 0) total_created_--] *)
Definition decrement (n : Z) : Z := if 0 <? n then n - 1 else n.

(** [src/core/net/connection_pool.cpp:42-60] ConnectionPool::Impl::release *)
Definition release (c : nat) (host : string) (port now : Z) (p : Pool) : Pool :=
  let key := pool_key host port in
  let q := queue_at key p in
  if max_connections (config_ p) <=? Z.of_nat (List.length q) then
    mkPool (config_ p) (<[key := q]> (pools_ p)) (decrement (total_created_ p)) (next_client p)
  else
    mkPool (config_ p) (<[key := q ++ [mkEntry c now]]> (pools_ p)) (total_created_ p) (next_client p).

(** [duration_cast<seconds>] of a nanosecond difference truncates. *)
Definition expired (timeout now : Z) (e : PoolEntry) : bool :=
  timeout <=? Z.quot (now - idle_since e) 1000000000.

(** The inner loop: entries popped from the front, and the queue that is left. *)
(** [src/core/net/connection_pool.cpp:68-78] ConnectionPool::Impl::cleanup *)
Fixpoint expire_queue (timeout now : Z) (q : list PoolEntry) : nat * list PoolEntry :=
  match q with
  | [] => (0%nat, [])
  | e :: q' => if expired timeout now e then
                 let '(n, r) := expire_queue timeout now q' in (S n, r)
               else (0%nat, q)
  end.

(** [src/core/net/connection_pool.cpp:62-85] ConnectionPool::Impl::cleanup *)
Definition cleanup (now : Z) (p : Pool) : Pool :=
  let t := idle_timeout (config_ p) in
  let popped := map_fold (λ _ q n, (expire_queue t now q).1 + n)%nat 0%nat (pools_ p) in
  let keep q := match (expire_queue t now q).2 with [] => None | r => Some r end in
  mkPool (config_ p) (omap keep (pools_ p))
    (Nat.iter popped decrement (total_created_ p)) (next_client p).

(** [src/include/cppload/net/connection_pool.hpp:49-53] ConnectionPool::Stats *)
Record Stats := mkStats { active_connections : Z; idle_connections : Z; total_created : Z }.

Definition idle_count (p : Pool) : Z :=
  map_fold (λ _ q n, Z.of_nat (List.length q) + n) 0 (pools_ p).

(** [src/core/net/connection_pool.cpp:87-99] ConnectionPool::Impl::stats *)
Definition stats (p : Pool) : Stats :=
  let idle := idle_count p in
  mkStats (if idle <? total_created_ p then total_created_ p - idle else 0) idle (total_created_ p).

(** ** Keys *)

Lemma pool_key_inj h1 p1 h2 p2 :
  0 ≤ p1 → 0 ≤ p2 → pool_key h1 p1 = pool_key h2 p2 → h1 = h2 ∧ p1 = p2.
Proof.
  intros H1 H2 E. unfold pool_key in E. cbn [String.append] in E.
  apply last_split_inj in E as [-> E]; [|apply digits_lack; [done|by apply to_string_digits]..].
  split; [done|]. by apply (inj pretty) in E.
Qed.

(** ** Counting the idle clients *)

Lemma idle_insert key q p n tc :
  idle_count (mkPool (config_ p) (<[key := q]> (pools_ p)) tc n)
  = idle_count p - Z.of_nat (List.length (queue_at key p)) + Z.of_nat (List.length q).
Proof.
  unfold idle_count, queue_at. cbn [pools_].
  assert (Hcomm : ∀ (m : gmap string (list PoolEntry)) k x, m !! k = None →
    map_fold (λ _ q n, Z.of_nat (List.length q) + n) 0 (<[k := x]> m)
    = Z.of_nat (List.length x) + map_fold (λ _ q n, Z.of_nat (List.length q) + n) 0 m).
  { intros m k x Hk. apply (map_fold_insert_L (λ _ q n, Z.of_nat (List.length q) + n)); [lia|done]. }
  destruct (pools_ p !! key) as [q0|] eqn:E; simpl.
  - rewrite <-insert_delete_eq, Hcomm by apply lookup_delete_eq.
    rewrite <-(insert_delete_id (pools_ p) key q0) at 2 by done.
    rewrite Hcomm by apply lookup_delete_eq. lia.
  - rewrite Hcomm by done. lia.
Qed.

Lemma expire_queue_split t now q :
  let '(n, r) := expire_queue t now q in
  (n + List.length r = List.length q)%nat ∧ ∃ l, q = l ++ r ∧ Forall (λ e, expired t now e = true) l.
Proof.
  induction q as [|e q IH]; [by split; [|exists []]|]. simpl. destruct (expired t now e) eqn:E.
  - destruct (expire_queue t now q) as [n r]. destruct IH as [Hn (l & -> & Hl)].
    split; [simpl; lia|]. exists (e :: l). split; [done|]. by constructor.
  - split; [done|]. by exists [].
Qed.

Lemma cleanup_idle_popped t now (m : gmap string (list PoolEntry)) :
  map_fold (λ _ q n, Z.of_nat (List.length q) + n) 0
    (omap (λ q, match (expire_queue t now q).2 with [] => None | r => Some r end) m)
  + Z.of_nat (map_fold (λ _ q n, (expire_queue t now q).1 + n)%nat 0%nat m)
  = map_fold (λ _ q n, Z.of_nat (List.length q) + n) 0 m.
Proof.
  induction m as [|k q m Hk IH] using map_ind; [done|].
  rewrite (map_fold_insert_L (λ _ q n, (expire_queue t now q).1 + n)%nat) by (done || lia).
  rewrite (map_fold_insert_L (λ _ q n, Z.of_nat (List.length q) + n) 0 k q) by (done || lia).
  pose proof (expire_queue_split t now q) as Hs. destruct (expire_queue t now q) as [n r] eqn:E.
  destruct Hs as [Hn _]. cbn [fst snd]. destruct r as [|e r].
  - rewrite omap_insert_None by (by rewrite E). rewrite delete_id by (by rewrite lookup_omap, Hk).
    simpl in Hn. lia.
  - rewrite (omap_insert_Some _ _ _ _ (e :: r)) by (by rewrite E).
    rewrite map_fold_insert_L by (lia || by rewrite lookup_omap, Hk). lia.
Qed.

Lemma iter_decrement n x : 0 ≤ x → Nat.iter n decrement x = Z.max 0 (x - Z.of_nat n).
Proof.
  intros Hx. induction n as [|n IH]; [simpl; lia|]. cbn [Nat.iter nat_rect]. unfold Nat.iter in IH.
  rewrite IH. unfold decrement. destruct (Z.ltb_spec 0 (Z.max 0 (x - Z.of_nat n))); lia.
Qed.

(** ** The pool and its users *)

(** [active]: the clients handed out and not given back, with the key they were
    acquired for. *)
Record PoolWorld := mkPoolWorld { pool : Pool; active : gmap nat string }.

(** A user may acquire, give a client back, let one be destroyed without giving it
    back, or run the idle cleanup. *)
Inductive pool_step : PoolWorld → PoolWorld → Prop :=
  | step_acquire p a host port c p' :
      acquire host port p = (Some c, p') →
      pool_step (mkPoolWorld p a) (mkPoolWorld p' (<[c := pool_key host port]> a))
  | step_refused p a host port p' :
      acquire host port p = (None, p') → pool_step (mkPoolWorld p a) (mkPoolWorld p' a)
  | step_release p a c k host port now :
      a !! c = Some k →
      pool_step (mkPoolWorld p a) (mkPoolWorld (release c host port now p) (delete c a))
  | step_drop p a c k :
      a !! c = Some k → pool_step (mkPoolWorld p a) (mkPoolWorld p (delete c a))
  | step_cleanup p a now :
      pool_step (mkPoolWorld p a) (mkPoolWorld (cleanup now p) a).

(** Client [e] waits at position [i] of the queue of [k]. *)
Definition waits (p : Pool) (k : string) (i : nat) (e : PoolEntry) : Prop :=
  queue_at k p !! i = Some e.

Record pool_inv (w : PoolWorld) : Prop := {
  pi_total : total_created_ (pool w) ≤ Z.max 0 (max_connections (config_ (pool w)));
  pi_count : Z.of_nat (size (active w)) + idle_count (pool w) ≤ total_created_ (pool w);
  pi_once : ∀ k1 i1 e1 k2 i2 e2, waits (pool w) k1 i1 e1 → waits (pool w) k2 i2 e2 →
    client e1 = client e2 → k1 = k2 ∧ i1 = i2;
  pi_idle : ∀ k i e, waits (pool w) k i e →
    active w !! client e = None ∧ (client e < next_client (pool w))%nat;
  pi_active : ∀ c k, active w !! c = Some k → (c < next_client (pool w))%nat
}.

Lemma queue_at_insert k q k' cfg m tc n :
  queue_at k' (mkPool cfg (<[k := q]> m) tc n) = if decide (k' = k) then q else default [] (m !! k').
Proof.
  unfold queue_at. cbn [pools_]. destruct (decide (k' = k)) as [->|].
  - by rewrite lookup_insert_eq.
  - by rewrite lookup_insert_ne.
Qed.

Lemma idle_nonneg (m : gmap string (list PoolEntry)) :
  0 ≤ map_fold (λ _ q n, Z.of_nat (List.length q) + n) 0 m.
Proof.
  induction m as [|k q m Hk IH] using map_ind; [done|].
  rewrite (map_fold_insert_L (λ _ q n, Z.of_nat (List.length q) + n)) by (done || lia). lia.
Qed.

Lemma idle_ge_queue k p : Z.of_nat (List.length (queue_at k p)) ≤ idle_count p.
Proof.
  pose proof (idle_insert k [] p 0 0) as E. simpl in E. unfold idle_count in E at 1. cbn [pools_] in E.
  pose proof (idle_nonneg (<[k:=[]]> (pools_ p))). lia.
Qed.

Lemma make_pool_inv cfg : pool_inv (mkPoolWorld (make_pool cfg) ∅).
Proof. split; cbn; try done; try lia. Qed.

Lemma inv_acquire p a host port o p' :
  acquire host port p = (o, p') → pool_inv (mkPoolWorld p a) →
  pool_inv (mkPoolWorld p' (match o with Some c => <[c := pool_key host port]> a | None => a end)).
Proof.
  intros Ha [Ht Hc H1 H2 H3]. cbn [pool active] in *. unfold acquire in Ha.
  set (key := pool_key host port) in *. destruct (queue_at key p) as [|e rest] eqn:Eq.
  - assert (Hw : ∀ tc n k i e, waits (mkPool (config_ p) (<[key := []]> (pools_ p)) tc n) k i e → waits p k i e).
    { intros tc n k i e. unfold waits. rewrite queue_at_insert. by case_decide. }
    destruct (Z.ltb_spec (total_created_ p) (max_connections (config_ p))); simplify_eq;
      split; cbn [pool active config_ total_created_ next_client]; rewrite ?idle_insert, ?Eq; simpl; try lia;
      try by eauto.
    + rewrite map_size_insert_None; [lia|]. destruct (a !! next_client p) eqn:E; [|done].
      apply H3 in E. lia.
    + intros k i e Hk%Hw. destruct (H2 k i e Hk). rewrite lookup_insert_ne by lia. split; [done|lia].
    + intros c k. destruct (decide (c = next_client p)) as [->|]; [lia|].
      rewrite lookup_insert_ne by done. intros Hk%H3. lia.
  - simplify_eq. assert (He : waits p key 0 e) by (unfold waits; by rewrite Eq).
    assert (Hw : ∀ tc n k i x, waits (mkPool (config_ p) (<[key := rest]> (pools_ p)) tc n) k i x →
                 waits p k (if decide (k = key) then S i else i) x).
    { intros tc n k i x. unfold waits. rewrite queue_at_insert. case_decide; subst; [|done].
      rewrite Eq. done. }
    destruct (H2 _ _ _ He) as [Hea Hen].
    split; cbn [pool active config_ total_created_ next_client]; rewrite ?idle_insert, ?Eq; try lia.
    + rewrite map_size_insert_None by done. cbn [List.length]. lia.
    + intros k1 i1 e1 k2 i2 e2 W1%Hw W2%Hw E. destruct (H1 _ _ _ _ _ _ W1 W2 E) as [-> Ei].
      split; [done|]. destruct (decide (k2 = key)); lia.
    + intros k i x W%Hw. destruct (H2 _ _ _ W). split; [|done].
      destruct (decide (client e = client x)) as [E|]; [|by rewrite lookup_insert_ne].
      destruct (H1 _ _ _ _ _ _ He W E) as [<- Ei]. rewrite decide_True in Ei by done. lia.
    + intros c k. destruct (decide (c = client e)) as [->|]; [done|].
      rewrite lookup_insert_ne by done. apply H3.
Qed.

Lemma inv_drop p a c k : a !! c = Some k → pool_inv (mkPoolWorld p a) → pool_inv (mkPoolWorld p (delete c a)).
Proof.
  intros Hk [Ht Hc H1 H2 H3]. cbn [pool active] in *. split; cbn [pool active]; try done.
  - rewrite map_size_delete_Some by done. lia.
  - intros k' i e W. destruct (H2 _ _ _ W). split; [|done]. by apply lookup_delete_None; right.
  - intros c' k' [_ Hc']%lookup_delete_Some. by eapply H3.
Qed.

(** The branch of [release] that destroys the client is never taken by a holder. *)
Lemma release_room p a c k host port :
  a !! c = Some k → pool_inv (mkPoolWorld p a) →
  Z.of_nat (List.length (queue_at (pool_key host port) p)) < max_connections (config_ p).
Proof.
  intros Hk [Ht Hc _ _ _]. cbn [pool active] in *.
  pose proof (idle_ge_queue (pool_key host port) p).
  assert (size a ≠ 0%nat) by (by eapply map_size_ne_0_lookup_2, mk_is_Some).
  lia.
Qed.

Lemma inv_release p a c k host port now :
  a !! c = Some k → pool_inv (mkPoolWorld p a) →
  pool_inv (mkPoolWorld (release c host port now p) (delete c a)).
Proof.
  intros Hk Hi. pose proof (release_room p a c k host port Hk Hi) as Hroom.
  destruct Hi as [Ht Hc H1 H2 H3]. cbn [pool active] in *. unfold release.
  set (key := pool_key host port) in *.
  destruct (Z.leb_spec (max_connections (config_ p)) (Z.of_nat (List.length (queue_at key p)))); [lia|].
  assert (Hw : ∀ k' i e, waits (mkPool (config_ p) (<[key := queue_at key p ++ [mkEntry c now]]> (pools_ p))
                 (total_created_ p) (next_client p)) k' i e →
               waits p k' i e ∨ k' = key ∧ i = List.length (queue_at key p) ∧ client e = c).
  { intros k' i e. unfold waits. rewrite queue_at_insert. case_decide as Hd; [|by left]. subst k'.
    intros [?|[? Hx]]%lookup_app_Some; [by left|right].
    apply list_lookup_singleton_Some in Hx as [Hx <-]. split_and!; [done|lia|done]. }
  assert (Hnc : ∀ k' i e, waits p k' i e → client e ≠ c).
  { intros k' i e W E. destruct (H2 _ _ _ W). congruence. }
  split; cbn [pool active config_ total_created_ next_client]; try done.
  - rewrite idle_insert, length_app, map_size_delete_Some by done.
    assert (size a ≠ 0%nat) by (by eapply map_size_ne_0_lookup_2, mk_is_Some). simpl. lia.
  - intros k1 i1 e1 k2 i2 e2 [W1|(-> & -> & E1)]%Hw [W2|(-> & -> & E2)]%Hw E.
    + by apply (H1 _ _ _ _ _ _ W1 W2).
    + destruct (Hnc _ _ _ W1). congruence.
    + destruct (Hnc _ _ _ W2). congruence.
    + done.
  - intros k' i e [W|(-> & -> & ->)]%Hw.
    + destruct (H2 _ _ _ W). split; [|done]. by apply lookup_delete_None; right.
    + split; [apply lookup_delete_eq|by eapply H3].
  - intros c' k' [_ Hc']%lookup_delete_Some. by eapply H3.
Qed.

Lemma queue_at_cleanup now k p :
  queue_at k (cleanup now p) = (expire_queue (idle_timeout (config_ p)) now (queue_at k p)).2.
Proof.
  unfold queue_at, cleanup. cbn [pools_]. rewrite lookup_omap.
  destruct (pools_ p !! k) as [q|]; simpl; [|done].
  by destruct (expire_queue _ now q) as [n [|e r]].
Qed.

Lemma waits_cleanup now p k i e :
  waits (cleanup now p) k i e →
  waits p k (List.length (queue_at k p) - List.length (queue_at k (cleanup now p)) + i) e.
Proof.
  unfold waits. rewrite queue_at_cleanup.
  pose proof (expire_queue_split (idle_timeout (config_ p)) now (queue_at k p)) as Hs.
  destruct (expire_queue _ now _) as [n r]. destruct Hs as [_ (l & -> & _)]. cbn [snd]. intros Hi.
  rewrite length_app, lookup_app_r by lia. by replace (_ + _ - _ + i - _)%nat with i by lia.
Qed.

Lemma inv_cleanup now p a : pool_inv (mkPoolWorld p a) → pool_inv (mkPoolWorld (cleanup now p) a).
Proof.
  intros [Ht Hc H1 H2 H3]. cbn [pool active] in *.
  pose proof (cleanup_idle_popped (idle_timeout (config_ p)) now (pools_ p)) as Hp.
  fold (idle_count p) in Hp. change (map_fold _ 0 (omap _ _)) with (idle_count (cleanup now p)) in Hp.
  pose proof (idle_nonneg (pools_ (cleanup now p))) as Hn. fold (idle_count (cleanup now p)) in Hn.
  assert (Htc : total_created_ (cleanup now p) = total_created_ p - (idle_count p - idle_count (cleanup now p))).
  { unfold cleanup at 1. cbn [total_created_]. rewrite iter_decrement; lia. }
  split; cbn [pool active]; try lia.
  - rewrite Htc. cbn [cleanup config_]. lia.
  - intros k1 i1 e1 k2 i2 e2 W1%waits_cleanup W2%waits_cleanup E.
    destruct (H1 _ _ _ _ _ _ W1 W2 E) as [-> Ei]. split; [done|]. lia.
  - intros k i e W%waits_cleanup. by eapply H2.
  - intros c k Hk. by eapply H3.
Qed.

Lemma pool_step_inv w w' : pool_step w w' → pool_inv w → pool_inv w'.
Proof.
  intros Hs Hi. destruct Hs as [p a host port c p' Ha|p a host port p' Ha|p a c k host port now Hk
    |p a c k Hk|p a now].
  - by apply (inv_acquire p a host port (Some c) p').
  - by apply (inv_acquire p a host port None p').
  - by apply (inv_release p a c k).
  - by apply (inv_drop p a c k).
  - by apply inv_cleanup.
Qed.

Lemma pool_steps_inv w w' : rtc pool_step w w' → pool_inv w → pool_inv w'.
Proof. induction 1; eauto using pool_step_inv. Qed.


(** One client acquired. *)
Definition one_acquired : PoolWorld :=
  let '(c, p) := acquire "host" 80 (make_pool (mkPoolConfig 5 100 30 true)) in
  mkPoolWorld p {[ 0%nat := pool_key "host" 80 ]}.


(** Reuse is per target: a client given back for [host:port] is what the next
    [acquire] of that host and port returns when nothing waited before it, the
    acquire is refused exactly when nothing waits and the limit is reached, and an
    acquire of any other host or port leaves the queue alone. *)
Theorem acquire_reuses_target (host host' : string) (port port' now : Z) (c : nat) (p : Pool) :
  0 ≤ port → 0 ≤ port' →
  (queue_at (pool_key host port) p = [] → 0 < max_connections (config_ p) →
   (acquire host port (release c host port now p)).1 = Some c)
  ∧ ((acquire host port p).1 = None ↔
     queue_at (pool_key host port) p = [] ∧ max_connections (config_ p) ≤ total_created_ p)
  ∧ ((host, port) ≠ (host', port') →
     queue_at (pool_key host port) (acquire host' port' p).2 = queue_at (pool_key host port) p).
Proof.
  intros Hp Hp'. split_and!.
  - intros Hq Hmax. unfold release. rewrite Hq. change (Z.of_nat (List.length [])) with 0.
    destruct (Z.leb_spec (max_connections (config_ p)) 0); [lia|].
    unfold acquire. rewrite queue_at_insert, decide_True by done. done.
  - unfold acquire. destruct (queue_at _ p) as [|e q]; [|naive_solver].
    destruct (Z.ltb_spec (total_created_ p) (max_connections (config_ p))); simpl.
    + split; [done|]. intros [_ ?]. lia.
    + done.
  - intros Hne. assert (Hk : pool_key host port ≠ pool_key host' port').
    { intros [-> ->]%pool_key_inj; done. }
    unfold acquire. repeat case_match; cbn [snd]; rewrite queue_at_insert, decide_False by done; done.
Qed.

Lemma acquire_reuses_target_witness :
  (acquire "a" 80 (release 7 "a" 80 5 (make_pool (mkPoolConfig 5 100 30 true)))).1 = Some 7%nat.
Proof.
  refine (proj1 (acquire_reuses_target "a" "b" 80 81 5 7 (make_pool (mkPoolConfig 5 100 30 true)) _ _) _ _);
    done.
Defined.

(** ** A user that never gives clients back *)

(** A pool without idle clients creates one while it may, and then refuses. *)
Lemma acquire_empty h port p :
  (∀ k, queue_at k p = []) →
  (∀ k, queue_at k (acquire h port p).2 = [])
  ∧ config_ (acquire h port p).2 = config_ p
  ∧ (total_created_ p < max_connections (config_ p) →
     is_Some (acquire h port p).1 ∧ total_created_ (acquire h port p).2 = total_created_ p + 1)
  ∧ (max_connections (config_ p) ≤ total_created_ p →
     (acquire h port p).1 = None ∧ total_created_ (acquire h port p).2 = total_created_ p).
Proof.
  intros Hq. unfold acquire. rewrite Hq.
  destruct (Z.ltb_spec (total_created_ p) (max_connections (config_ p))); cbn [fst snd config_ total_created_];
    (split_and!; [|done|by eauto || lia|done || lia]);
    intros k; rewrite queue_at_insert; case_decide; [done|apply Hq|done|apply Hq].
Qed.
