(* ===== verification/Repo.v ===== *)
(** * The platform's data and its in-memory repository

    [include/cppload/platform/{models,repository}.hpp] and
    [core/platform/in_memory_repo.cpp].  [Repository] is the abstract class, a
    typeclass with the laws its clients ([Policy.v], [HttpServer.v]) rely on;
    [InMemory] is the implementation.  What a call reads from its environment (the two
    clocks and the random device) is a [CallEnv]. *)

From stdpp Require Import sorting.
From S2P Require Import Prelude CppString Double Result.

Local Open Scope Z_scope.

(** [src/include/cppload/platform/models.hpp:12-12] RunStatus *)
Inductive RunStatus := pending | running | completed | failed.

(** [src/include/cppload/platform/models.hpp:14-14] PolicySeverity *)
Inductive PolicySeverity := sev_warning | sev_error.

(** [src/include/cppload/platform/models.hpp:16-21] Project *)
Record Project := mkProject {
  p_id : string; p_name : string; p_description : string; p_created_at : Z
}.

(** [src/include/cppload/platform/models.hpp:23-30] Scenario *)
Record Scenario := mkScenario {
  s_id : string; s_project_id : string; s_name : string; s_version : string;
  s_yaml_content : string; s_created_at : Z
}.

(** [src/include/cppload/platform/models.hpp:32-41] RunResult *)
Record RunResult := mkRunResult {
  total_requests : Z; successful_requests : Z; failed_requests : Z;
  error_rate_pct : double; throughput_rps : double;
  p50_latency_ms : double; p95_latency_ms : double; p99_latency_ms : double
}.

(** [src/include/cppload/platform/models.hpp:43-52] Run *)
Record Run := mkRun {
  r_id : string; r_project_id : string; r_scenario_id : string; r_environment : string;
  r_status : RunStatus; r_started_at : Z; r_finished_at : option Z; r_result : option RunResult
}.

(** [src/include/cppload/platform/models.hpp:54-58] PolicyRule *)
Record PolicyRule := mkRule { metric : string; op : string; threshold : double }.

(** [src/include/cppload/platform/models.hpp:60-66] Policy *)
Record Policy := mkPolicy {
  pol_id : string; pol_project_id : string; pol_name : string; pol_rules : list PolicyRule;
  pol_created_at : Z
}.

(** [src/include/cppload/platform/models.hpp:81-89] to_string *)
Definition status_string (s : RunStatus) : string :=
  match s with
  | pending => "pending" | running => "running" | completed => "completed" | failed => "failed"
  end.

(** [src/include/cppload/platform/models.hpp:91-97] to_string *)
Definition severity_string (s : PolicySeverity) : string :=
  match s with sev_warning => "warning" | sev_error => "error" end.

(** [src/include/cppload/platform/repository.hpp:12-17] PlatformError *)
Inductive PlatformError := not_found | already_exists | invalid_input | invalid_state.

#[global] Instance run_status_eq_dec : EqDecision RunStatus.
Proof. solve_decision. Defined.

(** [steady_clock::now()], [system_clock::now()] and the random device. *)
Record CallEnv := mkEnv { steady_ns : Z; system_now : Z; random64 : Z }.

(** A run in one of these states is over. *)
Definition terminal (s : RunStatus) : bool :=
  match s with completed | failed => true | _ => false end.

(** ** The interface *)

(** [src/include/cppload/platform/repository.hpp:19-41] Repository *)
Class Repository (S : Type) := {
  create_project : CallEnv → string → string → S → Result Project PlatformError * S;
  get_project : string → S → Result Project PlatformError;
  list_projects : S → list Project;
  delete_project : string → S → Result bool PlatformError * S;
  create_scenario : CallEnv → string → string → string → string → S → Result Scenario PlatformError * S;
  get_scenario : string → S → Result Scenario PlatformError;
  list_scenarios : string → S → list Scenario;
  create_run : CallEnv → string → string → string → S → Result Run PlatformError * S;
  get_run : string → S → Result Run PlatformError;
  list_runs : string → S → list Run;
  finish_run : CallEnv → string → RunStatus → RunResult → S → Result bool PlatformError * S;
  create_policy : CallEnv → string → string → list PolicyRule → S → Result Policy PlatformError * S;
  get_policy : string → S → Result Policy PlatformError;
  list_policies : string → S → list Policy;

  (** What the clients rely on. *)
  created_run_found env pid sid e s run s' :
    create_run env pid sid e s = (Ok run, s') → get_run (r_id run) s' = Ok run;
  created_policy_found env pid n rules s pol s' :
    create_policy env pid n rules s = (Ok pol, s') →
    get_policy (pol_id pol) s' = Ok pol ∧ pol_rules pol = rules;
  finished_run_found env id st res s s' :
    finish_run env id st res s = (Ok true, s') →
    ∃ run, get_run id s' = Ok run ∧ r_status run = st ∧ r_result run = Some res;
  finish_keeps_policies env id st res s s' r k :
    finish_run env id st res s = (r, s') → get_policy k s' = get_policy k s;
  refused_project env n d s e s' : create_project env n d s = (Error e, s') → s' = s;
  refused_delete id s e s' : delete_project id s = (Error e, s') → s' = s;
  refused_scenario env pid n v y s e s' : create_scenario env pid n v y s = (Error e, s') → s' = s;
  refused_run env pid sid v s e s' : create_run env pid sid v s = (Error e, s') → s' = s;
  refused_policy env pid n rs s e s' : create_policy env pid n rs s = (Error e, s') → s' = s
}.

(** ** Identifiers *)

Definition hex_lower (n : Z) : ascii :=
  ascii_of_nat (Z.to_nat (if n <? 10 then 48 + n else 87 + n)).

(** [std::hex << std::setfill('0') << std::setw(w)] of a value of at most [w] digits. *)
Fixpoint hex_fixed (w : nat) (n : Z) : string :=
  match w with
  | O => ""
  | S w' => hex_fixed w' (n `div` 16) +:+ String (hex_lower (n `mod` 16)) ""
  end.

(** [src/core/platform/in_memory_repo.cpp:223-238] InMemoryRepository::generate_id *)
Definition generate_id (env : CallEnv) (counter : Z) : string * Z :=
  (hex_fixed 8 (steady_ns env `mod` 2 ^ 32)
     +:+ hex_fixed 4 (counter `mod` 2 ^ 16)
     +:+ hex_fixed 4 (random64 env `mod` 2 ^ 16), u64 (counter + 1)).

(** ** The in-memory repository *)

(** [src/core/platform/in_memory_repo.cpp:240-245] InMemoryRepository *)
Record InMemory := mkRepo {
  projects_ : gmap string Project;
  scenarios_ : gmap string Scenario;
  runs_ : gmap string Run;
  policies_ : gmap string Policy;
  id_counter : Z
}.

Definition empty_repo : InMemory := mkRepo ∅ ∅ ∅ ∅ 0.

(** [src/core/platform/in_memory_repo.cpp:20-33] InMemoryRepository::create_project *)
Definition mem_create_project (env : CallEnv) (name description : string) (s : InMemory) :
    Result Project PlatformError * InMemory :=
  if is_empty name then (Error invalid_input, s)
  else
    let '(id, n) := generate_id env (id_counter s) in
    let proj := mkProject id name description (system_now env) in
    (Ok proj, mkRepo (<[id := proj]> (projects_ s)) (scenarios_ s) (runs_ s) (policies_ s) n).

Definition find {A} (id : string) (m : gmap string A) : Result A PlatformError :=
  match m !! id with Some x => Ok x | None => Error not_found end.

(** [src/core/platform/in_memory_repo.cpp:35-42] InMemoryRepository::get_project *)
Definition mem_get_project (id : string) (s : InMemory) : Result Project PlatformError :=
  find id (projects_ s).

Definition newer {A} (key : A → Z) (a b : A) : Prop := key b ≤ key a.

#[global] Instance newer_dec {A} (key : A → Z) a b : Decision (newer key a b).
Proof. unfold newer. apply _. Defined.

(** Iteration over an [unordered_map] comes in some order, fixed here; the sort
    leaves the order of equal keys open. *)
Definition newest_first {A} (key : A → Z) (l : list A) : list A := merge_sort (newer key) l.

(** [src/core/platform/in_memory_repo.cpp:44-54] InMemoryRepository::list_projects *)
Definition mem_list_projects (s : InMemory) : list Project :=
  newest_first p_created_at (snd <$> map_to_list (projects_ s)).

(** [src/core/platform/in_memory_repo.cpp:56-67] InMemoryRepository::delete_project *)
Definition mem_delete_project (id : string) (s : InMemory) : Result bool PlatformError * InMemory :=
  match projects_ s !! id with
  | None => (Error not_found, s)
  | Some _ =>
      (Ok true,
       mkRepo (delete id (projects_ s))
         (filter (λ kv, s_project_id kv.2 ≠ id) (scenarios_ s))
         (filter (λ kv, r_project_id kv.2 ≠ id) (runs_ s))
         (filter (λ kv, pol_project_id kv.2 ≠ id) (policies_ s)) (id_counter s))
  end.

(** [others]: what other threads do between the check and the insertion, which are
    two critical sections. *)
(** [src/core/platform/in_memory_repo.cpp:69-91] InMemoryRepository::create_scenario *)
Definition mem_create_scenario (others : InMemory → InMemory) (env : CallEnv)
    (project_id name version yaml : string) (s : InMemory) : Result Scenario PlatformError * InMemory :=
  if is_empty project_id || is_empty name then (Error invalid_input, s)
  else match projects_ s !! project_id with
  | None => (Error not_found, s)
  | Some _ =>
      let s := others s in
      let '(id, n) := generate_id env (id_counter s) in
      let sc := mkScenario id project_id name version yaml (system_now env) in
      (Ok sc, mkRepo (projects_ s) (<[id := sc]> (scenarios_ s)) (runs_ s) (policies_ s) n)
  end.

(** [src/core/platform/in_memory_repo.cpp:93-100] InMemoryRepository::get_scenario *)
Definition mem_get_scenario (id : string) (s : InMemory) : Result Scenario PlatformError :=
  find id (scenarios_ s).

(** [src/core/platform/in_memory_repo.cpp:102-113] InMemoryRepository::list_scenarios *)
Definition mem_list_scenarios (project_id : string) (s : InMemory) : list Scenario :=
  newest_first s_created_at
    (filter (λ x, s_project_id x = project_id) (snd <$> map_to_list (scenarios_ s))).

(** [src/core/platform/in_memory_repo.cpp:115-139] InMemoryRepository::create_run *)
Definition mem_create_run (others : InMemory → InMemory) (env : CallEnv)
    (project_id scenario_id environment : string) (s : InMemory) : Result Run PlatformError * InMemory :=
  if is_empty project_id then (Error invalid_input, s)
  else match projects_ s !! project_id with
  | None => (Error not_found, s)
  | Some _ =>
      let s := others s in
      let '(id, n) := generate_id env (id_counter s) in
      let run := mkRun id project_id scenario_id environment pending (system_now env) None None in
      (Ok run, mkRepo (projects_ s) (scenarios_ s) (<[id := run]> (runs_ s)) (policies_ s) n)
  end.

(** [src/core/platform/in_memory_repo.cpp:141-148] InMemoryRepository::get_run *)
Definition mem_get_run (id : string) (s : InMemory) : Result Run PlatformError := find id (runs_ s).

(** [src/core/platform/in_memory_repo.cpp:150-161] InMemoryRepository::list_runs *)
Definition mem_list_runs (project_id : string) (s : InMemory) : list Run :=
  newest_first r_started_at
    (filter (λ x, r_project_id x = project_id) (snd <$> map_to_list (runs_ s))).

(** [src/core/platform/in_memory_repo.cpp:163-177] InMemoryRepository::finish_run *)
Definition mem_finish_run (env : CallEnv) (id : string) (status : RunStatus) (result : RunResult)
    (s : InMemory) : Result bool PlatformError * InMemory :=
  match runs_ s !! id with
  | None => (Error not_found, s)
  | Some run =>
      if terminal (r_status run) then (Error invalid_state, s)
      else
        let run := mkRun (r_id run) (r_project_id run) (r_scenario_id run) (r_environment run)
                     status (r_started_at run) (Some (system_now env)) (Some result) in
        (Ok true, mkRepo (projects_ s) (scenarios_ s) (<[id := run]> (runs_ s)) (policies_ s)
                    (id_counter s))
  end.

(** [src/core/platform/in_memory_repo.cpp:179-200] InMemoryRepository::create_policy *)
Definition mem_create_policy (others : InMemory → InMemory) (env : CallEnv)
    (project_id name : string) (rules : list PolicyRule) (s : InMemory) :
    Result Policy PlatformError * InMemory :=
  if is_empty project_id || is_empty name || bool_decide (rules = []) then (Error invalid_input, s)
  else match projects_ s !! project_id with
  | None => (Error not_found, s)
  | Some _ =>
      let s := others s in
      let '(id, n) := generate_id env (id_counter s) in
      let pol := mkPolicy id project_id name rules (system_now env) in
      (Ok pol, mkRepo (projects_ s) (scenarios_ s) (runs_ s) (<[id := pol]> (policies_ s)) n)
  end.

(** [src/core/platform/in_memory_repo.cpp:202-209] InMemoryRepository::get_policy *)
Definition mem_get_policy (id : string) (s : InMemory) : Result Policy PlatformError :=
  find id (policies_ s).

(** [src/core/platform/in_memory_repo.cpp:211-220] InMemoryRepository::list_policies *)
Definition mem_list_policies (project_id : string) (s : InMemory) : list Policy :=
  filter (λ x, pol_project_id x = project_id) (snd <$> map_to_list (policies_ s)).

(** The implementation satisfies the interface. *)
#[global, refine] Instance in_memory_repository : Repository InMemory := {|
  create_project := mem_create_project;
  get_project := mem_get_project;
  list_projects := mem_list_projects;
  delete_project := mem_delete_project;
  create_scenario := mem_create_scenario id;
  get_scenario := mem_get_scenario;
  list_scenarios := mem_list_scenarios;
  create_run := mem_create_run id;
  get_run := mem_get_run;
  list_runs := mem_list_runs;
  finish_run := mem_finish_run;
  create_policy := mem_create_policy id;
  get_policy := mem_get_policy;
  list_policies := mem_list_policies
|}.
Proof.
  - intros env pid sid e s run s' H. unfold mem_create_run, generate_id in H. cbn [id] in H.
    repeat case_match; simplify_eq. unfold mem_get_run, find. cbn [runs_ r_id].
    by rewrite lookup_insert_eq.
  - intros env pid n rules s pol s' H. unfold mem_create_policy, generate_id in H. cbn [id] in H.
    repeat case_match; simplify_eq. unfold mem_get_policy, find. cbn [policies_ pol_id].
    by rewrite lookup_insert_eq.
  - intros env id st res s s' H. unfold mem_finish_run in H. repeat case_match; simplify_eq.
    unfold mem_get_run, find. cbn [runs_]. rewrite lookup_insert_eq. eexists. by split.
  - intros env id st res s s' r k H. unfold mem_finish_run in H. by repeat case_match; simplify_eq.
  - intros env n d s e s' H. unfold mem_create_project, generate_id in H. by repeat case_match; simplify_eq.
  - intros id s e s' H. unfold mem_delete_project in H. by repeat case_match; simplify_eq.
  - intros env pid n v y s e s' H. unfold mem_create_scenario, generate_id in H. by repeat case_match; simplify_eq.
  - intros env pid sid v s e s' H. unfold mem_create_run, generate_id in H. by repeat case_match; simplify_eq.
  - intros env pid n rs s e s' H. unfold mem_create_policy, generate_id in H. by repeat case_match; simplify_eq.
Defined.

(** ** Referential integrity *)

(** Everything stored belongs to an existing project and is stored under its own
    identifier. *)
Record repo_ok (s : InMemory) : Prop := {
  ok_projects : map_Forall (λ id x, p_id x = id) (projects_ s);
  ok_scenarios : map_Forall (λ id x, s_id x = id ∧ is_Some (projects_ s !! s_project_id x)) (scenarios_ s);
  ok_runs : map_Forall (λ id x, r_id x = id ∧ is_Some (projects_ s !! r_project_id x)) (runs_ s);
  ok_policies : map_Forall (λ id x, pol_id x = id ∧ is_Some (projects_ s !! pol_project_id x)) (policies_ s)
}.

(** One critical section that changes the repository.  The insertions of the three
    [create_*] calls run some time after their check; here the project must still be
    there. *)
Inductive repo_step : InMemory → InMemory → Prop :=
  | step_create_project env name desc s :
      repo_step s (mem_create_project env name desc s).2
  | step_delete id s : repo_step s (mem_delete_project id s).2
  | step_insert_scenario env pid name v y s p :
      projects_ s !! pid = Some p →
      repo_step s (mem_create_scenario (λ x, x) env pid name v y s).2
  | step_insert_run env pid sid e s p :
      projects_ s !! pid = Some p → repo_step s (mem_create_run (λ x, x) env pid sid e s).2
  | step_finish env id st res s : repo_step s (mem_finish_run env id st res s).2
  | step_insert_policy env pid n rules s p :
      projects_ s !! pid = Some p → repo_step s (mem_create_policy (λ x, x) env pid n rules s).2.

Lemma empty_repo_ok : repo_ok empty_repo.
Proof. split; apply map_Forall_empty. Qed.

Lemma is_Some_insert {A} (m : gmap string A) k x j : is_Some (m !! j) → is_Some (<[k := x]> m !! j).
Proof. rewrite lookup_insert_is_Some. destruct (decide (k = j)); auto. Qed.

(** The components that do not change keep their part of the invariant. *)
Lemma map_Forall_weaken {A} (P Q : string → A → Prop) (m : gmap string A) :
  (∀ k x, P k x → Q k x) → map_Forall P m → map_Forall Q m.
Proof. intros HPQ HP k x Hx. apply HPQ. by apply HP. Qed.

Lemma repo_step_ok s s' : repo_step s s' → repo_ok s → repo_ok s'.
Proof.
  intros Hs [H1 H2 H3 H4]. destruct Hs as [env name desc s|id s|env pid name v y s p Hp
    |env pid sid e s p Hp|env id st res s|env pid n rules s p Hp];
    unfold mem_create_project, mem_delete_project, mem_create_scenario, mem_create_run,
      mem_finish_run, mem_create_policy, generate_id; cbv beta zeta; rewrite ?Hp.
  - destruct (is_empty name); [done|]. cbn [snd]. split; cbn [projects_ scenarios_ runs_ policies_].
    + by apply map_Forall_insert_2.
    + eapply map_Forall_weaken; [|done]. intros k x [? ?]. eauto using is_Some_insert.
    + eapply map_Forall_weaken; [|done]. intros k x [? ?]. eauto using is_Some_insert.
    + eapply map_Forall_weaken; [|done]. intros k x [? ?]. eauto using is_Some_insert.
  - destruct (projects_ s !! id) as [p|] eqn:E; [|done]. cbn [snd].
    split; cbn [projects_ scenarios_ runs_ policies_].
    + by apply map_Forall_delete.
    + intros k x [Hx Hne]%map_lookup_filter_Some. cbn in Hne. destruct (H2 k x Hx).
      split; [done|]. by rewrite lookup_delete_ne.
    + intros k x [Hx Hne]%map_lookup_filter_Some. cbn in Hne. destruct (H3 k x Hx).
      split; [done|]. by rewrite lookup_delete_ne.
    + intros k x [Hx Hne]%map_lookup_filter_Some. cbn in Hne. destruct (H4 k x Hx).
      split; [done|]. by rewrite lookup_delete_ne.
  - destruct (is_empty pid || is_empty name); [done|]. cbn [snd].
    split; cbn [projects_ scenarios_ runs_ policies_]; try done.
    apply map_Forall_insert_2; [|done]. cbn. by rewrite Hp.
  - destruct (is_empty pid); [done|]. cbn [snd].
    split; cbn [projects_ scenarios_ runs_ policies_]; try done.
    apply map_Forall_insert_2; [|done]. cbn. by rewrite Hp.
  - destruct (runs_ s !! id) as [run|] eqn:E; [|done]. destruct (terminal (r_status run)); [done|]. cbn [snd].
    split; cbn [projects_ scenarios_ runs_ policies_]; try done.
    apply map_Forall_insert_2; [|done]. cbn. by apply (H3 id run).
  - destruct (is_empty pid || is_empty n || bool_decide (rules = [])); [done|]. cbn [snd].
    split; cbn [projects_ scenarios_ runs_ policies_]; try done.
    apply map_Forall_insert_2; [|done]. cbn. by rewrite Hp.
Qed.

Lemma repo_steps_ok s s' : rtc repo_step s s' → repo_ok s → repo_ok s'.
Proof. induction 1; eauto using repo_step_ok. Qed.

Lemma newest_first_Permutation {A} (key : A → Z) l : newest_first key l ≡ₚ l.
Proof. apply merge_sort_Permutation. Qed.

Lemma newest_first_Sorted {A} (key : A → Z) l : StronglySorted (newer key) (newest_first key l).
Proof.
  apply StronglySorted_merge_sort; unfold newer; [intros x y z|intros x y]; lia.
Qed.

(** An item is listed for a project exactly when it is stored with that project. *)
Lemma elem_of_listing {A} (m : gmap string A) (pid : A → string) (k : string) x :
  x ∈ filter (λ x, pid x = k) (snd <$> map_to_list m) ↔ pid x = k ∧ ∃ id, m !! id = Some x.
Proof.
  rewrite list_elem_of_filter, list_elem_of_fmap. split; intros [? Hx]; (split; [done|]).
  - destruct Hx as [[i y] [-> Hy]]. apply elem_of_map_to_list in Hy. eauto.
  - destruct Hx as [i Hi]. exists (i, x). split; [done|]. by apply elem_of_map_to_list.
Qed.

Lemma find_Ok {A} (m : gmap string A) k y : find k m = Ok y ↔ m !! k = Some y.
Proof. unfold find. destruct (m !! k); split; intros; by simplify_eq. Qed.

Lemma find_filter {A} (f : A → string) (id k : string) (m : gmap string A) y :
  find k (filter (λ kv, f kv.2 ≠ id) m) = Ok y ↔ find k m = Ok y ∧ f y ≠ id.
Proof. rewrite !find_Ok. apply map_lookup_filter_Some. Qed.


Definition env0 : CallEnv := mkEnv 255 1000 7.


(** A run is finished at most once: a finish on a pending or running run
    stores the status, the time and the result; once the status is terminal every
    further finish is refused with [invalid_state] and changes nothing. *)
Theorem finish_run_once (env env' : CallEnv) (id : string) (st st' : RunStatus) (res res' : RunResult)
    (s : InMemory) (run : Run) :
  runs_ s !! id = Some run → terminal (r_status run) = false →
  let '(r, s') := mem_finish_run env id st res s in
  r = Ok true
  ∧ (∃ run', mem_get_run id s' = Ok run' ∧ r_status run' = st ∧ r_result run' = Some res
             ∧ r_finished_at run' = Some (system_now env) ∧ r_project_id run' = r_project_id run)
  ∧ (∀ k, k ≠ id → mem_get_run k s' = mem_get_run k s)
  ∧ (terminal st = true → mem_finish_run env' id st' res' s' = (Error invalid_state, s')).
Proof.
  intros Hr Ht. unfold mem_finish_run at 1. rewrite Hr, Ht. split_and!; [done| | |].
  - unfold mem_get_run, find. cbn [runs_]. rewrite lookup_insert_eq. eexists. by split_and!.
  - intros k Hk. unfold mem_get_run, find. cbn [runs_]. by rewrite lookup_insert_ne.
  - intros Hst. unfold mem_finish_run. cbn [runs_]. rewrite lookup_insert_eq. cbn [r_status].
    by rewrite Hst.
Qed.

Definition zero_result : RunResult := mkRunResult 0 0 0 (Fin 0) (Fin 0) (Fin 0) (Fin 0) (Fin 0).

Lemma finish_run_once_witness :
  let run := mkRun "r" "p" "" "" pending 0 None None in
  let s := mkRepo ∅ ∅ {[ "r" := run ]} ∅ 0 in
  (mem_finish_run env0 "r" completed zero_result s).1 = Ok true.
Proof.
  intros run s.
  pose proof (finish_run_once env0 env0 "r" completed failed zero_result zero_result s run eq_refl eq_refl) as H.
  destruct (mem_finish_run env0 "r" completed zero_result s) as [r s']. exact (proj1 H).
Defined.

(** The listings of a project are complete, contain nothing else, and come
    newest first. *)
Theorem listings_exact (s : InMemory) (pid : string) :
  (∀ x, x ∈ mem_list_scenarios pid s ↔ s_project_id x = pid ∧ ∃ id, scenarios_ s !! id = Some x)
  ∧ (∀ x, x ∈ mem_list_runs pid s ↔ r_project_id x = pid ∧ ∃ id, runs_ s !! id = Some x)
  ∧ (∀ x, x ∈ mem_list_policies pid s ↔ pol_project_id x = pid ∧ ∃ id, policies_ s !! id = Some x)
  ∧ (∀ x, x ∈ mem_list_projects s ↔ ∃ id, projects_ s !! id = Some x)
  ∧ StronglySorted (newer s_created_at) (mem_list_scenarios pid s)
  ∧ StronglySorted (newer r_started_at) (mem_list_runs pid s)
  ∧ StronglySorted (newer p_created_at) (mem_list_projects s).
Proof.
  split_and!; try apply newest_first_Sorted.
  - intros x. unfold mem_list_scenarios. by rewrite newest_first_Permutation, elem_of_listing.
  - intros x. unfold mem_list_runs. by rewrite newest_first_Permutation, elem_of_listing.
  - intros x. unfold mem_list_policies. by rewrite elem_of_listing.
  - intros x. unfold mem_list_projects. rewrite newest_first_Permutation, list_elem_of_fmap. split.
    + intros [[k y] [-> Hy]]. apply elem_of_map_to_list in Hy. eauto.
    + intros [k Hk]. exists (k, x). split; [done|]. by apply elem_of_map_to_list.
Qed.

(** The check that the project exists and the insertion are two critical
    sections: a deletion of the project that falls between them leaves a scenario, a
    run or a policy whose project does not exist, and the caller is told it was
    created. *)
Theorem create_delete_race (env : CallEnv) (pid name version yaml sid e : string)
    (rules : list PolicyRule) (s : InMemory) (p : Project) :
  projects_ s !! pid = Some p → pid ≠ "" → name ≠ "" → rules ≠ [] →
  let del := λ s, (mem_delete_project pid s).2 in
  (let '(r, s') := mem_create_scenario del env pid name version yaml s in
   ∃ x, r = Ok x ∧ mem_get_scenario (s_id x) s' = Ok x
        ∧ mem_get_project (s_project_id x) s' = Error not_found)
  ∧ (let '(r, s') := mem_create_run del env pid sid e s in
     ∃ x, r = Ok x ∧ mem_get_run (r_id x) s' = Ok x
          ∧ mem_get_project (r_project_id x) s' = Error not_found)
  ∧ (let '(r, s') := mem_create_policy del env pid name rules s in
     ∃ x, r = Ok x ∧ mem_get_policy (pol_id x) s' = Ok x
          ∧ mem_get_project (pol_project_id x) s' = Error not_found).
Proof.
  intros Hp Hpid Hname Hrules del.
  assert (E1 : is_empty pid = false) by (by destruct pid).
  assert (E2 : is_empty name = false) by (by destruct name).
  assert (E3 : bool_decide (rules = []) = false) by (by apply bool_decide_eq_false).
  assert (Hd : mem_get_project pid (del s) = Error not_found).
  { unfold del, mem_delete_project, mem_get_project, find. rewrite Hp. cbn. by rewrite lookup_delete_eq. }
  unfold mem_create_scenario, mem_create_run, mem_create_policy. rewrite E1, E2, E3, Hp.
  split_and!; eexists; (split; [reflexivity|]); (split; [|exact Hd]); cbn;
    unfold mem_get_scenario, mem_get_run, mem_get_policy, find; cbn; by rewrite lookup_insert_eq.
Qed.

Lemma create_delete_race_witness :
  let s := mkRepo {[ "p" := mkProject "p" "n" "" 0 ]} ∅ ∅ ∅ 0 in
  let '(r, s') := mem_create_run (λ s, (mem_delete_project "p" s).2) env0 "p" "" "" s in
  ∃ x, r = Ok x ∧ mem_get_project (r_project_id x) s' = Error not_found.
Proof.
  intros s.
  pose proof (create_delete_race env0 "p" "n" "" "" "" "" [mkRule "a" "<" (Fin 0)] s
    (mkProject "p" "n" "" 0) eq_refl ltac:(done) ltac:(done) ltac:(done)) as (_ & H & _).
  destruct (mem_create_run _ env0 "p" "" "" s) as [r s'].
  destruct H as (x & H1 & _ & H2). exists x. exact (conj H1 H2).
Defined.
