(* ===== verification/Policy.v ===== *)
(** * Policy evaluation: [platform::PolicyEvaluator]

    [core/platform/policy.cpp], written and proved against the [Repository]
    interface. *)

From S2P Require Import Prelude CppString Double Result Repo.

Local Open Scope Z_scope.

(** [src/include/cppload/platform/models.hpp:68-72] PolicyViolation *)
Record PolicyViolation := mkViolation {
  rule_metric : string; message : string; severity : PolicySeverity
}.

(** [src/include/cppload/platform/models.hpp:74-79] PolicyEvaluation *)
Record PolicyEvaluation := mkEvaluation {
  e_run_id : string; e_policy_id : string; e_passed : bool; e_violations : list PolicyViolation
}.

(** [src/core/platform/policy.cpp:62-72] PolicyEvaluator::get_metric_value *)
Definition get_metric_value (r : RunResult) (m : string) : option double :=
  if (m =? "error_rate_pct")%string then Some (error_rate_pct r)
  else if (m =? "throughput_rps")%string then Some (throughput_rps r)
  else if (m =? "p50_latency_ms")%string then Some (p50_latency_ms r)
  else if (m =? "p95_latency_ms")%string then Some (p95_latency_ms r)
  else if (m =? "p99_latency_ms")%string then Some (p99_latency_ms r)
  else if (m =? "total_requests")%string then Some (d_of_Z (total_requests r))
  else if (m =? "failed_requests")%string then Some (d_of_Z (failed_requests r))
  else None.

Definition epsilon : double := d_lit 1 1000000000.

(** True when the threshold is violated. *)
(** [src/core/platform/policy.cpp:74-83] PolicyEvaluator::check_threshold *)
Definition check_threshold (actual : double) (op : string) (threshold : double) : bool :=
  if (op =? "<")%string then negb (dltb actual threshold)
  else if (op =? "<=")%string then negb (dleb actual threshold)
  else if (op =? ">")%string then negb (dgtb actual threshold)
  else if (op =? ">=")%string then negb (dgeb actual threshold)
  else if (op =? "==")%string then dgtb (dabs (dsub actual threshold)) epsilon
  else if (op =? "!=")%string then dleb (dabs (dsub actual threshold)) epsilon
  else true.

(** [src/core/platform/policy.cpp:85-89] PolicyEvaluator::format_violation *)
Definition format_violation (metric op : string) (threshold actual : double) : string :=
  metric +:+ " expected " +:+ op +:+ " " +:+ d_to_string threshold
    +:+ " but got " +:+ d_to_string actual.

(** [src/core/platform/policy.cpp:43-57] PolicyEvaluator::evaluate *)
Definition evaluate_rule (result : RunResult) (acc : bool * list PolicyViolation) (rule : PolicyRule) :
    bool * list PolicyViolation :=
  let '(passed, violations) := acc in
  match get_metric_value result (metric rule) with
  | None => (passed, violations ++
               [mkViolation (metric rule) ("unknown metric: " +:+ metric rule) sev_warning])
  | Some actual =>
      if check_threshold actual (op rule) (threshold rule) then
        (false, violations ++
           [mkViolation (metric rule)
              (format_violation (metric rule) (op rule) (threshold rule) actual) sev_error])
      else (passed, violations)
  end.

Section evaluator.
Context {S : Type} `{Repository S}.

(** [src/core/platform/policy.cpp:11-60] PolicyEvaluator::evaluate *)
Definition evaluate (run_id policy_id : string) (repo : S) : PolicyEvaluation :=
  match get_run run_id repo with
  | Error _ => mkEvaluation run_id policy_id false
                 [mkViolation "run" ("run not found: " +:+ run_id) sev_error]
  | Ok run =>
      match get_policy policy_id repo with
      | Error _ => mkEvaluation run_id policy_id false
                     [mkViolation "policy" ("policy not found: " +:+ policy_id) sev_error]
      | Ok policy =>
          match r_result run with
          | None => mkEvaluation run_id policy_id false
                      [mkViolation "result" "run has no result yet" sev_error]
          | Some result =>
              let '(passed, vs) := foldl (evaluate_rule result) (true, []) (pol_rules policy) in
              mkEvaluation run_id policy_id passed vs
          end
      end
  end.
End evaluator.

(** ** What an evaluation says *)

(** The rule names a known metric and its threshold is violated. *)
Definition violated (result : RunResult) (rule : PolicyRule) : bool :=
  match get_metric_value result (metric rule) with
  | Some actual => check_threshold actual (op rule) (threshold rule)
  | None => false
  end.

(** What a rule demands of the value of its metric; equality is up to [epsilon]. *)
Inductive holds (a t : double) : string → Prop :=
  | holds_lt : dltb a t = true → holds a t "<"
  | holds_le : dleb a t = true → holds a t "<="
  | holds_gt : dgtb a t = true → holds a t ">"
  | holds_ge : dgeb a t = true → holds a t ">="
  | holds_eq : dgtb (dabs (dsub a t)) epsilon = false → holds a t "=="
  | holds_ne : dleb (dabs (dsub a t)) epsilon = false → holds a t "!=".

(** A rule on an unknown metric demands nothing. *)
Definition satisfied (result : RunResult) (rule : PolicyRule) : Prop :=
  ∀ a, get_metric_value result (metric rule) = Some a → holds a (threshold rule) (op rule).

Lemma check_threshold_holds a o t : check_threshold a o t = false ↔ holds a t o.
Proof.
  unfold check_threshold. split.
  - do 6 (match goal with |- context [(o =? ?x)%string] => destruct (String.eqb_spec o x) as [->|_] end;
      [intros H; constructor; first [exact H|by apply negb_false_iff in H]|]). done.
  - destruct 1 as [H|H|H|H|H|H]; cbn [String.eqb Ascii.eqb Bool.eqb]; first [exact H|by rewrite H].
Qed.

Lemma violated_satisfied result rule : violated result rule = false ↔ satisfied result rule.
Proof.
  unfold violated, satisfied. destruct (get_metric_value result (metric rule)); [|done].
  rewrite check_threshold_holds. naive_solver.
Qed.

Definition is_error (v : PolicyViolation) : bool :=
  match severity v with sev_error => true | sev_warning => false end.

Lemma fold_rules result rules : ∀ p vs,
  let '(p', vs') := foldl (evaluate_rule result) (p, vs) rules in
  p' = p && forallb (λ r, negb (violated result r)) rules
  ∧ ∃ new, vs' = vs ++ new
    ∧ rule_metric <$> List.filter is_error new = metric <$> List.filter (violated result) rules
    ∧ (List.length new ≤ List.length rules)%nat.
Proof.
  induction rules as [|r rules IH]; intros p vs; cbn [foldl forallb].
  { rewrite andb_true_r. split; [done|]. exists []. by rewrite app_nil_r. }
  unfold evaluate_rule at 2. cbn [List.filter].
  destruct (get_metric_value result (metric r)) as [a|] eqn:E.
  - destruct (check_threshold a (op r) (threshold r)) eqn:Ec.
    + specialize (IH false (vs ++ [mkViolation (metric r)
        (format_violation (metric r) (op r) (threshold r) a) sev_error])).
      destruct (foldl _ _ rules) as [p' vs']. destruct IH as [-> (new & -> & Hf & Hl)].
      assert (Hv : violated result r = true) by (unfold violated; by rewrite E). rewrite Hv.
      split; [by rewrite andb_false_r|]. eexists. rewrite <-app_assoc. split; [done|].
      cbn. rewrite Hf. split; [done|lia].
    + specialize (IH p vs). destruct (foldl _ _ rules) as [p' vs'].
      destruct IH as [-> (new & -> & Hf & Hl)].
      assert (Hv : violated result r = false) by (unfold violated; by rewrite E). rewrite Hv.
      split; [done|]. exists new. cbn. split_and!; [done..|lia].
  - specialize (IH p (vs ++ [mkViolation (metric r) ("unknown metric: " +:+ metric r) sev_warning])).
    destruct (foldl _ _ rules) as [p' vs']. destruct IH as [-> (new & -> & Hf & Hl)].
    assert (Hv : violated result r = false) by (unfold violated; by rewrite E). rewrite Hv.
    split; [done|]. eexists. rewrite <-app_assoc. split; [done|]. cbn. split; [done|lia].
Qed.

Section correct.
Context {S : Type} `{Repository S}.

(** C19.  For any repository that keeps the interface's promises: once a run is
    finished with a result, evaluating it against a policy created before passes
    exactly when every rule on a known metric holds of the result (equality up to
    [1e-9], an unknown operator never); the violations of severity error name the
    rules that do not hold, in their order, and rules on unknown metrics only add
    warnings. *)
Theorem evaluate_correct (env env' : CallEnv) (pid name run_id : string) (rules : list PolicyRule)
    (st : RunStatus) (res : RunResult) (pol : Policy) (s s1 s2 : S) :
  create_policy env pid name rules s = (Ok pol, s1) →
  finish_run env' run_id st res s1 = (Ok true, s2) →
  let e := evaluate run_id (pol_id pol) s2 in
  (e_passed e = true ↔ Forall (satisfied res) rules)
  ∧ rule_metric <$> List.filter is_error (e_violations e) = metric <$> List.filter (violated res) rules
  ∧ (∀ r, violated res r = false ↔ satisfied res r).
Proof.
  intros Hp Hf e. destruct (created_policy_found _ _ _ _ _ _ _ Hp) as [Hg Hrules].
  destruct (finished_run_found _ _ _ _ _ _ Hf) as (run & Hr & _ & Hres).
  unfold e, evaluate. rewrite Hr, (finish_keeps_policies _ _ _ _ _ _ _ _ Hf), Hg, Hres, Hrules.
  pose proof (fold_rules res rules true []) as Hfold.
  destruct (foldl _ _ rules) as [p' vs']. destruct Hfold as [-> (new & -> & Hn & _)]. cbn.
  split; [|split; [done|apply violated_satisfied]]. rewrite forallb_forall, Forall_forall. split.
  - intros Hall r Hin. apply violated_satisfied, negb_true_iff, Hall. by apply list_elem_of_In.
  - intros Hall r Hin. apply negb_true_iff, violated_satisfied, Hall. by apply list_elem_of_In.
Qed.

(** Without a run, a policy or a result there is exactly one error and no pass. *)
Lemma evaluate_missing run_id policy_id (s : S) :
  (get_run run_id s = Error not_found ∨ get_policy policy_id s = Error not_found
   ∨ ∃ run, get_run run_id s = Ok run ∧ r_result run = None) →
  e_passed (evaluate run_id policy_id s) = false
  ∧ List.length (e_violations (evaluate run_id policy_id s)) = 1%nat.
Proof.
  unfold evaluate. intros [-> | [Hp|(run & -> & Hr)]]; [done| |].
  - destruct (get_run run_id s); [|done]. by rewrite Hp.
  - destruct (get_policy policy_id s); [|done]. by rewrite Hr.
Qed.
End correct.

Lemma evaluate_correct_witness :
  let p := mkProject "p" "n" "" 0 in
  let run := mkRun "r" "p" "" "" pending 0 None None in
  let s := mkRepo {[ "p" := p ]} ∅ {[ "r" := run ]} ∅ 0 in
  let rules := [mkRule "error_rate_pct" "<" (d_of_Z 5)] in
  ∃ pol s1 s2, mem_create_policy id env0 "p" "gate" rules s = (Ok pol, s1)
    ∧ mem_finish_run env0 "r" completed zero_result s1 = (Ok true, s2)
    ∧ (e_passed (evaluate "r" (pol_id pol) s2) = true ↔ Forall (satisfied zero_result) rules).
Proof.
  intros p run s rules. eexists _, _, _. split; [reflexivity|]. split; [reflexivity|].
  refine (proj1 (evaluate_correct (S := InMemory) env0 env0 "p" "gate" "r" rules completed zero_result
    _ s _ _ _ _)); reflexivity.
Defined.
