(* ===== verification/HttpServer.v ===== *)
(** * The control plane's HTTP interface: [platform::HttpServer]

    [core/platform/http_server.cpp]: routing, the handlers and the session loop, for
    any [Repository].  The JSON library is a parameter ([JsonLib]): parsing, printing,
    building values, and the accessors the handlers use, [None] where the accessor
    throws. *)

From S2P Require Import Prelude CppString Double Result Repo Policy.

Local Open Scope Z_scope.

(** What the handlers use of [nlohmann::json]. *)
Class JsonLib := {
  json : Type;
  json_parse : string → option json;              (* [None]: [is_discarded()] *)
  json_dump : json → string;
  json_obj : list (string * json) → json;
  json_arr : list json → json;
  json_str : string → json;
  json_int : Z → json;
  json_double : double → json;
  json_bool : bool → json;
  json_value : json → string → string → option string;   (* [j.value(key, default)] *)
  json_at_string : json → string → option string;         (* [j.at(key).get<string>()] *)
  json_at_double : json → string → option double;         (* [j.at(key).get<double>()] *)
  json_array_at : json → string → option (list json)
    (* the elements, when [j.contains(key) && j[key].is_array()] *)
}.

Inductive verb := get | post | delete_ | other_verb.

Record Response := mkResponse { status : Z; body : string }.

Section handlers.
Context `{JsonLib} {S : Type} `{Repository S}.

(** [std::to_string(system_clock::to_time_t(t))] *)
Definition time_string (t : Z) : json := json_str (to_string (Z.quot t 1000000000)).

(** [src/core/platform/http_server.cpp:24-30] to_json *)
Definition project_json (p : Project) : json :=
  json_obj [("id", json_str (p_id p)); ("name", json_str (p_name p));
            ("description", json_str (p_description p));
            ("created_at", time_string (p_created_at p))].

(** [src/core/platform/http_server.cpp:32-39] to_json *)
Definition scenario_json (s : Scenario) : json :=
  json_obj [("id", json_str (s_id s)); ("project_id", json_str (s_project_id s));
            ("name", json_str (s_name s)); ("version", json_str (s_version s));
            ("yaml", json_str (s_yaml_content s)); ("created_at", time_string (s_created_at s))].

(** [src/core/platform/http_server.cpp:41-52] to_json *)
Definition result_json (r : RunResult) : json :=
  json_obj [("total_requests", json_int (total_requests r));
            ("successful_requests", json_int (successful_requests r));
            ("failed_requests", json_int (failed_requests r));
            ("error_rate_pct", json_double (error_rate_pct r));
            ("throughput_rps", json_double (throughput_rps r));
            ("p50_latency_ms", json_double (p50_latency_ms r));
            ("p95_latency_ms", json_double (p95_latency_ms r));
            ("p99_latency_ms", json_double (p99_latency_ms r))].

(** [src/core/platform/http_server.cpp:54-69] to_json *)
Definition run_json (r : Run) : json :=
  json_obj ([("id", json_str (r_id r)); ("project_id", json_str (r_project_id r));
             ("scenario_id", json_str (r_scenario_id r)); ("environment", json_str (r_environment r));
             ("status", json_str (status_string (r_status r)));
             ("started_at", time_string (r_started_at r))]
            ++ match r_finished_at r with Some t => [("finished_at", time_string t)] | None => [] end
            ++ match r_result r with Some x => [("result", result_json x)] | None => [] end).

(** [src/core/platform/http_server.cpp:71-73] to_json *)
Definition rule_json (r : PolicyRule) : json :=
  json_obj [("metric", json_str (metric r)); ("op", json_str (op r));
            ("threshold", json_double (threshold r))].

(** [src/core/platform/http_server.cpp:75-82] to_json *)
Definition policy_json (p : Policy) : json :=
  json_obj [("id", json_str (pol_id p)); ("project_id", json_str (pol_project_id p));
            ("name", json_str (pol_name p)); ("rules", json_arr (rule_json <$> pol_rules p));
            ("created_at", time_string (pol_created_at p))].

(** [src/core/platform/http_server.cpp:84-89] to_json *)
Definition violation_json (v : PolicyViolation) : json :=
  json_obj [("metric", json_str (rule_metric v)); ("message", json_str (message v));
            ("severity", json_str (severity_string (severity v)))].

(** [src/core/platform/http_server.cpp:91-96] to_json *)
Definition evaluation_json (e : PolicyEvaluation) : json :=
  json_obj [("run_id", json_str (e_run_id e)); ("policy_id", json_str (e_policy_id e));
            ("passed", json_bool (e_passed e));
            ("violations", json_arr (violation_json <$> e_violations e))].

(** [src/core/platform/http_server.cpp:100-106] from_json_policy_rule *)
Definition from_json_policy_rule (j : json) : option PolicyRule :=
  m ← json_at_string j "metric";
  o ← json_at_string j "op";
  t ← json_at_double j "threshold";
  Some (mkRule m o t).

(** [src/core/platform/http_server.cpp:108-114] extract_path *)
Definition extract_path (target : string) : string :=
  let pos := match find_char "?" target with
             | Some p => Some p
             | None => find_char "#" target
             end in
  match pos with None => target | Some p => stake p target end.

(** [src/core/platform/http_server.cpp:116-123] error_response *)
Definition error_response (st : Z) (msg : string) : Response :=
  mkResponse st (json_dump (json_obj [("error", json_str msg)])).

(** [src/core/platform/http_server.cpp:125-131] ok_response *)
Definition ok_response (j : json) : Response := mkResponse 200 (json_dump j).

(** [src/core/platform/http_server.cpp:133-139] created_response *)
Definition created_response (j : json) : Response := mkResponse 201 (json_dump j).

(** [src/core/platform/http_server.cpp:141-143] method_not_allowed_response *)
Definition method_not_allowed_response : Response := error_response 405 "method not allowed".

(** [src/core/platform/http_server.cpp:145-147] not_found_response *)
Definition not_found_response : Response := error_response 404 "not found".

(** [src/core/platform/http_server.cpp:149-157] status_to_http *)
Definition status_to_http (e : PlatformError) : Z :=
  match e with
  | not_found => 404 | already_exists => 409 | invalid_input => 400 | invalid_state => 409
  end.

(** A handler's outcome: a response, or [None] when it throws. *)
Definition Handler : Type := S → option Response * S.

(** The body parsed, for the handlers that need it. *)
Definition with_body (b : string) (k : json → Handler) : Handler := λ s,
  match json_parse b with
  | None => (Some (error_response 400 "invalid JSON"), s)
  | Some j => k j s
  end.

(** The response to a creation. *)
Definition created {T} (msg : string) (f : T → json) (r : Result T PlatformError * S) :
    option Response * S :=
  match r with
  | (Error e, s) => (Some (error_response (status_to_http e) msg), s)
  | (Ok x, s) => (Some (created_response (f x)), s)
  end.

(** [src/core/platform/http_server.cpp:276-295] HttpServer::handle_projects *)
Definition handle_projects (env : CallEnv) (m : verb) (b : string) : Handler := λ s,
  match m with
  | get => (Some (ok_response (json_arr (project_json <$> list_projects s))), s)
  | post => with_body b (λ j s,
      match json_value j "name" "", json_value j "description" "" with
      | Some name, Some desc => created "invalid input" project_json (create_project env name desc s)
      | _, _ => (None, s)
      end) s
  | _ => (Some method_not_allowed_response, s)
  end.

(** [src/core/platform/http_server.cpp:159-166] result_to_response *)
Definition result_to_response {T} (to_json : T → json) (r : Result T PlatformError) : Response :=
  match r with
  | Error e => error_response (status_to_http e) "error"
  | Ok x => ok_response (to_json x)
  end.

(** [src/core/platform/http_server.cpp:297-310] HttpServer::handle_project *)
Definition handle_project (m : verb) (id : string) : Handler := λ s,
  match m with
  | get => (Some (result_to_response project_json (get_project id s)), s)
  | delete_ => match delete_project id s with
               | (Error e, s) => (Some (error_response (status_to_http e) "not found"), s)
               | (Ok _, s) => (Some (ok_response (json_obj [("deleted", json_bool true)])), s)
               end
  | _ => (Some method_not_allowed_response, s)
  end.

(** [src/core/platform/http_server.cpp:312-333] HttpServer::handle_scenarios *)
Definition handle_scenarios (env : CallEnv) (m : verb) (pid b : string) : Handler := λ s,
  match m with
  | get => (Some (ok_response (json_arr (scenario_json <$> list_scenarios pid s))), s)
  | post => with_body b (λ j s,
      match json_value j "name" "", json_value j "version" "", json_value j "yaml" "" with
      | Some n, Some v, Some y => created "error" scenario_json (create_scenario env pid n v y s)
      | _, _, _ => (None, s)
      end) s
  | _ => (Some method_not_allowed_response, s)
  end.

(** [src/core/platform/http_server.cpp:335-355] HttpServer::handle_runs *)
Definition handle_runs (env : CallEnv) (m : verb) (pid b : string) : Handler := λ s,
  match m with
  | get => (Some (ok_response (json_arr (run_json <$> list_runs pid s))), s)
  | post => with_body b (λ j s,
      match json_value j "scenario_id" "", json_value j "environment" "" with
      | Some sid, Some e => created "error" run_json (create_run env pid sid e s)
      | _, _ => (None, s)
      end) s
  | _ => (Some method_not_allowed_response, s)
  end.

(** [src/core/platform/http_server.cpp:357-381] HttpServer::handle_policies *)
Definition handle_policies (env : CallEnv) (m : verb) (pid b : string) : Handler := λ s,
  match m with
  | get => (Some (ok_response (json_arr (policy_json <$> list_policies pid s))), s)
  | post => with_body b (λ j s,
      match mapM from_json_policy_rule (default [] (json_array_at j "rules")), json_value j "name" "" with
      | Some rules, Some n => created "error" policy_json (create_policy env pid n rules s)
      | _, _ => (None, s)
      end) s
  | _ => (Some method_not_allowed_response, s)
  end.

(** [src/core/platform/http_server.cpp:383-399] HttpServer::handle_evaluate *)
Definition handle_evaluate (m : verb) (b : string) : Handler := λ s,
  match m with
  | post => with_body b (λ j s,
      match json_value j "run_id" "", json_value j "policy_id" "" with
      | Some run_id, Some policy_id =>
          if is_empty run_id || is_empty policy_id then
            (Some (error_response 400 "run_id and policy_id required"), s)
          else (Some (ok_response (evaluation_json (evaluate run_id policy_id s))), s)
      | _, _ => (None, s)
      end) s
  | _ => (Some method_not_allowed_response, s)
  end.

(** [src/core/platform/http_server.cpp:244-274] HttpServer::route *)
Definition route (env : CallEnv) (m : verb) (path b : string) : Handler := λ s,
  let fallthrough :=
    if (path =? "/api/v1/evaluate")%string then handle_evaluate m b s
    else if (path =? "/health")%string then
      (Some (ok_response (json_obj [("status", json_str "ok")])), s)
    else (Some not_found_response, s) in
  if (path =? "/api/v1/projects")%string then handle_projects env m b s
  else if String.prefix "/api/v1/projects/" path then
    let rest := sdrop 17 path in
    match find_char "/" rest with
    | None => handle_project m rest s
    | Some slash =>
        let project_id := stake slash rest in
        let sub := sdrop slash rest in
        if (sub =? "/scenarios")%string then handle_scenarios env m project_id b s
        else if (sub =? "/runs")%string then handle_runs env m project_id b s
        else if (sub =? "/policies")%string then handle_policies env m project_id b s
        else fallthrough
    end
  else fallthrough.

(** One request read from a connection. *)
Record HttpRequest := mkRequest { req_env : CallEnv; req_method : verb; req_target : string; req_body : string }.

(** [src/core/platform/http_server.cpp:224-242] HttpServer::handle_session *)
Definition handle_session (r : HttpRequest) : Handler :=
  route (req_env r) (req_method r) (extract_path (req_target r)) (req_body r).

(** The accept thread serves one connection after the other; an exception leaves
    the thread function, which ends the process.  The flag says whether it is still
    running. *)
(** [src/core/platform/http_server.cpp:204-222] HttpServer::accept_loop *)
Fixpoint accept_loop (rs : list HttpRequest) (s : S) : list Response * S * bool :=
  match rs with
  | [] => ([], s, true)
  | r :: rs =>
      match handle_session r s with
      | (None, s) => ([], s, false)
      | (Some resp, s) => let '(resps, s, alive) := accept_loop rs s in (resp :: resps, s, alive)
      end
  end.
End handlers.

(** ** A small JSON library, for the examples *)

Inductive Json :=
  | JStr (s : string) | JInt (z : Z) | JDouble (d : double) | JBool (b : bool)
  | JArr (l : list Json) | JObj (l : list (string * Json)).

Definition field (j : Json) (k : string) : option Json :=
  match j with JObj l => snd <$> List.find (λ kv, String.eqb kv.1 k) l | _ => None end.

(** The body ["[]"] is an object with one rule without fields; an empty body does not
    parse; anything else is an object whose name is the body. *)
#[global] Instance example_json : JsonLib := {|
  json := Json;
  json_parse b :=
    if is_empty b then None
    else if (b =? "[]")%string then Some (JObj [("name", JStr "n"); ("rules", JArr [JObj []])])
    else Some (JObj [("name", JStr b)]);
  json_dump j := match j with JObj ((k, JStr v) :: _) => k +:+ "=" +:+ v | _ => "" end;
  json_obj := JObj; json_arr := JArr; json_str := JStr; json_int := JInt;
  json_double := JDouble; json_bool := JBool;
  json_value j k d := match j, field j k with
                      | JObj _, None => Some d
                      | JObj _, Some (JStr s) => Some s
                      | _, _ => None
                      end;
  json_at_string j k := match field j k with Some (JStr s) => Some s | _ => None end;
  json_at_double j k := match field j k with Some (JDouble d) => Some d | _ => None end;
  json_array_at j k := match field j k with Some (JArr l) => Some l | _ => None end
|}.

(** ** Properties of the interface *)

Section properties.
Context `{JsonLib} {S : Type} `{Repository S}.

(** What a handler may answer to a request with method [m]. *)
Definition answer_ok (m : verb) (s : S) (o : option Response * S) : Prop :=
  match o with
  | (None, s') => s' = s
  | (Some r, s') =>
      status r ∈ [200; 201; 400; 404; 405; 409]
      ∧ (m = get → s' = s) ∧ (400 ≤ status r → s' = s) ∧ (status r = 201 → m = post)
  end.

Lemma answer_same m s r : status r ∈ [200; 400; 404; 405; 409] → answer_ok m s (Some r, s).
Proof. intros Hr. unfold answer_ok. split_and!; [set_solver|done..|]. intros E. rewrite E in Hr. set_solver. Qed.

Lemma answer_error m s e msg : answer_ok m s (Some (error_response (status_to_http e) msg), s).
Proof. apply answer_same. destruct e; cbn; set_solver. Qed.

Lemma answer_created {T} msg (f : T → json) (r : Result T PlatformError * S) s :
  (∀ e s', r = (Error e, s') → s' = s) → answer_ok post s (created msg f r).
Proof.
  intros Hr. destruct r as [[x|e] s']; cbn [created].
  - cbn. split_and!; [set_solver|done|lia|done].
  - rewrite (Hr e s' eq_refl). apply answer_error.
Qed.

Lemma answer_body b k s :
  (∀ j, answer_ok post s (k j s)) → answer_ok post s (with_body b k s).
Proof.
  intros Hk. unfold with_body. destruct (json_parse b); [done|]. apply answer_same. cbn. set_solver.
Qed.

Lemma handlers_ok env m pid b s :
  answer_ok m s (handle_projects env m b s) ∧ answer_ok m s (handle_project m pid s)
  ∧ answer_ok m s (handle_scenarios env m pid b s) ∧ answer_ok m s (handle_runs env m pid b s)
  ∧ answer_ok m s (handle_policies env m pid b s) ∧ answer_ok m s (handle_evaluate m b s).
Proof.
  assert (Hna : answer_ok m s (Some method_not_allowed_response, s)) by (apply answer_same; cbn; set_solver).
  assert (Hok : ∀ j, answer_ok m s (Some (ok_response j), s)) by (intros; apply answer_same; cbn; set_solver).
  split_and!.
  - unfold handle_projects. destruct m; auto. apply answer_body. intros j.
    repeat case_match; [|done..]. apply answer_created. apply refused_project.
  - unfold handle_project. destruct m; auto.
    + unfold result_to_response. destruct (get_project pid s); [auto|apply answer_error].
    + destruct (delete_project pid s) as [[x|e] s'] eqn:E.
      * cbn. split_and!; [set_solver|done|lia|lia].
      * rewrite (refused_delete _ _ _ _ E). apply answer_error.
  - unfold handle_scenarios. destruct m; auto. apply answer_body. intros j.
    repeat case_match; [|done..]. apply answer_created. apply refused_scenario.
  - unfold handle_runs. destruct m; auto. apply answer_body. intros j.
    repeat case_match; [|done..]. apply answer_created. apply refused_run.
  - unfold handle_policies. destruct m; auto. apply answer_body. intros j.
    repeat case_match; [|done..]. apply answer_created. apply refused_policy.
  - unfold handle_evaluate. destruct m; auto. apply answer_body. intros j.
    repeat case_match; try done; apply answer_same; cbn; set_solver.
Qed.

(** For any repository and JSON library, every answer of the control plane has
    one of the six documented status codes; a GET changes nothing, an error answer
    (and a request whose handler throws) changes nothing, and only a POST answers
    201. *)
Theorem route_answers (env : CallEnv) (m : verb) (path b : string) (s : S) :
  answer_ok m s (route env m path b s).
Proof.
  unfold route.
  assert (Hf : answer_ok m s
    (if (path =? "/api/v1/evaluate")%string then handle_evaluate m b s
     else if (path =? "/health")%string then
       (Some (ok_response (json_obj [("status", json_str "ok")])), s)
     else (Some not_found_response, s))).
  { destruct (_ =? _)%string; [by apply (handlers_ok env m "" b s)|].
    destruct (_ =? _)%string; apply answer_same; cbn; set_solver. }
  cbv zeta. set (ft := if (path =? "/api/v1/evaluate")%string then _ else _) in *. clearbody ft.
  destruct (_ =? _)%string; [by apply (handlers_ok env m "" b s)|].
  destruct (String.prefix _ path); [|done].
  destruct (find_char "/" _) as [slash|]; [|by apply (handlers_ok env m _ b s)].
  do 3 (destruct (_ =? _)%string; [by apply (handlers_ok env m _ b s)|]). done.
Qed.

(** C40.  One malformed request ends the control plane: a POST of a policy one of
    whose rules lacks a field (or has one of the wrong type) makes the handler throw;
    nothing catches the exception, so no later request of any client is answered. *)
Theorem malformed_policy_kills_server (before after : list HttpRequest) (env : CallEnv)
    (pid target b : string) (j : json) (rj : json) (rjs : list json) (s s1 : S)
    (resps : list Response) :
  accept_loop before s = (resps, s1, true) →
  extract_path target = "/api/v1/projects/" +:+ pid +:+ "/policies" → lacks "/" pid = true →
  json_parse b = Some j → json_array_at j "rules" = Some rjs → rj ∈ rjs →
  from_json_policy_rule rj = None →
  accept_loop (before ++ mkRequest env post target b :: after) s = (resps, s1, false).
Proof.
  intros Hb Ht Hpid Hj Hrs Hin Hrj.
  assert (Hm : mapM from_json_policy_rule rjs = None).
  { apply mapM_None, Exists_exists. eauto. }
  assert (Hh : handle_session (mkRequest env post target b) s1 = (None, s1)).
  { unfold handle_session. cbn [req_env req_method req_target req_body]. rewrite Ht. unfold route.
    destruct (String.eqb_spec ("/api/v1/projects/" +:+ pid +:+ "/policies") "/api/v1/projects"); [done|].
    cbv zeta. rewrite prefix_app. change 17%nat with (String.length "/api/v1/projects/").
    rewrite sdrop_app.
    rewrite (find_char_app "/" pid "policies") by done. rewrite stake_app, sdrop_app.
    cbn -[handle_policies]. unfold handle_policies, with_body. rewrite Hj, Hrs. cbn [default id from_option]. by rewrite Hm. }
  clear -Hb Hh. revert s resps Hb. induction before as [|r before IH]; intros s resps Hb; cbn [app accept_loop] in *.
  - simplify_eq. by rewrite Hh.
  - destruct (handle_session r s) as [[resp|] s2]; [|done].
    destruct (accept_loop before s2) as [[rs s3] al] eqn:E. simplify_eq. by rewrite (IH _ _ E).
Qed.
End properties.

Lemma malformed_policy_kills_server_witness :
  accept_loop (S := InMemory)
    [mkRequest env0 get "/health" ""; mkRequest env0 post "/api/v1/projects/p/policies" "[]";
     mkRequest env0 get "/health" ""] empty_repo
  = ([mkResponse 200 "status=ok"], empty_repo, false).
Proof.
  apply (@malformed_policy_kills_server example_json InMemory _ [mkRequest env0 get "/health" ""]
    [mkRequest env0 get "/health" ""] env0 "p" "/api/v1/projects/p/policies" "[]"
    (JObj [("name", JStr "n"); ("rules", JArr [JObj []])]) (JObj []) [JObj []]); try reflexivity.
  apply list_elem_of_here.
Defined.

(** ** Creating, reading and deleting over HTTP *)

Lemma hex_lower_char n : 0 ≤ n < 16 → hex_lower n ≠ "/"%char ∧ hex_lower n ≠ "?"%char ∧ hex_lower n ≠ "#"%char.
Proof.
  intros Hn. assert (n = 0 ∨ n = 1 ∨ n = 2 ∨ n = 3 ∨ n = 4 ∨ n = 5 ∨ n = 6 ∨ n = 7 ∨ n = 8 ∨ n = 9
    ∨ n = 10 ∨ n = 11 ∨ n = 12 ∨ n = 13 ∨ n = 14 ∨ n = 15) as Hc by lia.
  by repeat destruct Hc as [->|Hc]; try subst n.
Qed.

Definition url_safe (s : string) : bool := lacks "/" s && lacks "?" s && lacks "#" s.

Lemma url_safe_app a b : url_safe (a +:+ b) = url_safe a && url_safe b.
Proof.
  unfold url_safe. rewrite !lacks_app.
  by destruct (lacks "/" a), (lacks "/" b), (lacks "?" a), (lacks "?" b), (lacks "#" a), (lacks "#" b).
Qed.

Lemma hex_fixed_safe w : ∀ n, url_safe (hex_fixed w n) = true.
Proof.
  induction w as [|w IH]; intros n; [done|]. cbn [hex_fixed]. rewrite url_safe_app, IH.
  destruct (hex_lower_char (n `mod` 16)) as (H1 & H2 & H3); [apply Z.mod_pos_bound; lia|].
  unfold url_safe, lacks. cbn. by apply Ascii.eqb_neq in H1 as ->, H2 as ->, H3 as ->.
Qed.

Lemma generate_id_safe env n : url_safe (generate_id env n).1 = true.
Proof. unfold generate_id. cbn [fst]. by rewrite !url_safe_app, !hex_fixed_safe. Qed.

Lemma extract_path_safe (s : string) :
  lacks "?" s = true → lacks "#" s = true → extract_path s = s.
Proof. intros H1%find_char_None H2%find_char_None. unfold extract_path. by rewrite H1, H2. Qed.

Section round_trip.
Context `{JsonLib}.

(** The address of a project routes to it. *)
Lemma session_project env m id (s : InMemory) :
  url_safe id = true →
  handle_session (mkRequest env m ("/api/v1/projects/" +:+ id) "") s = handle_project m id s.
Proof.
  unfold url_safe. intros Hs. reflect_bool. unfold handle_session. cbn [req_env req_method req_target req_body].
  rewrite extract_path_safe by (rewrite lacks_app; by apply andb_true_intro).
  unfold route. destruct (String.eqb_spec ("/api/v1/projects/" +:+ id) "/api/v1/projects"); [done|].
  cbv zeta. rewrite prefix_app. change 17%nat with (String.length "/api/v1/projects/"). rewrite sdrop_app.
  assert (Hf : find_char "/" id = None) by (by apply find_char_None). by rewrite Hf.
Qed.

(** A project created by a POST is what a GET of its address returns, also
    after requests that fail; after a DELETE of the address it is gone and a second
    DELETE answers 404. *)
Theorem project_http_roundtrip (env env' : CallEnv) (b name desc : string) (j : json) (s : InMemory) :
  json_parse b = Some j → json_value j "name" "" = Some name →
  json_value j "description" "" = Some desc → name ≠ "" →
  ∃ p s1 s2,
    handle_session (mkRequest env post "/api/v1/projects" b) s
      = (Some (created_response (project_json p)), s1)
    ∧ p_name p = name ∧ p_description p = desc
    ∧ handle_session (mkRequest env' get ("/api/v1/projects/" +:+ p_id p) "") s1
      = (Some (ok_response (project_json p)), s1)
    ∧ handle_session (mkRequest env' delete_ ("/api/v1/projects/" +:+ p_id p) "") s1
      = (Some (ok_response (json_obj [("deleted", json_bool true)])), s2)
    ∧ handle_session (mkRequest env' get ("/api/v1/projects/" +:+ p_id p) "") s2
      = (Some (error_response 404 "error"), s2)
    ∧ handle_session (mkRequest env' delete_ ("/api/v1/projects/" +:+ p_id p) "") s2
      = (Some (error_response 404 "not found"), s2).
Proof.
  intros Hj Hn Hd Hne.
  set (id := (generate_id env (id_counter s)).1). pose proof (generate_id_safe env (id_counter s)) as Hs. fold id in Hs.
  set (p := mkProject id name desc (system_now env)).
  set (s1 := mkRepo (<[id := p]> (projects_ s)) (scenarios_ s) (runs_ s) (policies_ s) (u64 (id_counter s + 1))).
  assert (Hget : projects_ s1 !! id = Some p) by apply lookup_insert_eq.
  assert (G1 : mem_get_project id s1 = Ok p) by (unfold mem_get_project, find; by rewrite Hget).
  assert (D1 : ∃ s2, mem_delete_project id s1 = (Ok true, s2) ∧ projects_ s2 !! id = None).
  { unfold mem_delete_project. rewrite Hget. eexists. split; [done|]. apply lookup_delete_eq. }
  destruct D1 as (s2 & D1 & Hgone).
  assert (G2 : mem_get_project id s2 = Error not_found) by (unfold mem_get_project, find; by rewrite Hgone).
  assert (D2 : mem_delete_project id s2 = (Error not_found, s2)) by (unfold mem_delete_project; by rewrite Hgone).
  exists p, s1, s2. rewrite !session_project by exact Hs.
  change (p_id p) with id. unfold handle_project, get_project, delete_project, in_memory_repository.
  rewrite G1, D1, G2, D2. split_and!; [|done..].
  unfold handle_session, extract_path. cbn -[created_response handle_projects].
  unfold handle_projects, with_body. rewrite Hj, Hn, Hd. cbn.
  unfold mem_create_project. destruct name; [done|]. reflexivity.
Qed.
End round_trip.

Lemma project_http_roundtrip_witness :
  ∃ p s1, handle_session (mkRequest env0 post "/api/v1/projects" "shop") empty_repo
            = (Some (created_response (project_json p)), s1) ∧ p_name p = "shop".
Proof.
  destruct (@project_http_roundtrip example_json env0 env0 "shop" "shop" "" (JObj [("name", JStr "shop")]) empty_repo
    eq_refl eq_refl eq_refl ltac:(done)) as (p & s1 & _ & H1 & H2 & _).
  exists p, s1. exact (conj H1 H2).
Defined.
