(* ===== verification/Config.v ===== *)
(** * Configuration: [scenario::parse_config_file] and [validate_scenario_config]

    [core/scenario/yaml_parser.cpp] and the configuration structs of
    [include/cppload/scenario/engine.hpp].  A YAML document is a [Node]; reading the
    text and converting scalars is the YAML library's, a parameter ([YamlLib]) whose
    operations return [Error what] where the library throws. *)

From S2P Require Import Prelude CppString Result Double Constants.

Local Open Scope Z_scope.
Local Open Scope cpp_scope.

(** ** The configuration *)

(** [src/include/cppload/scenario/engine.hpp:18-29] HttpStep *)
Record HttpStep := mkStep {
  step_method : string; step_path : string; step_body : string;
  step_headers : gmap string string; step_host : string; step_port : string;
  step_use_tls : bool; step_assertions : list string
}.

(** [src/include/cppload/scenario/engine.hpp:35-44] LoadProfile *)
Record Stage := mkStage {
  stage_name : string; stage_duration : Z; target_rps : Z; concurrent_users : Z
}.

(** [src/include/cppload/scenario/engine.hpp:46-50] Scenario *)
Record Scenario := mkScenario { sc_name : string; sc_weight : Z; sc_steps : list HttpStep }.

(** [src/include/cppload/scenario/engine.hpp:52-59] ScenarioAuthConfig *)
Record ScenarioAuthConfig := mkAuth {
  auth_type : string; token_endpoint : string; client_id : string; client_secret : string
}.

(** [src/include/cppload/scenario/engine.hpp:61-76] ObservabilityConfig *)
Record ObservabilityConfig := mkObs {
  prometheus_enabled : bool; prometheus_port : Z; otlp_endpoint : string; sample_rate : double;
  log_level : string; log_format : string
}.

(** [src/include/cppload/scenario/engine.hpp:78-81] SLAConfig *)
Record SLAConfig := mkSLA { max_error_rate : double; max_p99_latency : Z }.

(** [src/include/cppload/scenario/engine.hpp:87-94] ScenarioConfig *)
Record TargetConfig := mkTarget {
  base_url : string; protocol : string; tls_verify : bool; max_body_bytes : Z
}.

(** [src/include/cppload/scenario/engine.hpp:83-101] ScenarioConfig *)
Record ScenarioConfig := mkConfig {
  version : string; test_id : string; target : TargetConfig; authentication : ScenarioAuthConfig;
  observability : ObservabilityConfig; stages : list Stage; scenarios : list Scenario; sla : SLAConfig
}.

Definition default_step : HttpStep := mkStep "GET" "" "" ∅ "" "80" false [].
Definition default_stage : Stage := mkStage "" 0 0 10.
Definition default_scenario : Scenario := mkScenario "" 100 [].
Definition default_target : TargetConfig := mkTarget "" "http1.1" true 0.
Definition default_auth : ScenarioAuthConfig := mkAuth "" "" "" "".
Definition default_obs : ObservabilityConfig := mkObs false 9090 "" (d_lit 1 10) "info" "json".
Definition default_sla : SLAConfig := mkSLA (d_of_Z 10) 500.
Definition default_config : ScenarioConfig :=
  mkConfig "" "" default_target default_auth default_obs [] [] default_sla.

(** ** Numbers with units *)

(** [src/core/scenario/yaml_parser.cpp:26-31] scale_to_ms *)
Definition scale_to_ms (value multiplier : double) : option Z :=
  let ms := dmul value multiplier in
  if dltb ms (Fin 0) then Some 0
  else if dgeb ms (d_of_Z (9 * 10 ^ 15)) then Some INT64_MAX
  else d_to_i64 ms.

(** [src/core/scenario/yaml_parser.cpp:33-39] parse_number *)
Definition parse_number (str : string) : double :=
  match stod str with StodOk x => x | _ => d_of_Z (-1) end.

(** [str.substr(str.size() - n) == suffix] for a suffix of [n] characters. *)
Definition has_suffix (suffix str : string) : bool :=
  (String.length suffix <=? String.length str)%nat
  && (sdrop (String.length str - String.length suffix) str =? suffix)%string.

Definition drop_last (n : nat) (s : string) : string := stake (String.length s - n) s.

(** Milliseconds; [None] where the conversion of a NaN to an integer is undefined. *)
(** [src/core/scenario/yaml_parser.cpp:41-62] parse_duration *)
Definition parse_duration (str : string) : option Z :=
  match last_char str with
  | None => Some 0
  | Some unit =>
      if has_suffix "min" str then scale_to_ms (parse_number (drop_last 3 str)) (d_of_Z 60000)
      else if has_suffix "ms" str then scale_to_ms (parse_number (drop_last 2 str)) (d_of_Z 1)
      else
        let value := parse_number (drop_last 1 str) in
        if dltb value (Fin 0) then Some 0
        else if Ascii.eqb unit "s" then scale_to_ms value (d_of_Z 1000)
        else if Ascii.eqb unit "m" then scale_to_ms value (d_of_Z 60000)
        else if Ascii.eqb unit "h" then scale_to_ms value (d_of_Z 3600000)
        else Some 0
  end.

(** [src/core/scenario/yaml_parser.cpp:64-75] parse_error_rate *)
Definition parse_error_rate (str : string) : double :=
  match find_if isdigit str, find_char "%" str with
  | Some start, Some end_ =>
      match stod (if (start <=? end_)%nat then substr start (end_ - start) str
                  else substr_from start str) with
      | StodOk x => x
      | _ => kDefaultErrorRate
      end
  | _, _ => kDefaultErrorRate
  end.

Definition SIZE_MAX : Z := UINT64_MAX.

(** [src/core/scenario/yaml_parser.cpp:80-104] parse_bytesize *)
Definition parse_bytesize (str : string) : option Z :=
  let num_end := span_len isdigit str in
  if (num_end =? 0)%nat then Some 0
  else match stod (stake num_end str) with
  | StodOk value =>
      if dltb value (Fin 0) then Some 0
      else
        let unit := stolower (sdrop num_end str) in
        let multiplier :=
          if (unit =? "k")%string || (unit =? "kb")%string then d_of_Z 1024
          else if (unit =? "m")%string || (unit =? "mb")%string then d_of_Z (1024 * 1024)
          else if (unit =? "g")%string || (unit =? "gb")%string then d_of_Z (1024 * 1024 * 1024)
          else d_of_Z 1 in
        if dgtb (dmul value multiplier) (d_of_Z SIZE_MAX) then Some SIZE_MAX
        else d_to_u64 (dmul value multiplier)
  | _ => Some 0
  end.

(** [src/core/scenario/yaml_parser.cpp:106-120] parse_latency *)
Definition parse_latency (str : string) : option Z :=
  match find_if isdigit str with
  | None => Some kDefaultLatencyMs
  | Some start =>
      let rest := sdrop start str in
      match stod (stake (span_len isdigit rest) rest) with
      | StodOk value =>
          match find_sub "ms" str, find_char "s" str with
          | Some _, _ => scale_to_ms value (d_of_Z 1)
          | None, Some _ => scale_to_ms value (d_of_Z 1000)
          | None, None => scale_to_ms value (d_of_Z 1)
          end
      | _ => Some kDefaultLatencyMs
      end
  end.

(** ** Environment variables *)

Definition valid_name (name : string) : bool :=
  negb (is_empty name) && sforall (λ c, isalnum c || Ascii.eqb c "_") name.

(** One [${...}] expression: its value, and the first variable found missing. *)
(** [src/core/scenario/yaml_parser.cpp:145-164] substitute_env *)
Definition expand_expr (env : string → option string) (expr missing : string) : string * string :=
  let colon := find_sub ":-" expr in
  let var_name := match colon with Some c => stake c expr | None => expr end in
  let default_val := match colon with Some c => sdrop (c + 2) expr | None => "" end in
  if valid_name var_name then
    let env_val := default "" (env var_name) in
    let missing := if is_empty env_val && negb (bool_decide (is_Some colon)) && is_empty missing
                   then var_name else missing in
    (if is_empty env_val then default_val else env_val, missing)
  else (default_val, missing).

(** The loop over [val.substr(pos)]; [None]: more than [fuel] rounds. *)
(** [src/core/scenario/yaml_parser.cpp:128-169] substitute_env *)
Fixpoint expand (fuel : nat) (env : string → option string) (rest missing : string) :
    option (string * string) :=
  match fuel with
  | O => None
  | S fuel' =>
      if is_empty rest then Some ("", missing)
      else match find_sub "${" rest with
      | None => Some (rest, missing)
      | Some dollar =>
          match find_char_from "}" (dollar + 2) rest with
          | None => Some (stake dollar rest +:+ sdrop dollar rest, missing)
          | Some end_ =>
              let expr := substr (dollar + 2) (end_ - dollar - 2) rest in
              let '(v, missing) := expand_expr env expr missing in
              '(tail, missing) ← expand fuel' env (sdrop (end_ + 1) rest) missing;
              Some (stake dollar rest +:+ v +:+ tail, missing)
          end
      end
  end.

Inductive Node :=
  | Null
  | Scalar (s : string)
  | Sequence (l : list Node)
  | Map (l : list (Node * Node)).

(** One round of the loop per [${] is enough. *)
Definition expand_scalar (env : string → option string) (val missing : string) : string * string :=
  default (val, missing) (expand (S (String.length val)) env val missing).

(** [src/core/scenario/yaml_parser.cpp:125-179] substitute_env *)
Fixpoint substitute_env (env : string → option string) (node : Node) (missing : string) : Node * string :=
  match node with
  | Null => (Null, missing)
  | Scalar val => let '(r, missing) := expand_scalar env val missing in (Scalar r, missing)
  | Map kvs =>
      let fix go kvs missing :=
        match kvs with
        | [] => ([], missing)
        | (k, v) :: kvs => let '(v, missing) := substitute_env env v missing in
                           let '(kvs, missing) := go kvs missing in ((k, v) :: kvs, missing)
        end in
      let '(kvs, missing) := go kvs missing in (Map kvs, missing)
  | Sequence l =>
      let fix go l missing :=
        match l with
        | [] => ([], missing)
        | v :: l => let '(v, missing) := substitute_env env v missing in
                    let '(l, missing) := go l missing in (v :: l, missing)
        end in
      let '(l, missing) := go l missing in (Sequence l, missing)
  end.

(** ** Reading the document *)

Definition is_seq (n : Node) : option (list Node) := match n with Sequence l => Some l | _ => None end.
Definition is_map (n : Node) : option (list (Node * Node)) := match n with Map l => Some l | _ => None end.

Fixpoint map_field (kvs : list (Node * Node)) (key : string) : option Node :=
  match kvs with
  | [] => None
  | (Scalar k, v) :: kvs => if (k =? key)%string then Some v else map_field kvs key
  | _ :: kvs => map_field kvs key
  end.

(** What the parser uses of yaml-cpp.  [subscript n key] is [n[key]]: [Ok None] an
    undefined node, [Error what] an exception; [as_*] the conversions; [emit] the
    stream output of a node. *)
Class YamlLib := {
  yaml_load : string → Result Node string;
  subscript : Node → string → Result (option Node) string;
  as_string : Node → Result string string;
  as_uint32 : Node → Result Z string;
  as_uint16 : Node → Result Z string;
  as_bool : Node → Result bool string;
  as_double : Node → Result double string;
  emit : Node → string;
  subscript_map kvs key : subscript (Map kvs) key = Ok (map_field kvs key);
  as_string_scalar s : as_string (Scalar s) = Ok s;
  as_uint32_decimal n : 0 ≤ n < 2 ^ 32 → as_uint32 (Scalar (to_string n)) = Ok n;
  as_uint16_decimal n : 0 ≤ n < 2 ^ 16 → as_uint16 (Scalar (to_string n)) = Ok n;
  as_bool_literal (b : bool) : as_bool (Scalar (if b then "true" else "false")) = Ok b
}.

(** Why [parse_config_file] gave no configuration: it returned false with a message,
    an exception left it, or a conversion was undefined. *)
Inductive ConfigError := Rejected (msg : string) | Thrown (what : string) | Undefined.

Section parse.
Context `{YamlLib}.

(** [if (node[key]) field = f(node[key]);] *)
Definition read {A} (n : Node) (key : string) (f : Node → Result A string) (d : A) : Result A string :=
  let* o := subscript n key in match o with None => Ok d | Some x => f x end.

(** Two-level conditions such as [n[k1] && n[k1][k2]]. *)
Definition read2 {A} (n : Node) (k1 k2 : string) (f : Node → Result A string) (d : A) : Result A string :=
  read n k1 (λ m, read m k2 f d) d.

Definition dquote : string := String (ascii_of_nat 34) "".

Definition lift {A} (r : Result A string) : Result A ConfigError := transform_error Thrown r.

Definition defined {A} (o : option A) : Result A ConfigError :=
  match o with Some x => Ok x | None => Error Undefined end.

(** [src/core/scenario/yaml_parser.cpp:213-241] parse_config_file *)
Definition parse_target (root t : Node) (missing_var : string) :
    Result (string * string * TargetConfig) ConfigError :=
  match is_map t with
  | None => Error (Rejected "target must be a mapping")
  | Some _ =>
      let fields :=
        let* v := read root "version" as_string "" in
        let* i := read root "test_id" as_string "" in
        let* u := read t "base_url" as_string "" in
        let* p := read t "protocol" as_string "http1.1" in
        let* tv := read2 t "tls" "verify" as_bool true in
        let* mb := read t "max_body_bytes" (λ n, result_map Some (as_string n)) None in
        Ok (v, i, u, p, tv, mb) in
      match fields with
      | Error what => Error (Rejected ("YAML target parse error: " +:+ what))
      | Ok (v, i, u, p, tv, mb) =>
          let* size := defined (match mb with Some s => parse_bytesize s | None => Some 0 end) in
          if negb (is_empty missing_var) && is_empty u then
            Error (Rejected ("target.base_url is empty; environment variable " +:+ dquote +:+ "${"
              +:+ missing_var +:+ "}" +:+ dquote +:+ " is not set and has no default"))
          else Ok (v, i, mkTarget u p tv size)
      end
  end.

(** [src/core/scenario/yaml_parser.cpp:244-251] parse_config_file *)
Definition parse_stage (st : Node) : Result Stage ConfigError :=
  let* name := lift (read st "stage" as_string "") in
  let* d := lift (read st "duration" (λ n, result_map Some (as_string n)) None) in
  let* duration := defined (match d with Some s => parse_duration s | None => Some 0 end) in
  let* rps := lift (read st "target_rps" as_uint32 0) in
  let* users := lift (read st "concurrent_users" as_uint32 10) in
  Ok (mkStage name duration rps users).

Fixpoint parse_headers (kvs : list (Node * Node)) (m : gmap string string) :
    Result (gmap string string) string :=
  match kvs with
  | [] => Ok m
  | (k, v) :: kvs =>
      let* k := as_string k in
      let* v := as_string v in parse_headers kvs (<[k := v]> m)
  end.

(** [src/core/scenario/yaml_parser.cpp:261-290] parse_config_file *)
Definition parse_step (step_node : Node) : Result (option HttpStep) string :=
  let* h := subscript step_node "http" in
  match h with
  | None => Ok None
  | Some http =>
      let* m := read http "method" as_string "GET" in
      let* p := read http "path" as_string "" in
      let* b := read http "body"
                  (λ n, match n with Scalar _ => as_string n | _ => Ok (emit n) end) "" in
      let* hs := read http "headers"
                   (λ n, match is_map n with Some kvs => parse_headers kvs ∅ | None => Ok ∅ end) ∅ in
      let* asserts := read http "assertions"
                   (λ n, match is_seq n with
                         | Some l => result_mapM as_string
                                       (List.filter (λ a, match a with Scalar _ => true | _ => false end) l)
                         | None => Ok []
                         end) [] in
      Ok (Some (mkStep m p b hs "" "80" false asserts))
  end.

(** [src/core/scenario/yaml_parser.cpp:255-294] parse_config_file *)
Definition parse_scenario (sc : Node) : Result Scenario string :=
  let* name := read sc "name" as_string "" in
  let* weight := read sc "weight" as_uint32 100 in
  let* steps := read sc "steps"
                  (λ n, match is_seq n with
                        | Some l => result_map (omap id) (result_mapM parse_step l)
                        | None => Ok []
                        end) [] in
  Ok (mkScenario name weight steps).

(** [src/core/scenario/yaml_parser.cpp:297-306] parse_config_file *)
Definition parse_auth (root : Node) : Result ScenarioAuthConfig string :=
  read root "authentication" (λ auth,
    let* ty := read auth "type" as_string "" in
    let* ep := read auth "token_endpoint" as_string "" in
    let* ci := read2 auth "client_credentials" "client_id" as_string "" in
    let* cs := read2 auth "client_credentials" "client_secret" as_string "" in
    Ok (mkAuth ty ep ci cs)) default_auth.

(** [src/core/scenario/yaml_parser.cpp:308-325] parse_config_file *)
Definition parse_observability (root : Node) : Result ObservabilityConfig string :=
  read root "observability" (λ obs,
    let* en := read2 obs "metrics" "prometheus" (λ pm, read pm "enabled" as_bool false) false in
    let* po := read2 obs "metrics" "prometheus" (λ pm, read pm "port" as_uint16 9090) 9090 in
    let* ep := read2 obs "tracing" "otlp_endpoint" as_string "" in
    let* sr := read2 obs "tracing" "sample_rate" as_double (d_lit 1 10) in
    let* lv := read2 obs "logging" "level" as_string "info" in
    let* fm := read2 obs "logging" "format" as_string "json" in
    Ok (mkObs en po ep sr lv fm)) default_obs.

(** [src/core/scenario/yaml_parser.cpp:327-335] parse_config_file *)
Definition parse_sla (root : Node) : Result SLAConfig ConfigError :=
  let* er := lift (read2 root "sla" "error_rate" (λ n, result_map parse_error_rate (as_string n)) (d_of_Z 10)) in
  let* pl := lift (read2 root "sla" "p99_latency" (λ n, result_map Some (as_string n)) None) in
  let* lat := defined (match pl with Some s => parse_latency s | None => Some 500 end) in
  Ok (mkSLA er lat).

(** The document after loading. *)
(** [src/core/scenario/yaml_parser.cpp:198-338] parse_config_file *)
Definition parse_document (env : string → option string) (doc : Node) : Result ScenarioConfig ConfigError :=
  let '(root, missing_var) := substitute_env env doc "" in
  match is_map root with
  | None => Error (Rejected "YAML root must be a mapping")
  | Some _ =>
      match subscript root "target" with
      | Error what => Error (Thrown what)
      | Ok None => Error (Rejected "target section is required")
      | Ok (Some target) =>
          let* t := parse_target root target missing_var in
          let '(v, i, tgt) := t in
          let* stages := and_then (lift (read root "load_profile" (λ n, Ok (default [] (is_seq n))) []))
                           (result_mapM parse_stage) in
          let* scs := lift (read root "scenarios"
                              (λ n, result_mapM parse_scenario (default [] (is_seq n))) []) in
          let* auth := lift (parse_auth root) in
          let* obs := lift (parse_observability root) in
          let* sla := parse_sla root in
          Ok (mkConfig v i tgt auth obs stages scs sla)
      end
  end.

(** [file]: the contents of the file, [None] when it cannot be opened. *)
(** [src/core/scenario/yaml_parser.cpp:183-196] parse_config_file *)
Definition parse_config_file (env : string → option string) (path : string) (file : option string) :
    Result ScenarioConfig ConfigError :=
  match file with
  | None => Error (Rejected ("Cannot open config file: " +:+ path))
  | Some text =>
      match yaml_load text with
      | Error what => Error (Rejected ("YAML parse error: " +:+ what))
      | Ok doc => parse_document env doc
      end
  end.
End parse.

(** ** Schema validation *)

Definition is_op_char (c : ascii) : bool :=
  Ascii.eqb c "=" || Ascii.eqb c "!" || Ascii.eqb c "<" || Ascii.eqb c ">".

Definition valid_ops : list string := ["=="; "!="; ">="; "<="; ">"; "<"].

(** [None] when the format is right, else the message. *)
(** [src/core/scenario/yaml_parser.cpp:342-378] check_assertion_format *)
Definition check_assertion_format (expr : string) : option string :=
  if is_empty expr then Some "empty assertion"
  else
    let i := span_len (λ c, isalnum c || Ascii.eqb c "_") expr in
    if (i =? 0)%nat then Some "missing left-hand side identifier"
    else
      let rest := sdrop i expr in
      let rest := sdrop (span_len isspace rest) rest in
      let n := span_len (λ c, is_op_char c || isspace c) rest in
      if (n =? 0)%nat then Some "missing operator (==, !=, >=, <=, >, <)"
      else
        let op_token := sfilter (λ c, negb (isspace c)) (stake n rest) in
        if existsb (String.eqb op_token) valid_ops then None
        else Some ("invalid operator '" +:+ op_token +:+ "', expected one of ==, !=, >=, <=, >, <").

(** The first element (with its index) for which [f] reports a message. *)
Fixpoint first_error {A} (f : nat → A → option string) (i : nat) (l : list A) : option string :=
  match l with
  | [] => None
  | x :: l => match f i x with Some e => Some e | None => first_error f (S i) l end
  end.

Definition idx (i : nat) : string := to_string (Z.of_nat i).

(** [src/core/scenario/yaml_parser.cpp:407-428] validate_scenario_config *)
Definition validate_step (si sti : nat) (step : HttpStep) : option string :=
  let at_step := "field 'scenarios[" +:+ idx si +:+ "].steps[" +:+ idx sti +:+ "]" in
  if is_empty (step_method step) then
    Some (at_step +:+ ".http.method' is required. Example: method: GET")
  else if is_empty (step_path step) then
    Some (at_step +:+ ".http.path' is required. Example: path: " +:+ dquote +:+ "/api/v1/health" +:+ dquote)
  else first_error (λ ai a, match check_assertion_format a with
         | Some aerr => Some (at_step +:+ ".assertions[" +:+ idx ai +:+ "] " +:+ aerr
                              +:+ ". Example: status_code == 201")
         | None => None
         end) 0 (step_assertions step).

(** [src/core/scenario/yaml_parser.cpp:395-429] validate_scenario_config *)
Definition validate_one_scenario (si : nat) (s : Scenario) : option string :=
  if 1000 <? sc_weight s then
    Some ("field 'scenarios[" +:+ idx si +:+ "].weight' out of range: " +:+ to_string (sc_weight s)
          +:+ " expected 0..1000. Example: weight: 70")
  else match sc_steps s with
  | [] => Some ("scenario '" +:+ sc_name s +:+ "' (index " +:+ idx si
                +:+ ") has no steps; add at least one http step")
  | steps => first_error (validate_step si) 0 steps
  end.

(** [src/core/scenario/yaml_parser.cpp:430-442] validate_scenario_config *)
Definition validate_stage (li : nat) (st : Stage) : option string :=
  if 1000000 <? target_rps st then
    Some ("field 'load_profile[" +:+ idx li +:+ "].target_rps' out of range: "
          +:+ to_string (target_rps st) +:+ " expected 0..1000000")
  else if 100000 <? concurrent_users st then
    Some ("field 'load_profile[" +:+ idx li +:+ "].concurrent_users' out of range: "
          +:+ to_string (concurrent_users st) +:+ " expected 0..100000")
  else None.

(** [None]: valid, else [last_error]. *)
(** [src/core/scenario/yaml_parser.cpp:382-444] validate_scenario_config *)
Definition validate_scenario_config (cfg : ScenarioConfig) : option string :=
  if is_empty (test_id cfg) then
    Some ("field 'test_id' is required (string). Example: test_id: " +:+ dquote
          +:+ "my-load-test-2026" +:+ dquote)
  else if is_empty (base_url (target cfg)) then
    Some ("field 'target.base_url' is required (string). Example: base_url: " +:+ dquote
          +:+ "http://localhost:8080" +:+ dquote)
  else match scenarios cfg with
  | [] => Some "field 'scenarios' must contain at least one scenario"
  | scs => match first_error validate_one_scenario 0 scs with
           | Some e => Some e
           | None => first_error validate_stage 0 (stages cfg)
           end
  end.

(** ** Validation decides well-formedness *)

Definition wf_step (s : HttpStep) : Prop :=
  step_method s ≠ "" ∧ step_path s ≠ ""
  ∧ Forall (λ a, check_assertion_format a = None) (step_assertions s).

Definition wf_config (cfg : ScenarioConfig) : Prop :=
  test_id cfg ≠ "" ∧ base_url (target cfg) ≠ "" ∧ scenarios cfg ≠ []
  ∧ Forall (λ s, sc_weight s ≤ 1000 ∧ sc_steps s ≠ [] ∧ Forall wf_step (sc_steps s)) (scenarios cfg)
  ∧ Forall (λ st, target_rps st ≤ 1000000 ∧ concurrent_users st ≤ 100000) (stages cfg).

Lemma first_error_None {A} (f : nat → A → option string) (P : A → Prop) i l :
  (∀ i x, f i x = None ↔ P x) → first_error f i l = None ↔ Forall P l.
Proof.
  intros Hf. revert i. induction l as [|x l IH]; intros i; cbn [first_error]; [by split|].
  rewrite Forall_cons, <-(IH (S i)), <-(Hf i x). destruct (f i x); naive_solver.
Qed.

Lemma is_empty_false s : is_empty s = false ↔ s ≠ "".
Proof. by destruct s. Qed.

Lemma validate_step_spec si sti s : validate_step si sti s = None ↔ wf_step s.
Proof.
  unfold validate_step, wf_step. destruct (is_empty (step_method s)) eqn:E1.
  { apply is_empty_spec in E1. naive_solver. }
  destruct (is_empty (step_path s)) eqn:E2.
  { apply is_empty_spec in E2. naive_solver. }
  apply is_empty_false in E1, E2. rewrite (first_error_None _ (λ a, check_assertion_format a = None)).
  - naive_solver.
  - intros i x. destruct (check_assertion_format x); naive_solver.
Qed.


(** ** Durations *)

Lemma has_suffix_app suf str : has_suffix suf str = true → ∃ p, str = p +:+ suf.
Proof.
  unfold has_suffix. intros H. apply andb_prop in H as [_ H]. apply String.eqb_eq in H.
  exists (stake (String.length str - String.length suf) str). rewrite <-H at 2. symmetry. apply stake_sdrop.
Qed.

Lemma has_suffix_self suf p : has_suffix suf (p +:+ suf) = true.
Proof.
  unfold has_suffix. rewrite sapp_length.
  replace (String.length p + String.length suf - String.length suf)%nat with (String.length p) by lia.
  rewrite sdrop_app, String.eqb_refl, andb_true_r. apply Nat.leb_le. lia.
Qed.

Lemma last_char_snoc p c : last_char (p +:+ String c "") = Some c.
Proof. induction p as [|a p IH]; [done|]. cbn. rewrite IH. by destruct p. Qed.

Lemma drop_last_app p u : drop_last (String.length u) (p +:+ u) = p.
Proof.
  unfold drop_last. rewrite sapp_length.
  replace (String.length p + String.length u - String.length u)%nat with (String.length p) by lia.
  apply stake_app.
Qed.

Lemma scale_exact n k : 0 ≤ n → 0 < k ≤ 2 ^ 53 → n * k < 9 * 10 ^ 15 →
  scale_to_ms (Fin (n * one_k)) (d_of_Z k) = Some (n * k).
Proof.
  intros Hn Hk Hb. pose proof one_k_pos. assert (Hnk : 0 ≤ n * k) by nia.
  unfold scale_to_ms. rewrite (d_of_Z_small k), (d_of_Z_small (9 * 10 ^ 15)) by lia.
  rewrite dmul_whole by lia. cbn [dltb dleb].
  destruct (Z.ltb_spec (n * k * one_k) 0); [nia|].
  destruct (Z.leb_spec (9 * 10 ^ 15 * one_k) (n * k * one_k)); [nia|].
  apply d_to_i64_whole. unfold is_i64, INT64_MIN, INT64_MAX. lia.
Qed.

Lemma digits_not_suffix ds p u c v :
  sforall isdigit ds = true → isdigit c = false → ds +:+ u = p +:+ String c v → String.length u = String.length v → False.
Proof.
  intros Hd Hc E Hl. assert (Hlen : String.length ds = S (String.length p)).
  { apply (f_equal String.length) in E. rewrite !sapp_length in E. cbn in E. lia. }
  assert (E2 : sdrop (String.length p) (ds +:+ u) = String c v) by (rewrite E; apply sdrop_app).
  revert p Hlen E E2. induction ds as [|d ds IH]; intros p Hlen E E2; [done|].
  cbn [sforall] in Hd. apply andb_prop in Hd as [Hd0 Hd]. destruct p as [|q p]; cbn in *; simplify_eq; [congruence|].
  by apply (IH Hd p).
Qed.

Lemma last_differs p q c d : p +:+ String c "" = q +:+ String d "" → c = d.
Proof. intros E. apply (f_equal last_char) in E. rewrite !last_char_snoc in E. congruence. Qed.

(** No two of the unit suffixes are confused after a number. *)
Lemma units_apart ds :
  sforall isdigit ds = true →
  has_suffix "min" (ds +:+ "ms") = false
  ∧ (∀ u, u = "s" ∨ u = "m" ∨ u = "h" → has_suffix "min" (ds +:+ u) = false ∧ has_suffix "ms" (ds +:+ u) = false).
Proof.
  intros Hd. assert (Hmin : ∀ q c, c ≠ "n"%char → has_suffix "min" (q +:+ String c "") = false).
  { intros q c Hc. destruct (has_suffix "min" _) eqn:E; [|done].
    apply has_suffix_app in E as [p E]. change "min" with ("mi" +:+ "n") in E.
    rewrite <-sapp_assoc in E. by apply last_differs in E. }
  split.
  - change "ms" with ("m" +:+ "s"). rewrite <-sapp_assoc. by apply Hmin.
  - intros u Hu. split; [destruct Hu as [->|[->| ->]]; by apply Hmin|].
    destruct (has_suffix "ms" (ds +:+ u)) eqn:E; [|done]. apply has_suffix_app in E as [p E].
    destruct Hu as [->|[->| ->]].
    + by apply digits_not_suffix in E.
    + change "ms" with ("m" +:+ "s") in E. rewrite <-sapp_assoc in E. by apply last_differs in E.
    + change "ms" with ("m" +:+ "s") in E. rewrite <-sapp_assoc in E. by apply last_differs in E.
Qed.

Lemma parse_number_to_string n : 0 ≤ n ≤ 2 ^ 53 → parse_number (to_string n) = Fin (n * one_k).
Proof. intros Hn. unfold parse_number. by rewrite stod_to_string. Qed.

(** The units and their milliseconds. *)
Definition duration_units : list (string * Z) :=
  [("ms", 1); ("s", 1000); ("m", 60000); ("min", 60000); ("h", 3600000)].

(** A whole number with a unit is read exactly: [parse_duration] of the decimal
    digits of [n] followed by ms, s, m, min or h is [n] times the unit, for every
    duration below the clamp of [9e15] milliseconds. *)
Theorem parse_duration_exact (n k : Z) (unit : string) :
  (unit, k) ∈ duration_units → 0 ≤ n → n * k < 9 * 10 ^ 15 →
  parse_duration (to_string n +:+ unit) = Some (n * k).
Proof.
  intros Hu Hn Hb. pose proof (to_string_digits n Hn) as Hd.
  destruct (units_apart (to_string n) Hd) as [Hms Hone].
  assert (Hk : 0 < k ≤ 2 ^ 53) by (unfold duration_units in Hu; set_solver by lia).
  assert (Hnb : 0 ≤ n ≤ 2 ^ 53) by nia.
  assert (Hlast : ∀ p u c, last_char (p +:+ (u +:+ String c "")) = Some c)
    by (intros; rewrite <-sapp_assoc; apply last_char_snoc).
  assert (Hneg : dltb (Fin (n * one_k)) (Fin 0) = false) by (apply Z.ltb_ge; pose proof one_k_pos; nia).
  assert (Hcases : (unit = "ms" ∧ k = 1) ∨ (unit = "s" ∧ k = 1000) ∨ (unit = "m" ∧ k = 60000)
    ∨ (unit = "min" ∧ k = 60000) ∨ (unit = "h" ∧ k = 3600000)) by (unfold duration_units in Hu; set_solver).
  unfold parse_duration. destruct Hcases as [[-> ->]|[[-> ->]|[[-> ->]|[[-> ->]|[-> ->]]]]].
  - change "ms" with ("m" +:+ "s") at 1. rewrite Hlast, Hms, has_suffix_self.
    rewrite (drop_last_app _ "ms"), parse_number_to_string by done. by apply scale_exact.
  - rewrite last_char_snoc. destruct (Hone "s") as [-> ->]; [tauto|].
    rewrite (drop_last_app _ "s"), parse_number_to_string, Hneg by done. by apply scale_exact.
  - rewrite last_char_snoc. destruct (Hone "m") as [-> ->]; [tauto|].
    rewrite (drop_last_app _ "m"), parse_number_to_string, Hneg by done. by apply scale_exact.
  - change "min" with ("mi" +:+ "n") at 1. rewrite Hlast, has_suffix_self.
    rewrite (drop_last_app _ "min"), parse_number_to_string by done. by apply scale_exact.
  - rewrite last_char_snoc. destruct (Hone "h") as [-> ->]; [tauto|].
    rewrite (drop_last_app _ "h"), parse_number_to_string, Hneg by done. by apply scale_exact.
Qed.

Lemma parse_duration_exact_witness : parse_duration (to_string 90 +:+ "min") = Some 5400000.
Proof. apply (parse_duration_exact 90 60000 "min"); [unfold duration_units; set_solver|lia..]. Defined.

(** ** Environment substitution *)

(** A reference to a variable, with or without a default. *)
Inductive Ref := Var (name : string) | VarOr (name dflt : string).

Definition ref_expr (r : Ref) : string :=
  match r with Var n => n | VarOr n d => n +:+ ":-" +:+ d end.

Definition ref_name (r : Ref) : string := match r with Var n | VarOr n _ => n end.

Definition ref_value (env : string → option string) (r : Ref) : string :=
  let v := default "" (env (ref_name r)) in
  if is_empty v then match r with Var _ => "" | VarOr _ d => d end else v.

(** The variable a reference reports missing. *)
Definition ref_missing (env : string → option string) (r : Ref) : option string :=
  match r with
  | Var n => if is_empty (default "" (env n)) then Some n else None
  | VarOr _ _ => None
  end.

(** A text with references: literal pieces, each followed by a reference, and a rest. *)
Definition Template : Type := list (string * Ref) * string.

Definition print_template (t : Template) : string :=
  foldr (λ lr s, lr.1 +:+ "${" +:+ ref_expr lr.2 +:+ "}" +:+ s) t.2 t.1.

Definition template_value (env : string → option string) (t : Template) : string :=
  foldr (λ lr s, lr.1 +:+ ref_value env lr.2 +:+ s) t.2 t.1.

Definition template_missing (env : string → option string) (t : Template) : string :=
  default "" (head (omap (λ lr, ref_missing env lr.2) t.1)).

Definition wf_ref (r : Ref) : bool :=
  valid_name (ref_name r) && match r with Var _ => true | VarOr _ d => lacks "}" d end.

Definition wf_template (t : Template) : bool :=
  forallb (λ lr, lacks "$" lr.1 && wf_ref lr.2) t.1 && lacks "$" t.2.

Lemma valid_name_lacks n c :
  valid_name n = true → isalnum c = false → Ascii.eqb c "_" = false → lacks c n = true.
Proof.
  unfold valid_name. intros H Hc Hu. apply andb_prop in H as [_ H]. revert H. apply sforall_impl.
  intros a Ha. apply negb_true_iff, Ascii.eqb_neq. intros ->. by rewrite Hc, Hu in Ha.
Qed.

Lemma ref_expr_lacks r : wf_ref r = true → lacks "}" (ref_expr r) = true.
Proof.
  unfold wf_ref. intros H. apply andb_prop in H as [Hn Hd].
  assert (Hl : lacks "}" (ref_name r) = true) by (by apply valid_name_lacks).
  destruct r as [n|n d]; cbn [ref_name ref_expr] in *; [done|]. by rewrite !lacks_app, Hl, Hd.
Qed.

Lemma find_sub_lacks c p s : lacks c s = true → find_sub (String c p) s = None.
Proof.
  intros H. apply (find_sub_None_char _ c); [done| |by apply find_char_None].
  intros t Ht. destruct t as [|a t]; [done|]. cbn [String.prefix] in Ht.
  destruct (ascii_dec c a) as [->|]; [eauto|done].
Qed.

Lemma expand_expr_ref env r missing :
  wf_ref r = true →
  expand_expr env (ref_expr r) missing
  = (ref_value env r, if is_empty missing then default "" (ref_missing env r) else missing).
Proof.
  unfold wf_ref. intros H. apply andb_prop in H as [Hn _].
  pose proof (valid_name_lacks (ref_name r) ":" Hn eq_refl eq_refl) as Hc.
  unfold expand_expr, ref_value. destruct r as [n|n d]; cbn [ref_expr ref_name ref_missing] in *.
  - rewrite find_sub_lacks by done. rewrite Hn.
    destruct (is_empty (default "" (env n))) eqn:E; cbn [andb negb bool_decide];
      destruct (is_empty missing) eqn:Em; cbn; rewrite ?E; try done.
    by destruct missing.
  - pose proof (find_sub_app_char ":" "-" n d Hc) as Hf.
    change (n +:+ String ":" ("-" +:+ d)) with (n +:+ ":-" +:+ d) in Hf.
    rewrite Hf, stake_app, Hn, sdrop_app_ge. cbn [sdrop String.append].
    cbn. rewrite andb_false_r. cbn.
    destruct (is_empty missing) eqn:Em; [|done]. by destruct missing.
Qed.

Lemma expand_step env fuel lit r s missing :
  lacks "$" lit = true → wf_ref r = true →
  expand (S fuel) env (lit +:+ "${" +:+ ref_expr r +:+ "}" +:+ s) missing
  = (let m := if is_empty missing then default "" (ref_missing env r) else missing in
     '(tail, m) ← expand fuel env s m; Some (lit +:+ ref_value env r +:+ tail, m)).
Proof.
  intros Hl Hr. set (rest := lit +:+ "${" +:+ ref_expr r +:+ "}" +:+ s). cbn [expand].
  assert (He : is_empty rest = false) by (unfold rest; by destruct lit).
  assert (Hf : find_sub "${" rest = Some (String.length lit)).
  { apply (find_sub_app_char "$" "{" lit (ref_expr r +:+ "}" +:+ s)). done. }
  assert (Hd : sdrop (String.length lit + 2) rest = ref_expr r +:+ "}" +:+ s)
    by (unfold rest; by rewrite sdrop_app_ge).
  assert (Hb : find_char_from "}" (String.length lit + 2) rest
               = Some (String.length lit + 2 + String.length (ref_expr r))%nat).
  { unfold find_char_from. pose proof (find_char_app "}" (ref_expr r) s (ref_expr_lacks r Hr)) as Hc.
    change (String "}" s) with ("}" +:+ s) in Hc. by rewrite Hd, Hc. }
  rewrite He, Hf, Hb. unfold substr. rewrite Hd.
  replace (String.length lit + 2 + String.length (ref_expr r) - String.length lit - 2)%nat
    with (String.length (ref_expr r)) by lia.
  rewrite stake_app, expand_expr_ref by done.
  assert (Hs : sdrop (String.length lit + 2 + String.length (ref_expr r) + 1) rest = s).
  { unfold rest. rewrite <-Nat.add_assoc, <-Nat.add_assoc, sdrop_app_ge.
    change (2 + (String.length (ref_expr r) + 1))%nat with (String.length "${" + (String.length (ref_expr r) + 1))%nat.
    rewrite sdrop_app_ge, sdrop_app_ge. by destruct s. }
  assert (Hp : stake (String.length lit) rest = lit) by apply stake_app.
  rewrite Hs, Hp. done.
Qed.

Lemma expand_template env lrs tl : ∀ fuel missing,
  wf_template (lrs, tl) = true → (List.length lrs < fuel)%nat →
  expand fuel env (print_template (lrs, tl)) missing
  = Some (template_value env (lrs, tl),
          if is_empty missing then template_missing env (lrs, tl) else missing).
Proof.
  unfold print_template, template_value, template_missing. cbn [fst snd].
  induction lrs as [|[lit r] lrs IH]; intros fuel missing Hwf Hfuel.
  - destruct fuel as [|fuel]; [simpl in Hfuel; lia|]. cbn [foldr omap list_omap head default expand].
    unfold wf_template in Hwf. cbn in Hwf.
    rewrite find_sub_lacks by done. destruct tl, missing; done.
  - destruct fuel as [|fuel]; [simpl in Hfuel; lia|]. unfold wf_template in Hwf. cbn [fst snd forallb] in Hwf.
    apply andb_prop in Hwf as [Hlr Htl]. apply andb_prop in Hlr as [Hlr Hall].
    apply andb_prop in Hlr as [Hl Hr]. cbn [foldr fst snd].
    rewrite expand_step by done. cbv zeta. rewrite IH; [|by apply andb_true_intro|simpl in Hfuel; lia].
    cbn [mbind option_bind]. f_equal. f_equal. cbn [omap list_omap snd].
    destruct (is_empty missing) eqn:Em; [|by rewrite Em].
    destruct (ref_missing env r) as [m|] eqn:Er; [|done]. cbn [default from_option id head].
    destruct r as [n|n d]; cbn in Er; [|done]. case_match; simplify_eq.
    unfold wf_ref in Hr. cbn in Hr. destruct m; done.
Qed.

Lemma print_template_length t : (List.length t.1 ≤ String.length (print_template t))%nat.
Proof.
  destruct t as [lrs tl]. unfold print_template. cbn [fst snd].
  induction lrs as [|[lit r] lrs IH]; cbn [foldr List.length]; [lia|].
  rewrite !sapp_length. cbn [String.length]. lia.
Qed.

(** Environment substitution is what the template says: in a scalar made of
    literal text and references [${NAME}] or [${NAME:-default}], each reference
    becomes the variable's value, or its default (nothing without one) when the
    variable is unset or empty; the first variable that has neither is reported, and
    the loop ends within the scalar's length. *)
Theorem substitute_env_template (env : string → option string) (t : Template) :
  wf_template t = true →
  substitute_env env (Scalar (print_template t)) ""
  = (Scalar (template_value env t), template_missing env t).
Proof.
  intros Hwf. destruct t as [lrs tl]. cbn [substitute_env]. unfold expand_scalar.
  pose proof (print_template_length (lrs, tl)) as Hlen. cbn [fst] in Hlen.
  rewrite expand_template; [done|done|lia].
Qed.

Lemma substitute_env_template_witness :
  let env := λ n, if String.eqb n "HOST" then Some "h" else None in
  substitute_env env (Scalar "http://${HOST}:${PORT:-80}/${X}") "" = (Scalar "http://h:80/", "X").
Proof.
  intros env.
  exact (substitute_env_template env ([("http://", Var "HOST"); (":", VarOr "PORT" "80"); ("/", Var "X")], "") eq_refl).
Defined.
