(* ===== verification/Engine.v ===== *)
(** * The scenario engine: [scenario::ScenarioEngine]

    [core/scenario/engine.cpp]: assertions, the weighted choice of a scenario, the
    rate settings, the plan of a run (stages, concurrency, deadlines, time slots), the
    events of a stage (polls of the shared token bucket and completions of requests),
    the per-worker client guard and the loop over the stages. *)

From S2P Require Import Prelude CppString Result Url Double Constants TokenBucket Ring Collector ConnectionPool Config.

Local Open Scope Z_scope.
Local Open Scope cpp_scope.

(** ** Assertions *)

(** Microseconds, or -1. *)
(** [src/core/scenario/engine.cpp:31-53] parse_duration_us *)
Definition parse_duration_us (str : string) : Z :=
  let pos := span_len isdigit str in
  if (pos =? 0)%nat then -1
  else match stoll (stake pos str) with
  | StoOk value =>
      let unit := sdrop pos str in
      let mul := if (unit =? "us")%string then Some 1
                 else if (unit =? "ms")%string then Some 1000
                 else if (unit =? "s")%string then Some (1000 * 1000)
                 else if (unit =? "m")%string then Some (60 * 1000 * 1000)
                 else if (unit =? "h")%string then Some (3600 * 1000 * 1000)
                 else None in
      match mul with
      | None => -1
      | Some mul => if (value <? 0) || (INT64_MAX `div` mul <? value) then -1 else value * mul
      end
  | _ => -1
  end.

(** [src/core/scenario/engine.cpp:55-64] compare_op *)
Definition compare_op (actual : Z) (op : string) (expected : Z) : bool :=
  if (op =? "==")%string then actual =? expected
  else if (op =? "!=")%string then negb (actual =? expected)
  else if (op =? ">")%string then expected <? actual
  else if (op =? ">=")%string then expected <=? actual
  else if (op =? "<")%string then actual <? expected
  else if (op =? "<=")%string then actual <=? expected
  else false.

(** [ss >> token]: skip white space, read up to the next; empty at the end. *)
Definition next_token (s : string) : string * string :=
  let s := sdrop (span_len isspace s) s in
  let n := span_len (λ c, negb (isspace c)) s in
  (stake n s, sdrop n s).

(** What an assertion looks at. *)
Record Observed := mkObserved { status_code : Z; latency_us : Z }.

(** [src/core/scenario/engine.cpp:66-84] evaluate_assertion *)
Definition evaluate_assertion (expr : string) (r : Observed) : bool :=
  let '(lhs, s) := next_token expr in
  let '(op, s) := next_token s in
  let '(rhs, _) := next_token s in
  if is_empty op || is_empty rhs then false
  else if (lhs =? "status_code")%string then
    match stol rhs with
    | StoOk expected => compare_op (status_code r) op expected
    | _ => false
    end
  else if (lhs =? "latency")%string then
    let expected_us := parse_duration_us rhs in
    if expected_us <? 0 then false else compare_op (latency_us r) op expected_us
  else false.

(** [src/core/scenario/engine.cpp:105-110] evaluate_assertions *)
Definition evaluate_assertions (step : HttpStep) (r : Observed) : bool :=
  forallb (λ e, evaluate_assertion e r) (step_assertions step).

(** ** Weighted choice *)

Definition weight (s : Scenario) : Z := if 0 <? sc_weight s then sc_weight s else 1.

Definition total_weight (scs : list Scenario) : Z := foldr (λ s n, weight s + n) 0 scs.

(** [pick] is what [uniform_int_distribution(0, total - 1)] returned. *)
(** [src/core/scenario/engine.cpp:89-101] pick_weighted_scenario *)
Fixpoint pick_weighted_scenario (scs : list Scenario) (pick : Z) : option Scenario :=
  match scs with
  | [] => None
  | [s] => Some s
  | s :: scs => if pick <? weight s then Some s else pick_weighted_scenario scs (pick - weight s)
  end.

(** ** Settings *)

(** [src/core/scenario/engine.cpp:124-132] ScenarioEngine::Impl::set_target_rps *)
Definition set_target_rps (rps now : Z) (b : TokenBucket) : Z * option TokenBucket :=
  let rate := if 0 <? rps then d_of_Z rps else d_of_Z 100 in
  let burst := if dltb (d_of_Z 100) rate then rate else d_of_Z 100 in
  (if 0 <? rps then rps else 100,
   b ← set_rate rate now b; set_burst burst now b).

(** [src/core/scenario/engine.cpp:136-139] ScenarioEngine::Impl::set_max_duration *)
Definition set_max_duration (duration : Z) : Z := if 0 <? duration then duration else 0.

(** [src/core/scenario/engine.cpp:152-165] ScenarioEngine::Impl::validate *)
Definition validate (cfg : ScenarioConfig) : option string :=
  if is_empty (test_id cfg) then Some "test_id is required"
  else if is_empty (base_url (target cfg)) then Some "target.base_url is required"
  else None.

(** Host, port, TLS and, when the port is unusable, the error message. *)
(** [src/core/scenario/engine.cpp:547-571] ScenarioEngine::Impl::resolve_url *)
Definition resolve_url (url : string) (step_tls : bool) : string * Z * bool * option string :=
  let parts := parse_url url in
  let use_tls := url_tls parts || step_tls in
  let dflt := if use_tls then 443 else 80 in
  if negb (is_empty (url_port parts)) then
    match stoul (url_port parts) with
    | StoOk p =>
        if (p =? 0) || (65535 <? p) then
          (url_host parts, dflt, use_tls, Some ("port out of range: " +:+ url_port parts))
        else (url_host parts, p, use_tls, None)
    | _ => (url_host parts, dflt, use_tls, Some ("invalid port: " +:+ url_port parts))
    end
  else (url_host parts, dflt, use_tls, None).

Section sla.
Context `{NthElement}.

(** [src/core/scenario/engine.cpp:525-535] ScenarioEngine::Impl::check_sla *)
Definition check_sla (cfg : SLAConfig) (m : MetricsCollector) : option bool :=
  if dgtb (error_rate m) (max_error_rate cfg) then Some false
  else
    snap ← snapshot m;
    Some (negb (u64 (u64 (max_p99_latency cfg) * 1000) <? m_p99_latency_us snap)).
End sla.

(** ** The plan of a run *)

(** [src/core/scenario/engine.cpp:205-224] ScenarioEngine::Impl::run *)
Definition effective_stages (cfg : ScenarioConfig) (max_duration_ms target_rps : Z) : list Stage :=
  match stages cfg with
  | [] => [mkStage "default" (if 0 <? max_duration_ms then max_duration_ms else 60000)
             (if target_rps =? 0 then 100 else target_rps) kDefaultConcurrency]
  | sts => sts
  end.

Definition clamp_concurrency (c : Z) : Z := Z.min (Z.max c 1) 100000.

(** [src/core/scenario/engine.cpp:226-231] ScenarioEngine::Impl::run *)
Definition base_concurrency (sts : list Stage) : Z :=
  clamp_concurrency
    (match sts with
     | [] => kDefaultConcurrency
     | st :: _ => if concurrent_users st =? 0 then kDefaultConcurrency else concurrent_users st
     end).

(** [src/core/scenario/engine.cpp:275-277] ScenarioEngine::Impl::run *)
Definition stage_concurrency (base : Z) (st : Stage) : Z :=
  clamp_concurrency (if 0 <? concurrent_users st then concurrent_users st else base).

(** [src/core/scenario/engine.cpp:240-250] ScenarioEngine::Impl::run *)
Definition pool_max (sts : list Stage) : Z :=
  let base := base_concurrency sts in
  foldl (λ m st, Z.max m (if 0 <? concurrent_users st then concurrent_users st else base)) base sts.

(** [time_point + milliseconds] in 64-bit nanoseconds; [None] is signed overflow. *)
Definition add_ms (now ms : Z) : option Z :=
  if bool_decide (is_i64 (ms * 1000000)) && bool_decide (is_i64 (now + ms * 1000000))
  then Some (now + ms * 1000000) else None.

#[global] Instance is_i64_dec x : Decision (is_i64 x).
Proof. unfold is_i64. apply _. Defined.

(** The end of a stage: its duration from now, not beyond the horizon nor the cap of
    the whole run ([INT64_MAX]: none). *)
(** [src/core/scenario/engine.cpp:281-293] ScenarioEngine::Impl::run *)
Definition stage_deadline (now duration global_end : Z) : option Z :=
  let limit := INT64_MAX - 24 * 365 * 100 * 3600 * 1000000000 in
  stage_end ← (if 0 <? duration then
                 end_ ← add_ms now duration;
                 Some (if limit <? end_ then limit else end_)
               else Some INT64_MAX);
  Some (if negb (global_end =? INT64_MAX) then Z.min stage_end global_end else stage_end).

(** The period of a worker's time slots, in nanoseconds. *)
(** [src/core/scenario/engine.cpp:391-396] ScenarioEngine::Impl::run *)
Definition slot_period (target_rps workers : Z) : option Z :=
  let rate := d_of_Z target_rps in
  let rate := if dleb rate (Fin 0) then d_of_Z 1 else rate in
  let p := dmul (ddiv (d_of_Z workers) rate) (d_of_Z 1000000000) in
  let p := if dltb p (d_of_Z 1) then d_of_Z 1 else p in
  let p := if dgtb p (d_of_Z (10 ^ 18)) then d_of_Z (10 ^ 18) else p in
  d_to_i64 p.

(** The first slot of worker [w]; [None] is signed overflow of the product. *)
(** [src/core/scenario/engine.cpp:397-399] ScenarioEngine::Impl::run *)
Definition first_slot (now period w workers : Z) : option Z :=
  if bool_decide (is_i64 (period * w)) then Some (now + Z.quot (period * w) workers) else None.

(** ** The events of a stage *)

(** What the workers of a stage share: the bucket, the metrics, the request each
    worker waits for, and each worker's step counter. *)
Record StageState := mkStageState {
  bucket : TokenBucket;
  metrics : MetricsCollector;
  inflight : gmap nat HttpStep;
  step_ix : gmap nat nat
}.

(** A worker in its loop polls the bucket at [now] (with the number its generator
    would draw), or the request it waits for completes. *)
Inductive Event :=
  | Poll (w : nat) (now pick : Z)
  | Complete (w : nat) (failed : bool) (status latency received : Z).

(** [src/core/scenario/engine.cpp:456-467] ScenarioEngine::Impl::run *)
Definition recorded_code (step : HttpStep) (failed : bool) (status latency : Z) : Z :=
  let code := if failed then 0 else status in
  if negb (code =? 0) && negb (evaluate_assertions step (mkObserved status latency)) then 0 else code.

(** [None]: the worker is not in a position to do this. *)
(** [src/core/scenario/engine.cpp:428-471] ScenarioEngine::Impl::run *)
Definition stage_event (scs : list Scenario) (e : Event) (s : StageState) : option StageState :=
  match e with
  | Poll w now pick =>
      match inflight s !! w with
      | Some _ => None
      | None =>
          let '(ok, b) := try_consume now (bucket s) in
          let s' := mkStageState b (metrics s) (inflight s) (step_ix s) in
          if negb ok then Some s'
          else match pick_weighted_scenario scs pick with
          | None => Some s'
          | Some sc =>
              let ix := default 0%nat (step_ix s !! w) in
              match sc_steps sc !! (ix mod List.length (sc_steps sc))%nat with
              | None => Some s'
              | Some step =>
                  Some (mkStageState b (metrics s) (<[w := step]> (inflight s)) (<[w := S ix]> (step_ix s)))
              end
          end
      end
  | Complete w failed status latency received =>
      match inflight s !! w with
      | None => None
      | Some step =>
          m ← record_request (recorded_code step failed status latency) latency
                (Z.of_nat (String.length (step_body step))) received (metrics s);
          Some (mkStageState (bucket s) m (delete w (inflight s)) (step_ix s))
      end
  end.

Definition stage_events (scs : list Scenario) (es : list Event) (s : StageState) : option StageState :=
  foldl (λ o e, o ≫= stage_event scs e) (Some s) es.

(** ** The client guard and the loop over the stages *)

(** The fields the destructor of an HTTP/1.1 worker's guard reads, but for the address,
    which is the same for every worker. *)
(** [src/core/scenario/engine.cpp:299-305] ClientGuard *)
Record ClientGuard := mkGuard { pooled : option nat; guard_pool : bool; drop : bool }.

(** [pool] is null in a new guard; only [pooled], [host], [port] and [drop] are
    assigned afterwards. *)
(** [src/core/scenario/engine.cpp:328-334] ScenarioEngine::Impl::run *)
Definition new_guard (c : nat) : ClientGuard := mkGuard (Some c) false false.

(** [src/core/scenario/engine.cpp:311-319] ClientGuard::~ClientGuard *)
Definition guard_destroy (g : ClientGuard) (host : string) (port now : Z) (p : Pool) : Pool :=
  match pooled g with
  | Some c => if guard_pool g && negb (drop g) then release c host port now p else p
  | None => p
  end.

(** Up to [n] attempts to acquire a client. *)
(** [src/core/scenario/engine.cpp:336-346] ScenarioEngine::Impl::run *)
Fixpoint acquire_attempts (n : nat) (host : string) (port : Z) (p : Pool) : option nat * Pool :=
  match n with
  | O => (None, p)
  | S n => match acquire host port p with
           | (Some c, p) => (Some c, p)
           | (None, p) => acquire_attempts n host port p
           end
  end.

(** The workers of a stage get their clients: the guards of those that did, and how
    many failed. *)
(** [src/core/scenario/engine.cpp:329-350] ScenarioEngine::Impl::run *)
Fixpoint start_workers (n : nat) (host : string) (port : Z) (p : Pool) : list ClientGuard * nat * Pool :=
  match n with
  | O => ([], 0%nat, p)
  | S n =>
      let '(c, p) := acquire_attempts 200 host port p in
      let '(gs, failures, p) := start_workers n host port p in
      match c with
      | Some c => (new_guard c :: gs, failures, p)
      | None => (gs, S failures, p)
      end
  end.

(** What happens around a stage: whether the cap on the run has passed at its start,
    whether it has a deadline, and whether [stop()] is called before the main thread
    reads the flag (line 490), or after it while the main thread still waits. *)
Record StageEnv := mkStageEnv {
  cap_passed : bool; bounded : bool; stop_early : bool; stop_late : bool; now_end : Z
}.

Record RunState := mkRunState {
  run_pool : Pool; failures : nat; error : string; stopped : bool; stages_run : nat
}.

(** One stage.  The workers acquire their clients, check that there is a step to run
    and loop; they end at the deadline, on [stop()] or by failing, and [None] is a
    stage whose workers never end. *)
(** [src/core/scenario/engine.cpp:486-515] ScenarioEngine::Impl::run *)
Definition run_stage (base : Z) (host : string) (port : Z) (any_steps is_last : bool)
    (st : Stage) (env : StageEnv) (s : RunState) : option RunState :=
  let n := Z.to_nat (stage_concurrency base st) in
  let '(guards, exhausted, p) := start_workers n host port (run_pool s) in
  let failed := if any_steps then exhausted else n in
  let total := (failures s + failed)%nat in
  let err := if (failed =? 0)%nat || negb (is_empty (error s)) then error s
             else if (0 <? exhausted)%nat then "connection pool exhausted for " +:+ host
             else "scenario configuration has no steps to execute" in
  if negb (bounded env || stop_early env || stop_late env || (failed =? n)%nat) then None
  else
    let '(externally_stopped, now_stopped) :=
      if bounded env && negb (stop_early env) then (stop_late env || (0 <? total)%nat, true)
      else (stop_early env, stop_early env || stop_late env) in
    let p := foldr (λ g p, guard_destroy g host port (now_end env) p) p guards in
    let go_on := negb is_last && negb externally_stopped && (total =? 0)%nat in
    Some (mkRunState p total err (if go_on then false else now_stopped) (S (stages_run s))).

(** [src/core/scenario/engine.cpp:260-274] ScenarioEngine::Impl::run *)
Fixpoint run_stages (base : Z) (host : string) (port : Z) (any_steps : bool)
    (sts : list (Stage * StageEnv)) (s : RunState) : option RunState :=
  match sts with
  | [] => Some s
  | (st, env) :: rest =>
      if stopped s then Some s
      else if cap_passed env then Some (mkRunState (run_pool s) (failures s) (error s) true (stages_run s))
      else
        s ← run_stage base host port any_steps (bool_decide (List.length rest = 0%nat)) st env s;
        run_stages base host port any_steps rest s
  end.

(** [src/core/scenario/engine.cpp:361-368] ScenarioEngine::Impl::run *)
Definition has_steps (cfg : ScenarioConfig) : bool :=
  existsb (λ sc, negb (bool_decide (List.length (sc_steps sc) = 0%nat))) (scenarios cfg).

(** The run of an HTTP/1.1 configuration with these stages, from a fresh engine. *)
(** [src/core/scenario/engine.cpp:226-260] ScenarioEngine::Impl::run *)
Definition run_http (cfg : ScenarioConfig) (sts : list (Stage * StageEnv)) : option RunState :=
  let '(host, port, _, err) := resolve_url (base_url (target cfg)) false in
  let base := base_concurrency (fst <$> sts) in
  let p := make_pool (mkPoolConfig 5 (pool_max (fst <$> sts)) 30 true) in
  run_stages base host port (has_steps cfg) sts (mkRunState p 0 (default "" err) false 0).

(** ** The weighted choice is proportional *)

(** Over the numbers the generator can draw, each scenario is chosen for exactly
    as many as its weight (a weight of 0 counting 1): scenario [i] owns the interval
    of its weight that starts at the total of the scenarios before it, so the
    intervals partition [0, total) and none starves. *)
Theorem pick_weighted_proportional (scs : list Scenario) (i : nat) (s : Scenario) (pick : Z) :
  scs !! i = Some s →
  total_weight (take i scs) ≤ pick < total_weight (take i scs) + weight s →
  0 < weight s ∧ pick_weighted_scenario scs pick = Some s
  ∧ total_weight (take (S i) scs) = total_weight (take i scs) + weight s
  ∧ pick < total_weight scs.
Proof.
  assert (Hw : ∀ s, 0 < weight s) by (intros x; unfold weight; destruct (Z.ltb_spec 0 (sc_weight x)); lia).
  assert (Ht : ∀ l, 0 ≤ total_weight l) by (intros l; induction l as [|x l IH]; simpl; [|specialize (Hw x)]; lia).
  revert i pick. induction scs as [|x scs IH]; intros i pick Hi Hp; [done|]. split; [apply Hw|].
  destruct i as [|i]; simpl in Hi, Hp |- *.
  - simplify_eq. specialize (Ht scs). split_and!; [|lia|lia].
    destruct scs; [done|]. destruct (Z.ltb_spec pick (weight s)); [done|lia].
  - destruct (IH i (pick - weight x) Hi ltac:(lia)) as (_ & Hpick & Hsum & Hlt).
    assert (0 ≤ total_weight (take i scs)) by apply Ht.
    split_and!; [|simpl in Hsum; lia|lia].
    destruct scs as [|y scs]; [done|]. destruct (Z.ltb_spec pick (weight x)); [lia|done].
Qed.

Lemma pick_weighted_proportional_witness :
  pick_weighted_scenario [mkScenario "a" 70 []; mkScenario "b" 0 []; mkScenario "c" 30 []] 70
  = Some (mkScenario "b" 0 []).
Proof.
  refine (proj1 (proj2 (pick_weighted_proportional
    [mkScenario "a" 70 []; mkScenario "b" 0 []; mkScenario "c" 30 []] 1 (mkScenario "b" 0 []) 70 eq_refl _))).
  cbn. lia.
Defined.

(** ** Assertions *)

Definition no_space (s : string) : bool := sforall (λ c, negb (isspace c)) s.

Lemma span_space_nonspace c s : isspace c = false → span_len isspace (String c s) = 0%nat.
Proof. intros Hc. cbn [span_len]. by rewrite Hc. Qed.

Lemma next_token_sep tok rest :
  no_space tok = true → is_empty tok = false → next_token (tok +:+ " " +:+ rest) = (tok, " " +:+ rest).
Proof.
  intros Hn He. unfold next_token. destruct tok as [|c tok]; [done|].
  assert (Hc : isspace c = false) by (cbn in Hn; apply andb_prop in Hn as [Hn _]; by apply negb_true_iff).
  cbn [String.append]. rewrite span_space_nonspace by done. cbn [sdrop].
  change (String c (tok +:+ String " " rest)) with (String c tok +:+ String " " rest).
  rewrite (span_len_app _ (String c tok) " " rest) by done. by rewrite stake_app, sdrop_app.
Qed.

Lemma next_token_space s : next_token (" " +:+ s) = next_token s.
Proof. done. Qed.

Lemma next_token_end tok : no_space tok = true → next_token tok = (tok, "").
Proof.
  intros Hn. unfold next_token. destruct tok as [|c tok]; [done|].
  assert (Hc : isspace c = false) by (cbn in Hn; apply andb_prop in Hn as [Hn _]; by apply negb_true_iff).
  rewrite span_space_nonspace by done. cbn [sdrop]. fold (no_space (String c tok)) in Hn.
  rewrite span_len_all by done. by rewrite stake_all, sdrop_all.
Qed.

Lemma digits_no_space s : sforall isdigit s = true → no_space s = true.
Proof. apply sforall_impl. intros c Hc. by rewrite isdigit_not_space. Qed.

Lemma stol_to_string n : 0 ≤ n ≤ INT64_MAX → stol (to_string n) = StoOk n.
Proof.
  intros Hn. unfold stol, sto_signed. rewrite scan_int_to_string by lia. cbn.
  unfold INT64_MIN. destruct (Z.leb_spec (- 2 ^ 63) n); [|lia]. destruct (Z.leb_spec n INT64_MAX); [done|lia].
Qed.

Lemma stoll_to_string n : 0 ≤ n ≤ INT64_MAX → stoll (to_string n) = StoOk n.
Proof. apply stol_to_string. Qed.

Lemma valid_op_chars op : op ∈ valid_ops →
  no_space op = true ∧ is_empty op = false ∧ sforall is_op_char op = true
  ∧ ∃ c s, op = String c s ∧ isalnum c = false ∧ Ascii.eqb c "_" = false.
Proof.
  unfold valid_ops. rewrite !elem_of_cons, elem_of_nil.
  intros [->|[->|[->|[->|[->|[->|[]]]]]]]; (split_and!; [done..|eexists _, _; done]).
Qed.

(** An assertion written with spaces compares what it names: the status code
    with the number, or the latency in microseconds with the duration and its unit,
    by the operator; such an assertion also passes the schema check. *)
Theorem assertion_compares (op : string) (n : Z) (r : Observed) :
  op ∈ valid_ops → 0 ≤ n → n * 3600000000 ≤ INT64_MAX →
  evaluate_assertion ("status_code" +:+ " " +:+ op +:+ " " +:+ to_string n) r
    = compare_op (status_code r) op n
  ∧ evaluate_assertion ("latency" +:+ " " +:+ op +:+ " " +:+ to_string n +:+ "us") r
    = compare_op (latency_us r) op n
  ∧ evaluate_assertion ("latency" +:+ " " +:+ op +:+ " " +:+ to_string n +:+ "ms") r
    = compare_op (latency_us r) op (n * 1000)
  ∧ evaluate_assertion ("latency" +:+ " " +:+ op +:+ " " +:+ to_string n +:+ "s") r
    = compare_op (latency_us r) op (n * 1000000)
  ∧ evaluate_assertion ("latency" +:+ " " +:+ op +:+ " " +:+ to_string n +:+ "h") r
    = compare_op (latency_us r) op (n * 3600000000).
Proof.
  intros Hop Hn Hmax. destruct (valid_op_chars op Hop) as (Hs & He & _).
  pose proof (to_string_digits n Hn) as Hd. pose proof (digits_no_space _ Hd) as Hds.
  pose proof (to_string_nonempty n Hn) as Hne. unfold INT64_MAX in *.
  assert (Hu : ∀ c u k, isdigit c = false → no_space (String c u) = true → 0 < k ≤ 3600000000 →
    (let unit := String c u in
     if (unit =? "us")%string then Some 1 else if (unit =? "ms")%string then Some 1000
     else if (unit =? "s")%string then Some (1000 * 1000)
     else if (unit =? "m")%string then Some (60 * 1000 * 1000)
     else if (unit =? "h")%string then Some (3600 * 1000 * 1000) else None) = Some k →
    evaluate_assertion ("latency" +:+ " " +:+ op +:+ " " +:+ to_string n +:+ String c u) r
      = compare_op (latency_us r) op (n * k)).
  { intros c u k Hc Hu Hk Hmul. unfold evaluate_assertion.
    rewrite (next_token_sep "latency") by done. rewrite next_token_space, next_token_sep by done.
    rewrite next_token_space, next_token_end by (unfold no_space in *; rewrite sforall_app; by apply andb_true_intro).
    rewrite He. assert (Hne' : is_empty (to_string n +:+ String c u) = false) by (by destruct (to_string n)).
    rewrite Hne'. cbn [orb String.eqb].
    assert (Hpd : parse_duration_us (to_string n +:+ String c u) = n * k).
    { unfold parse_duration_us. rewrite span_len_app by done.
      destruct (String.length (to_string n) =? 0)%nat eqn:El; [by destruct (to_string n)|].
      rewrite stake_app, sdrop_app, stoll_to_string by (unfold INT64_MAX; lia). cbv zeta in Hmul |- *. rewrite Hmul.
      destruct (Z.ltb_spec n 0); [lia|].
      assert (n ≤ INT64_MAX `div` k) by (apply Z.div_le_lower_bound; unfold INT64_MAX; nia).
      destruct (Z.ltb_spec (INT64_MAX `div` k) n); [lia|done]. }
    cbn. rewrite Hpd. destruct (Z.ltb_spec (n * k) 0); [nia|done]. }
  split_and!.
  - unfold evaluate_assertion. rewrite (next_token_sep "status_code") by done.
    rewrite next_token_space, next_token_sep by done. rewrite next_token_space, next_token_end by done.
    rewrite He, Hne. cbn. rewrite stol_to_string by (unfold INT64_MAX; lia). done.
  - rewrite (Hu "u"%char "s" 1) by (done || lia). by rewrite Z.mul_1_r.
  - by rewrite (Hu "m"%char "s" 1000) by (done || lia).
  - by rewrite (Hu "s"%char "" 1000000) by (done || lia).
  - by rewrite (Hu "h"%char "" 3600000000) by (done || lia).
Qed.

Lemma assertion_compares_witness :
  evaluate_assertion ("status_code" +:+ " " +:+ "==" +:+ " " +:+ to_string 201) (mkObserved 201 0) = true.
Proof.
  refine (proj1 (assertion_compares "==" 201 (mkObserved 201 0) _ _ _)).
  - unfold valid_ops. set_solver.
  - lia.
  - unfold INT64_MAX. lia.
Defined.

Lemma ident_not_space c : isalnum c || Ascii.eqb c "_" = true → isspace c = false.
Proof. by destruct c as [[] [] [] [] [] [] [] []]. Qed.

(** The same assertion written without spaces passes the schema check but is
    false of every response, so every request of the step counts as failed. *)
Theorem assertion_without_spaces_fails (lhs op : string) (n : Z) (r : Observed) :
  lhs ≠ "" → sforall (λ c, isalnum c || Ascii.eqb c "_") lhs = true → op ∈ valid_ops → 0 ≤ n →
  check_assertion_format (lhs +:+ op +:+ to_string n) = None
  ∧ evaluate_assertion (lhs +:+ op +:+ to_string n) r = false.
Proof.
  intros Hne Hl Hop Hn. destruct (valid_op_chars op Hop) as (Hs & He & Hoc & c & s & -> & Hc1 & Hc2).
  pose proof (to_string_digits n Hn) as Hd. pose proof (to_string_nonempty n Hn) as Hnn.
  destruct (to_string n) as [|d ds] eqn:En; [done|].
  assert (Hdd : isdigit d = true) by (cbn in Hd; by apply andb_prop in Hd as [? _]).
  split.
  - unfold check_assertion_format.
    assert (Hemp : is_empty (lhs +:+ String c s +:+ String d ds) = false) by (by destruct lhs).
    rewrite Hemp. cbn [String.append].
    rewrite (span_len_app (λ c, isalnum c || Ascii.eqb c "_") lhs c (s +:+ String d ds)) by (done || by rewrite Hc1, Hc2).
    destruct (String.length lhs =? 0)%nat eqn:El; [by destruct lhs|]. rewrite sdrop_app.
    assert (Hcs : isspace c = false) by (cbn in Hs; apply andb_prop in Hs as [Hs _]; by apply negb_true_iff).
    rewrite span_space_nonspace by done. cbn [sdrop].
    change (String c (s +:+ String d ds)) with (String c s +:+ String d ds).
    assert (Hd1 : (is_op_char d || isspace d) = false).
    { rewrite isdigit_not_space by done. unfold is_op_char.
      by rewrite !isdigit_not by done. }
    rewrite (span_len_app _ (String c s) d ds); [|by eapply sforall_impl; [|exact Hoc]; intros ? ->|done].
    cbn [Nat.eqb String.length].
    change (S (String.length s)) with (String.length (String c s)). rewrite stake_app.
    rewrite sfilter_id by exact Hs. destruct (existsb (String.eqb (String c s)) valid_ops) eqn:Ex; [done|].
    exfalso. assert (existsb (String.eqb (String c s)) valid_ops = true); [|congruence].
    apply existsb_exists. exists (String c s). split; [by apply list_elem_of_In|apply String.eqb_refl].
  - assert (Hns : no_space (lhs +:+ String c s +:+ String d ds) = true).
    { unfold no_space. rewrite !sforall_app. apply andb_true_intro. split.
      - eapply sforall_impl; [|exact Hl]. intros a Ha. by rewrite ident_not_space.
      - apply andb_true_intro. split; [done|]. by apply digits_no_space. }
    unfold evaluate_assertion. by rewrite next_token_end.
Qed.

Lemma assertion_without_spaces_fails_witness :
  check_assertion_format ("status_code" +:+ "==" +:+ to_string 200) = None
  ∧ evaluate_assertion ("status_code" +:+ "==" +:+ to_string 200) (mkObserved 200 0) = false.
Proof.
  apply (assertion_without_spaces_fails "status_code" "==" 200 (mkObserved 200 0)); try done.
  unfold valid_ops. set_solver.
Defined.

(** ** Requests and tokens *)

Definition poll_times (es : list Event) : list Z :=
  omap (λ e, match e with Poll _ now _ => Some now | Complete _ _ _ _ _ => None end) es.

Lemma run_try_snoc ts t : ∀ b,
  run_try (ts ++ [t]) b =
  let '(g, b1) := run_try ts b in
  let '(ok, b2) := try_consume t b1 in ((if ok then S g else g), b2).
Proof.
  induction ts as [|t0 ts IH]; intros b; cbn [app run_try].
  - destruct (try_consume t b) as [[] b2]; done.
  - destruct (try_consume t0 b) as [ok0 b0]. rewrite IH. destruct (run_try ts b0) as [g b1].
    destruct (try_consume t b1) as [[] b2], ok0; done.
Qed.

(** Every scenario has a step. *)
Definition runnable (scs : list Scenario) : Prop := scs ≠ [] ∧ Forall (λ s, sc_steps s ≠ []) scs.

Lemma pick_weighted_elem scs pick : scs ≠ [] → ∃ s, pick_weighted_scenario scs pick = Some s ∧ s ∈ scs.
Proof.
  revert pick. induction scs as [|x scs IH]; intros pick Hne; [done|]. cbn [pick_weighted_scenario].
  destruct scs as [|y scs]; [exists x; split; [done|set_solver]|].
  destruct (pick <? weight x); [exists x; split; [done|set_solver]|].
  destruct (IH (pick - weight x)) as (s & Hs & Hin); [done|]. exists s. split; [done|]. set_solver.
Qed.

Lemma runnable_step scs pick ix :
  runnable scs → ∃ sc step, pick_weighted_scenario scs pick = Some sc
    ∧ sc_steps sc !! (ix mod List.length (sc_steps sc))%nat = Some step.
Proof.
  intros [Hne Hall]. destruct (pick_weighted_elem scs pick Hne) as (sc & Hp & Hin).
  rewrite Forall_forall in Hall. specialize (Hall sc Hin).
  destruct (lookup_lt_is_Some_2 (sc_steps sc) (ix mod List.length (sc_steps sc))%nat) as [step Hs].
  - apply Nat.mod_upper_bound. by destruct (sc_steps sc).
  - eauto.
Qed.

(** One request per granted token: what has been recorded or is under way. *)
Lemma stage_events_tokens scs es : ∀ s s' os,
  stage_events scs es s = Some s' → runnable scs → collector_rep (metrics s) os →
  tail_ (latency_ring (metrics s)) + Z.of_nat (List.length es) < 2 ^ 64 →
  Z.of_nat (List.length os) + Z.of_nat (List.length es) < 2 ^ 64 →
  ∃ os', collector_rep (metrics s') (os ++ os')
    ∧ bucket s' = (run_try (poll_times es) (bucket s)).2
    ∧ (List.length os' + size (inflight s') = (run_try (poll_times es) (bucket s)).1 + size (inflight s))%nat
    ∧ (List.length os' ≤ List.length es)%nat
    ∧ tail_ (latency_ring (metrics s')) ≤ tail_ (latency_ring (metrics s)) + Z.of_nat (List.length es).
Proof.
  induction es as [|e es IH] using rev_ind; intros s s' os Hev Hrun Hrep Ht Ho.
  { unfold stage_events in Hev. cbn in Hev. injection Hev as <-. exists []. rewrite app_nil_r.
    cbn. split_and!; (done || lia). }
  unfold stage_events in Hev. rewrite foldl_snoc in Hev. rewrite length_app in *. cbn [List.length] in *.
  destruct (foldl _ (Some s) es) as [s1|] eqn:E1; [|done]. cbn [mbind option_bind] in Hev.
  destruct (IH s s1 os E1 Hrun Hrep ltac:(lia) ltac:(lia)) as (os1 & Hrep1 & Hb1 & Hc1 & Hl1 & Ht1).
  unfold poll_times in *. rewrite omap_app. destruct e as [w now pick|w fl status latency received]; cbn [stage_event] in Hev.
  - cbn [omap list_omap]. rewrite run_try_snoc.
    destruct (run_try (omap _ es) (bucket s)) as [g b1]. cbn [fst snd] in *. subst b1.
    destruct (inflight s1 !! w) eqn:Ei; [done|].
    destruct (try_consume now (bucket s1)) as [ok b2]. exists os1.
    destruct ok; cbn [negb] in Hev.
    + destruct (runnable_step scs pick (default 0%nat (step_ix s1 !! w)) Hrun) as (sc & step & Hp & Hs).
      rewrite Hp, Hs in Hev. simplify_eq. cbn [metrics bucket inflight fst snd].
      rewrite map_size_insert_None by done. split_and!; (done || lia).
    + simplify_eq. cbn [metrics bucket inflight fst snd]. split_and!; (done || lia).
  - cbn [omap list_omap]. rewrite app_nil_r. destruct (inflight s1 !! w) as [step|] eqn:Ei; [|done].
    set (o := Collector.mkObs (recorded_code step fl status latency) latency
                (Z.of_nat (String.length (step_body step))) received).
    destruct (record_request_Some (metrics s1) (os ++ os1) o Hrep1) as (m & Hm & Hrep2 & Ht2).
    { lia. } { rewrite length_app. lia. }
    unfold record_obs, o in Hm. cbn [o_status o_latency o_sent o_received] in Hm. rewrite Hm in Hev.
    cbn [mbind option_bind] in Hev. simplify_eq. cbn [metrics bucket inflight].
    exists (os1 ++ [o]). rewrite app_assoc, length_app. cbn [List.length].
    rewrite map_size_delete_Some by done.
    assert (size (inflight s1) ≠ 0%nat) by (by eapply map_size_ne_0_lookup_2, mk_is_Some).
    split_and!; (done || lia).
Qed.

Lemma set_target_rps_ok R t0 b0 b r u k :
  0 < R ≤ 2 ^ 20 → bucket_ok b0 r u k → (set_target_rps R t0 b0).2 = Some b →
  ∃ k', bucket_ok b (R * one_k) (Z.max 100 R * one_k) k'.
Proof.
  intros HR Hok Hset. pose proof one_k_pos as HK. unfold set_target_rps in Hset. cbn [snd] in Hset.
  destruct (Z.ltb_spec 0 R); [|lia].
  assert (Hburst : (if dltb (d_of_Z 100) (d_of_Z R) then d_of_Z R else d_of_Z 100) = d_of_Z (Z.max 100 R)).
  { rewrite !d_of_Z_small by lia. cbn [dltb].
    destruct (Z.ltb_spec (100 * one_k) (R * one_k)); repeat f_equal; nia. }
  rewrite Hburst in Hset. clear Hburst.
  pose proof (d_of_Z_valid R) as VR. pose proof (d_of_Z_valid (Z.max 100 R)) as VM.
  rewrite (d_of_Z_small R), (d_of_Z_small (Z.max 100 R)) in * by lia.
  unfold set_rate, set_burst in Hset. cbn [dleb d0] in Hset.
  destruct (Z.leb_spec (R * one_k) 0); [nia|]. cbn [mbind option_bind] in Hset.
  destruct (Z.leb_spec (Z.max 100 R * one_k) 0); [nia|].
  destruct (refill_ok t0 b0 r u k Hok) as (k1 & [? ? Hk1] & _).
  set (b1 := refill t0 b0) in *.
  assert (Hb1 : bucket_ok (mkBucket (Fin (R * one_k)) (burst_ b1) (tokens_ b1) (last_refill_ b1)) (R * one_k) u k1).
  { split; cbn; (done || nia). }
  destruct (refill_ok t0 _ _ _ _ Hb1) as (k2 & [? ? Hk2] & _).
  injection Hset as <-. rewrite Hk2. cbn [dgtb dltb].
  destruct (Z.ltb_spec (Z.max 100 R * one_k) k2).
  - exists (Z.max 100 R * one_k). split; cbn; (done || nia).
  - exists k2. split; cbn; (done || nia).
Qed.

(** C1.  The load stays at the target: whatever the workers' interleaving, at every
    point of a stage of target rate [R] the requests recorded and under way are
    exactly the tokens the shared bucket granted, and fewer than
    [max(100, R) + 1 + R·T/10^9] after [T] nanoseconds of polling. *)
Theorem stage_respects_rate (scs : list Scenario) (es : list Event) (b0 b : TokenBucket)
    (ix : gmap nat nat) (R r u k t0 : Z) (s : StageState) :
  runnable scs → 0 < R ≤ 2 ^ 20 →
  bucket_ok b0 r u k → last_refill_ b0 ≤ t0 → (set_target_rps R t0 b0).2 = Some b → last_refill_ b = t0 →
  stage_events scs es (mkStageState b (make_collector t0) ∅ ix) = Some s →
  Z.of_nat (List.length es) ≤ 2 ^ 30 → clock_ok t0 (poll_times es) →
  List.last (poll_times es) t0 - t0 ≤ 2 ^ 53 →
  let requests := total_requests_ (metrics s) + Z.of_nat (size (inflight s)) in
  requests = Z.of_nat (run_try (poll_times es) b).1
  ∧ 1000000000 * requests
    < 1000000000 * (Z.max 100 R + 1) + R * (List.last (poll_times es) t0 - t0).
Proof.
  intros Hrun HR Hok Hl0 Hset Hl Hev Hes Hc HT requests.
  assert (Hbok : ∃ k', bucket_ok b (R * one_k) (Z.max 100 R * one_k) k').
  { by eapply set_target_rps_ok. }
  destruct Hbok as [k' Hbok].
  destruct (stage_events_tokens scs es _ _ [] Hev Hrun (make_collector_rep t0)) as (os' & Hrep & _ & Hcnt & _).
  { simpl. lia. } { simpl. lia. }
  cbn [bucket inflight] in Hcnt. rewrite map_size_empty in Hcnt.
  assert (Hreq : requests = Z.of_nat (run_try (poll_times es) b).1).
  { unfold requests. rewrite (crep_total _ _ Hrep). simpl. lia. }
  split; [done|]. rewrite Hreq. destruct (run_try (poll_times es) b) as [g b'] eqn:Er. cbn [fst].
  rewrite <-Hl in Hc, HT |- *.
  apply (run_try_limit R (Z.max 100 R) k' (poll_times es) b b' g); auto; [lia|].
  assert (List.length (poll_times es) ≤ List.length es)%nat; [|lia].
  unfold poll_times. clear. induction es as [|[] es IH]; cbn; lia.
Qed.

Lemma is_Some_default {A} (o : option A) (x : A) : is_Some o → o = Some (default x o).
Proof. by intros [y ->]. Qed.

Definition demo_bucket : TokenBucket :=
  mkBucket (Fin (100 * one_k)) (Fin (100 * one_k)) (Fin (100 * one_k)) 0.

Definition demo_scenario : Scenario := mkScenario "a" 1 [mkStep "GET" "/" "" ∅ "" "" false []].

Lemma stage_respects_rate_witness :
  let b := default demo_bucket (set_target_rps 50 7 demo_bucket).2 in
  let s0 := mkStageState b (make_collector 7) ∅ ∅ in
  let s := default s0 (stage_events [demo_scenario] [Poll 0 8 0] s0) in
  total_requests_ (metrics s) + Z.of_nat (size (inflight s)) = Z.of_nat (run_try [8] b).1.
Proof.
  intros b s0 s.
  refine (proj1 (stage_respects_rate [demo_scenario] [Poll 0 8 0] demo_bucket b ∅ 50
    (100 * one_k) (100 * one_k) (100 * one_k) 7 s _ _ _ _ _ _ _ _ _ _)).
  - split; [done|]. by repeat constructor.
  - lia.
  - apply (make_bucket_ok 100 100 0); lia.
  - done.
  - apply is_Some_default. vm_compute. by eexists.
  - by vm_compute.
  - apply is_Some_default. unfold stage_events. cbn [foldl mbind option_bind stage_event inflight s0].
    rewrite lookup_empty. destruct (try_consume 8 _) as [[] b']; cbn [negb]; [|done].
    cbn [pick_weighted_scenario]. by destruct (sc_steps _ !! _).
  - simpl. lia.
  - cbn. split; [lia|done].
  - cbn. lia.
Defined.

(** ** Clients are not given back *)

Definition no_idle (p : Pool) : Prop := ∀ k, queue_at k p = [].

Lemma acquire_attempts_leak h port n : ∀ p,
  no_idle p →
  let '(o, p') := acquire_attempts (S n) h port p in
  no_idle p' ∧ config_ p' = config_ p
  ∧ (total_created_ p < max_connections (config_ p) → is_Some o ∧ total_created_ p' = total_created_ p + 1)
  ∧ (max_connections (config_ p) ≤ total_created_ p → o = None ∧ total_created_ p' = total_created_ p).
Proof.
  induction n as [|n IH]; intros p Hq; destruct (acquire_empty h port p Hq) as (Hq' & Hc & Hlt & Hge);
    (cbn [acquire_attempts]; destruct (acquire h port p) as [[c|] p'] eqn:E; cbn [fst snd] in *;
     [split_and!; [done..|auto|intros ?%Hge; naive_solver]|]).
  - split_and!; [done..| |auto]. intros H%Hlt. destruct H as [[? ?] _]. done.
  - specialize (IH p' Hq'). cbn [acquire_attempts] in IH.
    destruct (Z.lt_ge_cases (total_created_ p) (max_connections (config_ p))) as [H|H].
    + apply Hlt in H as [[? ?] _]. done.
    + apply Hge in H as H'. destruct H' as [_ Ht].
      destruct (match acquire h port p' with (Some _, _) => _ | (None, _) => _ end) as [o p2].
      destruct IH as (? & Hc2 & _ & Hge2). rewrite Ht, Hc in *.
      split_and!; [done|done|lia|]. intros _. apply Hge2. lia.
Qed.

Lemma start_workers_leak h port n : ∀ p,
  no_idle p → total_created_ p ≤ max_connections (config_ p) →
  let '(gs, f, p') := start_workers n h port p in
  no_idle p' ∧ config_ p' = config_ p ∧ total_created_ p' ≤ max_connections (config_ p)
  ∧ Forall (λ g, guard_pool g = false) gs
  ∧ Z.of_nat f = total_created_ p + Z.of_nat n - total_created_ p'
  ∧ total_created_ p' = Z.min (max_connections (config_ p)) (total_created_ p + Z.of_nat n).
Proof.
  induction n as [|n IH]; intros p Hq Hle; cbn [start_workers].
  { split_and!; [done|done|lia|constructor|lia|lia]. }
  pose proof (acquire_attempts_leak h port 199 p Hq) as Ha.
  destruct (acquire_attempts 200 h port p) as [o p1]. destruct Ha as (Hq1 & Hc1 & Hlt & Hge).
  specialize (IH p1 Hq1). rewrite Hc1 in IH. destruct (start_workers n h port p1) as [[gs f] p2].
  destruct (Z.lt_ge_cases (total_created_ p) (max_connections (config_ p))) as [H|H].
  - apply Hlt in H as H'. destruct H' as [[c ->] Ht]. destruct IH as (? & ? & ? & ? & ? & ?); [lia|].
    split_and!; [done|done|lia|by constructor|lia|lia].
  - apply Hge in H as H'. destruct H' as [-> Ht]. destruct IH as (? & ? & ? & ? & ? & ?); [lia|].
    split_and!; [done|done|lia|done|lia|lia].
Qed.

Lemma guards_leak h port now gs p :
  Forall (λ g, guard_pool g = false) gs → foldr (λ g p, guard_destroy g h port now p) p gs = p.
Proof.
  induction 1 as [|g gs Hg _ IH]; [done|]. cbn [foldr]. rewrite IH. unfold guard_destroy.
  rewrite Hg. by destruct (pooled g).
Qed.

(** The users of the stages, added up. *)
Definition users (base : Z) (sts : list Stage) : Z := foldr (λ st n, stage_concurrency base st + n) 0 sts.

Lemma stage_concurrency_range base st : 1 ≤ stage_concurrency base st ≤ 100000.
Proof. unfold stage_concurrency, clamp_concurrency. lia. Qed.

(** A stage that starts before the cap of the run, has a deadline, and is not stopped. *)
Definition undisturbed (env : StageEnv) : Prop :=
  cap_passed env = false ∧ bounded env = true ∧ stop_early env = false ∧ stop_late env = false.

Lemma run_stages_stopped base h port any sts s :
  stopped s = true → run_stages base h port any sts s = Some s.
Proof. intros Hs. destruct sts as [|[st env] sts]; [done|]. cbn [run_stages]. by rewrite Hs. Qed.

Lemma run_stages_leak base h port sts : ∀ p k,
  Forall (λ x, undisturbed x.2) sts → no_idle p → total_created_ p ≤ max_connections (config_ p) →
  let total := total_created_ p + users base (fst <$> sts) in
  ∃ s, run_stages base h port true sts (mkRunState p 0 "" false k) = Some s
    ∧ (total ≤ max_connections (config_ p) → failures s = 0%nat ∧ stages_run s = (k + List.length sts)%nat)
    ∧ (max_connections (config_ p) < total →
         (0 < failures s)%nat ∧ error s = "connection pool exhausted for " +:+ h).
Proof.
  induction sts as [|[st env] sts IH]; intros p k Hsts Hq Hle total.
  { exists (mkRunState p 0 "" false k). unfold total. cbn. split_and!; [done| |lia]. intros _. lia. }
  inversion Hsts as [|? ? (Hcap & Hbd & Hse & Hsl) Hrest]; subst. cbn [snd] in *.
  cbn [run_stages stopped]. rewrite Hcap. unfold run_stage.
  pose proof (start_workers_leak h port (Z.to_nat (stage_concurrency base st)) p Hq Hle) as Hw.
  pose proof (stage_concurrency_range base st) as Hc.
  cbn [run_pool]. destruct (start_workers _ h port p) as [[gs f] p1].
  destruct Hw as (Hq1 & Hcfg & Hle1 & Hgs & Hf & Ht1). rewrite Hbd, Hse, Hsl. cbn.
  rewrite guards_leak by done. unfold total, users in *. cbn [fmap list_fmap foldr fst].
  fold (users base (fst <$> sts)) in *. destruct f as [|f]; cbn.
  - specialize (IH p1 (S k) Hrest Hq1 ltac:(rewrite Hcfg; lia)). cbv zeta in IH. rewrite Hcfg in IH.
    destruct (bool_decide_reflect (List.length sts = 0%nat)) as [H0|H0]; cbn.
    + destruct sts; [|done]. cbn [run_stages]. eexists. split; [done|]. cbn. split; [|lia].
      intros _. split; [done|lia].
    + destruct IH as (s & -> & Hok & Hbad). exists s. split; [done|]. split.
      * intros H. destruct Hok as [? ?]; [lia|]. split; [done|]. lia.
      * intros H. apply Hbad. lia.
  - rewrite andb_false_r. rewrite run_stages_stopped by done. eexists. split; [done|]. cbn.
    assert (0 ≤ users base (fst <$> sts)).
    { unfold users. clear. induction sts as [|x sts IH]; cbn; [lia|].
      pose proof (stage_concurrency_range base x.1). lia. }
    split; [lia|]. intros _. split; [lia|done].
Qed.

Lemma foldl_max_sum (c : Stage → Z) sts : ∀ m,
  1 ≤ m → Forall (λ st, 1 ≤ c st) sts →
  m ≤ foldl (λ m st, Z.max m (c st)) m sts
  ∧ foldl (λ m st, Z.max m (c st)) m sts + Z.of_nat (List.length sts) ≤ m + foldr (λ st n, c st + n) 0 sts.
Proof.
  induction sts as [|st sts IH]; intros m Hm Hall; cbn [foldl foldr List.length]; [lia|].
  inversion Hall; subst. destruct (IH (Z.max m (c st))) as [? ?]; [lia|done|]. lia.
Qed.

Lemma pool_max_users st sts :
  Forall (λ st, 0 ≤ concurrent_users st ≤ 100000) (st :: sts) →
  let base := base_concurrency (st :: sts) in
  0 ≤ pool_max (st :: sts) ∧ (sts = [] → users base (st :: sts) = pool_max (st :: sts))
  ∧ (sts ≠ [] → pool_max (st :: sts) < users base (st :: sts)).
Proof.
  intros Hall base. set (c := λ st, if 0 <? concurrent_users st then concurrent_users st else base).
  assert (Hb : 1 ≤ base ≤ 100000) by (unfold base, base_concurrency, clamp_concurrency; lia).
  assert (Hc : ∀ x, 0 ≤ concurrent_users x ≤ 100000 → stage_concurrency base x = c x ∧ 1 ≤ c x).
  { intros x Hx. unfold stage_concurrency, clamp_concurrency, c. destruct (Z.ltb_spec 0 (concurrent_users x)); lia. }
  inversion Hall as [|? ? Hst Hsts]; subst.
  assert (Hst1 : c st = base).
  { unfold c, base, base_concurrency, clamp_concurrency, kDefaultConcurrency.
    destruct (Z.ltb_spec 0 (concurrent_users st)), (Z.eqb_spec (concurrent_users st) 0); lia. }
  assert (Hu : users base (st :: sts) = base + foldr (λ st n, c st + n) 0 sts).
  { unfold users. cbn [foldr]. destruct (Hc st Hst) as [-> _]. rewrite Hst1. f_equal. clear -Hsts Hc.
    clearbody c base.     induction Hsts as [|x l Hx _ IH]; [done|]. cbn [foldr]. destruct (Hc x Hx) as [-> _]. by rewrite IH. }
  assert (Hp : pool_max (st :: sts) = foldl (λ m st, Z.max m (c st)) base sts).
  { unfold pool_max. cbn [foldl]. fold base. fold (c st). rewrite Hst1. by rewrite Z.max_id. }
  destruct (foldl_max_sum c sts base) as [Hlo Hhi]; [lia| |].
  { eapply Forall_impl; [exact Hsts|]. intros x Hx. by apply Hc. }
  rewrite Hu, Hp. split; [lia|]. split.
  - intros ->. cbn. lia.
  - intros Hne. destruct sts; [done|]. cbn [List.length] in Hhi. lia.
Qed.


Definition quiet : StageEnv := mkStageEnv false true false false 0.

Definition two_stages : list (Stage * StageEnv) :=
  [(mkStage "warm" 1000 10 2, quiet); (mkStage "peak" 1000 100 3, quiet)].

Definition demo_config : ScenarioConfig :=
  mkConfig "1" "t" (mkTarget "http://h:8080" "http1.1" true 0) default_auth default_obs [] [demo_scenario] default_sla.


(** ** Stopping *)

(** [stop()] ends the run at the stage it interrupts when it comes before the
    main thread has looked at the flag, or when the stage has a deadline; in a stage
    without deadline that is not the last, a later [stop()] only ends that stage and
    the run goes on with the next one. *)
Theorem stop_ends_run (base : Z) (host : string) (port : Z) (any_steps : bool) (st : Stage) (env : StageEnv)
    (rest : list (Stage * StageEnv)) (s : RunState) :
  stopped s = false → cap_passed env = false → stop_early env = true ∨ stop_late env = true →
  ∃ s', run_stage base host port any_steps (bool_decide (List.length rest = 0%nat)) st env s = Some s'
    ∧ run_stages base host port any_steps ((st, env) :: rest) s = run_stages base host port any_steps rest s'
    ∧ stages_run s' = S (stages_run s)
    ∧ (stop_early env = true ∨ bounded env = true ∨ rest = [] ∨ failures s' ≠ 0%nat →
         run_stages base host port any_steps rest s' = Some s')
    ∧ (stop_early env = false → bounded env = false → rest ≠ [] → failures s' = 0%nat → stopped s' = false).
Proof.
  intros Hs Hcap Hstop. cbn [run_stages]. rewrite Hs, Hcap. unfold run_stage.
  destruct (start_workers _ host port (run_pool s)) as [[gs f] p].
  set (failed := if any_steps then f else _). set (err := if _ || _ then _ else _).
  set (n := Z.to_nat _) in *. set (p' := foldr _ p gs).
  assert (Hend : negb (bounded env || stop_early env || stop_late env || (failed =? n)%nat) = false).
  { destruct Hstop as [->| ->]; rewrite ?orb_true_r; done. }
  rewrite Hend. clear Hend.
  destruct (bounded env && negb (stop_early env)) eqn:Hb.
  - apply andb_prop in Hb as [Hb1 Hb2%negb_true_iff]. rewrite Hb2 in Hstop. destruct Hstop as [?|Hl]; [done|].
    rewrite Hl. cbn [orb negb]. rewrite andb_false_r. cbn [andb mbind option_bind]. eexists.
    split; [done|]. split; [done|]. split; [done|]. split; [intros _; by apply run_stages_stopped|congruence].
  - eexists. split; [done|]. split; [done|]. split; [done|].
    cbn [failures stopped]. destruct (stop_early env) eqn:Hse.
    + cbn [negb]. rewrite andb_false_r. cbn. split; [intros _; by apply run_stages_stopped|done].
    + destruct Hstop as [?|Hl]; [done|]. rewrite Hl in *. cbn [negb orb]. rewrite andb_true_r in *.
      rewrite Hb. split.
      * intros [?|[?|[->|Hf]]]; [done|done|done|]. apply run_stages_stopped. cbn.
        destruct (Nat.eqb_spec (failures s + failed) 0); [done|by rewrite andb_false_r].
      * intros _ _ Hr Hf. cbn. rewrite Hf. cbn. destruct rest; [done|]. done.
Qed.

Lemma stop_ends_run_witness :
  let env := mkStageEnv false false false true 0 in
  let s := mkRunState (make_pool (mkPoolConfig 5 10 30 true)) 0 "" false 0 in
  ∃ s', run_stage 2 "h" 80 true false (mkStage "soak" 0 10 2) env s = Some s' ∧ stopped s' = false.
Proof.
  intros env s.
  destruct (stop_ends_run 2 "h" 80 true (mkStage "soak" 0 10 2) env two_stages s)
    as (s' & Hs & _ & _ & _ & Hgo); [done|done|by right|].
  exists s'. split; [exact Hs|]. apply Hgo; [done|done|done|].
  vm_compute in Hs. by injection Hs as <-.
Defined.

(** ** Deadlines and time slots *)

Definition horizon : Z := INT64_MAX - 24 * 365 * 100 * 3600 * 1000000000.

(** The deadline of a stage with a duration is its duration from now, cut at the
    100-year horizon and at the cap of the run, exactly when the sum fits the 64-bit
    clock; otherwise the addition that comes before the cut is undefined behaviour,
    so it is for the largest duration the parser lets through. *)
Theorem stage_deadline_spec (now duration global_end : Z) :
  0 ≤ now ≤ INT64_MAX → 0 < duration ≤ INT64_MAX → 0 ≤ global_end ≤ INT64_MAX →
  (now + duration * 1000000 ≤ INT64_MAX →
     stage_deadline now duration global_end
     = Some (Z.min (Z.min (now + duration * 1000000) horizon) global_end))
  ∧ (INT64_MAX < now + duration * 1000000 → stage_deadline now duration global_end = None)
  ∧ stage_deadline now INT64_MAX global_end = None
  ∧ (∀ now', stage_deadline now' 0 global_end = Some global_end).
Proof.
  intros Hn Hd Hg. unfold stage_deadline, add_ms, is_i64, horizon.
  assert (HM : INT64_MAX = 9223372036854775807) by reflexivity.
  assert (Hm : INT64_MIN = -9223372036854775808) by reflexivity. split_and!.
  - intros Hfit. destruct (Z.ltb_spec 0 duration); [|lia].
    rewrite !bool_decide_true by lia. cbn [andb mbind option_bind]. f_equal.
    destruct (Z.ltb_spec (INT64_MAX - 24 * 365 * 100 * 3600 * 1000000000) (now + duration * 1000000)),
      (Z.eqb_spec global_end INT64_MAX); cbn [negb]; lia.
  - intros Hbig. destruct (Z.ltb_spec 0 duration); [|lia].
    rewrite (bool_decide_false (_ ≤ now + _ ≤ _)) by lia. by rewrite andb_false_r.
  - destruct (Z.ltb_spec 0 INT64_MAX); [|lia]. by rewrite (bool_decide_false (_ ≤ INT64_MAX * _ ≤ _)) by lia.
  - intros now'. cbn [Z.ltb Z.compare mbind option_bind]. f_equal.
    destruct (Z.eqb_spec global_end INT64_MAX); cbn [negb]; lia.
Qed.

Lemma stage_deadline_spec_witness :
  stage_deadline 5000000 60000 INT64_MAX = Some 60005000000.
Proof.
  rewrite (proj1 (stage_deadline_spec 5000000 60000 INT64_MAX ltac:(unfold INT64_MAX; lia)
    ltac:(unfold INT64_MAX; lia) ltac:(unfold INT64_MAX; lia))); [|unfold INT64_MAX; lia].
  reflexivity.
Defined.

(** The workers of a stage start spread over one period, in order, as long as the
    product of period and index fits 64 bits; at 100000 users and one request per
    second it does not. *)
Theorem first_slots_spread (now period w w' workers : Z) :
  0 < period → 0 ≤ w ≤ w' → w' < workers → period * w' ≤ INT64_MAX →
  (∃ t t', first_slot now period w workers = Some t ∧ first_slot now period w' workers = Some t'
     ∧ now ≤ t ≤ t' ∧ t' < now + period)
  ∧ slot_period 1 100000 = Some (10 ^ 14) ∧ first_slot now (10 ^ 14) 99999 100000 = None.
Proof.
  intros Hp Hw Hlt Hfit. split; [|split; [by vm_compute|done]].
  assert (HM : INT64_MAX = 9223372036854775807) by reflexivity.
  assert (Hm : INT64_MIN = -9223372036854775808) by reflexivity.
  exists (now + Z.quot (period * w) workers), (now + Z.quot (period * w') workers).
  unfold first_slot, is_i64. rewrite !bool_decide_true by nia.
  split; [done|]. split; [done|].
  pose proof (Z.quot_pos (period * w) workers ltac:(nia) ltac:(lia)).
  pose proof (Z.quot_le_mono (period * w) (period * w') workers ltac:(lia) ltac:(nia)).
  assert (Z.quot (period * w') workers < period); [|lia].
  apply Z.quot_lt_upper_bound; nia.
Qed.

Lemma first_slots_spread_witness :
  ∃ t t', first_slot 7 1000 1 4 = Some t ∧ first_slot 7 1000 3 4 = Some t' ∧ 7 ≤ t ≤ t' ∧ t' < 7 + 1000.
Proof.
  refine (proj1 (first_slots_spread 7 1000 1 3 4 _ _ _ _)); unfold INT64_MAX; lia.
Defined.
