(* ===== verification/Redact.v ===== *)
(** * Masking secrets in log text: [core::redact]

    [include/cppload/core/redact.hpp]: the scan that masks the values of known secret
    keys before a message is logged.  The scan never goes back over what it has
    passed, so it is a function on the rest of the text. *)

From S2P Require Import Prelude CppString.

Local Open Scope string_scope.

(** The double quote; the apostrophe. *)
Definition dq : ascii := "034".
Definition sq : ascii := "039".

(** [src/include/cppload/core/redact.hpp:14-23] iequals *)
Definition iequals (a b : string) : bool := (stolower a =? stolower b)%string.

(** [src/include/cppload/core/redact.hpp:25-25] kMask *)
Definition kMask : string := "******".

(** [src/include/cppload/core/redact.hpp:35-50] kSecretKeys *)
Definition kSecretKeys : list string :=
  ["authorization"; "x-api-key"; "x-vault-token"; "client_secret"; "client-id"; "client_id";
   "access_token"; "id_token"; "refresh_token"; "token"; "vault_token"; "password"; "secret";
   "private_key"].

(** [src/include/cppload/core/redact.hpp:55-58] is_separator *)
Definition is_separator (c : ascii) : bool :=
  Ascii.eqb c ":" || Ascii.eqb c "=" || Ascii.eqb c " " || Ascii.eqb c "009" || Ascii.eqb c "013"
  || Ascii.eqb c "010" || Ascii.eqb c dq || Ascii.eqb c sq || Ascii.eqb c "&" || Ascii.eqb c ",".

(** [src/include/cppload/core/redact.hpp:60-66] find_key_end *)
Definition key_char (c : ascii) : bool := isalnum c || Ascii.eqb c "_" || Ascii.eqb c "-".

(** [src/include/cppload/core/redact.hpp:74-81] redact_secrets *)
Definition is_secret_key (key : string) : bool := existsb (iequals key) kSecretKeys.

(** What the loop over the separators skips. *)
(** [src/include/cppload/core/redact.hpp:86-89] redact_secrets *)
Definition skips (c : ascii) : bool :=
  is_separator c && negb (Ascii.eqb c "013") && negb (Ascii.eqb c "010").

(** Whether a character belongs to the value; [quote] is the quote it opened with. *)
(** [src/include/cppload/core/redact.hpp:98-108] redact_secrets *)
Definition value_char (quote : option ascii) (c : ascii) : bool :=
  match quote with
  | Some q => negb (Ascii.eqb c q)
  | None => negb (Ascii.eqb c "013" || Ascii.eqb c "010" || Ascii.eqb c "&" || Ascii.eqb c "}"
                  || Ascii.eqb c "]" || Ascii.eqb c ",")
  end.

(** The opening quote, when the text is at one, and the text after it. *)
(** [src/include/cppload/core/redact.hpp:91-95] redact_secrets *)
Definition open_quote (s : string) : option ascii * string * string :=
  match s with
  | String c r => if Ascii.eqb c dq || Ascii.eqb c sq then (Some c, String c "", r) else (None, "", s)
  | "" => (None, "", "")
  end.

(** The scan of the rest of the text.  Every round passes at least one character, so
    [String.length s] rounds are enough ([redact_fuel]). *)
(** [src/include/cppload/core/redact.hpp:68-115] redact_secrets *)
Fixpoint redact (fuel : nat) (s : string) : string :=
  match fuel with
  | O => s
  | S fuel =>
      (* [++pos] passes the character after the place the round stopped at *)
      let next r := match r with "" => "" | String c r => String c (redact fuel r) end in
      let n := span_len key_char s in
      if (n =? 0)%nat then next s
      else
        let key := stake n s in
        let rest := sdrop n s in
        if negb (is_secret_key key) then key +:+ next rest
        else
          let p := span_len skips rest in
          let seps := stake p rest in
          let v := sdrop p rest in
          if is_empty v then s
          else
            let '(quote, q, v) := open_quote v in
            let m := span_len (value_char quote) v in
            key +:+ seps +:+ q +:+ (if (m =? 0)%nat then "" else kMask) +:+ next (sdrop m v)
  end.

(** [src/include/cppload/core/redact.hpp:34-118] redact_secrets *)
Definition redact_secrets (input : string) : string := redact (String.length input) input.

(** [src/include/cppload/core/redact.hpp:121-123] safe_log *)
Definition safe_log (msg : string) : string := redact_secrets msg.

(** ** The scan needs no more fuel than characters *)

Lemma span_len_le p s : (span_len p s ≤ String.length s)%nat.
Proof. induction s as [|c s IH]; cbn; [lia|]. destruct (p c); lia. Qed.

Lemma sdrop_length n s : String.length (sdrop n s) = (String.length s - n)%nat.
Proof. revert s; induction n as [|n IH]; intros [|c s]; cbn; auto. Qed.

Lemma redact_fuel f1 : ∀ f2 s,
  (String.length s ≤ f1)%nat → (String.length s ≤ f2)%nat → redact f1 s = redact f2 s.
Proof.
  induction f1 as [|f1 IH]; intros f2 s H1 H2.
  { destruct s; [|cbn in H1; lia]. by destruct f2. }
  destruct f2 as [|f2]; [destruct s; [done|cbn in H2; lia]|]. cbn [redact].
  assert (Hnext : ∀ r, (String.length r ≤ String.length s)%nat →
    match r with "" => "" | String c r => String c (redact f1 r) end
    = match r with "" => "" | String c r => String c (redact f2 r) end).
  { intros [|c r] Hr; [done|]. f_equal. cbn in Hr. apply IH; lia. }
  destruct (span_len key_char s =? 0)%nat; [by apply Hnext|].
  destruct (negb (is_secret_key _)); [f_equal; apply Hnext; rewrite sdrop_length; lia|].
  destruct (is_empty _); [done|]. destruct (open_quote _) as [[q qs] v] eqn:Eq.
  do 4 f_equal. apply Hnext. rewrite sdrop_length.
  assert (String.length v ≤ String.length s)%nat; [|lia].
  set (w := sdrop _ _) in Eq. assert (String.length w ≤ String.length s)%nat by (unfold w; rewrite !sdrop_length; lia).
  unfold open_quote in Eq. destruct w as [|c w]; [by simplify_eq|].
  cbn in *. destruct (_ || _); simplify_eq; cbn; lia.
Qed.

Lemma redact_rest f s : (String.length s ≤ f)%nat → redact f s = redact_secrets s.
Proof. intros H. by apply redact_fuel. Qed.

(** ** Texts as plain pieces and secret fields *)

(** The maximal runs of key characters. *)
Fixpoint words (s : string) : list string :=
  match s with
  | "" => [""]
  | String c s' =>
      if key_char c then match words s' with [] => [String c ""] | w :: ws => String c w :: ws end
      else "" :: words s'
  end.

(** A secret key, in any case. *)
Definition names_secret (k : string) : Prop := stolower k ∈ kSecretKeys.

#[global] Instance names_secret_dec k : Decision (names_secret k).
Proof. unfold names_secret. apply _. Defined.

Lemma is_secret_key_spec k : is_secret_key k = true ↔ names_secret k.
Proof.
  unfold is_secret_key, names_secret. rewrite existsb_exists. split.
  - intros (x & Hin & Heq). unfold iequals in Heq. apply String.eqb_eq in Heq. rewrite Heq.
    apply list_elem_of_In. assert (Hl : Forall (λ x, stolower x = x) kSecretKeys) by repeat constructor.
    rewrite Forall_forall in Hl. rewrite Hl; [done|by apply list_elem_of_In].
  - intros Hin. exists (stolower k). split; [by apply list_elem_of_In|]. unfold iequals.
    assert (Hl : Forall (λ x, stolower x = x) kSecretKeys) by repeat constructor.
    rewrite Forall_forall in Hl. rewrite (Hl _ Hin). apply String.eqb_refl.
Qed.

Lemma is_secret_key_false k : is_secret_key k = false ↔ ¬ names_secret k.
Proof. rewrite <-is_secret_key_spec. destruct (is_secret_key k); naive_solver. Qed.

(** A text without secret keys. *)
Definition plain (s : string) : Prop := Forall (λ w, ¬ names_secret w) (words s).

#[global] Instance plain_dec s : Decision (plain s).
Proof. unfold plain. apply _. Defined.

Lemma plain_nil : plain "".
Proof. by apply (bool_decide_unpack _). Qed.

(** A piece of a log text: plain text and the character after it, or a secret key
    with its separators, its value and the character that ends it. *)
Inductive Piece :=
  | Plain (text : string) (stop : ascii)
  | Secret (key seps value : string) (stop : ascii).

Definition print_piece (p : Piece) : string :=
  match p with
  | Plain t c => t +:+ String c ""
  | Secret k seps v c => k +:+ seps +:+ v +:+ String c ""
  end.

Definition print_text (ps : list Piece) : string := foldr (λ p s, print_piece p +:+ s) "" ps.

Definition mask (p : Piece) : Piece :=
  match p with Plain _ _ => p | Secret k seps _ c => Secret k seps kMask c end.

Definition head_not (p : ascii → bool) (s : string) : bool :=
  match s with "" => false | String c _ => negb (p c) end.

Definition wf_piece (p : Piece) : Prop :=
  match p with
  | Plain t c => plain t ∧ key_char c = false
  | Secret k seps v c =>
      names_secret k ∧ sforall key_char k = true ∧ head_not key_char seps = true
      ∧ sforall skips seps = true ∧ head_not skips v = true
      ∧ sforall (value_char None) v = true ∧ value_char None c = false
  end.

(** The first word of a text, and what follows it. *)
Lemma words_split s :
  let n := span_len key_char s in
  words s = stake n s :: match sdrop n s with "" => [] | String _ r => words r end.
Proof.
  induction s as [|c s IH]; [done|]. cbn [words span_len]. destruct (key_char c); [|done].
  rewrite IH. done.
Qed.

Lemma span_len_app_nonkey p s c t : p c = false →
  span_len p (s +:+ String c t) = span_len p s ∧ (span_len p s ≤ String.length s)%nat.
Proof.
  intros Hc. induction s as [|a s [IH ?]]; cbn; [by rewrite Hc|]. destruct (p a); [|lia]. split; lia.
Qed.

Lemma stake_app_le n s t : (n ≤ String.length s)%nat → stake n (s +:+ t) = stake n s.
Proof. revert s. induction n as [|n IH]; intros [|c s] H; cbn in *; [done..|lia|]. rewrite IH; [done|lia]. Qed.

Lemma sdrop_app_le n s t : (n ≤ String.length s)%nat → sdrop n (s +:+ t) = sdrop n s +:+ t.
Proof. revert s. induction n as [|n IH]; intros [|c s] H; cbn in *; [done..|lia|]. rewrite IH; [done|lia]. Qed.

(** A round over a word that is not a secret key. *)
Lemma redact_plain_word s :
  let n := span_len key_char s in
  is_secret_key (stake n s) = false →
  redact_secrets s
  = stake n s +:+ match sdrop n s with "" => "" | String c r => String c (redact_secrets r) end.
Proof.
  intros n Hs. unfold redact_secrets at 1. destruct s as [|c s]; [done|]. cbn [String.length redact]. fold n.
  assert (Hn : ∀ r, (String.length r ≤ String.length (String c s))%nat →
    match r with "" => "" | String c r => String c (redact (String.length s) r) end
    = match r with "" => "" | String c r => String c (redact_secrets r) end).
  { intros [|a r] Hr; [done|]. f_equal. cbn in Hr. apply redact_rest. lia. }
  destruct (Nat.eqb_spec n 0) as [->|_].
  - cbn. by rewrite redact_rest.
  - rewrite Hs. cbn [negb]. f_equal. apply Hn. rewrite sdrop_length. lia.
Qed.

Lemma redact_plain_len n : ∀ t c s,
  (String.length t ≤ n)%nat → plain t → key_char c = false →
  redact_secrets (t +:+ String c s) = t +:+ String c (redact_secrets s).
Proof.
  induction n as [|n IH]; intros t c s Hlen Hp Hc.
  { destruct t; [|cbn in Hlen; lia]. cbn [String.append].
    rewrite redact_plain_word; cbn [span_len]; rewrite Hc; done. }
  unfold plain in Hp. rewrite words_split in Hp. apply Forall_cons in Hp as [Hw%is_secret_key_false Hws].
  destruct (span_len_app_nonkey key_char t c s Hc) as [Hspan Hle].
  rewrite redact_plain_word; rewrite Hspan, stake_app_le by done; [|done].
  rewrite sdrop_app_le by done. set (m := span_len key_char t) in *. clearbody m.
  rewrite <-(stake_sdrop m t) at 3.
  rewrite sapp_assoc. f_equal. pose proof (sdrop_length m t) as Hl.
  destruct (sdrop m t) as [|a r]; [done|]. cbn [String.append]. f_equal.
  apply IH; [cbn in Hl; lia|done|done].
Qed.

Lemma redact_plain t c s :
  plain t → key_char c = false → redact_secrets (t +:+ String c s) = t +:+ String c (redact_secrets s).
Proof. by apply (redact_plain_len (String.length t)). Qed.

Lemma redact_stop c s : key_char c = false → redact_secrets (String c s) = String c (redact_secrets s).
Proof. intros Hc. apply (redact_plain ""); [apply plain_nil|done]. Qed.

Lemma redact_plain_end t : plain t → redact_secrets t = t.
Proof.
  intros Hp. remember (String.length t) as n eqn:En. revert t En Hp.
  induction n as [n IH] using lt_wf_ind. intros t -> Hp.
  unfold plain in Hp. rewrite words_split in Hp. apply Forall_cons in Hp as [Hw%is_secret_key_false Hws].
  rewrite redact_plain_word by done. set (m := span_len key_char t) in *. clearbody m.
  rewrite <-(stake_sdrop m t) at 3. f_equal. pose proof (sdrop_length m t) as Hl.
  destruct (sdrop m t) as [|a r]; [done|]. f_equal.
  eapply IH; [|done|done]. cbn in Hl. lia.
Qed.

Lemma span_len_seps p s t : sforall p s = true → head_not p t = true → span_len p (s +:+ t) = String.length s.
Proof.
  intros Hs Ht. destruct t as [|c t]; [done|]. apply negb_true_iff in Ht. by apply span_len_app.
Qed.

Lemma head_not_app p s t : head_not p s = true → head_not p (s +:+ t) = true.
Proof. by destruct s. Qed.

(** What the separator loop stops at is not a quote: the quoted case never applies. *)
Lemma open_quote_skipped s : head_not skips s = true → open_quote s = (None, "", s).
Proof.
  destruct s as [|c s]; [done|]. cbn. intros H%negb_true_iff.
  assert (Hq : Ascii.eqb c dq || Ascii.eqb c sq = false).
  { destruct (Ascii.eqb_spec c dq); [subst; done|]. destruct (Ascii.eqb_spec c sq); [subst; done|]. done. }
  by rewrite Hq.
Qed.

Lemma redact_secret k seps v c s :
  wf_piece (Secret k seps v c) →
  redact_secrets (k +:+ seps +:+ v +:+ String c s) = k +:+ seps +:+ kMask +:+ String c (redact_secrets s).
Proof.
  intros (Hk%is_secret_key_spec & Hkc & Hsh & Hss & Hvh & Hvs & Hc). unfold redact_secrets at 1.
  set (t := seps +:+ v +:+ String c s).
  assert (Hlen : (String.length s < String.length (k +:+ t))%nat).
  { unfold t. rewrite !sapp_length. cbn. lia. }
  destruct (String.length (k +:+ t)) as [|f]; [lia|]. cbn [redact].
  rewrite (span_len_seps key_char k t) by (done || by apply head_not_app).
  destruct (String.length k =? 0)%nat eqn:Ek; [by destruct k|].
  rewrite stake_app, sdrop_app, Hk. cbn [negb]. unfold t.
  rewrite (span_len_seps skips seps) by (done || by apply head_not_app). rewrite stake_app, sdrop_app.
  assert (He : is_empty (v +:+ String c s) = false) by (by destruct v). rewrite He.
  rewrite open_quote_skipped by (by apply head_not_app).
  rewrite (span_len_app _ v c s) by done. rewrite sdrop_app.
  destruct (String.length v =? 0)%nat eqn:Ev; [by destruct v|].
  cbn [String.append]. do 4 f_equal. apply redact_rest. lia.
Qed.


Definition auth_log : list Piece :=
  [Plain "GET /v1" "010"; Secret "Authorization" ": " "Bearer abc.def" "013"; Plain "" "010";
   Secret "client_secret" "=" "s3cr3t" "&"].


(** In a quoted JSON value the closing quote is not what ends the secret: the
    separator loop has passed the opening one, so a value that contains a comma, an
    ampersand or a closing bracket keeps everything after it in clear. *)
Theorem redact_quoted_leaks (key a b : string) (c : ascii) :
  names_secret key → sforall key_char key = true → a ≠ "" →
  sforall (value_char None) a = true → head_not skips a = true →
  value_char None c = false → plain b →
  let quoted v := String dq (v +:+ String dq "") in
  redact_secrets (quoted key +:+ ":" +:+ quoted (a +:+ String c b))
  = quoted key +:+ ":" +:+ String dq kMask +:+ String c (b +:+ String dq "").
Proof.
  intros Hk Hkc Hne Ha Hah Hc Hb quoted. unfold quoted.
  assert (Hsec : wf_piece (Secret key (String dq (":" +:+ String dq "")) a c)) by (by split_and!).
  set (text := [Plain "" dq; Secret key (String dq (":" +:+ String dq "")) a c]).
  transitivity (redact_secrets (print_text text +:+ (b +:+ String dq ""))).
  { f_equal. unfold text. cbn. rewrite !sapp_assoc. cbn. by rewrite !sapp_assoc. }
  unfold text, print_text. cbn [foldr print_piece String.append].
  rewrite !sapp_assoc. cbn [String.append].
  rewrite redact_stop by done. rewrite !sapp_assoc. cbn [String.append].
  replace (key +:+ String dq (String ":" (String dq (a +:+ String c (b +:+ String dq "")))))
    with (key +:+ String dq (":" +:+ String dq "") +:+ a +:+ String c (b +:+ String dq "")) by done.
  rewrite redact_secret by done. rewrite redact_plain by done. done.
Qed.

Lemma redact_quoted_leaks_witness :
  redact_secrets (String dq ("password" +:+ String dq "") +:+ ":" +:+ String dq (("hunter" +:+ ",2x") +:+ String dq ""))
  = String dq ("password" +:+ String dq "") +:+ ":" +:+ String dq kMask +:+ String "," ("2x" +:+ String dq "").
Proof. apply (redact_quoted_leaks "password" "hunter" "2x" ","); try done.
  - by apply (bool_decide_unpack _).
  - by apply (bool_decide_unpack _).
Defined.
