(* ===== verification/SyncHttp.v ===== *)
(** * One blocking HTTP exchange, and JSON documents

    What [core/vault/vault_client.cpp] and [core/security/auth_provider.cpp] use of
    Boost.Beast and nlohmann::json.  Both libraries, the network and the servers are
    parameters: [Exchange] is what the library calls of one exchange report, [Network]
    produces it and may change the servers' state, and [JsonDoc] is the JSON library
    with the laws its documentation gives. *)

From S2P Require Import Prelude CppString Result.

Local Open Scope Z_scope.

Record HttpRequest := mkRequest {
  rq_method : string; rq_target : string; rq_headers : gmap string string; rq_body : string
}.

Record HttpResponse := mkHttpResponse { rs_status : Z; rs_body : string }.

(** The error code of [async_connect]: none, [beast::error::timeout], another. *)
Inductive ConnectOutcome := Connected | ConnectTimeout | ConnectFailed.

(** The error code of [async_read]: none or [end_of_stream], another. *)
Inductive ReadOutcome := ReadDone (res : HttpResponse) | ReadFailed.

(** What the calls of one exchange report, in their order. *)
Record Exchange := mkExchange {
  x_resolve : bool; x_sni : bool; x_connect : ConnectOutcome; x_handshake : bool;
  x_write : bool; x_read : ReadOutcome
}.

(** An exchange that went through with a response. *)
Definition served (x : Exchange) (res : HttpResponse) : Prop :=
  x_resolve x = true ∧ x_sni x = true ∧ x_connect x = Connected ∧ x_handshake x = true
  ∧ x_write x = true ∧ x_read x = ReadDone res.

(** The calls of an exchange that were made. *)
Inductive NetStep := Resolve | Connect | Handshake | WriteReq | ReadRes | TlsShutdown | Shutdown | CloseSocket.

(** [S]: the servers and the network. *)
Class Network (S : Type) := {
  net_exchange : S → string → string → bool → HttpRequest → Exchange * S
}.

(** [nlohmann::json]: [None] is an exception. *)
Class JsonDoc := {
  doc : Type;
  doc_parse : string → option doc;
  doc_dump : doc → option string;
  doc_null : doc;
  doc_string : string → doc;
  doc_object : gmap string doc → doc;
  doc_members : doc → option (gmap string doc);   (* of an object *)
  doc_get_string : doc → option string;           (* [get<std::string>()] *)
  doc_get_int : doc → option Z;                   (* [get<int>()] *)
  doc_parse_dump d s : doc_dump d = Some s → doc_parse s = Some d;
  doc_dump_nonempty d s : doc_dump d = Some s → is_empty s = false;
  doc_members_object m : doc_members (doc_object m) = Some m;
  doc_get_string_string s : doc_get_string (doc_string s) = Some s;
  doc_get_int_range d n : doc_get_int d = Some n → - 2 ^ 31 ≤ n < 2 ^ 31
}.

(** ** Driving one asynchronous operation *)

(** An [io_context]: whether [run] has finished on it, and the operations outstanding, each
    with the number of its handler and the error code it will be called with. *)
Module RunAsync.

Record IoContext := mkIo { io_stopped : bool; io_outstanding : list (nat * option string) }.

Definition restart (c : IoContext) : IoContext := mkIo false (io_outstanding c).

(** [run] calls the handler of every operation and stops the context; on a context that
    is stopped it returns at once. *)
Definition run (c : IoContext) : list (nat * option string) * IoContext :=
  if io_stopped c then ([], c) else (io_outstanding c, mkIo true []).

(** The handler [h] stores its error code; [op_ec] starts out as success. *)
Definition stored (h : nat) (calls : list (nat * option string)) : option string :=
  foldl (λ ec call, if (call.1 =? h)%nat then call.2 else ec) None calls.

Definition initiate (h : nat) (ec : option string) (c : IoContext) : IoContext :=
  mkIo (io_stopped c) (io_outstanding c ++ [(h, ec)]).

(** [src/core/net/beast_sync.hpp:26-34] run_async *)
Definition run_async (h : nat) (ec : option string) (c : IoContext) : option string * IoContext :=
  let c := restart (initiate h ec c) in
  let (calls, c) := run c in
  (stored h calls, c).

(** The phases of an exchange on one context, one after the other. *)
Definition phases (ecs : list (option string)) (c : IoContext) : list (option string) * IoContext :=
  foldl (λ r ec, let (x, c) := run_async (List.length r.1) ec r.2 in (r.1 ++ [x], c)) ([], c) ecs.

(** Each phase reports the error of its own operation, though the context was stopped by
    the phase before it, and leaves nothing outstanding. *)
Theorem phases_report ecs stopped :
  (phases ecs (mkIo stopped [])).1 = ecs ∧ io_outstanding (phases ecs (mkIo stopped [])).2 = [].
Proof.
  unfold phases. induction ecs as [|ec ecs [IH1 IH2]] using rev_ind; [done|]. rewrite foldl_snoc.
  destruct (foldl _ _ ecs) as [xs c]. cbn [fst snd] in *. subst xs. unfold run_async, run, restart, initiate. cbn.
  rewrite IH2. unfold stored. cbn. by rewrite Nat.eqb_refl.
Qed.

(** Without [restart] the second phase would report success whatever happened. *)
Theorem restart_needed h ec c : io_stopped c = true → (run (initiate h ec c)).1 = [] ∧ stored h [] = None.
Proof. intros Hs. unfold run. cbn. by rewrite Hs. Qed.

End RunAsync.

Section accessors.
Context `{JsonDoc}.

(** [j[key]] of a member that is there; [None] when [j.contains(key)] is false. *)
Definition doc_find (j : doc) (key : string) : option doc := m ← doc_members j; m !! key.

(** [j.value(key, default)]: throws when [j] is not an object or the member is of
    another type. *)
Definition doc_value {A} (get : doc → option A) (j : doc) (key : string) (dflt : A) : option A :=
  m ← doc_members j;
  match m !! key with None => Some dflt | Some d => get d end.
End accessors.

(** [try { ... } catch (const json::exception&) { return err(e); }] *)
Definition catch_json {A} (e : Err) (r : option (Result A Err)) : Result A Err := default (Error e) r.

(** ** A JSON library that keeps the laws *)

(** Documents are trees: leaves are strings, node 0 an object as key, value, key,
    value, ..., node 1 null, node 2 a number; a document is written as the decimal
    numeral of its code. *)
Module TreeJson.

Fixpoint pairs (l : list (gen_tree string)) : gmap string (gen_tree string) :=
  match l with
  | GenLeaf k :: v :: l => <[k := v]> (pairs l)
  | _ => ∅
  end.

Definition object (m : gmap string (gen_tree string)) : gen_tree string :=
  GenNode 0 (foldr (λ kv l, GenLeaf kv.1 :: kv.2 :: l) [] (map_to_list m)).

Definition members (d : gen_tree string) : option (gmap string (gen_tree string)) :=
  match d with GenNode 0 l => Some (pairs l) | _ => None end.

Definition get_string (d : gen_tree string) : option string :=
  match d with GenLeaf s => Some s | _ => None end.

Definition get_int (d : gen_tree string) : option Z :=
  match d with GenNode 2 l => Some (Z.of_nat (List.length l) `mod` 2 ^ 31) | _ => None end.

Definition dump (d : gen_tree string) : option string := Some (to_string (Zpos (encode d))).

Definition parse (s : string) : option (gen_tree string) := decode (Z.to_pos (digits_val 0 s)).

Lemma parse_dump d s : dump d = Some s → parse s = Some d.
Proof.
  unfold dump. intros H%(inj Some). subst s. unfold parse. rewrite digits_val_to_string by lia. cbn [Z.to_pos]. apply decode_encode.
Qed.

Lemma members_object m : members (object m) = Some m.
Proof.
  unfold members, object. f_equal. rewrite <-(list_to_map_to_list m) at 2.
  induction (map_to_list m) as [|[k v] l IH]; [done|]. cbn. by rewrite IH.
Qed.

Lemma dump_nonempty d s : dump d = Some s → is_empty s = false.
Proof. unfold dump. intros H%(inj Some). subst s. apply to_string_nonempty. lia. Qed.

Lemma get_int_range d n : get_int d = Some n → - 2 ^ 31 ≤ n < 2 ^ 31.
Proof.
  unfold get_int. repeat case_match; intros; simplify_eq.
  pose proof (Z.mod_pos_bound (Z.of_nat (List.length l)) (2 ^ 31) ltac:(lia)). lia.
Qed.

#[export] Instance tree_json : JsonDoc := {
  doc := gen_tree string;
  doc_parse := parse;
  doc_dump := dump;
  doc_null := GenNode 1 [];
  doc_string := GenLeaf;
  doc_object := object;
  doc_members := members;
  doc_get_string := get_string;
  doc_get_int := get_int;
  doc_parse_dump := parse_dump;
  doc_dump_nonempty := dump_nonempty;
  doc_members_object := members_object;
  doc_get_string_string _ := eq_refl;
  doc_get_int_range := get_int_range
}.

End TreeJson.
