(* ===== verification/Vault.v ===== *)
(** * The Vault client: [vault::VaultClient]

    [core/vault/vault_client.cpp]: one exchange with every error path, the retries on
    HTTP 429, the mapping of status codes, and the operations on secrets. *)

From S2P Require Import Prelude CppString Result Url Constants SyncHttp.

Local Open Scope Z_scope.

(** [src/include/cppload/vault/vault_client.hpp:13-18] VaultConfig *)
Record VaultConfig := mkVaultConfig {
  address : string; vault_token : string; engine_path : string; timeout_seconds : Z
}.

(** [src/core/vault/vault_client.cpp:48-57] build_request *)
Definition build_request (method host target body : string) (headers : gmap string string) : HttpRequest :=
  let base := <["Accept" := "application/json"]> (<["User-Agent" := kUserAgent]> {["Host" := host]}) in
  let h := headers ∪ base in
  if is_empty body then mkRequest method target h ""
  else mkRequest method target (<["Content-Length" := to_string (Z.of_nat (String.length body))]> h) body.

(** [src/core/vault/vault_client.cpp:63-68] close_transport *)
Definition close_transport : list NetStep := [Shutdown; CloseSocket].

(** [src/core/vault/vault_client.cpp:70-139] do_request_once *)
Definition exchange_tls (x : Exchange) : Result HttpResponse Err * list NetStep :=
  if negb (x_sni x) then (Error E_tls_handshake_failed, close_transport)
  else
    match x_connect x with
    | ConnectTimeout => (Error E_connection_timeout, Connect :: close_transport)
    | ConnectFailed => (Error E_connection_refused, Connect :: close_transport)
    | Connected =>
        if negb (x_handshake x) then (Error E_tls_handshake_failed, Connect :: Handshake :: close_transport)
        else if negb (x_write x) then
          (Error E_write_error, Connect :: Handshake :: WriteReq :: close_transport)
        else match x_read x with
        | ReadFailed => (Error E_read_error, Connect :: Handshake :: WriteReq :: ReadRes :: close_transport)
        | ReadDone res =>
            (Ok res, Connect :: Handshake :: WriteReq :: ReadRes :: TlsShutdown :: close_transport)
        end
    end.

(** [src/core/vault/vault_client.cpp:140-170] do_request_once *)
Definition exchange_plain (x : Exchange) : Result HttpResponse Err * list NetStep :=
  match x_connect x with
  | ConnectTimeout => (Error E_connection_timeout, [Connect])
  | ConnectFailed => (Error E_connection_refused, [Connect])
  | Connected =>
      if negb (x_write x) then (Error E_write_error, [Connect; WriteReq])
      else match x_read x with
      | ReadFailed => (Error E_read_error, [Connect; WriteReq; ReadRes])
      | ReadDone res => (Ok res, Connect :: WriteReq :: ReadRes :: close_transport)
      end
  end.

(** [src/core/vault/vault_client.cpp:29-46] do_request_once *)
Definition do_request_once (x : Exchange) (use_tls : bool) : Result HttpResponse Err * list NetStep :=
  if negb (x_resolve x) then (Error E_dns_failure, [Resolve])
  else let '(r, t) := if use_tls then exchange_tls x else exchange_plain x in (r, Resolve :: t).

(** [src/core/vault/vault_client.cpp:202-211] check_response *)
Definition check_response (res : HttpResponse) : Result Z Err :=
  let code := rs_status res in
  if (200 <=? code) && (code <? 300) then Ok code
  else if code =? 429 then Error E_vault_server_error
  else if code =? 404 then Error E_vault_not_found
  else if code =? 403 then Error E_vault_permission_denied
  else if code =? 401 then Error E_vault_token_invalid
  else if 500 <=? code then Error E_vault_server_error
  else Error E_unknown.

Definition kMaxAttempts : nat := 3.

Section client.
Context {S : Type} `{Network S} `{JsonDoc}.

Definition Op (A : Type) : Type := S → A * S.

Definition is_429 (r : Result HttpResponse Err) : bool :=
  match r with Ok res => rs_status res =? 429 | Error _ => false end.

(** The loop from [attempt] on, with the sleeps in milliseconds. *)
(** [src/core/vault/vault_client.cpp:178-200] do_request *)
Fixpoint request_loop (tries attempt : nat) (host port : string) (tls : bool) (req : HttpRequest) :
    Op (Result HttpResponse Err * list Z) := λ s,
  match tries with
  | O => (Error E_vault_server_error, [], s)
  | Datatypes.S tries =>
      let '(x, s) := net_exchange s host port tls req in
      let r := (do_request_once x tls).1 in
      if negb (is_429 r) then (r, [], s)
      else
        let sleep := if (attempt + 1 <? kMaxAttempts)%nat then [100 * 2 ^ Z.of_nat attempt] else [] in
        let '(r, sleeps, s) := request_loop tries (attempt + 1) host port tls req s in
        (r, sleep ++ sleeps, s)
  end.

(** [src/core/vault/vault_client.cpp:173-188] do_request *)
Definition do_request (method host port target body : string) (headers : gmap string string) (tls : bool) :
    Op (Result HttpResponse Err) := λ s,
  let '(r, _, s) := request_loop kMaxAttempts 0 host port tls (build_request method host target body headers) s in
  (r, s).

Definition token_header (cfg : VaultConfig) : gmap string string := {["X-Vault-Token" := vault_token cfg]}.

(** [src/core/vault/vault_client.cpp:230-231] VaultClient::Impl::get_secret *)
Definition secret_path (cfg : VaultConfig) (path : string) : string :=
  "/v1/" +:+ sanitize_path (engine_path cfg) +:+ "/data/" +:+ sanitize_path path.

(** The request of an operation, its status checked, its body given to [k]. *)
(** [src/core/vault/vault_client.cpp:236-241] VaultClient::Impl::get_secret *)
Definition call {A} (cfg : VaultConfig) (method path body : string) (headers : gmap string string)
    (k : string → Result A Err) : Op (Result A Err) := λ s,
  let url := parse_url (address cfg) in
  let '(r, s) := do_request method (url_host url) (url_port url) path body headers (url_tls url) s in
  (and_then r (λ res, and_then (check_response res) (λ _, k (rs_body res))), s).

(** [j["data"]["data"]]; an error when it is not there. *)
(** [src/core/vault/vault_client.cpp:243-247] VaultClient::Impl::get_secret *)
Definition inner_data (j : doc) : Result doc Err :=
  match d ← doc_find j "data"; doc_find d "data" with
  | Some data => Ok data
  | None => Error E_parse_error
  end.

(** [src/core/vault/vault_client.cpp:227-255] VaultClient::Impl::get_secret *)
Definition get_secret (cfg : VaultConfig) (path key : string) : Op (Result string Err) := λ s,
  if is_empty path then (Error E_invalid_config, s)
  else call cfg "GET" (secret_path cfg path) "" (token_header cfg) (λ body,
    catch_json E_parse_error (
      j ← doc_parse body;
      match inner_data j with
      | Error e => Some (Error e)
      | Ok data =>
          match doc_find data key with
          | Some v => str ← doc_get_string v; Some (Ok str)
          | None => Some (Error E_vault_not_found)
          end
      end)) s.

(** [src/core/vault/vault_client.cpp:257-291] VaultClient::Impl::get_secret_map *)
Definition get_secret_map (cfg : VaultConfig) (path : string) : Op (Result (gmap string string) Err) := λ s,
  if is_empty path then (Error E_invalid_config, s)
  else call cfg "GET" (secret_path cfg path) "" (token_header cfg) (λ body,
    catch_json E_parse_error (
      j ← doc_parse body;
      match inner_data j with
      | Error e => Some (Error e)
      | Ok data =>
          match doc_members data with
          | None => Some (Ok ∅)
          | Some m =>
              (* throws at a member that is not a string *)
              if bool_decide (map_Forall (λ _ v, is_Some (doc_get_string v)) m)
              then Some (Ok (omap doc_get_string m)) else None
          end
      end)) s.

(** [json data_obj] is null until a member is assigned. *)
(** [src/core/vault/vault_client.cpp:300-303] VaultClient::Impl::put_secret *)
Definition secret_doc (data : gmap string string) : doc :=
  doc_object {["data" := if bool_decide (data = ∅) then doc_null else doc_object (doc_string <$> data)]}.

(** [None]: [dump] throws, outside of any [try]. *)
(** [src/core/vault/vault_client.cpp:293-315] VaultClient::Impl::put_secret *)
Definition put_secret (cfg : VaultConfig) (path : string) (data : gmap string string) :
    Op (option (Result bool Err)) := λ s,
  if is_empty path then (Some (Error E_invalid_config), s)
  else match doc_dump (secret_doc data) with
  | None => (None, s)
  | Some body =>
      let '(r, s) := call cfg "POST" (secret_path cfg path) body (token_header cfg) (λ _, Ok true) s in
      (Some r, s)
  end.

(** [src/core/vault/vault_client.cpp:317-319] VaultClient::Impl::get_kv_secret *)
Definition get_kv_secret := get_secret.

(** [src/core/vault/vault_client.cpp:321-349] VaultClient::Impl::get_database_creds *)
Definition get_database_creds (cfg : VaultConfig) (role_name : string) : Op (Result string Err) := λ s,
  if is_empty role_name then (Error E_invalid_config, s)
  else call cfg "GET" ("/v1/database/creds/" +:+ sanitize_path role_name) "" (token_header cfg) (λ body,
    catch_json E_parse_error (
      j ← doc_parse body;
      match doc_find j "data" with
      | None => Some (Error E_parse_error)
      | Some d =>
          username ← doc_value doc_get_string d "username" "";
          password ← doc_value doc_get_string d "password" "";
          Some (Ok (username +:+ ":" +:+ password))
      end)) s.

(** [src/core/vault/vault_client.cpp:351-380] VaultClient::Impl::get_approle_token *)
Definition get_approle_token (cfg : VaultConfig) (role_id secret_id : string) :
    Op (option (Result string Err)) := λ s,
  if is_empty role_id || is_empty secret_id then (Some (Error E_invalid_config), s)
  else match doc_dump (doc_object {["role_id" := doc_string role_id; "secret_id" := doc_string secret_id]}) with
  | None => (None, s)
  | Some body =>
      let '(r, s) := call cfg "POST" "/v1/auth/approle/login" body ∅ (λ body,
        catch_json E_parse_error (
          j ← doc_parse body;
          match a ← doc_find j "auth"; doc_find a "client_token" with
          | None => Some (Error E_parse_error)
          | Some t => str ← doc_get_string t; Some (Ok str)
          end)) s in
      (Some r, s)
  end.

(** [src/core/vault/vault_client.cpp:383-398] VaultClient::Impl::health_check *)
Definition health_check (cfg : VaultConfig) : Op bool := λ s,
  let url := parse_url (address cfg) in
  let headers := if is_empty (vault_token cfg) then ∅ else token_header cfg in
  let '(r, s) := do_request "GET" (url_host url) (url_port url) "/v1/sys/health" "" headers (url_tls url) s in
  (match r with Ok res => (200 <=? rs_status res) && (rs_status res <? 500) | Error _ => false end, s).

(** [src/core/vault/vault_client.cpp:400-402] VaultClient::Impl *)
Record VaultClient := mkVaultClient { config_ : VaultConfig; connected_ : bool }.

(** [src/core/vault/vault_client.cpp:215-221] VaultClient::Impl::Impl *)
Definition make_client (cfg : VaultConfig) : Op VaultClient := λ s,
  let '(connected, s) := health_check cfg s in (mkVaultClient cfg connected, s).

End client.

(** ** Exchanges *)

(** Over TLS the socket is closed on every path after the lookup; without TLS only
    when a response was read. *)
Lemma transport_closed x :
  x_resolve x = true →
  CloseSocket ∈ (do_request_once x true).2
  ∧ (CloseSocket ∈ (do_request_once x false).2 ↔ has_value (do_request_once x false).1 = true).
Proof.
  intros Hr. unfold do_request_once, exchange_tls, exchange_plain, close_transport. rewrite Hr. cbn [negb].
  split; [|split]; repeat case_match; simplify_eq/=; set_solver.
Qed.

(** ** Retries *)

Section retries.
Context {S : Type} `{Network S}.
Context (host port : string) (tls : bool) (req : HttpRequest).

(** The outcome of the [i]-th of repeated exchanges, and the state after it. *)
Fixpoint nth_exchange (i : nat) (s : S) : Result HttpResponse Err * S :=
  let '(x, s) := net_exchange s host port tls req in
  match i with
  | O => ((do_request_once x tls).1, s)
  | Datatypes.S i => nth_exchange i s
  end.

(** A request ends after at most three exchanges: with the first outcome that
    is not HTTP 429 (errors are not retried), or with [vault_server_error] after three
    429s; it never hands a 429 on, and sleeps 100 ms before the second exchange and
    200 ms before the third. *)
Theorem vault_request_retries (s : S) :
  let '(r, sleeps, s') := request_loop kMaxAttempts 0 host port tls req s in
  is_429 r = false
  ∧ ((∃ i, (i < 3)%nat ∧ (∀ j, (j < i)%nat → is_429 (nth_exchange j s).1 = true)
        ∧ (r, s') = nth_exchange i s ∧ foldr Z.add 0 sleeps = 100 * (2 ^ Z.of_nat i - 1))
     ∨ (∀ j, (j < 3)%nat → is_429 (nth_exchange j s).1 = true) ∧ r = Error E_vault_server_error
        ∧ s' = (nth_exchange 2 s).2 ∧ foldr Z.add 0 sleeps = 300).
Proof.
  unfold kMaxAttempts. cbn [request_loop].
  destruct (net_exchange s host port tls req) as [x0 s0] eqn:E0.
  destruct (is_429 (do_request_once x0 tls).1) eqn:H0; cbn [negb]; last first.
  { split; [done|]. left. exists 0%nat. cbn [nth_exchange]. rewrite E0. split_and!; [lia|lia|done|done]. }
  destruct (net_exchange s0 host port tls req) as [x1 s1] eqn:E1.
  destruct (is_429 (do_request_once x1 tls).1) eqn:H1; cbn [negb]; last first.
  { split; [done|]. left. exists 1%nat. cbn [nth_exchange]. rewrite E0, E1. split_and!; [lia| |done|done].
    intros [|j] Hj; [|lia]. cbn [nth_exchange]. by rewrite E0. }
  destruct (net_exchange s1 host port tls req) as [x2 s2] eqn:E2.
  destruct (is_429 (do_request_once x2 tls).1) eqn:H2; cbn [negb].
  - split; [done|]. right. cbn [nth_exchange]. rewrite E0, E1, E2. split_and!; [|done|done|done].
    intros [|[|[|j]]] Hj; [| | |lia]; cbn [nth_exchange]; by rewrite ?E0, ?E1, ?E2.
  - split; [done|]. left. exists 2%nat. cbn [nth_exchange]. rewrite E0, E1, E2. split_and!; [lia| |done|done].
    intros [|[|j]] Hj; [| |lia]; cbn [nth_exchange]; by rewrite ?E0, ?E1.
Qed.
End retries.

(** ** Secrets *)

Lemma served_once x res tls : served x res → (do_request_once x tls).1 = Ok res.
Proof.
  intros (H1 & H2 & H3 & H4 & H5 & H6). unfold do_request_once, exchange_tls, exchange_plain.
  rewrite H1, H2, H3, H4, H5, H6. by destruct tls.
Qed.

(** The documented interface of Vault's KV version 2 engine, as the client sees it:
    [stored] is the current version at a path.  A write of [{"data": d}] is answered
    with 2xx and makes [d] current; a read of a path with a current version is answered
    with 2xx and a document whose ["data"]["data"] is that version. *)
Class KvServer (S : Type) `{Network S} `{JsonDoc} := {
  stored : S → string → option doc;
  kv_write s host port tls req j d :
    rq_method req = "POST" → doc_parse (rq_body req) = Some j → doc_find j "data" = Some d →
    ∃ x s' res, net_exchange s host port tls req = (x, s') ∧ served x res ∧ 200 ≤ rs_status res < 300
      ∧ stored s' (rq_target req) = Some d
      ∧ (∀ p, p ≠ rq_target req → stored s' p = stored s p);
  kv_read s host port tls req d :
    rq_method req = "GET" → stored s (rq_target req) = Some d →
    ∃ x s' res j, net_exchange s host port tls req = (x, s') ∧ served x res ∧ 200 ≤ rs_status res < 300
      ∧ doc_parse (rs_body res) = Some j ∧ (v ← doc_find j "data"; doc_find v "data") = Some d
      ∧ stored s' = stored s
}.

Section secrets.
Context {S : Type} `{KvServer S}.

Lemma request_loop_served tries host port tls req s x s' res :
  net_exchange s host port tls req = (x, s') → served x res → 200 ≤ rs_status res < 300 →
  request_loop (Datatypes.S tries) 0 host port tls req s = (Ok res, [], s').
Proof.
  intros Hx Hs Hr. cbn [request_loop]. rewrite Hx, (served_once _ _ _ Hs). cbn [is_429].
  destruct (Z.eqb_spec (rs_status res) 429); [lia|done].
Qed.

Lemma check_response_2xx res : 200 ≤ rs_status res < 300 → check_response res = Ok (rs_status res).
Proof.
  intros Hr. unfold check_response.
  destruct (Z.leb_spec 200 (rs_status res)), (Z.ltb_spec (rs_status res) 300); (lia || done).
Qed.

Lemma call_read {A} cfg path h (k : string → Result A Err) s d :
  stored s path = Some d →
  ∃ body j s', doc_parse body = Some j ∧ inner_data j = Ok d ∧ stored s' = stored s
    ∧ call cfg "GET" path "" h k s = (k body, s').
Proof.
  intros Hs. unfold call, do_request.
  destruct (kv_read s (url_host (parse_url (address cfg))) (url_port (parse_url (address cfg)))
    (url_tls (parse_url (address cfg))) (build_request "GET" (url_host (parse_url (address cfg))) path "" h) d
    eq_refl Hs) as (x & s' & res & j & Hx & Hserved & Hres & Hj & Hd & Hst).
  unfold kMaxAttempts. rewrite (request_loop_served _ _ _ _ _ _ _ _ _ Hx Hserved Hres).
  cbn [and_then]. rewrite check_response_2xx by done. exists (rs_body res), j, s'.
  split_and!; [done| |done|done]. unfold inner_data. by rewrite Hd.
Qed.

Definition secret_object (data : gmap string string) : doc := doc_object (doc_string <$> data).

Lemma put_secret_stores cfg path data s body :
  is_empty path = false → data ≠ ∅ → doc_dump (secret_doc data) = Some body →
  ∃ s', put_secret cfg path data s = (Some (Ok true), s')
    ∧ stored s' (secret_path cfg path) = Some (secret_object data)
    ∧ ∀ p, p ≠ secret_path cfg path → stored s' p = stored s p.
Proof.
  intros Hp Hne Hb. unfold put_secret. rewrite Hp, Hb. unfold call, do_request.
  assert (Hdoc : doc_find (secret_doc data) "data" = Some (secret_object data)).
  { unfold secret_doc, doc_find. rewrite doc_members_object. cbn [mbind option_bind].
    rewrite bool_decide_false by done. by rewrite lookup_singleton_eq. }
  set (url := parse_url (address cfg)).
  set (req := build_request "POST" (url_host url) (secret_path cfg path) body (token_header cfg)).
  assert (Hreq : rq_method req = "POST" ∧ rq_body req = body ∧ rq_target req = secret_path cfg path).
  { unfold req, build_request. by rewrite (doc_dump_nonempty _ _ Hb). }
  destruct Hreq as (Hm & Hbody & Htgt).
  destruct (kv_write s (url_host url) (url_port url) (url_tls url) req (secret_doc data) (secret_object data) Hm)
    as (x & s' & res & Hx & Hserved & Hres & Hst & Hrest); [by rewrite Hbody; apply doc_parse_dump|done|].
  unfold kMaxAttempts. rewrite (request_loop_served _ _ _ _ _ _ _ _ _ Hx Hserved Hres).
  cbn [and_then]. rewrite check_response_2xx by done. rewrite Htgt in *. by exists s'.
Qed.

Lemma get_secret_map_stored cfg path data s :
  is_empty path = false → stored s (secret_path cfg path) = Some (secret_object data) →
  (get_secret_map cfg path s).1 = Ok data.
Proof.
  intros Hp Hst. unfold get_secret_map. rewrite Hp.
  match goal with |- context [call cfg "GET" ?p "" ?h ?k s] =>
    destruct (call_read cfg p h k s _ Hst) as (b & j & s2 & Hj & Hd & _ & ->) end.
  cbn [fst]. rewrite Hj. cbn [mbind option_bind]. rewrite Hd.
  unfold secret_object. rewrite doc_members_object. rewrite bool_decide_true.
  - cbn. f_equal. apply map_eq. intros i. rewrite lookup_omap, lookup_fmap.
    destruct (data !! i); cbn; [by rewrite doc_get_string_string|done].
  - intros i v Hi. rewrite lookup_fmap in Hi. destruct (data !! i); simplify_eq/=.
    rewrite doc_get_string_string. done.
Qed.

Lemma get_secret_stored cfg path key data s :
  is_empty path = false → stored s (secret_path cfg path) = Some (secret_object data) →
  (get_secret cfg path key s).1
  = match data !! key with Some v => Ok v | None => Error E_vault_not_found end.
Proof.
  intros Hp Hst. unfold get_secret. rewrite Hp.
  match goal with |- context [call cfg "GET" ?p "" ?h ?k s] =>
    destruct (call_read cfg p h k s _ Hst) as (b & j & s2 & Hj & Hd & _ & ->) end.
  cbn [fst]. rewrite Hj. cbn [mbind option_bind]. rewrite Hd.
  unfold secret_object, doc_find. rewrite doc_members_object. cbn [mbind option_bind]. rewrite lookup_fmap.
  destruct (data !! key); cbn; [by rewrite doc_get_string_string|done].
Qed.

End secrets.

(** A server that keeps the documents in a map, over a network that loses nothing. *)
Import TreeJson.

Definition answer (body : string) : Exchange :=
  mkExchange true true Connected true true (ReadDone (mkHttpResponse 200 body)).

Definition wrap_data (d : doc) : doc := doc_object {["data" := d]}.

#[local] Instance demo_network : Network (gmap string doc) := {
  net_exchange s host port tls req :=
    if (rq_method req =? "POST")%string then
      (answer "", match j ← doc_parse (rq_body req); doc_find j "data" with
                  | Some d => <[rq_target req := d]> s
                  | None => s
                  end)
    else
      (answer (match s !! rq_target req with
               | Some d => default "" (doc_dump (wrap_data (wrap_data d)))
               | None => "" end), s)
}.

Lemma find_wrap d : doc_find (wrap_data d) "data" = Some d.
Proof. unfold doc_find, wrap_data. rewrite doc_members_object. cbn [mbind option_bind]. by rewrite lookup_singleton_eq. Qed.

Lemma demo_write (s : gmap string doc) host port tls req j d :
  rq_method req = "POST" → doc_parse (rq_body req) = Some j → doc_find j "data" = Some d →
  ∃ x s' res, net_exchange s host port tls req = (x, s') ∧ served x res ∧ 200 ≤ rs_status res < 300
    ∧ s' !! rq_target req = Some d ∧ (∀ p, p ≠ rq_target req → s' !! p = s !! p).
Proof.
  intros Hm Hj Hd. unfold net_exchange, demo_network. rewrite Hm, Hj. cbn [mbind option_bind]. rewrite Hd.
  cbn. eexists _, _, _. split; [done|]. split; [by split_and!|]. split; [cbn; lia|].
  split; [apply lookup_insert_eq|]. intros p Hp. by apply lookup_insert_ne.
Qed.

Lemma demo_read (s : gmap string doc) host port tls req d :
  rq_method req = "GET" → s !! rq_target req = Some d →
  ∃ x s' res j, net_exchange s host port tls req = (x, s') ∧ served x res ∧ 200 ≤ rs_status res < 300
    ∧ doc_parse (rs_body res) = Some j ∧ (v ← doc_find j "data"; doc_find v "data") = Some d
    ∧ s' = s.
Proof.
  intros Hm Hs. unfold net_exchange, demo_network. rewrite Hm, Hs. cbn [String.eqb Ascii.eqb Bool.eqb].
  destruct (doc_dump (wrap_data (wrap_data d))) as [b|] eqn:Eb; [|done].
  eexists _, _, _, (wrap_data (wrap_data d)). split; [done|]. split; [by split_and!|]. split; [cbn; lia|].
  split; [by apply doc_parse_dump|]. rewrite (find_wrap (wrap_data d)). exact (conj (find_wrap d) eq_refl).
Qed.

#[local] Instance demo_kv : KvServer (gmap string doc).
Proof.
  refine {| stored s p := s !! p |}.
  - apply demo_write.
  - intros s host port tls req d Hm Hs. destruct (demo_read s host port tls req d Hm Hs) as (x & s' & res & j & H).
    destruct H as (H1 & H2 & H3 & H4 & H5 & ->).
    exists x, s, res, j. exact (conj H1 (conj H2 (conj H3 (conj H4 (conj H5 eq_refl))))).
Defined.

Definition demo_cfg : VaultConfig := mkVaultConfig "http://127.0.0.1:8200" "t" "secret" 5.

