(* ===== verification/Auth.v ===== *)
(** * Authentication: [security::AuthProvider]

    [core/security/auth_provider.cpp]: the headers of each kind of authentication, the
    token request of the OAuth2 client-credentials grant, the cached token with its
    expiry and the refresh.  The mutex makes the reads and the refresh of the token
    atomic; times are in seconds of [system_clock]. *)

From S2P Require Import Prelude CppString Result Url Constants SyncHttp.

Local Open Scope Z_scope.

(** [src/include/cppload/security/auth_provider.hpp:13-19] AuthType *)
Inductive AuthType := NONE | API_KEY | BEARER_TOKEN | OAUTH2 | MTLS.

#[global] Instance auth_type_eq_dec : EqDecision AuthType.
Proof. solve_decision. Defined.

(** [src/include/cppload/security/auth_provider.hpp:21-31] AuthConfig *)
Record AuthConfig := mkAuthConfig {
  auth_type : AuthType; api_key : string; token : string; client_id : string;
  client_secret : string; token_endpoint : string; cert_path : string; key_path : string; ca_path : string
}.

(** [src/core/security/auth_provider.cpp:271-274] AuthProvider::Impl *)
Record AuthState := mkAuthState { config_ : AuthConfig; current_token_ : string; token_expiry_ : Z }.

(** [src/core/security/auth_provider.cpp:49-55] do_sync_post *)
Definition post_request (host target body content_type : string) : HttpRequest :=
  mkRequest "POST" target
    (<["Content-Length" := to_string (Z.of_nat (String.length body))]>
     (<["Accept" := "application/json"]> (<["Content-Type" := content_type]>
      (<["User-Agent" := kUserAgent]> {["Host" := host]})))) body.

(** The calls after the lookup: connect, for TLS the handshake, write, read. *)
(** [src/core/security/auth_provider.cpp:57-145] do_sync_post *)
Definition send_receive (x : Exchange) (use_tls : bool) : Result HttpResponse Err :=
  if use_tls && negb (x_sni x) then Error E_tls_handshake_failed
  else
    match x_connect x with
    | ConnectTimeout => Error E_connection_timeout
    | ConnectFailed => Error E_connection_refused
    | Connected =>
        if use_tls && negb (x_handshake x) then Error E_tls_handshake_failed
        else if negb (x_write x) then Error E_write_error
        else match x_read x with
        | ReadFailed => Error E_read_error
        | ReadDone res => Ok res
        end
    end.

Section provider.
Context {S : Type} `{Network S} `{JsonDoc}.

(** [src/core/security/auth_provider.cpp:33-47] do_sync_post *)
Definition do_sync_post (host port target body content_type : string) (use_tls : bool) (s : S) :
    Result HttpResponse Err * S :=
  let '(x, s) := net_exchange s host port use_tls (post_request host target body content_type) in
  (if negb (x_resolve x) then Error E_dns_failure else send_receive x use_tls, s).

(** [src/core/security/auth_provider.cpp:238-240] AuthProvider::Impl::fetch_token_locked *)
Definition token_body (cfg : AuthConfig) : string :=
  "grant_type=client_credentials" +:+ "&client_id=" +:+ url_encode (client_id cfg)
  +:+ "&client_secret=" +:+ url_encode (client_secret cfg).

(** [expires_in - kExpiryMarginSec] is computed in [int]: [None] is its overflow. *)
(** [src/core/security/auth_provider.cpp:262-264] AuthProvider::Impl::fetch_token_locked *)
Definition token_lifetime (expires_in : Z) : option Z :=
  if expires_in - kExpiryMarginSec <? - 2 ^ 31 then None else Some (Z.max (expires_in - kExpiryMarginSec) 1).

(** The body of a 2xx response: the token is stored before its lifetime is read. *)
(** [src/core/security/auth_provider.cpp:255-268] AuthProvider::Impl::fetch_token_locked *)
Definition store_token (body : string) (now : Z) (a : AuthState) : option (Result bool Err * AuthState) :=
  match (j ← doc_parse body; t ← doc_value doc_get_string j "access_token" ""; Some (j, t)) with
  | None => Some (Error E_auth_parse_error, a)
  | Some (j, t) =>
      if is_empty t then Some (Error E_auth_invalid_grant, a)
      else match doc_value doc_get_int j "expires_in" kDefaultTokenExpirySec with
      | None => Some (Error E_auth_parse_error, mkAuthState (config_ a) t (token_expiry_ a))
      | Some expires_in =>
          life ← token_lifetime expires_in;
          Some (Ok true, mkAuthState (config_ a) t (now + life))
      end
  end.

(** [now]: the clock after the response. *)
(** [src/core/security/auth_provider.cpp:235-253] AuthProvider::Impl::fetch_token_locked *)
Definition fetch_token_locked (now : Z) (a : AuthState) (s : S) : option (Result bool Err * AuthState) * S :=
  let url := parse_url (token_endpoint (config_ a)) in
  let '(res, s) := do_sync_post (url_host url) (url_port url) (url_path url) (token_body (config_ a))
                     "application/x-www-form-urlencoded" (url_tls url) s in
  (match res with
   | Error e => Some (Error e, a)
   | Ok r =>
       let code := rs_status r in
       if (code <? 200) || (300 <=? code) then
         Some (Error (if code =? 401 then E_auth_invalid_client
                      else if code =? 400 then E_auth_invalid_grant else E_auth_server_error), a)
       else store_token (rs_body r) now a
   end, s).

(** [src/core/security/auth_provider.cpp:208-227] AuthProvider::Impl::get_token *)
Definition get_token (now now' : Z) (a : AuthState) (s : S) : option (string * AuthState) * S :=
  if token_expiry_ a <=? now then
    let '(r, s) := fetch_token_locked now' a s in
    ((fun '(_, a) => (current_token_ a, a)) <$> r, s)
  else (Some (current_token_ a, a), s).

(** [src/core/security/auth_provider.cpp:163-178] AuthProvider::Impl::apply_headers *)
Definition apply_headers (now now' : Z) (headers : gmap string string) (a : AuthState) (s : S) :
    option (gmap string string * AuthState) * S :=
  match auth_type (config_ a) with
  | API_KEY => (Some (<["X-API-Key" := api_key (config_ a)]> headers, a), s)
  | BEARER_TOKEN => (Some (<["Authorization" := "Bearer " +:+ token (config_ a)]> headers, a), s)
  | OAUTH2 =>
      let '(r, s) := get_token now now' a s in
      ((fun '(t, a) => (if is_empty t then headers
                        else <["Authorization" := "Bearer " +:+ t]> headers, a)) <$> r, s)
  | MTLS => (Some (<["X-SSL-Cert" := "mtls"]> headers, a), s)
  | NONE => (Some (headers, a), s)
  end.

(** [src/core/security/auth_provider.cpp:180-193] AuthProvider::Impl::get_auth_header *)
Definition get_auth_header (now now' : Z) (a : AuthState) (s : S) : option (string * AuthState) * S :=
  match auth_type (config_ a) with
  | API_KEY => (Some ("X-API-Key: " +:+ api_key (config_ a), a), s)
  | BEARER_TOKEN => (Some ("Authorization: Bearer " +:+ token (config_ a), a), s)
  | OAUTH2 =>
      let '(r, s) := get_token now now' a s in
      ((fun '(t, a) => (if is_empty t then "" else "Authorization: Bearer " +:+ t, a)) <$> r, s)
  | MTLS => (Some ("X-SSL-Cert: mtls", a), s)
  | NONE => (Some ("", a), s)
  end.

(** [src/core/security/auth_provider.cpp:195-199] AuthProvider::Impl::refresh_token *)
Definition refresh_token (now : Z) (a : AuthState) (s : S) : option (Result bool Err * AuthState) * S :=
  match auth_type (config_ a) with
  | OAUTH2 => fetch_token_locked now a s
  | _ => (Some (Ok true, a), s)
  end.

(** [src/core/security/auth_provider.cpp:201-205] AuthProvider::Impl::is_expired *)
Definition is_expired (now : Z) (a : AuthState) : bool :=
  match auth_type (config_ a) with OAUTH2 => token_expiry_ a <=? now | _ => false end.

(** The constructor; the error of a first fetch that failed is thrown. *)
(** [src/core/security/auth_provider.cpp:154-161] AuthProvider::Impl::Impl *)
Definition make_provider (cfg : AuthConfig) (now : Z) (s : S) : option (Result AuthState Err) * S :=
  let a := mkAuthState cfg "" 0 in
  if bool_decide (auth_type cfg = OAUTH2) && negb (is_empty (token_endpoint cfg)) then
    let '(r, s) := fetch_token_locked now a s in
    ((fun '(r, a) => and_then r (λ _, Ok a)) <$> r, s)
  else (Some (Ok a), s).

(** The token request of a provider. *)
Definition token_request (cfg : AuthConfig) : HttpRequest :=
  let url := parse_url (token_endpoint cfg) in
  post_request (url_host url) (url_path url) (token_body cfg) "application/x-www-form-urlencoded".

Definition token_exchange (cfg : AuthConfig) (s : S) : Exchange * S :=
  let url := parse_url (token_endpoint cfg) in
  net_exchange s (url_host url) (url_port url) (url_tls url) (token_request cfg).

Definition ok_status (res : HttpResponse) : bool := (200 <=? rs_status res) && (rs_status res <? 300).

(** No usable response: an error on the way, or a status other than 2xx. *)
Definition refused (x : Exchange) (tls : bool) : Prop :=
  x_resolve x = false ∨ match send_receive x tls with Ok res => ok_status res = false | Error _ => True end.

Lemma served_receive x res tls : served x res → send_receive x tls = Ok res.
Proof.
  intros (H1 & H2 & H3 & H4 & H5 & H6). unfold send_receive. rewrite H2, H3, H4, H5, H6. cbn.
  by rewrite andb_false_r.
Qed.

Lemma fetch_refused now a s x s' :
  token_exchange (config_ a) s = (x, s') → refused x (url_tls (parse_url (token_endpoint (config_ a)))) →
  ∃ e, fetch_token_locked now a s = (Some (Error e, a), s').
Proof.
  intros Hx Hr. unfold fetch_token_locked, do_sync_post. unfold token_exchange, token_request in Hx. rewrite Hx.
  destruct Hr as [->|Hr]; [by eexists|].
  destruct (x_resolve x); cbn [negb]; [|by eexists].
  destruct (send_receive x _) as [res|e]; [|by eexists]. unfold ok_status in Hr.
  destruct (Z.ltb_spec (rs_status res) 200), (Z.leb_spec 300 (rs_status res)); cbn [orb]; try by eexists.
  destruct (Z.leb_spec 200 (rs_status res)), (Z.ltb_spec (rs_status res) 300); (lia || done).
Qed.

Lemma fetch_granted now a s x s' res j t n :
  token_exchange (config_ a) s = (x, s') → served x res → ok_status res = true →
  doc_parse (rs_body res) = Some j → doc_value doc_get_string j "access_token" "" = Some t → t ≠ "" →
  doc_value doc_get_int j "expires_in" kDefaultTokenExpirySec = Some n → - 2 ^ 31 + kExpiryMarginSec ≤ n →
  fetch_token_locked now a s
  = (Some (Ok true, mkAuthState (config_ a) t (now + Z.max (n - kExpiryMarginSec) 1)), s').
Proof.
  intros Hx Hs Hok Hj Ht Hne Hn Hmin. unfold fetch_token_locked, do_sync_post.
  unfold token_exchange, token_request in Hx. rewrite Hx, (served_receive _ res _ Hs).
  destruct Hs as (-> & _). cbn [negb]. unfold ok_status in Hok. reflect_bool.
  destruct (Z.ltb_spec (rs_status res) 200), (Z.leb_spec 300 (rs_status res)); [lia..|]. cbn [orb].
  unfold store_token. rewrite Hj. cbn [mbind option_bind]. rewrite Ht. cbn [mbind option_bind].
  destruct t as [|c t]; [done|]. cbn [is_empty]. rewrite Hn. unfold token_lifetime.
  destruct (Z.ltb_spec (n - kExpiryMarginSec) (- 2 ^ 31)); [lia|done].
Qed.

(** C31.  The cached OAuth2 token: before its expiry it is used without any request;
    from then on a call makes exactly one token request.  A refused request loses
    nothing, the previous token is returned and kept; a grant replaces it, and the new
    token counts as expired exactly from its lifetime less a minute (at least one
    second) after the response. *)
Theorem token_refresh (a : AuthState) (now now' : Z) (s : S) :
  auth_type (config_ a) = OAUTH2 →
  (now < token_expiry_ a → get_token now now' a s = (Some (current_token_ a, a), s))
  ∧ (token_expiry_ a ≤ now → ∀ x s', token_exchange (config_ a) s = (x, s') →
      (refused x (url_tls (parse_url (token_endpoint (config_ a)))) →
         get_token now now' a s = (Some (current_token_ a, a), s'))
      ∧ (∀ res j t n, served x res → ok_status res = true → doc_parse (rs_body res) = Some j →
           doc_value doc_get_string j "access_token" "" = Some t → t ≠ "" →
           doc_value doc_get_int j "expires_in" kDefaultTokenExpirySec = Some n →
           - 2 ^ 31 + kExpiryMarginSec ≤ n →
           ∃ a', get_token now now' a s = (Some (t, a'), s')
             ∧ ∀ time, is_expired time a' = true ↔ now' + Z.max (n - kExpiryMarginSec) 1 ≤ time)).
Proof.
  intros Ho. unfold get_token. destruct (Z.leb_spec (token_expiry_ a) now) as [Hle|Hlt].
  - split; [lia|]. intros _ x s' Hx. split.
    + intros Hr. by destruct (fetch_refused now' a s x s' Hx Hr) as [e ->].
    + intros res j t n Hs Hok Hj Ht Hne Hn Hmin.
      rewrite (fetch_granted now' a s x s' res j t n) by done. eexists. split; [done|].
      intros time. unfold is_expired. cbn [config_ token_expiry_]. rewrite Ho. apply Z.leb_le.
  - split; [done|lia].
Qed.

(** A provider changes at most the header of its kind. *)
Lemma apply_headers_others now now' headers a s h a' s' key :
  apply_headers now now' headers a s = (Some (h, a'), s') →
  key ∉ ["X-API-Key"; "Authorization"; "X-SSL-Cert"] → h !! key = headers !! key.
Proof.
  intros Ha Hk. rewrite !not_elem_of_cons in Hk. destruct Hk as (H1 & H2 & H3 & _).
  unfold apply_headers in Ha. destruct (auth_type (config_ a)).
  4: destruct (get_token now now' a s) as [[[t a1]|] s1]; cbn in Ha; [|done]; destruct (is_empty t).
  all: simplify_eq; by rewrite ?lookup_insert_ne.
Qed.

End provider.

(** ** The form of the token request *)

(** The receiver: fields between ['&'], name and percent-decoded value around the
    first ['=']. *)
Fixpoint split_amp (s : string) : list string :=
  match s with
  | "" => [""]
  | String c s' =>
      if Ascii.eqb c "&" then "" :: split_amp s'
      else match split_amp s' with [] => [String c ""] | w :: ws => String c w :: ws end
  end.

Definition decode_field (f : string) : option (string * string) :=
  i ← find_char "=" f; v ← url_decode (sdrop (i + 1) f); Some (stake i f, v).

Definition form_decode (s : string) : option (list (string * string)) := mapM decode_field (split_amp s).

Lemma split_amp_app a b : lacks "&" a = true → split_amp (a +:+ String "&" b) = a :: split_amp b.
Proof.
  induction a as [|c a IH]; intros H; [done|]. unfold lacks in H. cbn in H. reflect_bool. cbn [String.append split_amp].
  rewrite H. by rewrite IH.
Qed.

Lemma split_amp_lacks a : lacks "&" a = true → split_amp a = [a].
Proof.
  induction a as [|c a IH]; intros H; [done|]. unfold lacks in H. cbn in H. reflect_bool. cbn [split_amp].
  rewrite H. by rewrite IH.
Qed.

Lemma url_encode_lacks_amp v : lacks "&" (url_encode v) = true.
Proof.
  apply encode_with_forall; intros c; [|by destruct c as [[] [] [] [] [] [] [] []]].
  intros Hc. by destruct c as [[] [] [] [] [] [] [] []].
Qed.

Lemma decode_field_encoded name v :
  lacks "=" name = true → decode_field (name +:+ String "=" (url_encode v)) = Some (name, v).
Proof.
  intros Hn. unfold decode_field. rewrite find_char_app by done. cbn [mbind option_bind].
  rewrite sdrop_app_ge. cbn [sdrop]. rewrite (url_decode_encode_with unreserved) by done.
  cbn [mbind option_bind]. by rewrite stake_app.
Qed.

(** Whatever bytes the client id and secret hold, the token request carries
    exactly the three fields of the client-credentials grant: decoding the form body
    gives the id and the secret back, and nothing in them can forge or split a field. *)
Theorem token_body_fields (cfg : AuthConfig) :
  form_decode (token_body cfg)
  = Some [("grant_type", "client_credentials"); ("client_id", client_id cfg);
          ("client_secret", client_secret cfg)].
Proof.
  unfold form_decode, token_body.
  transitivity (mapM decode_field (split_amp ("grant_type=client_credentials" +:+ String "&"
    (("client_id=" +:+ url_encode (client_id cfg)) +:+ String "&"
     ("client_secret=" +:+ url_encode (client_secret cfg)))))).
  { by rewrite sapp_assoc. }
  rewrite split_amp_app by done. rewrite split_amp_app, split_amp_lacks by (rewrite lacks_app, url_encode_lacks_amp; done).
  cbn [mapM]. pose proof (decode_field_encoded "client_id" (client_id cfg) eq_refl) as H1.
  pose proof (decode_field_encoded "client_secret" (client_secret cfg) eq_refl) as H2.
  cbn [String.append] in H1, H2 |- *. rewrite H1, H2. reflexivity.
Qed.

(** ** A token endpoint *)

Import TreeJson.

Definition grant_doc : doc := doc_object {["access_token" := doc_string "t2"]}.

(** Grants every request. *)
#[local] Instance granting : Network nat := {
  net_exchange n _ _ _ _ :=
    (mkExchange true true Connected true true (ReadDone (mkHttpResponse 200 (default "" (doc_dump grant_doc)))), (n + 1)%nat)
}.

Definition demo_provider : AuthState :=
  mkAuthState (mkAuthConfig OAUTH2 "" "" "id" "s&=" "https://idp/token" "" "" "") "t1" 100.

Lemma token_refresh_witness :
  get_token 99 99 demo_provider 0%nat = (Some ("t1", demo_provider), 0%nat)
  ∧ ∃ a', get_token 100 101 demo_provider 0%nat = (Some ("t2", a'), 1%nat)
          ∧ ∀ time, is_expired time a' = true ↔ 101 + Z.max (3600 - 60) 1 ≤ time.
Proof.
  split.
  - apply (proj1 (token_refresh demo_provider 99 99 0%nat eq_refl)). done.
  - destruct (proj2 (token_refresh demo_provider 100 101 0%nat eq_refl) ltac:(done) _ _ eq_refl) as [_ Hg].
    eapply (Hg _ grant_doc "t2" 3600).
    + by split_and!.
    + done.
    + apply doc_parse_dump. done.
    + done.
    + done.
    + done.
    + unfold kExpiryMarginSec. lia.
Defined.
