(* ===== verification/Async.v ===== *)
(** * Asynchronous operations, callbacks and the event loop

    The network clients are written in callback style: each function starts one
    [async_*] operation of Boost.Asio or Boost.Beast and hands it a lambda that is run,
    on the loop of the client's [io_context], when the operation completes.  A request
    in flight is therefore a tree ([Proc]): either the caller's handler has been
    called ([Handler]), or a null pointer was dereferenced ([Crash]), or one operation is outstanding together with what happens on each of its
    possible outcomes.  The lambda reads and writes the client object as it is at the
    time of completion, which other callbacks may have changed in the meantime, so it
    takes the state and returns the new one.

    The libraries are outside of the program: an operation is a value of [Op] and every
    reply of its type is possible.  The loop is a step relation over any number of
    requests in flight on one client ([step]); [steps_obey] lifts a property of a tree
    that is proved against any change other requests may make to every reachable state
    of the loop. *)

From S2P Require Import Prelude.

Local Open Scope Z_scope.

(** ** Errors and messages of the libraries *)

(** The error codes of Asio and Beast the code tells apart; [AsioTimedOut] is
    [asio::error::timed_out], the operating system's ETIMEDOUT, [BeastTimeout] is
    [beast::error::timeout], with which an operation of a [tcp_stream] completes when
    its timer, set by [expires_after], fires. *)
Inductive ErrorCode :=
  | HostNotFound | AsioTimedOut | BeastTimeout | EndOfStream | OperationAborted
  | WouldBlock | TryAgain | OtherError (value : Z).

#[global] Instance ErrorCode_eq_dec : EqDecision ErrorCode.
Proof. solve_decision. Defined.

(** A [beast::error_code]: [None] converts to [false]. *)
Abbreviation error_code := (option ErrorCode).

(** An HTTP message of Beast: the start line, the fields in order and the body. *)
Record ReqMsg := mkReqMsg {
  verb : string; target : string; version : Z; fields : list (string * string); msg_body : string }.
Record ResMsg := mkResMsg {
  result_int : Z; res_fields : list (string * string); res_body : string }.

Inductive Payload := HttpMessage (m : ReqMsg) | Bytes (data : string).

(** The endpoints a resolver found. *)
Abbreviation Endpoints := (list (string * Z)).

(** Streams are objects of the heap, named by a number given at their creation. *)
Abbreviation StreamId := nat.

(** ** Operations

    [expires] is the timer in milliseconds the caller sets before the operation.  The
    last group is synchronous. *)
Inductive Op :=
  | AsyncResolve (host service : string)
  | AsyncConnect (s : StreamId) (expires : Z) (to_ : Endpoints)
  | AsyncTlsHandshake (s : StreamId) (expires : Z)
  | AsyncWsHandshake (s : StreamId) (expires : option Z) (host target : string)
  | AsyncWrite (s : StreamId) (expires : Z) (data : Payload)
  | AsyncReadMessage (s : StreamId) (expires : Z)
  | AsyncReadSome (s : StreamId) (expires : Z)
  | SetTlsHostName (s : StreamId) (host : string)
  | SetVerifyCallback (s : StreamId) (host : string)
  | SetNonBlocking (s : StreamId)
  | PeekByte (s : StreamId).

#[global] Instance Payload_eq_dec : EqDecision Payload.
Proof. intros ??. unfold Decision. repeat decide equality. Defined.
#[global] Instance Op_eq_dec : EqDecision Op.
Proof. intros ??. unfold Decision. repeat decide equality. Defined.

(** What a completed read leaves behind, and the clock, in nanoseconds, when its
    callback runs. *)
Record ReadReply (A : Type) := mkRead { read_ec : error_code; read_data : A; read_at : Z }.
Arguments mkRead {A}.
Arguments read_ec {A}.
Arguments read_data {A}.
Arguments read_at {A}.

Definition reply (o : Op) : Type :=
  match o with
  | AsyncResolve _ _ => error_code * Endpoints
  | AsyncReadMessage _ _ => ReadReply ResMsg
  | AsyncReadSome _ _ => ReadReply string
  | SetTlsHostName _ _ => bool
  | SetVerifyCallback _ _ => unit
  | _ => error_code
  end.

(** ** Requests in flight *)

Section Proc.
Context (St Res : Type).

Inductive Proc :=
  | Handler (r : Res)
  | Crash
  | Await (o : Op) (k : reply o → St → St * Proc).

End Proc.
Arguments Handler {St Res} r.
Arguments Crash {St Res}.
Arguments Await {St Res} o k.

Section Loop.
Context {Req St Res : Type}.
Abbreviation P := (Proc St Res).

(** The outstanding operation and the handler's argument of a request. *)
Definition pending (p : P) : option Op := match p with Await o _ => Some o | _ => None end.
Definition answered (p : P) : option Res := match p with Handler r => Some r | _ => None end.

Definition call_handler (r : Res) : St → St * P := λ s, (s, Handler r).

(** Run a request by itself against an environment that answers operation by
    operation; the number of operations completed is bounded by the fuel.  The result
    has the operations in the order they were started. *)
Fixpoint drive (fuel : nat) (env : list Op → ∀ o, reply o) (done : list Op) (s : St) (p : P)
    : St * list Op * P :=
  match fuel, p with
  | S n, Await o k => let (s', p') := k (env done o) s in drive n env (done ++ [o]) s' p'
  | _, _ => (s, done, p)
  end.

(** *** Bounds on what a request does, whatever the replies

    [bounded n w p]: at most [n] operations are started, and at most [w] of them send
    data. *)
Definition is_write (o : Op) : bool := match o with AsyncWrite _ _ _ => true | _ => false end.

Fixpoint bounded (n w : nat) (p : P) : Prop :=
  match p with
  | Handler _ | Crash => True
  | Await o k =>
      match n with
      | O => False
      | S n => if is_write o then
                 match w with O => False | S w => ∀ a s, bounded n w (k a s).2 end
               else ∀ a s, bounded n w (k a s).2
      end
  end.

Lemma bounded_handler n w r : bounded n w (Handler r).
Proof. by destruct n. Qed.

Lemma bounded_crash n w : bounded n w Crash.
Proof. by destruct n. Qed.

Lemma bounded_await n w o k :
  bounded (S n) w (Await o k) ↔
  ∃ w', (if is_write o then w = S w' else w = w') ∧ ∀ a s, bounded n w' (k a s).2.
Proof. cbn. destruct (is_write o); [destruct w as [|w]|]; naive_solver. Qed.

Lemma bounded_mono n w n' w' p : bounded n w p → (n ≤ n')%nat → (w ≤ w')%nat → bounded n' w' p.
Proof.
  revert w n' w' p. induction n as [|n IH]; intros w n' w' [r| |o k] H Hn Hw;
    try apply bounded_handler; try apply bounded_crash; [done|].
  destruct n' as [|n']; [lia|]. apply bounded_await in H as (w1 & Hw1 & H). apply bounded_await.
  exists (if is_write o then w' - 1 else w')%nat.
  split; [destruct (is_write o); lia|]. intros a s. eapply IH; [apply H|lia|].
  destruct (is_write o); lia.
Qed.

Lemma drive_bounded n w env done s p :
  bounded n w p → ∃ s' os p', drive n env done s p = (s', os, p') ∧ pending p' = None.
Proof.
  revert w done s p. induction n as [|n IH]; intros w ops s [r| |o k] H; try done;
    [by cbn; eauto..|].
  apply bounded_await in H as (w1 & _ & H). specialize (H (env ops o) s). cbn.
  destruct (k (env ops o) s) as [s' p']. by eapply IH.
Qed.

(** *** The loop

    Requests are numbered by the order in which they were started.  The log holds the
    completed operations of all of them, oldest first. *)
Record Event := mkEvent { ev_op : Op; ev_reply : reply ev_op }.
Abbreviation Log := (list (nat * Event)).

Record Sys := mkSys { sys_st : St; sys_log : Log; sys_reqs : list (Req * P) }.

Definition own_log (i : nat) (log : Log) : list Event := (filter (λ e, e.1 = i) log).*2.

Definition writes (es : list Event) : nat := List.length (filter (λ e, is_write (ev_op e)) es).

Local Arguments own_log : simpl never.
Local Arguments writes : simpl never.

(** Starting a request, and the other member functions of the client. *)
Context (start : Req → St → St * P → Prop) (other : St → St → Prop) (s0 : St).

Inductive step : Sys → Sys → Prop :=
  | step_start s log ps q s' p :
      start q s (s', p) → step (mkSys s log ps) (mkSys s' log (ps ++ [(q, p)]))
  | step_complete s log ps i q o k (a : reply o) s' p' :
      ps !! i = Some (q, Await o k) → k a s = (s', p') →
      step (mkSys s log ps) (mkSys s' (log ++ [(i, mkEvent o a)]) (<[i := (q, p')]> ps))
  | step_other s log ps s' : other s s' → step (mkSys s log ps) (mkSys s' log ps).

Definition reachable (w : Sys) : Prop := rtc step (mkSys s0 [] []) w.

(** A pending operation may complete at any time, with any reply. *)
Lemma pending_completes sy i q p o (a : reply o) :
  sys_reqs sy !! i = Some (q, p) → pending p = Some o →
  ∃ sy', step sy sy' ∧ sys_log sy' = sys_log sy ++ [(i, mkEvent o a)].
Proof.
  destruct sy as [s log ps]; cbn. intros Hl Hp. destruct p as [r| |o' k]; cbn in Hp; simplify_eq.
  destruct (k a s) as [s' p'] eqn:E. eexists. split; [by eapply step_complete|done].
Qed.

(** Complete the operations of one request, one after the other. *)
Fixpoint complete_all (fuel : nat) (env : ∀ o, reply o) (i : nat) (sy : Sys) : Sys :=
  match fuel, sys_reqs sy !! i with
  | S n, Some (q, Await o k) =>
      let (s', p') := k (env o) (sys_st sy) in
      complete_all n env i
        (mkSys s' (sys_log sy ++ [(i, mkEvent o (env o))]) (<[i := (q, p')]> (sys_reqs sy)))
  | _, _ => sy
  end.

Lemma complete_all_reachable fuel env i sy : reachable sy → reachable (complete_all fuel env i sy).
Proof.
  revert sy. induction fuel as [|n IH]; intros [s log ps] Hr; cbn; [done|].
  destruct (ps !! i) as [[q [r| |o k]]|] eqn:Hl; try done.
  destruct (k (env o) s) as [s' p'] eqn:Hk. apply IH. eapply rtc_r; [exact Hr|]. by eapply step_complete.
Qed.

Lemma start_reachable sy q s' p :
  reachable sy → start q (sys_st sy) (s', p) →
  reachable (mkSys s' (sys_log sy) (sys_reqs sy ++ [(q, p)])).
Proof. destruct sy. intros Hr Hs. eapply rtc_r; [exact Hr|]. by apply step_start. Qed.

(** *** Reasoning about one request among others

    [Inv] relates the client's state with the log of the whole loop.  [obeys i q log
    p]: whatever the other requests do to the log and the state, as long as [Inv] holds
    again when a callback of this one runs, each operation [p] starts satisfies [Ok] of
    the log so far, each callback re-establishes [Inv], the handler's argument satisfies
    [Fin], and nothing crashes. *)
Section Obeys.
Context (Inv : Log → St → Prop) (Ok : nat → Req → Log → Op → Prop)
  (Fin : nat → Req → Log → Res → Prop).

Inductive obeys (i : nat) (q : Req) : Log → P → Prop :=
  | obeys_handler log r : Fin i q log r → obeys i q log (Handler r)
  | obeys_await log o k :
      Ok i q log o →
      (∀ more a s, Inv (log ++ more) s →
         let log' := (log ++ more) ++ [(i, mkEvent o a)] in
         Inv log' (k a s).1 ∧ obeys i q log' (k a s).2) →
      obeys i q log (Await o k).

Context (Ok_mono : ∀ i q log more o, Ok i q log o → Ok i q (log ++ more) o).
Context (Fin_mono : ∀ i q log more r, Fin i q log r → Fin i q (log ++ more) r).

Lemma obeys_mono i q log more p : obeys i q log p → obeys i q (log ++ more) p.
Proof.
  intros [log0 r H|log0 o k H Hk]; constructor; eauto.
  intros more' a s Hi. rewrite <-!(assoc_L (++)) in *.
  specialize (Hk (more ++ more') a s). rewrite <-!(assoc_L (++)) in Hk. by apply Hk.
Qed.

Lemma obeys_pending i q log p o : obeys i q log p → pending p = Some o → Ok i q log o.
Proof. destruct 1; cbn; intros; simplify_eq; done. Qed.

Lemma obeys_answered i q log p r : obeys i q log p → answered p = Some r → Fin i q log r.
Proof. destruct 1; cbn; intros; simplify_eq; done. Qed.

Lemma obeys_not_crash i q log p : obeys i q log p → p ≠ Crash.
Proof. by destruct 1. Qed.

Lemma obeys_await_inv i q log o k :
  obeys i q log (Await o k) →
  Ok i q log o ∧ ∀ more a s, Inv (log ++ more) s →
    let log' := (log ++ more) ++ [(i, mkEvent o a)] in
    Inv log' (k a s).1 ∧ obeys i q log' (k a s).2.
Proof.
  inversion 1 as [|log0 o0 k0 HOk HK E1 E2].
  match goal with E : existT _ _ = existT _ _ |- _ =>
    apply Eqdep_dec.inj_pair2_eq_dec in E; [subst; done|intros; apply Op_eq_dec] end.
Qed.

(** The same of a function that runs up to its next operation. *)
Definition good (i : nat) (q : Req) (log : Log) (m : St → St * P) : Prop :=
  ∀ s, Inv log s → Inv log (m s).1 ∧ obeys i q log (m s).2.

Lemma good_handler i q log r : Fin i q log r → good i q log (call_handler r).
Proof. intros Hr s Hs. split; [done|by constructor]. Qed.

(** A function that starts an operation: its callback sees a longer log. *)
Lemma good_await i q log s o (k : reply o → St → St * P) :
  (∀ log more s, Inv log s → Inv (log ++ more) s) →
  Ok i q log o →
  (∀ more a, good i q ((log ++ more) ++ [(i, mkEvent o a)]) (k a)) →
  Inv log s →
  Inv log (s, Await o k).1 ∧ obeys i q log (s, Await o k).2.
Proof.
  intros Hmono Ho Hk Hs. split; [done|]. constructor; [done|]. intros more a s' Hs' log'.
  by apply Hk, Hmono.
Qed.

(** Driven alone, with any replies, a bounded request calls its handler. *)
Lemma drive_answers i q n w env ops log s p :
  obeys i q log p → Inv log s → bounded n w p →
  ∃ s' ops' r, drive n env ops s p = (s', ops', Handler r).
Proof.
  revert w ops log s p. induction n as [|n IH]; intros w ops log s [r| |o k] Hob Hi Hb; try done;
    [by cbn; eauto|by inversion Hob|by cbn; eauto|by inversion Hob|].
  apply obeys_await_inv in Hob as [_ Hk]. apply bounded_await in Hb as (w1 & _ & Hb). cbn.
  destruct (Hk [] (env ops o) s) as [Hi' Hob']; [by rewrite app_nil_r|].
  specialize (Hb (env ops o) s). destruct (k (env ops o) s) as [s' p']. by eapply IH.
Qed.

Context (Inv_init : Inv [] s0).
Context (start_obeys : ∀ i q p s s' log,
  start q s (s', p) → Inv log s → Inv log s' ∧ obeys i q log p).
Context (other_ok : ∀ s s' log, other s s' → Inv log s → Inv log s').

(** What holds in every reachable state of the loop. *)
Record sys_inv (w : Sys) : Prop := {
  si_inv : Inv (sys_log w) (sys_st w);
  si_reqs : ∀ i q p, sys_reqs w !! i = Some (q, p) → obeys i q (sys_log w) p;
  si_events : ∀ pre i e post, sys_log w = pre ++ (i, e) :: post →
    ∃ q p, sys_reqs w !! i = Some (q, p) ∧ Ok i q pre (ev_op e) }.

Lemma sys_inv_step w w' : sys_inv w → step w w' → sys_inv w'.
Proof.
  intros [Hi Hp He] Hs.
  destruct Hs as [s log ps q s' p Hst|s log ps i q o k a s' p' Hl Hk|s log ps s' Ho]; cbn in *.
  - assert (Inv log s' ∧ obeys (List.length ps) q log p) as [Hi' Hob] by eauto.
    split; cbn; [done| |].
    + intros j q' p0 Hj. apply lookup_snoc_Some in Hj as [[_ Hj]|[-> [= <- <-]]]; [by apply Hp|done].
    + intros pre j e post E. destruct (He _ _ _ _ E) as (q' & p0 & Hl & HOk).
      exists q', p0. split; [by apply lookup_app_l_Some|done].
  - destruct (obeys_await_inv _ _ _ _ _ (Hp _ _ _ Hl)) as [HOk HK].
    destruct (HK [] a s) as [Hi' Hob']; [by rewrite app_nil_r|].
    rewrite app_nil_r, Hk in Hi', Hob'. pose proof (lookup_lt_Some _ _ _ Hl).
    split; cbn in *; [done| |].
    + intros j q' p0 Hj.
      apply list_lookup_insert_Some in Hj as [(-> & [= <- <-] & _)|[_ Hj]]; [done|].
      by apply obeys_mono, Hp.
    + intros pre j e post E.
      assert (∃ q' p0, ps !! j = Some (q', p0) ∧ Ok j q' pre (ev_op e)) as (q' & p0 & Hj & HO).
      { destruct post as [|e' post _] using rev_ind.
        * apply app_inj_tail in E as [-> [= <- <-]]. by exists q, (Await o k).
        * rewrite app_comm_cons, (assoc_L (++)) in E. apply app_inj_tail in E as [-> _]. by eapply He. }
      destruct (decide (i = j)) as [->|Hne].
      * rewrite Hl in Hj. simplify_eq. exists q', p'. by rewrite list_lookup_insert_eq.
      * exists q', p0. by rewrite list_lookup_insert_ne.
  - split; cbn; eauto.
Qed.

Lemma steps_obey w : reachable w → sys_inv w.
Proof.
  unfold reachable. intros H. cut (sys_inv (mkSys s0 [] [])).
  { intros H0. induction H; eauto using sys_inv_step. }
  split; cbn; [done|intros i q p Hl; by rewrite lookup_nil in Hl|].
  intros [|] ? ? ?; done.
Qed.

End Obeys.

(** *** Bounds in every reachable state *)
Section BoundedLoop.
Context (n : nat) (w : Req → nat).
Context (start_bounded : ∀ q s s' p, start q s (s', p) → bounded n (w q) p).

Lemma own_log_snoc i j e log :
  own_log i (log ++ [(j, e)]) = own_log i log ++ (if decide (j = i) then [e] else []).
Proof.
  unfold own_log. rewrite filter_app, fmap_app. f_equal.
  rewrite filter_cons. cbn. by destruct (decide (j = i)).
Qed.

Lemma writes_snoc es e : writes (es ++ [e]) = (writes es + if is_write (ev_op e) then 1 else 0)%nat.
Proof.
  unfold writes. rewrite filter_app, length_app, filter_cons, filter_nil. f_equal.
  by destruct (is_write (ev_op e)).
Qed.

Record sys_bounded (sy : Sys) : Prop := {
  sb_fresh : ∀ i, (List.length (sys_reqs sy) ≤ i)%nat → own_log i (sys_log sy) = [];
  sb_reqs : ∀ i q p, sys_reqs sy !! i = Some (q, p) →
    ∃ n' w', bounded n' w' p ∧ (List.length (own_log i (sys_log sy)) + n' ≤ n)%nat
             ∧ (writes (own_log i (sys_log sy)) + w' ≤ w q)%nat }.

Lemma sys_bounded_step sy sy' : sys_bounded sy → step sy sy' → sys_bounded sy'.
Proof.
  intros [Hf Hp] Hs.
  destruct Hs as [s log ps q s' p Hst|s log ps i q o k a s' p' Hl Hk|s log ps s' Ho];
    cbn in *; [| |by split].
  - split; cbn.
    + intros i Hi. apply Hf. rewrite length_app in Hi. cbn in Hi. lia.
    + intros j q' p0 Hj. apply lookup_snoc_Some in Hj as [[_ Hj]|[-> [= <- <-]]]; [by apply Hp|].
      exists n, (w q). rewrite Hf by done. split_and!; [by eapply start_bounded|done..].
  - pose proof (lookup_lt_Some _ _ _ Hl). split; cbn.
    + intros j Hj. rewrite length_insert in Hj. rewrite own_log_snoc, Hf by done.
      by destruct (decide (i = j)); [lia|].
    + intros j q' p0 Hj. rewrite own_log_snoc.
      apply list_lookup_insert_Some in Hj as [(-> & [= <- <-] & _)|[Hne Hj]].
      * rewrite decide_True by done. destruct (Hp _ _ _ Hl) as ([|n1] & w1 & Hb & Hn & Hw); [done|].
        apply bounded_await in Hb as (w2 & Hw2 & Hb). exists n1, w2.
        specialize (Hb a s). rewrite Hk in Hb. rewrite length_app, writes_snoc. cbn.
        split_and!; [done|lia|]. destruct (is_write o); lia.
      * rewrite decide_False, app_nil_r by done. by apply Hp.
Qed.

Lemma steps_bounded sy : reachable sy → sys_bounded sy.
Proof.
  unfold reachable. intros H. cut (sys_bounded (mkSys s0 [] [])).
  { intros H0. induction H; eauto using sys_bounded_step. }
  split; cbn; [done|]. intros i q p Hl. by rewrite lookup_nil in Hl.
Qed.

(** The number of operations and of writes of every request stays within its bounds,
    and a request that has used up its operations has been answered. *)
Lemma steps_bounded_log sy i q p :
  reachable sy → sys_reqs sy !! i = Some (q, p) →
  (List.length (own_log i (sys_log sy)) + (if pending p is Some _ then 1 else 0) ≤ n)%nat
  ∧ (writes (own_log i (sys_log sy)) + (if is_write <$> pending p is Some true then 1 else 0) ≤ w q)%nat.
Proof.
  intros Hr Hl. destruct (sb_reqs _ (steps_bounded _ Hr) _ _ _ Hl) as (n' & w' & Hb & Hn & Hw).
  destruct p as [r| |o k]; cbn; [split; lia..|]. destruct n' as [|n']; [done|].
  apply bounded_await in Hb as (w2 & Hw2 & _). destruct (is_write o); split; lia.
Qed.

End BoundedLoop.
End Loop.

Arguments Sys : clear implicits.

(** Bounds of a tree: follow every operation and case. *)
Ltac bounded_tac :=
  repeat first
    [ apply bounded_handler | apply bounded_crash
    | match goal with
      | |- bounded (S ?n) ?w (Await ?o _) =>
          let b := eval cbn in (is_write o) in
          apply bounded_await;
          exists (if b then pred w else w); split; [reflexivity|intros ?a ?c; cbn [pred]]
      | |- context [let (_, _) := ?a in _] => is_var a; destruct a
      end
    | progress unfold call_handler
    | progress cbn [fst snd]
    | split_match ].
