(* ===== verification/Tls.v ===== *)
(** * The TLS context

    [core/security/tls_context.cpp]: the client-side [ssl::context] every connection of
    the tool is made with.  The context is Boost.Asio's: the model keeps the calls the
    constructor makes on it, each of which may throw. *)

From S2P Require Import Prelude CppString.

(** [src/include/cppload/security/tls_context.hpp:11-14] TlsVersion *)
Inductive TlsVersion := TLS_1_2 | TLS_1_3.

#[global] Instance TlsVersion_eq_dec : EqDecision TlsVersion.
Proof. solve_decision. Defined.

(** [src/include/cppload/security/tls_context.hpp:16-25] TlsConfig *)
Record TlsConfig := mkTlsConfig {
  verify_peer : bool; cert_chain_file : string; private_key_file : string; tmp_dh_file : string;
  ca_cert_file : string; ca_cert_path : string; use_mtls : bool; min_tls_version : TlsVersion }.

Definition default_tls : TlsConfig := mkTlsConfig true "" "" "" "" "" false TLS_1_2.

(** The calls on a [boost::asio::ssl::context]. *)
Inductive SslOption := default_workarounds | no_sslv2 | no_sslv3 | no_tlsv1 | no_tlsv1_1.
Inductive VerifyMode := ssl_verify_peer | ssl_verify_none.
Inductive SslCall :=
  | NewContext (method : TlsVersion)
  | SetOptions (os : list SslOption)
  | SetVerifyMode (m : VerifyMode)
  | LoadVerifyFile (f : string) | AddVerifyPath (p : string) | SetDefaultVerifyPaths
  | UseCertificateChainFile (f : string) | UsePrivateKeyFile (f : string)
  | UseTmpDhFile (f : string).

(** [src/core/security/tls_context.cpp:69-71] TlsContext::Impl *)
Record TlsContext := mkTlsContext {
  ctx_ : list SslCall; verify_peer_ : bool; mtls_enabled_ : bool }.

(** The trust anchors of a verifying context. *)
(** [src/core/security/tls_context.cpp:25-36] TlsContext::Impl::Impl *)
Definition verify_calls (config : TlsConfig) : list SslCall :=
  if verify_peer config then
    [SetVerifyMode ssl_verify_peer;
     if negb (is_empty (ca_cert_file config)) then LoadVerifyFile (ca_cert_file config)
     else if negb (is_empty (ca_cert_path config)) then AddVerifyPath (ca_cert_path config)
     else SetDefaultVerifyPaths]
  else [SetVerifyMode ssl_verify_none].

Section Context.
(** Which calls of the library throw (a file that cannot be read, a key that does not
    match). *)
Context (throws : SslCall → bool).

Definition perform (calls : list SslCall) (done : list SslCall) : option (list SslCall) :=
  if existsb throws calls then None else Some (done ++ calls).

(** An exception is [None]. *)
(** [src/core/security/tls_context.cpp:10-50] TlsContext::Impl::Impl *)
Definition make_tls_context (config : TlsConfig) : option TlsContext :=
  ctx ← perform [NewContext (min_tls_version config);
                 SetOptions [default_workarounds; no_sslv2; no_sslv3; no_tlsv1; no_tlsv1_1]] [];
  ctx ← perform (verify_calls config) ctx;
  '(ctx, mtls) ←
    (if use_mtls config then
       if is_empty (cert_chain_file config) || is_empty (private_key_file config) then None
       else ctx ← perform [UseCertificateChainFile (cert_chain_file config);
                           UsePrivateKeyFile (private_key_file config)] ctx;
            Some (ctx, true)
     else Some (ctx, false));
  ctx ← (if is_empty (tmp_dh_file config) then Some ctx
         else perform [UseTmpDhFile (tmp_dh_file config)] ctx);
  Some (mkTlsContext ctx (verify_peer config) mtls).

(** [src/core/security/tls_context.cpp:64-66] TlsContext::Impl::is_verify_enabled *)
Definition is_verify_enabled (t : TlsContext) : bool := verify_peer_ t.

Lemma perform_Some calls done ctx : perform calls done = Some ctx → ctx = done ++ calls.
Proof. unfold perform. intros. case_match; by simplify_eq. Qed.

(** The calls of a construction that does not throw. *)
Lemma make_tls_context_Some config t :
  make_tls_context config = Some t →
  (use_mtls config = true → cert_chain_file config ≠ "" ∧ private_key_file config ≠ "")
  ∧ t = mkTlsContext
      ([NewContext (min_tls_version config);
        SetOptions [default_workarounds; no_sslv2; no_sslv3; no_tlsv1; no_tlsv1_1]]
       ++ verify_calls config
       ++ (if use_mtls config then [UseCertificateChainFile (cert_chain_file config);
                                    UsePrivateKeyFile (private_key_file config)] else [])
       ++ (if is_empty (tmp_dh_file config) then [] else [UseTmpDhFile (tmp_dh_file config)]))
      (verify_peer config) (use_mtls config).
Proof.
  unfold make_tls_context. intros H.
  apply bind_Some in H as (c1 & H1%perform_Some & H). apply bind_Some in H as (c2 & H2%perform_Some & H).
  apply bind_Some in H as ([c3 m] & H3 & H). apply bind_Some in H as (c4 & H4 & [= <-]).
  assert (c4 = c3 ++ if is_empty (tmp_dh_file config) then [] else [UseTmpDhFile (tmp_dh_file config)]) as ->.
  { destruct (is_empty (tmp_dh_file config)); [injection H4 as <-; by rewrite app_nil_r|].
    by apply perform_Some in H4. }
  destruct (use_mtls config).
  - destruct (is_empty (cert_chain_file config)) eqn:E1; [done|].
    destruct (is_empty (private_key_file config)) eqn:E2; [done|]. cbn in H3.
    apply bind_Some in H3 as (c5 & H5%perform_Some & [= <- <-]). subst.
    split; [intros _; split; intros E; by rewrite E in *|]. by rewrite <-!(assoc_L (++)).
  - simplify_eq. split; [done|]. by rewrite <-!(assoc_L (++)).
Qed.

(** The flag the clients consult agrees with the mode of the native context: exactly one
    [set_verify_mode] is made and it is [verify_peer] iff the flag is set; the protocol
    versions before TLS 1.2 are off; with mutual TLS both files are named and loaded. *)
Theorem tls_context_policy (config : TlsConfig) (t : TlsContext) :
  make_tls_context config = Some t →
  is_verify_enabled t = verify_peer config
  ∧ (∀ m, SetVerifyMode m ∈ ctx_ t ↔ m = if verify_peer config then ssl_verify_peer else ssl_verify_none)
  ∧ (∃ os, SetOptions os ∈ ctx_ t ∧ ∀ o, o ∈ os)
  ∧ mtls_enabled_ t = use_mtls config
  ∧ (use_mtls config = true →
       cert_chain_file config ≠ "" ∧ private_key_file config ≠ ""
       ∧ UseCertificateChainFile (cert_chain_file config) ∈ ctx_ t
       ∧ UsePrivateKeyFile (private_key_file config) ∈ ctx_ t).
Proof.
  intros [Hm ->]%make_tls_context_Some. unfold is_verify_enabled, verify_calls. cbn [verify_peer_ ctx_ mtls_enabled_].
  split_and!; [done| | |done|].
  - intros m. rewrite !elem_of_app, !elem_of_cons.
    destruct (verify_peer config), (use_mtls config), (is_empty (tmp_dh_file config));
      repeat case_match; set_solver.
  - eexists. split; [apply elem_of_app; left; right; left|]. intros []; set_solver.
  - intros Hu. rewrite Hu. destruct (Hm Hu). split_and!; [done..|set_solver|set_solver].
Qed.

End Context.

(** A verifying context with mutual TLS whose files can all be read. *)
Lemma tls_context_policy_witness :
  let config := mkTlsConfig true "client.pem" "client.key" "" "" "/etc/ca" true TLS_1_3 in
  let t := mkTlsContext
    [NewContext TLS_1_3; SetOptions [default_workarounds; no_sslv2; no_sslv3; no_tlsv1; no_tlsv1_1];
     SetVerifyMode ssl_verify_peer; AddVerifyPath "/etc/ca";
     UseCertificateChainFile "client.pem"; UsePrivateKeyFile "client.key"] true true in
  make_tls_context (λ _, false) config = Some t ∧ is_verify_enabled t = true.
Proof.
  intros config t. assert (H : make_tls_context (λ _, false) config = Some t) by reflexivity.
  split; [exact H|]. exact (proj1 (tls_context_policy (λ _, false) config t H)).
Defined.
