(* ===== verification/Protocol.v ===== *)
(** * Requests, responses and the steps all protocol clients share

    [include/cppload/net/protocol.hpp], and the steps [http_client.cpp],
    [tcp_raw_client.cpp], [ws_client.cpp] and [connection.cpp] each write out: resolving
    a host, the codes their failures are reported with, the deadline before an
    operation. *)

From S2P Require Import Prelude CppString Result Url Async.

Local Open Scope Z_scope.

(** The headers are in the order in which the [unordered_map] is iterated. *)
(** [src/include/cppload/net/protocol.hpp:16-25] Request *)
Record Request := mkRequest {
  method : string; path : string; body : string; headers : list (string * string);
  host : string; port : Z; use_tls : bool; protocol : string }.

(** [src/include/cppload/net/protocol.hpp:27-34] Response *)
Record Response := mkResponse {
  status_code : Z; resp_body : string; resp_headers : gmap string string;
  latency : Z; ec : option Err; body_truncated : bool }.

Definition empty_response : Response := mkResponse 0 "" ∅ 0 None false.

Definition with_ec (r : Response) (e : Err) : Response :=
  mkResponse (status_code r) (resp_body r) (resp_headers r) (latency r) (Some e) (body_truncated r).
Definition with_latency (r : Response) (l : Z) : Response :=
  mkResponse (status_code r) (resp_body r) (resp_headers r) l (ec r) (body_truncated r).

(** [duration_cast<microseconds>] of a difference of steady-clock readings. *)
Definition latency_since (start_time now : Z) : Z := (now - start_time) `quot` 1000.

(** The same two conditionals stand in all three clients and in [connection.cpp]. *)
(** [src/core/net/http_client.cpp:182-187] Http11Client::Impl::request_fresh *)
Definition resolve_error (e : ErrorCode) : Err :=
  if decide (e = HostNotFound) then E_dns_failure else E_connection_refused.

(** [src/core/net/http_client.cpp:400-405] Http11Client::Impl::connect_tcp *)
Definition connect_error (e : ErrorCode) : Err :=
  if decide (e = AsioTimedOut) then E_connection_timeout else E_connection_refused.

(** ** What was established of a stream

    [established log verify s h p tls]: the log shows that the name [h] and the port [p]
    were resolved, that the stream [s] was connected to the endpoints found, and, for
    TLS, that the handshake succeeded with the server name set (unless [h] is an address)
    and, if the context verifies peers, with the check of the host name in place. *)
Definition did (log : list (nat * Event)) (o : Op) (a : reply o) : Prop :=
  ∃ i, (i, mkEvent o a) ∈ log.

Definition tls_ready (log : list (nat * Event)) (verify : bool) (s : StreamId) (h : string) : Prop :=
  (host_is_ip_literal h = false → did log (SetTlsHostName s h) true)
  ∧ (verify = true → did log (SetVerifyCallback s h) ()).

Definition established (log : list (nat * Event)) (verify : bool) (s : StreamId)
    (h : string) (p : Z) (tls : bool) : Prop :=
  ∃ eps t, did log (AsyncResolve h (to_string p)) (None, eps) ∧ did log (AsyncConnect s t eps) None
    ∧ (tls = true → tls_ready log verify s h ∧ ∃ t', did log (AsyncTlsHandshake s t') None).

Lemma did_mono log more o a : did log o a → did (log ++ more) o a.
Proof. intros [i H]. exists i. apply elem_of_app. by left. Qed.

Lemma did_last log i o a : did (log ++ [(i, mkEvent o a)]) o a.
Proof. exists i. apply elem_of_app. right. by left. Qed.

Lemma tls_ready_mono log more v s h : tls_ready log v s h → tls_ready (log ++ more) v s h.
Proof. intros [H1 H2]. split; eauto using did_mono. Qed.

Lemma established_mono log more v s h p tls :
  established log v s h p tls → established (log ++ more) v s h p tls.
Proof.
  intros (eps & t & H1 & H2 & H3). exists eps, t. split_and!; eauto using did_mono.
  intros Ht. destruct (H3 Ht) as [? [t' ?]]. eauto using did_mono, tls_ready_mono.
Qed.

Create HintDb net discriminated.
#[export] Hint Resolve did_mono did_last tls_ready_mono established_mono : net.
