(* ===== verification/HttpClient.v ===== *)
(** * The HTTP/1.1 client

    [core/net/http_client.cpp]: a request is sent on the connection kept from an earlier
    one if it goes to the same place, otherwise, or when that connection turns out to be
    dead, on a fresh one.  Each member function is one definition; the lambdas it hands
    to Asio are the continuations of [Await]. *)

From S2P Require Import Prelude CppString Result Url Constants Async Tls Protocol.

Local Open Scope Z_scope.

(** [src/core/net/http_client.cpp:45-48] method_is_idempotent *)
Definition method_is_idempotent (m : string) : bool :=
  (m =? "GET")%string || (m =? "HEAD")%string || (m =? "PUT")%string
  || (m =? "DELETE")%string || (m =? "OPTIONS")%string || (m =? "TRACE")%string.

(** The streams are null ([None]) or objects; [buffer] belongs to the stream. *)
(** [src/core/net/http_client.cpp:121-128] Http11Client::Impl::ReusableConn *)
Record ReusableConn := mkConn {
  c_tcp : option StreamId; c_ssl : option StreamId; c_host : string; c_port : Z; c_tls : bool }.

(** The members of the client.  [cached_] holds the connection with its address, by
    which [drop_cached] compares; [next_] is the heap's next address. *)
(** [src/core/net/http_client.cpp:630-635] Http11Client::Impl *)
Record Client := mkClient {
  timeout_ms_ : Z; keep_alive_ : bool; max_body_bytes_ : Z; tls_ctx_ : option TlsContext;
  cached_ : option (nat * ReusableConn); next_ : nat }.

Definition set_cached (cc : option (nat * ReusableConn)) (c : Client) : Client :=
  mkClient (timeout_ms_ c) (keep_alive_ c) (max_body_bytes_ c) (tls_ctx_ c) cc (next_ c).

(** [std::make_shared]: a new object. *)
Definition alloc (c : Client) : nat * Client :=
  (next_ c, mkClient (timeout_ms_ c) (keep_alive_ c) (max_body_bytes_ c) (tls_ctx_ c) (cached_ c) (S (next_ c))).

(** The context's constructor may throw. *)
(** [src/core/net/http_client.cpp:67-72] Http11Client::Impl::Impl *)
Definition make_client (throws : SslCall → bool) (tls_config : TlsConfig) (keep_alive : bool) : option Client :=
  ctx ← make_tls_context throws tls_config;
  Some (mkClient kDefaultTimeout keep_alive kDefaultMaxBodyBytes (Some ctx) None 0).

(** [src/core/net/http_client.cpp:102-104] Http11Client::Impl::set_timeout *)
Definition set_timeout (timeout : Z) (c : Client) : Client :=
  mkClient timeout (keep_alive_ c) (max_body_bytes_ c) (tls_ctx_ c) (cached_ c) (next_ c).

(** [src/core/net/http_client.cpp:106-109] Http11Client::Impl::set_keep_alive *)
Definition set_keep_alive (keep_alive : bool) (c : Client) : Client :=
  mkClient (timeout_ms_ c) keep_alive (max_body_bytes_ c) (tls_ctx_ c)
    (if keep_alive then cached_ c else None) (next_ c).

(** [src/core/net/http_client.cpp:111-114] Http11Client::Impl::set_max_body_bytes *)
Definition set_max_body_bytes (bytes : Z) (c : Client) : Client :=
  mkClient (timeout_ms_ c) (keep_alive_ c) (if bytes >? 0 then bytes else kDefaultMaxBodyBytes)
    (tls_ctx_ c) (cached_ c) (next_ c).

(** [src/core/net/http_client.cpp:608-624] Http11Client::Impl::cache_connection *)
Definition cache_connection (tcp ssl : option StreamId) (h : string) (p : Z) (tls : bool)
    (c : Client) : Client :=
  let (a, c) := alloc c in
  set_cached (Some (a, mkConn tcp ssl h p tls)) c.

(** [src/core/net/http_client.cpp:626-628] Http11Client::Impl::drop_cached *)
Definition drop_cached (addr : nat) (c : Client) : Client :=
  match cached_ c with
  | Some (a, _) => if decide (a = addr) then set_cached None c else c
  | None => c
  end.

(** ** Messages *)

(** [fields::set] of Beast replaces every field of that name, which compares without
    regard to case. *)
Definition set_field (fs : list (string * string)) (f : string * string) : list (string * string) :=
  filter (λ g, stolower g.1 ≠ stolower f.1) fs ++ [f].

Section Client.
(** [http::string_to_verb] of Beast: whether it knows the method. *)
Context (known_verb : string → bool).

(** A method Beast does not know sets the response's code and returns null. *)
(** [src/core/net/http_client.cpp:130-158] Http11Client::Impl::build_request *)
Definition build_request (req : Request) (response : Response) : option ReqMsg * Response :=
  if negb (known_verb (method req)) then (None, with_ec response E_invalid_method)
  else
    let fs := set_field [] ("Host", format_host_header (host req) (port req) (use_tls req)) in
    let fs := set_field fs ("User-Agent", kUserAgent) in
    let fs := if is_empty (body req) then fs
              else set_field fs ("Content-Length", to_string (Z.of_nat (String.length (body req)))) in
    let fs := foldl set_field fs (headers req) in
    (Some (mkReqMsg (method req) (request_target (path req)) kHttpVersion fs (body req)), response).

(** ** Responses *)

(** [src/core/net/http_client.cpp:496-503] Http11Client::Impl::populate_response *)
Definition copy_body_capped (cap : Z) (src : string) (r : Response) : Response :=
  if Z.of_nat (String.length src) >? cap
  then mkResponse (status_code r) (stake (Z.to_nat cap) src) (resp_headers r) (latency r) (ec r) true
  else mkResponse (status_code r) src (resp_headers r) (latency r) (ec r) (body_truncated r).

(** The status, body and fields of a message.  [headers[name] = value]: the last field
    of a name wins. *)
(** [src/core/net/http_client.cpp:505-523] Http11Client::Impl::populate_response *)
Definition copy_message (cap : Z) (res : ResMsg) (r : Response) : Response :=
  let r := mkResponse (u16 (result_int res)) (resp_body r) (resp_headers r) (latency r) (ec r) (body_truncated r) in
  let r := copy_body_capped cap (res_body res) r in
  mkResponse (status_code r) (resp_body r)
    (foldl (λ m f, <[f.1 := f.2]> m) (resp_headers r) (res_fields res))
    (latency r) (ec r) (body_truncated r).

(** [src/core/net/http_client.cpp:482-524] Http11Client::Impl::populate_response *)
Definition populate_response (c : Client) (response : Response) (a : ReadReply ResMsg)
    (start_time : Z) : Response :=
  let response := with_latency response (latency_since start_time (read_at a)) in
  let cap := if max_body_bytes_ c =? 0 then kDefaultMaxBodyBytes else max_body_bytes_ c in
  match read_ec a with
  | Some e => if decide (e = EndOfStream) then copy_message cap (read_data a) response
              else with_ec response E_read_error
  | None => copy_message cap (read_data a) response
  end.

(** ** A request on a fresh connection *)

Definition M : Type := Client → Client * Proc Client Response.

(** [src/core/net/http_client.cpp:526-566] Http11Client::Impl::send_and_receive *)
Definition send_and_receive (stream : StreamId) (req : Request) (req_msg : ReqMsg)
    (response : Response) (start_time : Z) : M := λ c,
  (c, Await (AsyncWrite stream (timeout_ms_ c) (HttpMessage req_msg)) (λ e c,
    match e with
    | Some _ => call_handler (with_ec response E_write_error) c
    | None =>
        (c, Await (AsyncReadMessage stream (timeout_ms_ c)) (λ a c,
          let response := populate_response c response a start_time in
          let c := if keep_alive_ c && bool_decide (read_ec a = None)
                   then cache_connection (Some stream) None (host req) (port req) false c else c in
          call_handler response c))
    end)).

(** [src/core/net/http_client.cpp:568-606] Http11Client::Impl::send_and_receive_tls *)
Definition send_and_receive_tls (ssl_stream : StreamId) (req : Request) (req_msg : ReqMsg)
    (response : Response) (start_time : Z) : M := λ c,
  (c, Await (AsyncWrite ssl_stream (timeout_ms_ c) (HttpMessage req_msg)) (λ e c,
    match e with
    | Some _ => call_handler (with_ec response E_write_error) c
    | None =>
        (c, Await (AsyncReadMessage ssl_stream (timeout_ms_ c)) (λ a c,
          let response := populate_response c response a start_time in
          let c := if keep_alive_ c && bool_decide (read_ec a = None)
                   then cache_connection None (Some ssl_stream) (host req) (port req) true c else c in
          call_handler response c))
    end)).

(** [src/core/net/http_client.cpp:381-410] Http11Client::Impl::connect_tcp *)
Definition connect_tcp (results : Endpoints) (req : Request) (req_msg : ReqMsg)
    (response : Response) (start_time : Z) : M := λ c,
  let (stream, c) := alloc c in
  (c, Await (AsyncConnect stream (timeout_ms_ c) results) (λ e c,
    match e with
    | Some e => call_handler (with_ec response (connect_error e)) c
    | None => send_and_receive stream req req_msg response start_time c
    end)).

(** [src/core/net/http_client.cpp:463-478] Http11Client::Impl::connect_tls *)
Definition start_handshake (stream : StreamId) (req : Request) (req_msg : ReqMsg)
    (response : Response) (start_time : Z) : M := λ c,
  (c, Await (AsyncTlsHandshake stream (timeout_ms_ c)) (λ e c,
    match e with
    | Some _ => call_handler (with_ec response E_tls_handshake_failed) c
    | None => send_and_receive_tls stream req req_msg response start_time c
    end)).

(** The context is dereferenced: a null pointer is a crash. *)
(** [src/core/net/http_client.cpp:456-461] Http11Client::Impl::connect_tls *)
Definition set_verify (stream : StreamId) (req : Request) (req_msg : ReqMsg)
    (response : Response) (start_time : Z) : M := λ c,
  match tls_ctx_ c with
  | None => (c, Crash)
  | Some ctx =>
      if is_verify_enabled ctx
      then (c, Await (SetVerifyCallback stream (host req))
                 (λ _, start_handshake stream req req_msg response start_time))
      else start_handshake stream req req_msg response start_time c
  end.

(** The TLS stream takes over the socket of the TCP stream and its number. *)
(** [src/core/net/http_client.cpp:412-480] Http11Client::Impl::connect_tls *)
Definition connect_tls (results : Endpoints) (req : Request) (req_msg : ReqMsg)
    (response : Response) (start_time : Z) : M := λ c,
  let (stream, c) := alloc c in
  (c, Await (AsyncConnect stream (timeout_ms_ c) results) (λ e c,
    match e with
    | Some e => call_handler (with_ec response (connect_error e)) c
    | None =>
        match tls_ctx_ c with
        | None => (c, Crash)
        | Some _ =>
            if negb (host_is_ip_literal (host req))
            then (c, Await (SetTlsHostName stream (host req)) (λ ok,
                   if negb ok then call_handler (with_ec response E_tls_handshake_failed)
                   else set_verify stream req req_msg response start_time))
            else set_verify stream req req_msg response start_time c
        end
    end)).

(** [src/core/net/http_client.cpp:160-197] Http11Client::Impl::request_fresh *)
Definition request_fresh (req : Request) (start_time : Z) : M := λ c,
  match build_request req empty_response with
  | (None, response) => call_handler response c
  | (Some req_msg, response) =>
      (c, Await (AsyncResolve (host req) (to_string (port req))) (λ a c,
        let (e, results) := a in
        match e with
        | Some e => call_handler (with_ec response (resolve_error e)) c
        | None => if use_tls req then connect_tls results req req_msg response start_time c
                  else connect_tcp results req req_msg response start_time c
        end))
  end.

(** ** A request on the kept connection *)

(** The result is passed to [k]. *)
(** [src/core/net/http_client.cpp:207-231] Http11Client::Impl::cached_connection_dead *)
Definition cached_connection_dead (stream : StreamId) (k : bool → M) : M := λ c,
  (c, Await (SetNonBlocking stream) (λ e c,
    match e with
    | Some _ => k true c
    | None =>
        (c, Await (PeekByte stream) (λ e c,
          match e with
          | Some WouldBlock | Some TryAgain => k false c
          | _ => k true c
          end))
    end)).

(** Whether a failed read on the kept connection is tried again. *)
(** [src/core/net/http_client.cpp:314-316] Http11Client::Impl::write_read_cached_tcp *)
Definition stale_read (e : ErrorCode) (response : Response) (m : string) : bool :=
  negb (bool_decide (e = AsioTimedOut)) && (status_code response =? 0) && method_is_idempotent m.

(** The two transports differ in the type of the stream only. *)
(** [src/core/net/http_client.cpp:283-325] Http11Client::Impl::write_read_cached_tcp *)
Definition write_read_cached (stream : StreamId) (addr : nat) (req : Request) (req_msg : ReqMsg)
    (response : Response) (start_time : Z) : M := λ c,
  (c, Await (AsyncWrite stream (timeout_ms_ c) (HttpMessage req_msg)) (λ e c,
    match e with
    | Some _ =>
        let c := drop_cached addr c in
        if method_is_idempotent (method req) then request_fresh req start_time c
        else call_handler (with_ec response E_write_error) c
    | None =>
        (c, Await (AsyncReadMessage stream (timeout_ms_ c)) (λ a c,
          let response := populate_response c response a start_time in
          match read_ec a with
          | Some e =>
              if stale_read e response (method req)
              then request_fresh req start_time (drop_cached addr c)
              else call_handler response (drop_cached addr c)
          | None => call_handler response c
          end))
    end)).

(** [src/core/net/http_client.cpp:273-326] Http11Client::Impl::write_read_cached_tcp *)
Definition write_read_cached_tcp (addr : nat) (conn : ReusableConn) (req : Request) (req_msg : ReqMsg)
    (response : Response) (start_time : Z) : M := λ c,
  match c_tcp conn with
  | None => (c, Crash)
  | Some stream => write_read_cached stream addr req req_msg response start_time c
  end.

(** [src/core/net/http_client.cpp:328-379] Http11Client::Impl::write_read_cached_tls *)
Definition write_read_cached_tls (addr : nat) (conn : ReusableConn) (req : Request) (req_msg : ReqMsg)
    (response : Response) (start_time : Z) : M := λ c,
  match c_ssl conn with
  | None => (c, Crash)
  | Some stream => write_read_cached stream addr req req_msg response start_time c
  end.

(** [src/core/net/http_client.cpp:233-268] Http11Client::Impl::request_on_cached *)
Definition request_on_cached (addr : nat) (conn : ReusableConn) (req : Request) (start_time : Z) : M := λ c,
  match build_request req empty_response with
  | (None, response) => call_handler response c
  | (Some req_msg, response) =>
      match (if c_tls conn then c_ssl conn else c_tcp conn) with
      | None => (c, Crash)
      | Some stream =>
          cached_connection_dead stream (λ dead c,
            if dead then request_fresh req start_time (drop_cached addr c)
            else if c_tls conn then write_read_cached_tls addr conn req req_msg response start_time c
            else write_read_cached_tcp addr conn req req_msg response start_time c) c
      end
  end.

(** [src/core/net/http_client.cpp:74-100] Http11Client::Impl::async_request *)
Definition async_request (req : Request) (start_time : Z) : M := λ c,
  if use_tls req && bool_decide (tls_ctx_ c = None)
  then call_handler (with_ec empty_response E_tls_verify_failed) c
  else match cached_ c with
       | Some (addr, conn) =>
           if keep_alive_ c && (c_host conn =? host req)%string && (c_port conn =? port req)
              && Bool.eqb (c_tls conn) (use_tls req)
           then request_on_cached addr conn req start_time c
           else request_fresh req start_time c
       | None => request_fresh req start_time c
       end.

(** The other public member functions of the client. *)
Inductive setter : Client → Client → Prop :=
  | setter_timeout ms c : setter c (set_timeout ms c)
  | setter_keep_alive b c : setter c (set_keep_alive b c)
  | setter_max_body n c : setter c (set_max_body_bytes n c).

(** A request is started with any reading of the clock. *)
Definition starts (req : Request) (c : Client) (cp : Client * Proc Client Response) : Prop :=
  ∃ now, async_request req now c = cp.

(** ** How much a request does

    A fresh connection takes at most seven operations, one of which writes; a kept one
    four more, and a second write only for an idempotent method. *)
Lemma send_bounded s q m r t c : bounded 2 1 (send_and_receive s q m r t c).2.
Proof. unfold send_and_receive. bounded_tac. Qed.

Lemma send_tls_bounded s q m r t c : bounded 2 1 (send_and_receive_tls s q m r t c).2.
Proof. unfold send_and_receive_tls. bounded_tac. Qed.

Lemma connect_tcp_bounded res q m r t c : bounded 3 1 (connect_tcp res q m r t c).2.
Proof. unfold connect_tcp. cbn [alloc]. bounded_tac. apply send_bounded. Qed.

Lemma connect_tls_bounded res q m r t c : bounded 6 1 (connect_tls res q m r t c).2.
Proof.
  unfold connect_tls, set_verify, start_handshake. cbn [alloc].
  bounded_tac; (eapply bounded_mono; [apply send_tls_bounded|lia..]).
Qed.

Lemma request_fresh_bounded q t c : bounded 7 1 (request_fresh q t c).2.
Proof.
  unfold request_fresh. bounded_tac; [apply connect_tls_bounded|].
  eapply bounded_mono; [apply connect_tcp_bounded|lia..].
Qed.

Definition max_writes (q : Request) : nat := if method_is_idempotent (method q) then 2 else 1.

Lemma write_read_bounded stream addr q m r t c :
  bounded 9 (max_writes q) (write_read_cached stream addr q m r t c).2.
Proof.
  unfold max_writes, write_read_cached.
  destruct (method_is_idempotent (method q)) eqn:Hi; bounded_tac;
    try (eapply bounded_mono; [apply request_fresh_bounded|lia..]).
  unfold stale_read in *. rewrite Hi, andb_false_r in *. done.
Qed.

Lemma max_writes_pos q : (1 ≤ max_writes q)%nat.
Proof. unfold max_writes. case_match; lia. Qed.

Lemma fresh_bounded n q t c : (7 ≤ n)%nat → bounded n (max_writes q) (request_fresh q t c).2.
Proof. intros. eapply bounded_mono; [apply request_fresh_bounded|done|apply max_writes_pos]. Qed.

Lemma request_on_cached_bounded addr conn q t c :
  bounded 11 (max_writes q) (request_on_cached addr conn q t c).2.
Proof.
  unfold request_on_cached, cached_connection_dead, write_read_cached_tls, write_read_cached_tcp.
  bounded_tac; first [apply fresh_bounded; lia | apply write_read_bounded
                     | eapply bounded_mono; [apply write_read_bounded|lia..]].
Qed.

Lemma async_request_bounded q t c : bounded 11 (max_writes q) (async_request q t c).2.
Proof.
  unfold async_request. repeat split_match; try apply bounded_handler;
    first [apply request_on_cached_bounded | apply fresh_bounded; lia].
Qed.

(** ** What a request does, among others on the same client *)
Section Reach.
Context (tc : TlsContext).
Abbreviation verify := (is_verify_enabled tc).

(** A kept connection has its stream, which was established for the host, the port and
    the transport it is filed under, and from which a message was read to its end. *)
Definition cached_ok (log : list (nat * Event)) (c : Client) : Prop :=
  tls_ctx_ c = Some tc
  ∧ ∀ addr conn, cached_ c = Some (addr, conn) →
      ∃ s, (if c_tls conn then c_ssl conn else c_tcp conn) = Some s
           ∧ established log verify s (c_host conn) (c_port conn) (c_tls conn)
           ∧ ∃ t a, did log (AsyncReadMessage s t) a ∧ read_ec a = None.

Definition op_ok (i : nat) (q : Request) (log : list (nat * Event)) (o : Op) : Prop :=
  match o with
  | AsyncWrite s _ d =>
      established log verify s (host q) (port q) (use_tls q)
      ∧ ∃ m, (build_request q empty_response).1 = Some m ∧ d = HttpMessage m
  | AsyncReadMessage s _ =>
      established log verify s (host q) (port q) (use_tls q)
      ∧ ∃ t d, (i, mkEvent (AsyncWrite s t d) None) ∈ log
  | AsyncTlsHandshake s _ => tls_ready log verify s (host q)
  | _ => True
  end.

(** A response without an error code has the status of a message this request read. *)
Definition response_ok (i : nat) (q : Request) (log : list (nat * Event)) (r : Response) : Prop :=
  ec r = None →
  ∃ s t a, (i, mkEvent (AsyncReadMessage s t) a) ∈ log
    ∧ (read_ec a = None ∨ read_ec a = Some EndOfStream)
    ∧ status_code r = u16 (result_int (read_data a)).

Lemma op_ok_mono i q log more o : op_ok i q log o → op_ok i q (log ++ more) o.
Proof.
  destruct o; cbn; try done; [by eauto with net|naive_solver eauto with net|].
  intros [He (t & d & H)]. split; [by eauto with net|]. exists t, d. apply elem_of_app. by left.
Qed.

Lemma response_ok_mono i q log more r : response_ok i q log r → response_ok i q (log ++ more) r.
Proof.
  intros H Hr. destruct (H Hr) as (s & t & a & Hl & ?). exists s, t, a.
  split; [apply elem_of_app; by left|done].
Qed.

Lemma cached_ok_mono log more c : cached_ok log c → cached_ok (log ++ more) c.
Proof.
  intros [Ht H]. split; [done|]. intros addr conn Hc. destruct (H _ _ Hc) as (s & ? & ? & t & a & ? & ?). eauto 9 with net.
Qed.

Lemma cached_ok_drop log addr c : cached_ok log c → cached_ok log (drop_cached addr c).
Proof.
  intros [Ht H]. unfold drop_cached. destruct (cached_ c) as [[a conn]|] eqn:E; [|by split; rewrite ?E].
  case_decide; split; cbn; rewrite ?E; naive_solver.
Qed.

Lemma cached_ok_alloc log c : cached_ok log c → cached_ok log (alloc c).2.
Proof. done. Qed.

Abbreviation good := (Async.good cached_ok op_ok response_ok).

Lemma response_ok_err i q log r e : response_ok i q log (with_ec r e).
Proof. done. Qed.

Lemma response_ok_read i q log s t a c r t0 :
  response_ok i q (log ++ [(i, mkEvent (AsyncReadMessage s t) a)]) (populate_response c r a t0).
Proof.
  intros Hr. exists s, t, a. split; [apply elem_of_app; right; by left|]. revert Hr.
  unfold populate_response, copy_message, copy_body_capped.
  destruct (read_ec a) as [e|]; [case_decide; [subst|done]|]; split; auto; by case_match.
Qed.

Lemma good_error i q log r e : good i q log (call_handler (with_ec r e)).
Proof. by apply good_handler. Qed.

Lemma cached_ok_cache log c tcp ssl h p (tls : bool) s :
  (if tls then ssl else tcp) = Some s → established log verify s h p tls →
  (∃ t a, did log (AsyncReadMessage s t) a ∧ read_ec a = None) → cached_ok log c →
  cached_ok log (cache_connection tcp ssl h p tls c).
Proof. intros Hs He Hr [Ht _]. split; [done|]. cbn. intros addr conn [= <- <-]. eauto. Qed.

Ltac await_step := apply good_await; [apply cached_ok_mono| |intros ?more ?a|done].

(** Both transports write the message, read the answer and keep the connection. *)
Ltac send_tac :=
  apply good_await; [apply cached_ok_mono|by cbn; eauto| |done];
  intros ? [?|]; [apply good_error|]; intros ? ?; apply good_await; [apply cached_ok_mono| |intros ? ?|done];
  [cbn; split; [by eauto with net|do 2 eexists; apply elem_of_app; right; by left]|];
  intros c' Hc'; unfold call_handler; cbn [fst snd]; split; [|constructor; apply response_ok_read];
  case_match; [|done]; reflect_bool;
  match goal with Hk : bool_decide (read_ec _ = None) = true |- _ => apply bool_decide_eq_true in Hk end;
  match goal with Hu : use_tls _ = _, He : established _ _ _ _ _ _ |- _ => rewrite Hu in He end;
  eapply cached_ok_cache; eauto 9 with net.

Lemma send_good i q log s m r t :
  use_tls q = false → established log verify s (host q) (port q) (use_tls q) →
  (build_request q empty_response).1 = Some m →
  good i q log (send_and_receive s q m r t).
Proof.
  intros Hu He Hm c Hc. unfold send_and_receive. send_tac.
Qed.

Lemma send_tls_good i q log s m r t :
  use_tls q = true → established log verify s (host q) (port q) (use_tls q) →
  (build_request q empty_response).1 = Some m →
  good i q log (send_and_receive_tls s q m r t).
Proof.
  intros Hu He Hm c Hc. unfold send_and_receive_tls. send_tac.
Qed.

Lemma connect_tcp_good i q log eps m r t :
  use_tls q = false → did log (AsyncResolve (host q) (to_string (port q))) (None, eps) →
  (build_request q empty_response).1 = Some m →
  good i q log (connect_tcp eps q m r t).
Proof.
  intros Hu Hd Hm c Hc. unfold connect_tcp. cbn [alloc].
  await_step; [done|]. destruct a; [apply good_error|].
  apply send_good; [done| |done]. exists eps, (timeout_ms_ c). rewrite Hu.
  split_and!; eauto with net; done.
Qed.

Lemma start_handshake_good i q log eps s tm m r t :
  use_tls q = true → did log (AsyncResolve (host q) (to_string (port q))) (None, eps) →
  did log (AsyncConnect s tm eps) None → tls_ready log verify s (host q) →
  (build_request q empty_response).1 = Some m →
  good i q log (start_handshake s q m r t).
Proof.
  intros Hu Hd Hco Hr Hm c Hc. unfold start_handshake. await_step; [done|].
  destruct a; [apply good_error|]. apply send_tls_good; [done| |done].
  exists eps, tm. rewrite Hu. split_and!; eauto 7 with net.
Qed.

Lemma set_verify_good i q log eps s tm m r t :
  use_tls q = true → did log (AsyncResolve (host q) (to_string (port q))) (None, eps) →
  did log (AsyncConnect s tm eps) None →
  (host_is_ip_literal (host q) = false → did log (SetTlsHostName s (host q)) true) →
  (build_request q empty_response).1 = Some m →
  good i q log (set_verify s q m r t).
Proof.
  intros Hu Hd Hco Hn Hm c Hc. unfold set_verify. rewrite (proj1 Hc). destruct verify eqn:Ev.
  - apply good_await; [apply cached_ok_mono|done| |done]. intros more [].
    eapply start_handshake_good; eauto with net.
    split; [eauto with net|intros _; apply did_last].
  - eapply start_handshake_good; eauto. split; [done|by rewrite Ev].
Qed.

Lemma connect_tls_good i q log eps m r t :
  use_tls q = true → did log (AsyncResolve (host q) (to_string (port q))) (None, eps) →
  (build_request q empty_response).1 = Some m →
  good i q log (connect_tls eps q m r t).
Proof.
  intros Hu Hd Hm c Hc. unfold connect_tls. cbn [alloc]. await_step; [done|].
  destruct a; [apply good_error|]. intros c' Hc'. rewrite (proj1 Hc'). destruct (host_is_ip_literal (host q)) eqn:Hip; cbn [negb].
  - eapply set_verify_good; eauto with net; by rewrite Hip.
  - apply good_await; [apply cached_ok_mono|done| |done]. intros more' []; cbn [negb]; [|apply good_error].
    eapply set_verify_good; eauto with net.
Qed.

Lemma build_request_None q r0 r : build_request q r0 = (None, r) → r = with_ec r0 E_invalid_method.
Proof. unfold build_request. destruct (negb _); congruence. Qed.

Lemma build_request_known q r :
  known_verb (method q) = true → ∃ m, build_request q r = (Some m, r).
Proof. intros Hv. unfold build_request. rewrite Hv. by eexists. Qed.

Lemma request_fresh_good i q log t : good i q log (request_fresh q t).
Proof.
  unfold request_fresh. intros c Hc. destruct (build_request q empty_response) as [[m|] r] eqn:Hb.
  - await_step; [done|]. destruct a as [[e|] eps]; [apply good_error|].
    destruct (use_tls q) eqn:Hu; [apply connect_tls_good|apply connect_tcp_good];
      rewrite ?Hb; eauto with net.
  - apply build_request_None in Hb as ->. by apply good_error.
Qed.

Lemma fresh_after_drop i q log addr t : good i q log (λ c, request_fresh q t (drop_cached addr c)).
Proof. intros c Hc. by apply request_fresh_good, cached_ok_drop. Qed.

Lemma handler_after_drop i q log addr r :
  response_ok i q log r → good i q log (λ c, call_handler r (drop_cached addr c)).
Proof. intros Hr c Hc. split; [by apply cached_ok_drop|by constructor]. Qed.

Lemma write_read_good i q log s addr m r t :
  established log verify s (host q) (port q) (use_tls q) →
  (build_request q empty_response).1 = Some m →
  good i q log (write_read_cached s addr q m r t).
Proof.
  intros He Hm c Hc. unfold write_read_cached. await_step; [by cbn; eauto|]. destruct a as [e|].
  - destruct (method_is_idempotent (method q)); [apply fresh_after_drop|by apply handler_after_drop].
  - intros c1 Hc1. await_step.
    { cbn. split; [eauto with net|]. do 2 eexists. apply elem_of_app. right. by left. }
    intros c' Hc'. destruct (read_ec a) as [e|] eqn:Ea;
      [|apply good_handler; [apply response_ok_read|done]].
    case_match; [by apply fresh_after_drop|].
    apply handler_after_drop; [apply response_ok_read|done].
Qed.

Lemma request_on_cached_good i q log addr conn t s :
  (if c_tls conn then c_ssl conn else c_tcp conn) = Some s →
  established log verify s (host q) (port q) (use_tls q) →
  good i q log (request_on_cached addr conn q t).
Proof.
  intros Hs He. unfold request_on_cached. destruct (build_request q empty_response) as [[m|] r] eqn:Hb.
  - rewrite Hs. unfold cached_connection_dead. intros c Hc. await_step; [done|].
    destruct a; [apply fresh_after_drop|]. intros c1 Hc1. await_step; [done|].
    assert (Hw : good i q ((((log ++ more) ++ [(i, mkEvent (SetNonBlocking s) None)]) ++ more0)
                          ++ [(i, mkEvent (PeekByte s) a)])
      (λ c, if c_tls conn then write_read_cached_tls addr conn q m r t c
            else write_read_cached_tcp addr conn q m r t c)).
    { unfold write_read_cached_tls, write_read_cached_tcp.
      destruct (c_tls conn); rewrite Hs; apply write_read_good; rewrite ?Hb; eauto with net. }
    destruct a as [[]|]; first [apply fresh_after_drop|apply Hw].
  - apply build_request_None in Hb as ->. apply good_error.
Qed.

Lemma async_request_good i q log t : good i q log (async_request q t).
Proof.
  intros c Hc. unfold async_request.
  destruct (cached_ c) as [[addr conn]|] eqn:Ec; case_match; try by apply good_error.
  - case_match; [|by apply request_fresh_good]. reflect_bool.
    destruct (proj2 Hc _ _ Ec) as (s & Hs & He & _). eapply request_on_cached_good; [done| |done].
    match goal with H : Bool.eqb _ _ = true |- _ => apply Bool.eqb_prop in H; rewrite <-H end. congruence.
  - by apply request_fresh_good.
Qed.

Lemma setter_ok c c' log : setter c c' → cached_ok log c → cached_ok log c'.
Proof.
  intros [] [Ht Hc]; split; cbn; try done. intros addr conn. case_match; [by apply Hc|done].
Qed.

Lemma reachable_inv c0 sy :
  tls_ctx_ c0 = Some tc → cached_ c0 = None → reachable starts setter c0 sy →
  sys_inv cached_ok op_ok response_ok sy.
Proof.
  intros Ht Hn. apply steps_obey.
  - apply op_ok_mono.
  - apply response_ok_mono.
  - split; [done|]. by rewrite Hn.
  - intros i q p c c' log [now Hs] Hc.
    pose proof (async_request_good i q log now c Hc) as H. by rewrite Hs in H.
  - intros c c' log. apply setter_ok.
Qed.

End Reach.

Lemma make_client_fields throws config ka c :
  make_client throws config ka = Some c →
  ∃ tc, tls_ctx_ c = Some tc ∧ cached_ c = None ∧ is_verify_enabled tc = verify_peer config.
Proof.
  unfold make_client. intros (tc & [_ ->]%make_tls_context_Some & [= <-])%bind_Some. by eexists.
Qed.


(** C3.  No duplicated side effect: in every reachable state of a client, the writes a
    request has made or has under way are at most one, and at most two for an idempotent
    method (GET, HEAD, PUT, DELETE, OPTIONS, TRACE): only those are sent again when a kept
    connection fails. *)
Theorem http_write_at_most_once c0 sy i q p :
  reachable starts setter c0 sy → sys_reqs sy !! i = Some (q, p) →
  (writes (own_log i (sys_log sy)) + (if is_write <$> pending p is Some true then 1 else 0)
     ≤ if method_is_idempotent (method q) then 2 else 1)%nat.
Proof.
  intros Hr Hl. eapply (proj2 (steps_bounded_log starts setter c0 11 max_writes _ sy i q p Hr Hl)).
  Unshelve. intros q' s s' p' [now E]. pose proof (async_request_bounded q' now s) as H. by rewrite E in H.
Qed.

(** A request has called its handler or waits for one operation, and runs to its end. *)
Lemma request_progress throws config ka c0 sy i q p :
  make_client throws config ka = Some c0 → reachable starts setter c0 sy →
  sys_reqs sy !! i = Some (q, p) →
  (List.length (own_log i (sys_log sy)) + (if pending p is Some _ then 1 else 0) ≤ 11)%nat
  ∧ ((∃ r, answered p = Some r) ∨ ∃ o, pending p = Some o)
  ∧ ∀ env, ∃ c' ops r, drive 11 env [] (sys_st sy) p = (c', ops, Handler r).
Proof.
  intros (tc & Ht & Hn & _)%make_client_fields Hr Hl.
  assert (Hb : ∀ q s s' p, starts q s (s', p) → bounded 11 (max_writes q) p).
  { intros q' s s' p' [now E]. pose proof (async_request_bounded q' now s) as H. by rewrite E in H. }
  pose proof (reachable_inv tc c0 sy Ht Hn Hr) as [Hi Hq _]. pose proof (Hq _ _ _ Hl) as Hob.
  split_and!.
  - apply (steps_bounded_log starts setter c0 11 max_writes Hb sy i q p Hr Hl).
  - destruct p as [r| |o k]; [by left; eauto|by inversion Hob|right]. by exists o.
  - intros env. destruct (sb_reqs _ _ _ (steps_bounded starts setter c0 11 max_writes Hb sy Hr) _ _ _ Hl)
      as (n' & w' & Hb' & ? & _).
    eapply drive_answers; [exact Hob|exact Hi|]. eapply bounded_mono; [exact Hb'|lia|reflexivity].
Qed.

(** C5.  Every request is answered: in every reachable state of a client a request has
    either called its handler or waits for one operation, which any reply completes; it
    starts at most eleven operations in all, and if its operations complete, with whatever
    outcome, it calls its handler. *)
Theorem http_request_answered throws config ka c0 sy i q p :
  make_client throws config ka = Some c0 → reachable starts setter c0 sy →
  sys_reqs sy !! i = Some (q, p) →
  (List.length (own_log i (sys_log sy)) + (if pending p is Some _ then 1 else 0) ≤ 11)%nat
  ∧ ((∃ r, answered p = Some r)
     ∨ ∃ o, pending p = Some o ∧ ∀ a, ∃ sy', step starts setter sy sy'
              ∧ sys_log sy' = sys_log sy ++ [(i, mkEvent o a)])
  ∧ ∀ env, ∃ c' ops r, drive 11 env [] (sys_st sy) p = (c', ops, Handler r).
Proof.
  intros Hc Hr Hl. destruct (request_progress _ _ _ _ _ _ _ _ Hc Hr Hl) as (H1 & H2 & H3). split_and!; [done| |done].
  destruct H2 as [?|[o Ho]]; [by left|right]. exists o. split; [done|]. intros a. by eapply pending_completes.
Qed.

(** A read that times out on a kept connection: the timer of a Beast stream
    reports [beast::error::timeout], which the check for [asio::error::timed_out] does not
    recognise, so an idempotent request is dropped from the cache and started again on a
    fresh connection; only the operating system's own time-out is answered with a read
    error. *)
Theorem kept_read_timeout_retried (q : Request) (c : Client) addr conn s e now
    (env : list Op → ∀ o, reply o) :
  known_verb (method q) = true → method_is_idempotent (method q) = true →
  cached_ c = Some (addr, conn) → keep_alive_ c = true →
  c_host conn = host q → c_port conn = port q → c_tls conn = use_tls q →
  (use_tls q = true → tls_ctx_ c ≠ None) →
  (if c_tls conn then c_ssl conn else c_tcp conn) = Some s →
  (∀ ops, env ops (SetNonBlocking s) = None) → (∀ ops, env ops (PeekByte s) = Some WouldBlock) →
  (∀ ops t d, env ops (AsyncWrite s t d) = None) →
  (∀ ops t, read_ec (env ops (AsyncReadMessage s t)) = Some e) →
  let '(c', ops, p) := drive 4 env [] c (async_request q now c).2 in
  cached_ c' = None ∧ List.length ops = 4%nat
  ∧ (e = BeastTimeout → pending p = Some (AsyncResolve (host q) (to_string (port q))))
  ∧ (e = AsioTimedOut → ∃ r, p = Handler r ∧ ec r = Some E_read_error).
Proof.
  intros Hv Hidem Hc Hk Hh Hp Ht Hctx Hs Hnb Hpk Hw Hr. unfold async_request.
  rewrite Hc, Hk, Hh, Hp, Ht, String.eqb_refl, Z.eqb_refl, Bool.eqb_reflx. cbn [andb].
  replace (use_tls q && bool_decide (tls_ctx_ c = None)) with false;
    [|destruct (use_tls q); [|done]; by rewrite bool_decide_eq_false_2 by auto].
  unfold request_on_cached. rewrite Hs.
  destruct (build_request_known q empty_response Hv) as [m Hb]. rewrite Hb.
  unfold cached_connection_dead. cbn [snd drive]. rewrite Hnb. cbn [app]. rewrite Hpk.
  assert (Hd : cached_ (drop_cached addr c) = None)
    by (unfold drop_cached; rewrite Hc; by rewrite decide_True).
  assert (Hw' : (if c_tls conn then write_read_cached_tls addr conn q m empty_response now c
                 else write_read_cached_tcp addr conn q m empty_response now c)
                = write_read_cached s addr q m empty_response now c)
    by (unfold write_read_cached_tls, write_read_cached_tcp; by destruct (c_tls conn); rewrite Hs).
  rewrite Hw'. unfold write_read_cached. cbn [drive]. rewrite Hw.
  match goal with |- context [env ?ops (AsyncReadMessage s ?t)] =>
    specialize (Hr ops t); set (a := env ops (AsyncReadMessage s t)) in * end.
  cbv zeta. rewrite Hr. unfold stale_read. rewrite Hidem.
  assert (Hst : e ≠ EndOfStream → populate_response c empty_response a now
     = with_ec (with_latency empty_response (latency_since now (read_at a))) E_read_error).
  { intros He. unfold populate_response. rewrite Hr. by rewrite decide_False. }
  unfold request_fresh. rewrite Hb, andb_true_r. destruct (_ && _) eqn:Hcond; cbn [call_handler].
  - split_and!; [done..|]. intros ->. done.
  - split_and!; [done..| |]; intros ->; rewrite Hst in * by done; [done|]. eexists. done.
Qed.



Lemma stake_length_le n s : (String.length (stake n s) ≤ n)%nat.
Proof. revert n. induction s as [|ch s IH]; intros [|n]; cbn; try lia. pose proof (IH n). lia. Qed.

(** The body of a response is never longer than the limit, and it is marked as truncated
    exactly when the limit cut it. *)
Lemma populate_body_capped c a now :
  let cap := if max_body_bytes_ c =? 0 then kDefaultMaxBodyBytes else max_body_bytes_ c in
  let r := populate_response c empty_response a now in
  0 ≤ max_body_bytes_ c →
  Z.of_nat (String.length (resp_body r)) ≤ cap
  ∧ (body_truncated r = true → Z.of_nat (String.length (res_body (read_data a))) > cap).
Proof.
  intros cap r Hm. unfold r, populate_response. fold cap.
  assert (Hcap : 0 ≤ cap) by (unfold cap, kDefaultMaxBodyBytes; case_match; lia).
  assert (Hcopy : ∀ r0 : Response, body_truncated r0 = false →
    Z.of_nat (String.length (resp_body (copy_message cap (read_data a) r0))) ≤ cap
    ∧ (body_truncated (copy_message cap (read_data a) r0) = true →
       Z.of_nat (String.length (res_body (read_data a))) > cap)).
  { intros r0 Hr0. unfold copy_message, copy_body_capped.
    destruct (Z.gtb_spec (Z.of_nat (String.length (res_body (read_data a)))) cap); cbn.
    - split; [|lia]. pose proof (stake_length_le (Z.to_nat cap) (res_body (read_data a))). lia.
    - split; [lia|congruence]. }
  destruct (read_ec a) as [e|]; [case_decide; [by apply Hcopy|cbn; split; [lia|done]]|by apply Hcopy].
Qed.


End Client.

(** ** A concrete run: two requests on a kept connection *)

Definition all_verbs (m : string) : bool :=
  bool_decide (m ∈ ["GET"; "HEAD"; "POST"; "PUT"; "DELETE"; "PATCH"; "OPTIONS"; "TRACE"; "CONNECT"]).

Definition demo_request (m : string) : Request :=
  mkRequest m "/a b" "x" [("Accept", "*/*")] "example.com" 8080 false "http1.1".

(** A network on which everything succeeds at once and a peek finds nothing to read. *)
Definition demo_env (o : Op) : reply o :=
  match o with
  | AsyncResolve _ _ => (None, [("192.0.2.1", 8080)])
  | AsyncReadMessage _ _ => mkRead None (mkResMsg 200 [("Server", "demo")] "hello") 2500000
  | AsyncReadSome _ _ => mkRead None "hello" 2500000
  | SetTlsHostName _ _ => true
  | SetVerifyCallback _ _ => ()
  | PeekByte _ => Some WouldBlock
  | AsyncConnect _ _ _ | AsyncTlsHandshake _ _ | AsyncWsHandshake _ _ _ _
  | AsyncWrite _ _ _ | SetNonBlocking _ => None
  end.

Definition demo_client : Client :=
  mkClient 5000 true kDefaultMaxBodyBytes
    (Some (mkTlsContext [NewContext TLS_1_2;
       SetOptions [default_workarounds; no_sslv2; no_sslv3; no_tlsv1; no_tlsv1_1];
       SetVerifyMode ssl_verify_peer; SetDefaultVerifyPaths] true false)) None 0.

Definition demo_start (q : Request) (sy : Sys Request Client Response) : Sys Request Client Response :=
  let (c, p) := async_request all_verbs q 0 (sys_st sy) in
  mkSys c (sys_log sy) (sys_reqs sy ++ [(q, p)]).

Definition demo_run : Sys Request Client Response :=
  complete_all 11 demo_env 1 (demo_start (demo_request "POST")
    (complete_all 11 demo_env 0 (demo_start (demo_request "GET") (mkSys demo_client [] [])))).

Lemma demo_start_reachable q sy :
  reachable (starts all_verbs) setter demo_client sy →
  reachable (starts all_verbs) setter demo_client (demo_start q sy).
Proof.
  intros Hr. unfold demo_start. destruct (async_request _ _ _ _) as [c p] eqn:E.
  apply start_reachable; [done|]. by exists 0.
Qed.

Lemma demo_reachable : reachable (starts all_verbs) setter demo_client demo_run.
Proof.
  apply complete_all_reachable, demo_start_reachable, complete_all_reachable, demo_start_reachable.
  apply rtc_refl.
Qed.

Lemma demo_made : make_client (λ _, false) default_tls true = Some demo_client.
Proof. reflexivity. Qed.

(** The second request went out on the connection the first one left. *)
Example demo_reuses :
  ((ev_op ∘ snd) <$> sys_log demo_run) !! 6%nat
    = Some (AsyncWrite 0 5000 (HttpMessage (mkReqMsg "POST" "/a%20b" 11
        [("Host", "example.com:8080"); ("User-Agent", "volley/1.1.0"); ("Content-Length", "1");
         ("Accept", "*/*")] "x")))
  ∧ List.length (sys_log demo_run) = 8%nat.
Proof. split; vm_compute; reflexivity. Qed.


Lemma http_write_at_most_once_witness :
  ∃ q p, sys_reqs demo_run !! 1%nat = Some (q, p)
    ∧ (writes (own_log 1 (sys_log demo_run)) + (if is_write <$> pending p is Some true then 1 else 0) ≤ 1)%nat.
Proof.
  do 2 eexists. split; [vm_compute; reflexivity|].
  exact (http_write_at_most_once all_verbs demo_client demo_run 1 (demo_request "POST") _ demo_reachable
           ltac:(vm_compute; reflexivity)).
Defined.

Lemma http_request_answered_witness :
  ∃ q p, sys_reqs demo_run !! 1%nat = Some (q, p)
    ∧ (List.length (own_log 1 (sys_log demo_run)) + (if pending p is Some _ then 1 else 0) ≤ 11)%nat.
Proof.
  do 2 eexists. split; [vm_compute; reflexivity|].
  exact (proj1 (http_request_answered all_verbs (λ _, false) default_tls true demo_client demo_run 1
    (demo_request "POST") _ demo_made demo_reachable ltac:(vm_compute; reflexivity))).
Defined.

(** The kept connection times out while the answer is read. *)
Definition timeout_env (ops : list Op) (o : Op) : reply o :=
  match o with
  | AsyncReadMessage _ _ => mkRead (Some BeastTimeout) (mkResMsg 0 [] "") 5000000000
  | o => demo_env o
  end.

Lemma kept_read_timeout_retried_witness :
  let c := set_cached (Some (7%nat, mkConn (Some 3%nat) None "example.com" 8080 false)) demo_client in
  pending (drive 4 timeout_env [] c (async_request all_verbs (demo_request "GET") 0 c).2).2
    = Some (AsyncResolve "example.com" "8080").
Proof.
  intros c.
  pose proof (kept_read_timeout_retried all_verbs (demo_request "GET") c 7
    (mkConn (Some 3%nat) None "example.com" 8080 false) 3 BeastTimeout 0 timeout_env
    eq_refl eq_refl eq_refl eq_refl eq_refl eq_refl eq_refl ltac:(done) eq_refl
    ltac:(done) ltac:(done) ltac:(done) ltac:(done)) as H.
  destruct (drive _ _ _ _ _) as [[c' ops] p]. destruct H as (_ & _ & H & _). exact (H eq_refl).
Defined.
