(* ===== verification/RawClients.v ===== *)
(** * The raw TCP and the WebSocket client

    [core/net/tcp_raw_client.cpp] and [core/net/ws_client.cpp]: one connection per
    request, the body written as it is and one answer read.  Both keep the same members
    and set TLS up by the same lines; a success is reported with the status 1. *)

From S2P Require Import Prelude CppString Result Url Constants Async Tls Protocol.

Local Open Scope Z_scope.

(** [src/core/net/tcp_raw_client.cpp:261-263] TcpRawClient::Impl *)
Record RawClient := mkRaw { timeout_ms_ : Z; tls_ctx_ : option TlsContext; next_ : nat }.

(** [src/core/net/tcp_raw_client.cpp:24-28] TcpRawClient::Impl::Impl *)
Definition make_raw (throws : SslCall → bool) (tls_config : TlsConfig) : option RawClient :=
  ctx ← make_tls_context throws tls_config; Some (mkRaw kDefaultTimeout (Some ctx) 0).

(** [src/core/net/tcp_raw_client.cpp:67-69] TcpRawClient::Impl::set_timeout *)
Definition raw_set_timeout (ms : Z) (c : RawClient) : RawClient := mkRaw ms (tls_ctx_ c) (next_ c).

(** [src/core/net/tcp_raw_client.cpp:257-259] TcpRawClient::Impl::get_timeout *)
Definition get_timeout (c : RawClient) : Z := timeout_ms_ c.

Definition new_stream (c : RawClient) : StreamId * RawClient :=
  (next_ c, mkRaw (timeout_ms_ c) (tls_ctx_ c) (S (next_ c))).

Definition M : Type := RawClient → RawClient * Proc RawClient Response.

Definition fail (response : Response) (e : Err) : M := call_handler (with_ec response e).

(** The TLS handshake on a connected stream, up to what follows it. *)
(** [src/core/net/tcp_raw_client.cpp:139-152] TcpRawClient::Impl::connect_tls *)
Definition handshake (stream : StreamId) (response : Response) (next : M) : M := λ c,
  (c, Await (AsyncTlsHandshake stream (get_timeout c)) (λ e,
    match e with Some _ => fail response E_tls_handshake_failed | None => next end)).

(** [src/core/net/tcp_raw_client.cpp:132-137] TcpRawClient::Impl::connect_tls *)
Definition verify_host (stream : StreamId) (h : string) (next : M) : M := λ c,
  match tls_ctx_ c with
  | None => (c, Crash)
  | Some ctx => if is_verify_enabled ctx then (c, Await (SetVerifyCallback stream h) (λ _, next)) else next c
  end.

(** [src/core/net/tcp_raw_client.cpp:125-130] TcpRawClient::Impl::connect_tls *)
Definition set_host_name (stream : StreamId) (h : string) (response : Response) (next : M) : M := λ c,
  if negb (host_is_ip_literal h)
  then (c, Await (SetTlsHostName stream h) (λ ok,
         if negb ok then fail response E_tls_handshake_failed else next))
  else next c.

(** ** Raw TCP *)
Module TcpRaw.

(** [src/core/net/tcp_raw_client.cpp:156-175] TcpRawClient::Impl::populate_response *)
Definition populate_response (response : Response) (a : ReadReply string) (start_time : Z) : Response :=
  let response := with_latency response (latency_since start_time (read_at a)) in
  match read_ec a with
  | Some e => with_ec response (if decide (e = BeastTimeout) then E_timeout else E_read_error)
  | None => mkResponse 1 (read_data a) (resp_headers response) (latency response) (ec response)
              (body_truncated response)
  end.

(** [src/core/net/tcp_raw_client.cpp:177-215] TcpRawClient::Impl::send_raw *)
Definition send_raw (stream : StreamId) (data : string) (response : Response) (start_time : Z) : M := λ c,
  (c, Await (AsyncWrite stream (get_timeout c) (Bytes data)) (λ e,
    match e with
    | Some _ => fail response E_write_error
    | None => λ c,
        (c, Await (AsyncReadSome stream (get_timeout c)) (λ a,
          call_handler (populate_response response a start_time)))
    end)).

(** The same on the TLS stream. *)
(** [src/core/net/tcp_raw_client.cpp:217-255] TcpRawClient::Impl::send_raw_tls *)
Definition send_raw_tls (ssl_stream : StreamId) (data : string) (response : Response) (start_time : Z) : M := λ c,
  (c, Await (AsyncWrite ssl_stream (get_timeout c) (Bytes data)) (λ e,
    match e with
    | Some _ => fail response E_write_error
    | None => λ c,
        (c, Await (AsyncReadSome ssl_stream (get_timeout c)) (λ a,
          call_handler (populate_response response a start_time)))
    end)).

(** [src/core/net/tcp_raw_client.cpp:72-96] TcpRawClient::Impl::connect_tcp *)
Definition connect_tcp (results : Endpoints) (req : Request) (response : Response) (start_time : Z) : M := λ c,
  let (stream, c) := new_stream c in
  (c, Await (AsyncConnect stream (get_timeout c) results) (λ e,
    match e with
    | Some e => fail response (connect_error e)
    | None => send_raw stream (body req) response start_time
    end)).

(** [src/core/net/tcp_raw_client.cpp:98-154] TcpRawClient::Impl::connect_tls *)
Definition connect_tls (results : Endpoints) (req : Request) (response : Response) (start_time : Z) : M := λ c,
  let (stream, c) := new_stream c in
  (c, Await (AsyncConnect stream (get_timeout c) results) (λ e,
    match e with
    | Some e => fail response (connect_error e)
    | None => λ c,
        match tls_ctx_ c with
        | None => (c, Crash)
        | Some _ =>
            set_host_name stream (host req) response
              (verify_host stream (host req)
                (handshake stream response
                  (send_raw_tls stream (body req) response start_time))) c
        end
    end)).

(** [src/core/net/tcp_raw_client.cpp:30-65] TcpRawClient::Impl::async_request *)
Definition async_request (req : Request) (start_time : Z) : M := λ c,
  if use_tls req && bool_decide (tls_ctx_ c = None)
  then fail empty_response E_tls_verify_failed c
  else
    (c, Await (AsyncResolve (host req) (to_string (port req))) (λ a,
      let (e, results) := a in
      match e with
      | Some e => fail empty_response (resolve_error e)
      | None => if use_tls req then connect_tls results req empty_response start_time
                else connect_tcp results req empty_response start_time
      end)).

End TcpRaw.

(** ** WebSocket *)
Module Ws.

(** [src/core/net/ws_client.cpp:176-195] WsClient::Impl::populate_response *)
Definition populate_response (response : Response) (a : ReadReply string) (start_time : Z) : Response :=
  let response := with_latency response (latency_since start_time (read_at a)) in
  match read_ec a with
  | Some _ => with_ec response E_read_error
  | None => mkResponse 1 (read_data a) (resp_headers response) (latency response) (ec response)
              (body_truncated response)
  end.

(** [src/core/net/ws_client.cpp:197-228] WsClient::Impl::send_message *)
Definition send_message (ws : StreamId) (data : string) (response : Response) (start_time : Z) : M := λ c,
  (c, Await (AsyncWrite ws (timeout_ms_ c) (Bytes data)) (λ e,
    match e with
    | Some _ => fail response E_write_error
    | None => λ c,
        (c, Await (AsyncReadSome ws (timeout_ms_ c)) (λ a,
          call_handler (populate_response response a start_time)))
    end)).

(** [src/core/net/ws_client.cpp:230-261] WsClient::Impl::send_message_tls *)
Definition send_message_tls (ws : StreamId) (data : string) (response : Response) (start_time : Z) : M := λ c,
  (c, Await (AsyncWrite ws (timeout_ms_ c) (Bytes data)) (λ e,
    match e with
    | Some _ => fail response E_write_error
    | None => λ c,
        (c, Await (AsyncReadSome ws (timeout_ms_ c)) (λ a,
          call_handler (populate_response response a start_time)))
    end)).

(** [src/core/net/ws_client.cpp:93-93] WsClient::Impl::connect_ws *)
Definition ws_target (req : Request) : string := if is_empty (path req) then "/" else path req.

(** [src/core/net/ws_client.cpp:70-107] WsClient::Impl::connect_ws *)
Definition connect_ws (results : Endpoints) (req : Request) (response : Response) (start_time : Z) : M := λ c,
  let (ws, c) := new_stream c in
  (c, Await (AsyncConnect ws (timeout_ms_ c) results) (λ e,
    match e with
    | Some e => fail response (connect_error e)
    | None => λ c,
        (c, Await (AsyncWsHandshake ws (Some (timeout_ms_ c)) (host req) (ws_target req)) (λ e,
          match e with
          | Some _ => fail response E_protocol_violation
          | None => send_message ws (body req) response start_time
          end))
    end)).

(** The stream is made from the context, before it is connected; the WebSocket
    handshake runs on the timer of the TLS handshake. *)
(** [src/core/net/ws_client.cpp:109-174] WsClient::Impl::connect_wss *)
Definition connect_wss (results : Endpoints) (req : Request) (response : Response) (start_time : Z) : M := λ c,
  match tls_ctx_ c with
  | None => (c, Crash)
  | Some _ =>
      let (ws, c) := new_stream c in
      (c, Await (AsyncConnect ws (timeout_ms_ c) results) (λ e,
        match e with
        | Some e => fail response (connect_error e)
        | None =>
            set_host_name ws (host req) response
              (verify_host ws (host req)
                (handshake ws response (λ c,
                  (c, Await (AsyncWsHandshake ws None (host req) (ws_target req)) (λ e,
                    match e with
                    | Some _ => fail response E_protocol_violation
                    | None => send_message_tls ws (body req) response start_time
                    end)))))
        end))
  end.

(** [src/core/net/ws_client.cpp:28-63] WsClient::Impl::async_request *)
Definition async_request (req : Request) (start_time : Z) : M := λ c,
  if use_tls req && bool_decide (tls_ctx_ c = None)
  then fail empty_response E_tls_verify_failed c
  else
    (c, Await (AsyncResolve (host req) (to_string (port req))) (λ a,
      let (e, results) := a in
      match e with
      | Some e => fail empty_response (resolve_error e)
      | None => if use_tls req then connect_wss results req empty_response start_time
                else connect_ws results req empty_response start_time
      end)).

End Ws.

(** ** What the clients do, among other requests on the same client *)

Definition raw_starts (m : Request → Z → M) (q : Request) (c : RawClient)
    (cp : RawClient * Proc RawClient Response) : Prop := ∃ now, m q now c = cp.

Inductive raw_setter : RawClient → RawClient → Prop :=
  | raw_setter_timeout ms c : raw_setter c (raw_set_timeout ms c).

Section Reach.
Context (tc : TlsContext) (ws : bool).
Abbreviation Log := (list (nat * Event)).
Abbreviation verify := (is_verify_enabled tc).

Definition has_ctx (log : Log) (c : RawClient) : Prop := tls_ctx_ c = Some tc.

(** The stream is ready for the body of [q]. *)
Definition ready (q : Request) (log : Log) (s : StreamId) : Prop :=
  established log verify s (host q) (port q) (use_tls q)
  ∧ (ws = true → ∃ t, did log (AsyncWsHandshake s t (host q) (Ws.ws_target q)) None).

Definition op_ok (i : nat) (q : Request) (log : Log) (o : Op) : Prop :=
  match o with
  | AsyncWrite s _ d => ready q log s ∧ d = Bytes (body q)
  | AsyncReadSome s _ => ready q log s ∧ ∃ t d, (i, mkEvent (AsyncWrite s t d) None) ∈ log
  | AsyncTlsHandshake s _ => tls_ready log verify s (host q)
  | _ => True
  end.

Definition response_ok (i : nat) (q : Request) (log : Log) (r : Response) : Prop :=
  (ec r ≠ None ∧ status_code r = 0 ∧ resp_body r = "")
  ∨ (ec r = None ∧ status_code r = 1
     ∧ ∃ s t a, (i, mkEvent (AsyncReadSome s t) a) ∈ log ∧ read_ec a = None ∧ resp_body r = read_data a).

Lemma has_ctx_mono log more c : has_ctx log c → has_ctx (log ++ more) c.
Proof. done. Qed.

Lemma ready_mono q log more s : ready q log s → ready q (log ++ more) s.
Proof.
  intros [He Hw]. split; [eauto with net|]. intros H. destruct (Hw H) as [t Ht]. eauto with net.
Qed.

Hint Resolve ready_mono : net.

Lemma raw_op_ok_mono i q log more o : op_ok i q log o → op_ok i q (log ++ more) o.
Proof.
  destruct o; cbn; try done; [by eauto with net|naive_solver eauto with net|].
  intros [He (t & d & H)]. split; [by eauto with net|]. exists t, d. apply elem_of_app. by left.
Qed.

Lemma raw_response_ok_mono i q log more r : response_ok i q log r → response_ok i q (log ++ more) r.
Proof.
  intros [H|(He & Hs & s & t & a & Hl & ?)]; [by left|right]. split_and!; [done..|]. exists s, t, a.
  split; [apply elem_of_app; by left|done].
Qed.

Abbreviation good := (Async.good has_ctx op_ok response_ok).

Lemma fail_good i q log e : good i q log (fail empty_response e).
Proof. apply good_handler. by left. Qed.

Ltac await_step := apply good_await; [apply has_ctx_mono| |intros ?more ?a|done].

Lemma handshake_good i q log s next :
  tls_ready log verify s (host q) →
  (∀ more t, good i q ((log ++ more) ++ [(i, mkEvent (AsyncTlsHandshake s t) None)]) next) →
  good i q log (handshake s empty_response next).
Proof.
  intros Hr Hn c Hc. unfold handshake. await_step; [done|]. destruct a; [apply fail_good|apply Hn].
Qed.

(** TLS on a connected stream: once it is up, the stream is established. *)
Lemma tls_good i q log eps s t next :
  use_tls q = true →
  did log (AsyncResolve (host q) (to_string (port q))) (None, eps) → did log (AsyncConnect s t eps) None →
  (∀ more, established (log ++ more) verify s (host q) (port q) true → good i q (log ++ more) next) →
  good i q log (set_host_name s (host q) empty_response
                  (verify_host s (host q) (handshake s empty_response next))).
Proof.
  intros Hu Hd Hco Hn.
  assert (Hh : ∀ more, tls_ready (log ++ more) verify s (host q) →
    good i q (log ++ more) (handshake s empty_response next)).
  { intros more Hr. apply handshake_good; [done|]. intros more' t'.
    rewrite <-!(assoc_L (++)). apply Hn. rewrite !(assoc_L (++)).
    exists eps, t. split_and!; eauto 7 with net. }
  assert (Hv : ∀ more, (host_is_ip_literal (host q) = false → did (log ++ more) (SetTlsHostName s (host q)) true) →
    good i q (log ++ more) (verify_host s (host q) (handshake s empty_response next))).
  { intros more Hip c Hc. unfold verify_host. rewrite Hc. destruct verify eqn:Ev.
    - await_step; [done|]. rewrite <-!(assoc_L (++)). apply Hh. rewrite !(assoc_L (++)). destruct a.
      split; [eauto with net|intros _; apply did_last].
    - by apply Hh. }
  intros c Hc. unfold set_host_name. destruct (host_is_ip_literal (host q)) eqn:Hip; cbn [negb].
  - rewrite <-(app_nil_r log) in Hc |- *. by apply Hv.
  - await_step; [done|]. destruct a; cbn [negb]; [|apply fail_good].
    rewrite <-(assoc_L (++)). apply Hv. intros _. rewrite (assoc_L (++)). apply did_last.
Qed.

(** The exchange both clients end with, given how the answer is turned into a response. *)
Lemma exchange_good i q log s (populate : ReadReply string → Response) :
  ready q log s →
  (∀ a, ec (populate a) ≠ None ∧ status_code (populate a) = 0 ∧ resp_body (populate a) = ""
        ∨ read_ec a = None ∧ ec (populate a) = None ∧ status_code (populate a) = 1
          ∧ resp_body (populate a) = read_data a) →
  good i q log (λ c,
    (c, Await (AsyncWrite s (timeout_ms_ c) (Bytes (body q))) (λ e,
      match e with
      | Some _ => fail empty_response E_write_error
      | None => λ c, (c, Await (AsyncReadSome s (timeout_ms_ c)) (λ a, call_handler (populate a)))
      end))).
Proof.
  intros Hr Hp c Hc. await_step; [done|]. destruct a; [apply fail_good|]. intros c' Hc'. await_step.
  { cbn. split; [eauto with net|]. do 2 eexists. apply elem_of_app. right. by left. }
  apply good_handler. destruct (Hp a) as [?|(Ha & ? & ? & ?)]; [by left|right]. split_and!; [done..|].
  do 3 eexists. split; [apply elem_of_app; right; by left|done].
Qed.

End Reach.

Lemma tcp_populate_cases now a (r := TcpRaw.populate_response empty_response a now) :
  ec r ≠ None ∧ status_code r = 0 ∧ resp_body r = ""
  ∨ read_ec a = None ∧ ec r = None ∧ status_code r = 1 ∧ resp_body r = read_data a.
Proof. unfold r, TcpRaw.populate_response. destruct (read_ec a); [by left|by right]. Qed.

Lemma ws_populate_cases now a (r := Ws.populate_response empty_response a now) :
  ec r ≠ None ∧ status_code r = 0 ∧ resp_body r = ""
  ∨ read_ec a = None ∧ ec r = None ∧ status_code r = 1 ∧ resp_body r = read_data a.
Proof. unfold r, Ws.populate_response. destruct (read_ec a); [by left|by right]. Qed.

Lemma tcp_request_good tc i q log now :
  Async.good (has_ctx tc) (op_ok tc false) response_ok i q log (TcpRaw.async_request q now).
Proof.
  intros c Hc. unfold TcpRaw.async_request. rewrite Hc, bool_decide_eq_false_2, andb_false_r by done.
  apply good_await; [apply has_ctx_mono|done| |done]. intros more [[e|] eps]; [apply fail_good|].
  destruct (use_tls q) eqn:Hu; intros c1 Hc1; unfold TcpRaw.connect_tls, TcpRaw.connect_tcp; cbn [new_stream];
    (apply good_await; [apply has_ctx_mono|done| |done]); intros more1 [e|]; try apply fail_good.
  - intros c2 Hc2. rewrite Hc2. eapply tls_good; [done|eauto with net..| |done].
    intros more2 He. apply (exchange_good tc false i q _ _ (λ a, TcpRaw.populate_response empty_response a now));
      [|apply tcp_populate_cases]. split; [by rewrite Hu|done].
  - apply (exchange_good tc false i q _ _ (λ a, TcpRaw.populate_response empty_response a now));
      [|apply tcp_populate_cases]. split; [|done].
    do 2 eexists. rewrite Hu. split_and!; eauto with net; done.
Qed.

Lemma ws_request_good tc i q log now :
  Async.good (has_ctx tc) (op_ok tc true) response_ok i q log (Ws.async_request q now).
Proof.
  intros c Hc. unfold Ws.async_request. rewrite Hc, bool_decide_eq_false_2, andb_false_r by done.
  apply good_await; [apply has_ctx_mono|done| |done]. intros more [[e|] eps]; [apply fail_good|].
  destruct (use_tls q) eqn:Hu; intros c1 Hc1; unfold Ws.connect_wss, Ws.connect_ws; rewrite ?Hc1; cbn [new_stream];
    (apply good_await; [apply has_ctx_mono|done| |done]); intros more1 [e|]; try apply fail_good.
  - eapply tls_good; [done|eauto with net..|]. intros more2 He c2 Hc2.
    apply good_await; [apply has_ctx_mono|done| |done]. intros more3 [e|]; [apply fail_good|].
    apply (exchange_good tc true i q _ _ (λ a, Ws.populate_response empty_response a now));
      [|apply ws_populate_cases]. split; [rewrite Hu; eauto with net|eauto with net].
  - intros c2 Hc2. apply good_await; [apply has_ctx_mono|done| |done]. intros more3 [e|]; [apply fail_good|].
    apply (exchange_good tc true i q _ _ (λ a, Ws.populate_response empty_response a now));
      [|apply ws_populate_cases]. split; [|eauto with net].
    do 2 eexists. rewrite Hu. split_and!; eauto 7 with net; done.
Qed.

Ltac raw_bounded :=
  unfold TcpRaw.async_request, TcpRaw.connect_tls, TcpRaw.connect_tcp, TcpRaw.send_raw, TcpRaw.send_raw_tls,
    Ws.async_request, Ws.connect_wss, Ws.connect_ws, Ws.send_message, Ws.send_message_tls,
    set_host_name, verify_host, handshake, fail, new_stream;
  bounded_tac.

(** The two clients by the flag. *)
Definition raw_request (ws : bool) : Request → Z → M :=
  if ws then Ws.async_request else TcpRaw.async_request.

Lemma raw_bounded_start ws q c c' p : raw_starts (raw_request ws) q c (c', p) → bounded 8 1 p.
Proof.
  intros [now E]. assert (p = (raw_request ws q now c).2) as -> by by rewrite E.
  destruct ws; cbn [raw_request]; raw_bounded.
Qed.

Lemma raw_reachable_inv ws tc c0 sy :
  tls_ctx_ c0 = Some tc → reachable (raw_starts (raw_request ws)) raw_setter c0 sy →
  sys_inv (has_ctx tc) (op_ok tc ws) response_ok sy.
Proof.
  intros Ht. apply steps_obey.
  - apply raw_op_ok_mono.
  - apply raw_response_ok_mono.
  - done.
  - intros i q p c c' log [now Hs] Hc. destruct ws; cbn [raw_request] in Hs.
    + pose proof (ws_request_good tc i q log now c Hc) as H. by rewrite Hs in H.
    + pose proof (tcp_request_good tc i q log now c Hc) as H. by rewrite Hs in H.
  - intros c c' log []. done.
Qed.


(** ** A concrete run *)

Definition ws_demo_env (o : Op) : reply o :=
  match o with
  | AsyncResolve _ _ => (None, [("192.0.2.1", 443)])
  | AsyncReadMessage _ _ => mkRead None (mkResMsg 200 [] "") 0
  | AsyncReadSome _ _ => mkRead None "pong" 1000
  | SetTlsHostName _ _ => true
  | SetVerifyCallback _ _ => ()
  | AsyncConnect _ _ _ | AsyncTlsHandshake _ _ | AsyncWsHandshake _ _ _ _
  | AsyncWrite _ _ _ | SetNonBlocking _ | PeekByte _ => None
  end.

Definition ws_demo_request : Request := mkRequest "GET" "" "ping" [] "example.com" 443 true "ws".

Definition ws_demo_client : RawClient :=
  mkRaw 5000 (Some (mkTlsContext [NewContext TLS_1_2;
       SetOptions [default_workarounds; no_sslv2; no_sslv3; no_tlsv1; no_tlsv1_1];
       SetVerifyMode ssl_verify_peer; SetDefaultVerifyPaths] true false)) 0.

Definition ws_demo_run : Sys Request RawClient Response :=
  let (c, p) := Ws.async_request ws_demo_request 0 ws_demo_client in
  complete_all 8 ws_demo_env 0 (mkSys c [] [(ws_demo_request, p)]).

Lemma ws_demo_reachable : reachable (raw_starts (raw_request true)) raw_setter ws_demo_client ws_demo_run.
Proof.
  apply complete_all_reachable. eapply (start_reachable _ _ _ (mkSys _ [] [])); [apply rtc_refl|].
  exists 0. reflexivity.
Qed.

