(* ===== verification/Connection.v ===== *)
(** * Connections and connectors

    [core/net/connection.cpp]: the [Connection] interface over a plain and a TLS stream,
    and the [Connector]s that open them. *)

From S2P Require Import Prelude CppString Result Url Constants Async Protocol.

Local Open Scope Z_scope.

(** A [std::error_code] handed to a caller: one of the program's own or one of the
    library's. *)
Inductive StdError := Own (e : Err) | Lib (e : ErrorCode).

(** What Asio tells of a socket. *)
Record Socket := mkSocket { sock_open : bool; sock_peer : option (string * Z) }.

Definition closed_socket : Socket := mkSocket false None.

(** Both classes hold a stream and a timeout; the stream of [SslConnection] is a TLS
    stream. *)
(** [src/include/cppload/net/connection.hpp:67-68] TcpConnection *)
Record Connection := mkConnection {
  conn_tls : bool; stream_ : StreamId; socket : Socket; timeout_ : Z }.

Definition M : Type := Connection → Connection * Proc Connection (option StdError * string).

(** [src/core/net/connection.cpp:32-32] TcpConnection::async_write *)
Definition map_aborted (e : error_code) : option StdError :=
  match e with
  | Some e => Some (if decide (e = OperationAborted) then Own E_operation_cancelled else Lib e)
  | None => None
  end.

(** The number of bytes goes to the handler unchanged: [async_write] writes all of the
    buffer or fails, and a read hands over what it read. *)
Module Tcp.

(** [src/core/net/connection.cpp:20-23] TcpConnection::TcpConnection *)
Definition make (s : StreamId) : Connection := mkConnection false s closed_socket kDefaultTimeout.

(** [src/core/net/connection.cpp:25-34] TcpConnection::async_write *)
Definition async_write (buffer : string) : M := λ c,
  (c, Await (AsyncWrite (stream_ c) (timeout_ c) (Bytes buffer)) (λ e, call_handler (map_aborted e, ""))).

(** [src/core/net/connection.cpp:36-49] TcpConnection::async_read_some *)
Definition async_read_some : M := λ c,
  (c, Await (AsyncReadSome (stream_ c) (timeout_ c)) (λ a, call_handler (map_aborted (read_ec a), read_data a))).

(** [src/core/net/connection.cpp:51-55] TcpConnection::close *)
Definition close (c : Connection) : Connection :=
  mkConnection (conn_tls c) (stream_ c) closed_socket (timeout_ c).

(** [src/core/net/connection.cpp:57-59] TcpConnection::set_timeout *)
Definition set_timeout (ms : Z) (c : Connection) : Connection :=
  mkConnection (conn_tls c) (stream_ c) (socket c) ms.

(** [src/core/net/connection.cpp:61-63] TcpConnection::is_open *)
Definition is_open (c : Connection) : bool := sock_open (socket c).

(** [src/core/net/connection.cpp:65-69] TcpConnection::remote_address *)
Definition remote_address (c : Connection) : string :=
  match sock_peer (socket c) with None => "" | Some ep => ep.1 end.

(** [src/core/net/connection.cpp:71-75] TcpConnection::remote_port *)
Definition remote_port (c : Connection) : Z :=
  match sock_peer (socket c) with None => 0 | Some ep => ep.2 end.

End Tcp.

Module Ssl.

(** [src/core/net/connection.cpp:81-86] SslConnection::SslConnection *)
Definition make (s : StreamId) : Connection := mkConnection true s closed_socket kDefaultTimeout.

(** [src/core/net/connection.cpp:88-97] SslConnection::async_write *)
Definition async_write (buffer : string) : M := λ c,
  (c, Await (AsyncWrite (stream_ c) (timeout_ c) (Bytes buffer)) (λ e, call_handler (map_aborted e, ""))).

(** [src/core/net/connection.cpp:99-112] SslConnection::async_read_some *)
Definition async_read_some : M := λ c,
  (c, Await (AsyncReadSome (stream_ c) (timeout_ c)) (λ a, call_handler (map_aborted (read_ec a), read_data a))).

(** [src/core/net/connection.cpp:114-126] SslConnection::async_handshake *)
Definition async_handshake : M := λ c,
  (c, Await (AsyncTlsHandshake (stream_ c) (timeout_ c)) (λ e,
    call_handler (match e with Some _ => Some (Own E_tls_handshake_failed) | None => None end, ""))).

(** [src/core/net/connection.cpp:128-132] SslConnection::close *)
Definition close (c : Connection) : Connection :=
  mkConnection (conn_tls c) (stream_ c) closed_socket (timeout_ c).

(** [src/core/net/connection.cpp:134-136] SslConnection::set_timeout *)
Definition set_timeout (ms : Z) (c : Connection) : Connection :=
  mkConnection (conn_tls c) (stream_ c) (socket c) ms.

(** [src/core/net/connection.cpp:138-140] SslConnection::is_open *)
Definition is_open (c : Connection) : bool := sock_open (socket c).

(** [src/core/net/connection.cpp:142-146] SslConnection::remote_address *)
Definition remote_address (c : Connection) : string :=
  match sock_peer (socket c) with None => "" | Some ep => ep.1 end.

(** [src/core/net/connection.cpp:148-152] SslConnection::remote_port *)
Definition remote_port (c : Connection) : Z :=
  match sock_peer (socket c) with None => 0 | Some ep => ep.2 end.

End Ssl.

(** ** Connectors

    The state is the connector's timeout and the heap's next address.  The timeout in
    force is the one at the call of [async_connect]. *)
(** [src/include/cppload/net/connection.hpp:129-130] TcpConnector *)
Record Connector := mkConnector { ctor_timeout : Z; heap_next : nat }.

Definition CM : Type := Connector → Connector * Proc Connector (option Err * option Connection).

(** [src/core/net/connection.cpp:200-202] TcpConnector::set_timeout *)
Definition connector_set_timeout (ms : Z) (c : Connector) : Connector := mkConnector ms (heap_next c).

Definition new_object (c : Connector) : nat * Connector :=
  (heap_next c, mkConnector (ctor_timeout c) (S (heap_next c))).

(** A connection whose socket was connected to one of the endpoints. *)
Definition connected (results : Endpoints) (c : Connection) : Connection :=
  mkConnection (conn_tls c) (stream_ c) (mkSocket true (head results)) (timeout_ c).

Definition connect_fails (e : Err) : CM := call_handler (Some e, None).

(** [src/core/net/connection.cpp:163-198] TcpConnector::async_connect *)
Definition tcp_connect (host : string) (port : Z) : CM := λ c,
  let timeout := ctor_timeout c in
  (c, Await (AsyncResolve host (to_string port)) (λ a,
    let (e, results) := a in
    match e with
    | Some e => connect_fails (resolve_error e)
    | None => λ c,
        let (s, c) := new_object c in
        let conn := Tcp.make s in
        (c, Await (AsyncConnect s timeout results) (λ e,
          match e with
          | Some e => connect_fails (connect_error e)
          | None => call_handler (None, Some (connected results conn))
          end))
    end)).

(** The check of the host name is always installed. *)
(** [src/core/net/connection.cpp:263-280] SslConnector::async_connect *)
Definition ssl_finish (host : string) (timeout : Z) (conn : Connection) : CM := λ c,
  (c, Await (SetVerifyCallback (stream_ conn) host) (λ _ c,
    (c, Await (AsyncTlsHandshake (stream_ conn) timeout) (λ e,
      match e with
      | Some _ => connect_fails E_tls_handshake_failed
      | None => call_handler (None, Some conn)
      end)))).

(** [src/core/net/connection.cpp:215-282] SslConnector::async_connect *)
Definition ssl_connect (host : string) (port : Z) : CM := λ c,
  let timeout := ctor_timeout c in
  (c, Await (AsyncResolve host (to_string port)) (λ a,
    let (e, results) := a in
    match e with
    | Some e => connect_fails (resolve_error e)
    | None => λ c,
        let (s, c) := new_object c in
        (c, Await (AsyncConnect s timeout results) (λ e,
          match e with
          | Some e => connect_fails (connect_error e)
          | None => λ c,
              let conn := connected results (Ssl.make s) in
              if negb (host_is_ip_literal host)
              then (c, Await (SetTlsHostName s host) (λ ok,
                     if negb ok then connect_fails E_tls_handshake_failed else ssl_finish host timeout conn))
              else ssl_finish host timeout conn c
          end))
    end)).

(** ** What a connector hands over *)

Inductive connector_setter : Connector → Connector → Prop :=
  | connector_setter_timeout ms c : connector_setter c (connector_set_timeout ms c).

Definition connector_call (tls : bool) (q : string * Z) : CM :=
  if tls then ssl_connect q.1 q.2 else tcp_connect q.1 q.2.

Definition connector_starts (tls : bool) (q : string * Z) (c : Connector)
    (cp : Connector * Proc Connector (option Err * option Connection)) : Prop :=
  connector_call tls q c = cp.

Section Reach.
Context (tls : bool).
Abbreviation Log := (list (nat * Event)).

Definition any_state (log : Log) (c : Connector) : Prop := True.

Definition op_ok (i : nat) (q : string * Z) (log : Log) (o : Op) : Prop :=
  match o with AsyncTlsHandshake s _ => tls_ready log true s q.1 | _ => True end.

Definition handed_over (i : nat) (q : string * Z) (log : Log) (r : option Err * option Connection) : Prop :=
  match r with
  | (Some _, None) => True
  | (None, Some c) => conn_tls c = tls ∧ sock_open (socket c) = true
                      ∧ established log true (stream_ c) q.1 q.2 tls
  | _ => False
  end.

Lemma connect_op_ok_mono i q log more o : op_ok i q log o → op_ok i q (log ++ more) o.
Proof. destruct o; cbn; eauto with net. Qed.

Lemma handed_over_mono i q log more r : handed_over i q log r → handed_over i q (log ++ more) r.
Proof. destruct r as [[] []]; cbn; naive_solver eauto with net. Qed.

Abbreviation good := (Async.good any_state op_ok handed_over).

Lemma connect_fails_good i q log e : good i q log (connect_fails e).
Proof. by apply good_handler. Qed.

Lemma ssl_finish_good i q log conn eps t t0 :
  tls = true → conn_tls conn = true → sock_open (socket conn) = true →
  did log (AsyncResolve q.1 (to_string q.2)) (None, eps) → did log (AsyncConnect (stream_ conn) t0 eps) None →
  (host_is_ip_literal q.1 = false → did log (SetTlsHostName (stream_ conn) q.1) true) →
  good i q log (ssl_finish q.1 t conn).
Proof.
  intros Htls Hc Ho Hd Hco Hn c _. unfold ssl_finish.
  apply good_await; [done|done| |done]. intros more [] c1 _.
  assert (Hr : tls_ready ((log ++ more) ++ [(i, mkEvent (SetVerifyCallback (stream_ conn) q.1) ())])
                 true (stream_ conn) q.1) by (split; [eauto with net|intros _; apply did_last]).
  apply good_await; [done|done| |done]. intros more' [e|]; [apply connect_fails_good|].
  apply good_handler. cbn. split_and!; [congruence|done|]. exists eps, t0. split_and!; eauto 7 with net.
Qed.

Lemma connector_good i q log : good i q log (connector_call tls q).
Proof.
  unfold connector_call, ssl_connect, tcp_connect. destruct tls eqn:Htls; intros c _;
    (apply good_await; [done|done| |done]); intros more [[e|] eps]; try apply connect_fails_good;
    intros c1 _; cbn [new_object]; (apply good_await; [done|done| |done]); intros more1 [e|];
    try apply connect_fails_good.
  - intros c2 _. destruct (host_is_ip_literal q.1) eqn:Hip; cbn [negb].
    + eapply ssl_finish_good; eauto with net; by rewrite ?Hip.
    + apply good_await; [done|done| |done]. intros more2 []; cbn [negb]; [|apply connect_fails_good].
      eapply ssl_finish_good; eauto with net.
  - apply good_handler. cbn. split_and!; [done..|]. do 2 eexists. rewrite Htls. split_and!; eauto with net; done.
Qed.

End Reach.

Lemma connector_bounded tls q c c' p : connector_starts tls q c (c', p) → bounded 5 0 p.
Proof.
  unfold connector_starts. intros E. assert (p = (connector_call tls q c).2) as -> by by rewrite E.
  unfold connector_call, ssl_connect, tcp_connect, ssl_finish, connect_fails, new_object.
  destruct tls; bounded_tac.
Qed.

(** A connector reports either an error and no connection, or no error and an open
    connection whose stream was connected to what the host and port given resolved to;
    for [SslConnector] the handshake succeeded with the host-name check installed and,
    unless the host is an address, the server name sent.  Nothing is written, and at most
    five operations are started, whatever the network does and however many connections
    are opened at once. *)
Theorem connector_hands_over tls c0 sy i q p :
  reachable (connector_starts tls) connector_setter c0 sy → sys_reqs sy !! i = Some (q, p) →
  p ≠ Crash
  ∧ (List.length (own_log i (sys_log sy)) + (if pending p is Some _ then 1 else 0) ≤ 5)%nat
  ∧ writes (own_log i (sys_log sy)) = 0%nat
  ∧ ∀ e oc, p = Handler (e, oc) →
      (e = None ↔ oc ≠ None)
      ∧ ∀ conn, oc = Some conn →
          conn_tls conn = tls ∧ sock_open (socket conn) = true
          ∧ established (sys_log sy) true (stream_ conn) q.1 q.2 tls.
Proof.
  intros Hr Hl.
  assert (sys_inv any_state op_ok (handed_over tls) sy) as [_ Hq _].
  { apply (steps_obey (connector_starts tls) connector_setter c0); [..|exact Hr].
    - apply connect_op_ok_mono.
    - apply handed_over_mono.
    - done.
    - intros j q' p' c c' log Hs _. pose proof (connector_good tls j q' log c I) as H.
      unfold connector_starts in Hs. by rewrite Hs in H.
    - done. }
  destruct (steps_bounded_log _ _ _ 5 (λ _, 0%nat) (connector_bounded tls) sy i q p Hr Hl).
  split_and!; [by eapply obeys_not_crash, Hq|done|lia|].
  intros e oc ->. pose proof (obeys_answered _ _ _ _ _ _ _ _ (Hq _ _ _ Hl) eq_refl) as H'.
  destruct e, oc; cbn in H'; try done; naive_solver.
Qed.

(** A TLS connection to an address: no server name is sent. *)
Definition connector_demo_env (o : Op) : reply o :=
  match o with
  | AsyncResolve _ _ => (None, [("192.0.2.7", 8443)])
  | AsyncReadMessage _ _ => mkRead None (mkResMsg 200 [] "") 0
  | AsyncReadSome _ _ => mkRead None "" 0
  | SetTlsHostName _ _ => true
  | SetVerifyCallback _ _ => ()
  | AsyncConnect _ _ _ | AsyncTlsHandshake _ _ | AsyncWsHandshake _ _ _ _
  | AsyncWrite _ _ _ | SetNonBlocking _ | PeekByte _ => None
  end.

Definition connector_demo :=
  let (c, p) := ssl_connect "192.0.2.7" 8443 (mkConnector 5000 0) in
  complete_all 5 connector_demo_env 0 (mkSys c [] [(("192.0.2.7", 8443), p)]).

Lemma connector_demo_reachable :
  reachable (connector_starts true) connector_setter (mkConnector 5000 0) connector_demo.
Proof.
  apply complete_all_reachable. eapply (start_reachable _ _ _ (mkSys _ [] [])); [apply rtc_refl|].
  reflexivity.
Qed.

Lemma connector_hands_over_witness :
  ∃ conn, sys_reqs connector_demo !! 0%nat = Some (("192.0.2.7", 8443), Handler (None, Some conn))
          ∧ (ev_op ∘ snd) <$> sys_log connector_demo
            = [AsyncResolve "192.0.2.7" "8443"; AsyncConnect 0 5000 [("192.0.2.7", 8443)];
               SetVerifyCallback 0 "192.0.2.7"; AsyncTlsHandshake 0 5000]
          ∧ conn_tls conn = true ∧ sock_open (socket conn) = true
          ∧ established (sys_log connector_demo) true (stream_ conn) "192.0.2.7" 8443 true.
Proof.
  eexists. split; [vm_compute; reflexivity|]. split; [vm_compute; reflexivity|].
  refine (proj2 (proj2 (proj2 (proj2 (connector_hands_over true (mkConnector 5000 0) connector_demo 0
    ("192.0.2.7", 8443) (Handler (None, Some _)) connector_demo_reachable _))) _ _ eq_refl) _ eq_refl).
  vm_compute. reflexivity.
Defined.
