(* ===== verification/Factory.v ===== *)
(** * The protocol factory and the pool of I/O contexts

    [core/net/protocol_factory.cpp]: the registry of protocols and the process-wide TLS
    settings; [core/io_context_pool.cpp]: the event loops and their threads. *)

From S2P Require Import Prelude CppString Result Async Tls Protocol HttpClient RawClients.

Local Open Scope Z_scope.

(** ** The registry *)

Inductive ProtocolClient := Http11 (c : HttpClient.Client) | TcpRawC (c : RawClient) | WsC (c : RawClient).

(** [ProtocolClient::name]. *)
(** [src/include/cppload/net/http_client.hpp:37-37] Http11Client::name *)
Definition client_name (c : ProtocolClient) : string :=
  match c with Http11 _ => "http1.1" | TcpRawC _ => "tcp_raw" | WsC _ => "ws" end.

(** A factory may throw ([None]). *)
Abbreviation FactoryFunc := (TlsConfig → option ProtocolClient).

Abbreviation Registry := (gmap string FactoryFunc).

Inductive CreateError := NotRegistered (code : Err) (what : string) | FactoryThrew.

Section Registry.
Context (throws : SslCall → bool).

(** [src/core/net/protocol_factory.cpp:17-33] ProtocolFactory::registry *)
Definition registry : Registry :=
  list_to_map [
    ("http1.1", λ tls, Http11 <$> make_client throws tls true);
    ("tcp_raw", λ tls, TcpRawC <$> make_raw throws tls);
    ("ws", λ tls, WsC <$> make_raw throws tls)].

(** [src/core/net/protocol_factory.cpp:40-56] ProtocolFactory::create *)
Definition create (reg : Registry) (protocol_name : string) (tls_config : TlsConfig)
    : Result ProtocolClient CreateError :=
  let key := if is_empty protocol_name then "http1.1" else protocol_name in
  match reg !! key with
  | Some factory => match factory tls_config with Some c => Ok c | None => Error FactoryThrew end
  | None => Error (NotRegistered E_not_implemented
                     ("protocol " +:+ String "034" protocol_name +:+ String "034" " is not registered"))
  end.

(** [src/core/net/protocol_factory.cpp:58-64] ProtocolFactory::register_protocol *)
Definition register_protocol (name : string) (factory : FactoryFunc) (reg : Registry) : Registry :=
  <[name := factory]> reg.

(** The order of the names is the hash table's. *)
(** [src/core/net/protocol_factory.cpp:66-73] ProtocolFactory::available_protocols *)
Definition available_protocols (reg : Registry) : list string := (map_to_list reg).*1.

(** Lookup in the registry: a name is created exactly by the factory last registered
    for it, the empty name stands for HTTP/1.1, a name that is not listed is refused with
    [not_implemented]; and every protocol of the initial registry makes a client of that
    name exactly when the TLS context can be built. *)
Theorem factory_create (reg : Registry) name f tls :
  (create (register_protocol name f reg) name tls
     = match f tls with Some c => Ok c | None => Error FactoryThrew end ∨ name = "")
  ∧ (∀ other, other ≠ name → (other = "" → name ≠ "http1.1") →
       create (register_protocol name f reg) other tls = create reg other tls)
  ∧ ("http1.1" ∈ available_protocols reg → create reg "" tls = create reg "http1.1" tls)
  ∧ ((∀ code what, create reg name tls ≠ Error (NotRegistered code what))
       ↔ (if is_empty name then "http1.1" else name) ∈ available_protocols reg)
  ∧ (∀ k, k ∈ ["http1.1"; "tcp_raw"; "ws"] → is_Some (make_tls_context throws tls) →
       ∃ c, create registry k tls = Ok c ∧ client_name c = k)
  ∧ (∀ k, make_tls_context throws tls = None → has_value (create registry k tls) = false).
Proof.
  unfold create, register_protocol, available_protocols. cbv zeta. split_and!.
  - destruct name as [|a s]; [by right|left]. cbn [is_empty].
    by rewrite lookup_insert_eq.
  - intros other Hne He. destruct other as [|a s]; cbn [is_empty]; rewrite lookup_insert_ne; auto.
  - intros ([k g] & Hk & H%elem_of_map_to_list)%list_elem_of_fmap. cbn [fst is_empty] in *. subst k.
    by rewrite H.
  - set (k := if is_empty name then _ else _). split.
    + intros H. destruct (reg !! k) eqn:E; [|by edestruct H].
      apply list_elem_of_fmap. eexists (_, _). split; [|by apply elem_of_map_to_list]. done.
    + intros ([k' f'] & -> & H%elem_of_map_to_list)%list_elem_of_fmap code what. cbn. rewrite H.
      by destruct (f' tls).
  - intros k Hk [t Ht]. unfold registry, make_client, make_raw.
    rewrite !elem_of_cons, elem_of_nil in Hk. destruct_or!; subst.
    all: cbn; simplify_map_eq; rewrite ?Ht; by eexists.
  - intros k Ht. set (key := if is_empty k then _ else _).
    assert (H : ∀ g, registry !! key = Some g → g tls = None).
    { unfold registry, make_client, make_raw. intros g Hg%elem_of_list_to_map_2.
      rewrite !elem_of_cons, elem_of_nil in Hg. destruct_or!; simplify_eq; cbn; by rewrite ?Ht. }
    destruct (registry !! key) as [g|] eqn:E; [|done]. by rewrite (H g).
Qed.

End Registry.

(** ** Process-wide TLS settings *)

(** [src/core/net/protocol_factory.cpp:13-15] ProtocolFactory *)
Record GlobalTls := mkGlobal { global_tls_config_ : TlsConfig; global_tls_ctx_ : option TlsContext }.

Section GlobalTls.
Context (throws : SslCall → bool).

(** The settings are stored before the context is built: an exception ([false]) leaves
    the new settings beside the old context. *)
(** [src/core/net/protocol_factory.cpp:75-79] ProtocolFactory::set_tls_config *)
Definition set_tls_config (cfg : TlsConfig) (g : GlobalTls) : GlobalTls * bool :=
  match make_tls_context throws cfg with
  | Some ctx => (mkGlobal cfg (Some ctx), true)
  | None => (mkGlobal cfg (global_tls_ctx_ g), false)
  end.

(** [src/core/net/protocol_factory.cpp:81-84] ProtocolFactory::tls_config *)
Definition tls_config (g : GlobalTls) : TlsConfig := global_tls_config_ g.

(** [src/core/net/protocol_factory.cpp:94-100] ProtocolFactory::ensure_tls_context *)
Definition ensure_tls_context (g : GlobalTls) : GlobalTls * bool :=
  match global_tls_ctx_ g with
  | Some _ => (g, true)
  | None => match make_tls_context throws (global_tls_config_ g) with
            | Some ctx => (mkGlobal (global_tls_config_ g) (Some ctx), true)
            | None => (g, false)
            end
  end.

(** [src/core/net/protocol_factory.cpp:86-92] ProtocolFactory::ssl_context *)
Definition ssl_context (g : GlobalTls) : GlobalTls * option (list SslCall) :=
  let (g, ok) := ensure_tls_context g in
  (g, if ok then ctx_ <$> global_tls_ctx_ g else None).

(** As long as no call throws, the context handed out is that of the settings. *)
Lemma ssl_context_current g cfg g1 g2 c :
  set_tls_config cfg g = (g1, true) → ssl_context g1 = (g2, c) →
  tls_config g2 = cfg ∧ c = ctx_ <$> make_tls_context throws cfg ∧ c ≠ None.
Proof.
  unfold set_tls_config, ssl_context, ensure_tls_context, tls_config.
  destruct (make_tls_context throws cfg); intros; by simplify_eq/=.
Qed.

(** After a call that threw, the settings are the new ones and the context the old. *)
Lemma set_tls_config_torn g cfg g1 ctx :
  global_tls_ctx_ g = Some ctx → set_tls_config cfg g = (g1, false) →
  tls_config g1 = cfg ∧ (ssl_context g1).2 = Some (ctx_ ctx).
Proof.
  unfold set_tls_config, ssl_context, ensure_tls_context, tls_config.
  intros Hc. destruct (make_tls_context throws cfg); intros; simplify_eq/=. by rewrite Hc.
Qed.

End GlobalTls.

(** ** The pool of I/O contexts *)

(** The members: per context whether [io_context::stop] was called on it, the number of
    work guards, the context each thread runs, the round-robin counter and the flag. *)
(** [src/include/cppload/core/io_context_pool.hpp:32-38] IoContextPool *)
Record IoPool := mkIoPool {
  contexts_ : list bool; work_guards_ : nat; threads_ : list nat; next_index : Z; started_ : bool }.

(** [hardware] is what [std::thread::hardware_concurrency] returns. *)
(** [src/core/io_context_pool.cpp:8-22] IoContextPool::IoContextPool *)
Definition make_io_pool (hardware : nat) (pool_size : nat) : IoPool :=
  let pool_size := match pool_size with
                   | O => match hardware with O => 2 | n => n end
                   | n => n
                   end%nat in
  mkIoPool (replicate pool_size false) pool_size [] 0 false.

(** [src/core/io_context_pool.cpp:28-39] IoContextPool::start *)
Definition io_start (p : IoPool) : IoPool :=
  if started_ p then p
  else mkIoPool (contexts_ p) (work_guards_ p) (threads_ p ++ seq 0 (List.length (contexts_ p)))
         (next_index p) true.

(** The threads end, because their contexts are stopped, and are joined. *)
(** [src/core/io_context_pool.cpp:41-57] IoContextPool::stop *)
Definition io_stop (p : IoPool) : IoPool :=
  mkIoPool ((λ _, true) <$> contexts_ p) 0 [] (next_index p) false.

(** [None] is the exception. *)
(** [src/core/io_context_pool.cpp:59-66] IoContextPool::get_context *)
Definition get_context (p : IoPool) : option (nat * IoPool) :=
  match List.length (contexts_ p) with
  | O => None
  | n => Some (Z.to_nat (next_index p `mod` Z.of_nat n),
               mkIoPool (contexts_ p) (work_guards_ p) (threads_ p) (u64 (next_index p + 1)) (started_ p))
  end.

Fixpoint get_contexts (k : nat) (p : IoPool) : option (list nat * IoPool) :=
  match k with
  | O => Some ([], p)
  | S k => '(i, p) ← get_context p; '(js, p) ← get_contexts k p; Some (i :: js, p)
  end.

(** The contexts some thread serves: [run] returns at once on a stopped context. *)
Definition served_contexts (p : IoPool) : list nat :=
  filter (λ i, contexts_ p !! i = Some false) (threads_ p).

Lemma get_contexts_spec k p :
  contexts_ p ≠ [] → 0 ≤ next_index p → next_index p + Z.of_nat k < 2 ^ 64 →
  ∃ p', get_contexts k p =
    Some ((λ j, Z.to_nat ((next_index p + Z.of_nat j) `mod` Z.of_nat (List.length (contexts_ p)))) <$> seq 0 k, p').
Proof.
  revert p. induction k as [|k IH]; intros p Hn H0 Hk; [by eexists|]. cbn [get_contexts].
  unfold get_context. destruct (contexts_ p) as [|b bs] eqn:Ec; [done|]. cbn [List.length mbind option_bind].
  destruct (IH (mkIoPool (b :: bs) (work_guards_ p) (threads_ p) (u64 (next_index p + 1)) (started_ p)))
    as [p' E]; cbn [contexts_ next_index]; [done|pose proof (wrap_range 64 (next_index p + 1)); lia| |].
  { rewrite wrap_small by lia. lia. }
  rewrite E. eexists. cbn [mbind option_bind seq]. rewrite fmap_cons, Z.add_0_r. do 3 f_equal.
  rewrite <-(fmap_S_seq 0), <-list_fmap_compose. apply list_fmap_ext. intros _ j _. cbn [contexts_ next_index compose].
  rewrite wrap_small by lia. do 2 f_equal. lia.
Qed.

Lemma make_io_pool_size hw n : (0 < List.length (contexts_ (make_io_pool hw n)))%nat.
Proof. unfold make_io_pool. cbn. rewrite length_replicate. destruct n, hw; lia. Qed.

(** [size] consecutive numbers modulo [size] are all the indices. *)
Lemma mod_window size j :
  (0 < size)%nat → (λ x, x `mod` size)%nat <$> seq j size ≡ₚ seq 0 size.
Proof.
  intros Hs. apply submseteq_length_Permutation; [|by rewrite length_fmap, !length_seq].
  apply NoDup_submseteq.
  - apply NoDup_fmap_2_strong, NoDup_seq. intros x y [Hx1 Hx2]%elem_of_seq [Hy1 Hy2]%elem_of_seq E.
    pose proof (Nat.div_mod x size). pose proof (Nat.div_mod y size).
    assert (x / size = y / size)%nat; nia.
  - intros x (y & -> & _)%list_elem_of_fmap. apply elem_of_seq.
    pose proof (Nat.mod_upper_bound y size). lia.
Qed.

(** The pool hands out its contexts in turn: it always has at least one, [get_context]
    never throws, call number [j] gets context [j] modulo the number of contexts, and any
    run of as many calls as there are contexts gets every context exactly once (up to
    [2^64] calls, when the counter wraps). *)
Theorem io_pool_round_robin hw n k :
  let p := make_io_pool hw n in
  let size := List.length (contexts_ p) in
  (Z.of_nat k < 2 ^ 64) →
  ∃ js p', get_contexts k p = Some (js, p')
    ∧ js = (λ j, j `mod` size)%nat <$> seq 0 k
    ∧ ∀ j, (j + size ≤ k)%nat → take size (drop j js) ≡ₚ seq 0 size.
Proof.
  intros p size Hk. pose proof (make_io_pool_size hw n) as Hs. fold p in Hs. fold size in Hs.
  destruct (get_contexts_spec k p) as [p' E]; [intros E; unfold size in Hs; rewrite E in Hs; cbn in Hs; lia|done|done|].
  exists ((λ j, j `mod` size)%nat <$> seq 0 k), p'. split_and!; [|done|].
  - rewrite E. do 2 f_equal. apply list_fmap_ext. intros _ j _. cbn [next_index make_io_pool p].
    fold size. rewrite Z.add_0_l, <-Nat2Z.inj_mod, Nat2Z.id. done.
  - intros j Hj. rewrite <-fmap_drop, <-fmap_take, drop_seq, take_seq, Nat.min_l by lia.
    by apply mod_window.
Qed.

Lemma io_pool_round_robin_witness :
  ∃ js p', get_contexts 7 (make_io_pool 0 3) = Some (js, p') ∧ js = [0; 1; 2; 0; 1; 2; 0]%nat
           ∧ take 3 (drop 2 js) ≡ₚ seq 0 3.
Proof.
  destruct (io_pool_round_robin 0 3 7) as (js & p' & E & Hjs & H); [done|].
  exists js, p'. split; [exact E|]. split; [exact Hjs|]. apply (H 2%nat). cbn. lia.
Defined.

(** Started, every context is served by exactly one thread; once stopped the pool can be
    started again, but then its threads find their contexts stopped and serve nothing. *)
Theorem io_pool_restart_serves_nothing hw n :
  let p := make_io_pool hw n in
  served_contexts (io_start p) = seq 0 (List.length (contexts_ p))
  ∧ io_start (io_start p) = io_start p
  ∧ started_ (io_start (io_stop (io_start p))) = true
  ∧ served_contexts (io_start (io_stop (io_start p))) = [].
Proof.
  intros p. unfold served_contexts, io_start, io_stop, p, make_io_pool. cbn [contexts_ threads_ started_ app].
  set (m := match n with _ => _ end). split_and!; [|done|done|].
  - rewrite length_replicate. apply filter_all. intros i [_ Hi]%elem_of_seq.
    apply lookup_replicate. split; [done|lia].
  - apply filter_none. intros i _ H. apply list_lookup_fmap_Some in H. naive_solver.
Qed.
