(* ===== verification/Otlp.v ===== *)
(** * The OTLP trace exporter

    [core/otel/otlp_exporter.cpp] and [include/cppload/otel/exporter.hpp]: the tracer
    keeps one current span under [span_mtx_] and a queue of finished ones under
    [spans_mutex_]; a worker thread takes batches off the queue and posts them as JSON.
    What runs under one lock is one function here; the threads are the steps of
    [tracer_step]. *)

From S2P Require Import Prelude CppString Result Url Double Constants.

Local Open Scope Z_scope.

(** ** State *)

(** [src/include/cppload/otel/exporter.hpp:10-16] TraceConfig *)
Record TraceConfig := mkTraceConfig {
  endpoint : string; sample_rate : double; service_name : string; service_version : string }.

(** Times are nanoseconds since the epoch. *)
(** [src/core/otel/otlp_exporter.cpp:32-41] SpanData *)
Record SpanData := mkSpan {
  sp_name : string; sp_trace_id : string; sp_span_id : string; sp_parent : string;
  sp_start : Z; sp_end : Z; sp_attributes : gmap string string }.

(** [src/core/otel/otlp_exporter.cpp:378-398] Tracer::Impl *)
Record Tracer := mkTracer {
  config_ : TraceConfig; span_name_ : string; attributes_ : gmap string string; span_active_ : bool;
  trace_id_ : string; current_span_id_ : string; parent_span_id_ : string; last_span_id_ : string;
  span_start_ : Z; completed_spans_ : list SpanData; stop_ : bool;
  endpoint_host_ : string; endpoint_port_ : string; endpoint_target_ : string }.

Definition with_queue (q : list SpanData) (t : Tracer) : Tracer :=
  mkTracer (config_ t) (span_name_ t) (attributes_ t) (span_active_ t) (trace_id_ t) (current_span_id_ t)
    (parent_span_id_ t) (last_span_id_ t) (span_start_ t) q (stop_ t)
    (endpoint_host_ t) (endpoint_port_ t) (endpoint_target_ t).

Definition with_stop (t : Tracer) : Tracer :=
  mkTracer (config_ t) (span_name_ t) (attributes_ t) (span_active_ t) (trace_id_ t) (current_span_id_ t)
    (parent_span_id_ t) (last_span_id_ t) (span_start_ t) (completed_spans_ t) true
    (endpoint_host_ t) (endpoint_port_ t) (endpoint_target_ t).

(** The digits drawn are the argument. *)
(** [src/core/otel/otlp_exporter.cpp:43-53] random_hex *)
Fixpoint random_hex (draws : list nat) : string :=
  match draws with
  | [] => ""
  | d :: draws => (if String.get d "0123456789abcdef" is Some c then String c "" else "") +:+ random_hex draws
  end.

(** Host, port and target; an endpoint without a port gets the default of its scheme from
    [parse_url]. *)
(** [src/core/otel/otlp_exporter.cpp:239-254] Tracer::Impl::parse_endpoint *)
Definition parse_endpoint (endpoint : string) : string * string * string :=
  if is_empty endpoint then ("", "", "")
  else
    let parts := parse_url endpoint in
    let port := if is_empty (url_port parts) then "4318" else url_port parts in
    let target := url_path parts in
    (url_host parts, port,
     if (target =? "/")%string || is_empty target then "/v1/traces" else target).

(** The worker thread is started with it. *)
(** [src/core/otel/otlp_exporter.cpp:133-139] Tracer::Impl::Impl *)
Definition make_tracer (config : TraceConfig) (trace_id : string) : Tracer :=
  let '(h, p, tg) := parse_endpoint (endpoint config) in
  mkTracer config "" ∅ false trace_id "" "" "" 0 [] false h p tg.

(** ** Spans *)

(** [draw] is a uniform number between 0 and 1. *)
(** [src/core/otel/otlp_exporter.cpp:232-236] Tracer::Impl::should_sample_span *)
Definition should_sample_span (t : Tracer) (draw : double) : bool := dleb draw (sample_rate (config_ t)).

(** The span under way, ended at [now]. *)
(** [src/core/otel/otlp_exporter.cpp:200-206] Tracer::Impl::end_span *)
Definition finished_span (t : Tracer) (now : Z) : SpanData :=
  mkSpan (span_name_ t) (trace_id_ t) (current_span_id_ t) (parent_span_id_ t) (span_start_ t) now (attributes_ t).

(** What [start_span] does under the lock: the span to push, if there is one. *)
(** [src/core/otel/otlp_exporter.cpp:156-187] Tracer::Impl::start_span *)
Definition start_span_locked (name : string) (now_end now_start : Z) (span_id : string) (draw : double)
    (t : Tracer) : Tracer * option SpanData :=
  let pushed := if span_active_ t && (dgeb (sample_rate (config_ t)) (d_of_Z 1) || should_sample_span t draw)
                then Some (finished_span t now_end) else None in
  let last := if span_active_ t then current_span_id_ t else last_span_id_ t in
  let attrs := if span_active_ t then ∅ else attributes_ t in
  (mkTracer (config_ t) name
     (<["service.version" := service_version (config_ t)]>
        (<["service.name" := service_name (config_ t)]> attrs))
     true (trace_id_ t) span_id last last now_start (completed_spans_ t) (stop_ t)
     (endpoint_host_ t) (endpoint_port_ t) (endpoint_target_ t), pushed).

(** [end_span] under the lock; [None]: no span is under way. *)
(** [src/core/otel/otlp_exporter.cpp:194-211] Tracer::Impl::end_span *)
Definition end_span_locked (now : Z) (t : Tracer) : option (Tracer * SpanData) :=
  if negb (span_active_ t) then None
  else Some (mkTracer (config_ t) (span_name_ t) ∅ false (trace_id_ t) (current_span_id_ t)
               (parent_span_id_ t) (current_span_id_ t) (span_start_ t) (completed_spans_ t) (stop_ t)
               (endpoint_host_ t) (endpoint_port_ t) (endpoint_target_ t), finished_span t now).

(** [src/core/otel/otlp_exporter.cpp:213-216] Tracer::Impl::end_span *)
Definition end_span_kept (t : Tracer) (draw : double) : bool :=
  negb (dltb (sample_rate (config_ t)) (d_of_Z 1) && negb (should_sample_span t draw)).

(** [src/core/otel/otlp_exporter.cpp:221-224] Tracer::Impl::add_attribute *)
Definition add_attribute (key value : string) (t : Tracer) : Tracer :=
  mkTracer (config_ t) (span_name_ t) (<[key := value]> (attributes_ t)) (span_active_ t) (trace_id_ t)
    (current_span_id_ t) (parent_span_id_ t) (last_span_id_ t) (span_start_ t) (completed_spans_ t) (stop_ t)
    (endpoint_host_ t) (endpoint_port_ t) (endpoint_target_ t).

(** ** The queue *)

(** The flag: the worker is notified. *)
(** [src/core/otel/otlp_exporter.cpp:256-274] Tracer::Impl::enqueue *)
Definition enqueue (span : SpanData) (t : Tracer) : Tracer * bool :=
  let q := completed_spans_ t ++ [span] in
  let q := if (kOtlpMaxBufferedSpans <? List.length q)%nat then drop (List.length q - kOtlpMaxBufferedSpans) q else q in
  (with_queue q t, (kOtlpBatchSize <=? List.length q)%nat).

(** [src/core/otel/otlp_exporter.cpp:156-192] Tracer::Impl::start_span *)
Definition start_span (name : string) (now_end now_start : Z) (span_id : string) (draw : double) (t : Tracer) : Tracer :=
  match start_span_locked name now_end now_start span_id draw t with
  | (t, Some span) => (enqueue span t).1
  | (t, None) => t
  end.

(** [src/core/otel/otlp_exporter.cpp:194-219] Tracer::Impl::end_span *)
Definition end_span (now : Z) (draw : double) (t : Tracer) : Tracer :=
  match end_span_locked now t with
  | None => t
  | Some (t, span) => if end_span_kept t draw then (enqueue span t).1 else t
  end.

(** ** Export *)

(** A batch taken off the queue, or the end of the loop ([None]). *)
(** [src/core/otel/otlp_exporter.cpp:282-296] Tracer::Impl::export_loop *)
Definition take_batch (t : Tracer) : option (list SpanData * Tracer) :=
  if stop_ t && (match completed_spans_ t with [] => true | _ => false end) then None
  else
    let n := Nat.min kOtlpBatchSize (List.length (completed_spans_ t)) in
    Some (take n (completed_spans_ t), with_queue (drop n (completed_spans_ t)) t).

(** What [do_export] hands to [do_post_json]: nothing when there is nothing to send or
    nowhere to send it. *)
(** [src/core/otel/otlp_exporter.cpp:320-322] Tracer::Impl::do_export *)
Definition posted (t : Tracer) (spans : list SpanData) : list (list SpanData) :=
  match spans with
  | [] => []
  | _ => if is_empty (endpoint_host_ t) then [] else [spans]
  end.

(** The wait after a round, in milliseconds; a round without an export leaves it. *)
(** [src/core/otel/otlp_exporter.cpp:298-309] Tracer::Impl::export_loop *)
Definition next_backoff (t : Tracer) (ok : bool) (backoff : Z) : Z :=
  if is_empty (endpoint_host_ t) then backoff
  else if ok then 200 else Z.min (backoff * 2) 5000.

(** The batches posted by the loop once [stop_] is set, when the wait returns at once:
    [ok] is the outcome of each post.  [None]: out of fuel. *)
(** [src/core/otel/otlp_exporter.cpp:276-318] Tracer::Impl::export_loop *)
Fixpoint export_loop (fuel : nat) (ok : list SpanData → bool) (backoff : Z) (t : Tracer)
    : option (list (list SpanData) * Tracer) :=
  match fuel with
  | O => None
  | S n =>
      match take_batch t with
      | None => Some (posted t (completed_spans_ t), with_queue [] t)
      | Some (batch, t) =>
          '(posts, t') ← export_loop n ok (next_backoff t (ok batch) backoff) t;
          Some (posted t batch ++ posts, t')
      end
  end.

(** [src/core/otel/otlp_exporter.cpp:369-376] Tracer::Impl::flush *)
Definition flush (t : Tracer) : list (list SpanData) * Tracer :=
  (posted t (completed_spans_ t), with_queue [] t).

(** The destructor: the worker is told to stop and joined, then what may be left is
    flushed. *)
(** [src/core/otel/otlp_exporter.cpp:141-154] Tracer::Impl::~Impl *)
Definition destroy (fuel : nat) (ok : list SpanData → bool) (backoff : Z) (t : Tracer) :
    option (list (list SpanData) * Tracer) :=
  '(posts, t) ← export_loop fuel ok backoff (with_stop t);
  let (rest, t) := flush t in
  Some (posts ++ rest, t).

(** ** The document *)

(** JSON values of nlohmann::json as far as the exporter builds them. *)
Inductive Json := JStr (s : string) | JInt (n : Z) | JArr (l : list Json) | JObj (m : list (string * Json)).

(** A braced list of values: an object if every element is an array of two whose first
    is a string, an array otherwise. *)
Definition as_pair (j : Json) : option (string * Json) :=
  match j with JArr [JStr k; v] => Some (k, v) | _ => None end.
Definition braces (l : list Json) : Json :=
  match mapM as_pair l with Some m => JObj m | None => JArr l end.

(** [{{"key", k}, {"value", {"stringValue", v}}}] *)
(** [src/core/otel/otlp_exporter.cpp:348-351] Tracer::Impl::do_export *)
Definition attribute_json (k v : string) : Json :=
  braces [braces [JStr "key"; JStr k]; braces [JStr "value"; braces [JStr "stringValue"; JStr v]]].

(** The attributes are in the order in which the map is iterated. *)
(** [src/core/otel/otlp_exporter.cpp:334-358] Tracer::Impl::do_export *)
Definition span_json (s : SpanData) : Json :=
  let attrs := (λ kv, attribute_json kv.1 kv.2) <$> map_to_list (sp_attributes s) in
  JObj ([("traceId", JStr (sp_trace_id s)); ("spanId", JStr (sp_span_id s))]
    ++ (if is_empty (sp_parent s) then [] else [("parentSpanId", JStr (sp_parent s))])
    ++ [("name", JStr (sp_name s)); ("kind", JInt kSpanKindClient);
        ("startTimeUnixNano", JStr (to_string (sp_start s)));
        ("endTimeUnixNano", JStr (to_string (sp_end s)))]
    ++ (match attrs with [] => [] | _ => [("attributes", JArr attrs)] end)
    ++ [("status", JObj [("code", JInt kOtlpStatusCodeOk)])]).

(** [src/core/otel/otlp_exporter.cpp:320-367] Tracer::Impl::do_export *)
Definition payload (t : Tracer) (spans : list SpanData) : Json :=
  let resource := JObj [("attributes",
    JArr [attribute_json "service.name" (service_name (config_ t));
          attribute_json "service.version" (service_version (config_ t))])] in
  let scope := JObj [("name", JStr "volley"); ("version", JStr kVersion)] in
  let scope_spans := JObj [("scope", scope); ("spans", JArr (span_json <$> spans))] in
  JObj [("resourceSpans", JArr [JObj [("resource", resource); ("scopeSpans", JArr [scope_spans])]])].

(** The outcomes of the blocking calls: whether each fails; a read that fails with the
    end of the stream is not a failure. *)
Record PostOutcome := mkPost { resolve_fails : bool; connect_fails : bool; write_fails : bool;
  read_fails : bool; read_end_of_stream : bool; http_status : Z }.

(** [src/core/otel/otlp_exporter.cpp:60-122] do_post_json *)
Definition do_post_json (o : PostOutcome) : bool :=
  if resolve_fails o then false
  else if connect_fails o then false
  else if write_fails o then false
  else if read_fails o && negb (read_end_of_stream o) then false
  else true.

(** ** The threads

    [hands] are the spans threads have taken out of the tracer's lock and not yet put on
    the queue; [worker] is where the worker thread stands; [enqueued] is everything ever
    put on the queue and [posts] what was handed to [do_post_json], both oldest first. *)
Inductive Worker := Looping (backoff : Z) | Draining | Ended.

Record World := mkWorld {
  tracer : Tracer; hands : list SpanData; worker : Worker;
  enqueued : list SpanData; posts : list (list SpanData) }.

Inductive tracer_step : World → World → Prop :=
  | step_start name e b id draw t t' o hs w enq ps :
      start_span_locked name e b id draw t = (t', o) →
      tracer_step (mkWorld t hs w enq ps) (mkWorld t' (hs ++ option_list o) w enq ps)
  | step_end now draw t t' s hs w enq ps :
      end_span_locked now t = Some (t', s) →
      tracer_step (mkWorld t hs w enq ps)
        (mkWorld t' (hs ++ if end_span_kept t' draw then [s] else []) w enq ps)
  | step_attribute k v t hs w enq ps :
      tracer_step (mkWorld t hs w enq ps) (mkWorld (add_attribute k v t) hs w enq ps)
  | step_enqueue t hs1 s hs2 w enq ps :
      tracer_step (mkWorld t (hs1 ++ s :: hs2) w enq ps)
        (mkWorld (enqueue s t).1 (hs1 ++ hs2) w (enq ++ [s]) ps)
  | step_round t batch t' ok b hs enq ps :
      take_batch t = Some (batch, t') →
      tracer_step (mkWorld t hs (Looping b) enq ps)
        (mkWorld t' hs (Looping (next_backoff t' ok b)) enq (ps ++ posted t' batch))
  | step_break t b hs enq ps :
      take_batch t = None →
      tracer_step (mkWorld t hs (Looping b) enq ps) (mkWorld t hs Draining enq ps)
  | step_drain t hs enq ps :
      tracer_step (mkWorld t hs Draining enq ps)
        (mkWorld (with_queue [] t) hs Ended enq (ps ++ posted t (completed_spans_ t)))
  | step_stop t hs w enq ps :
      tracer_step (mkWorld t hs w enq ps) (mkWorld (with_stop t) hs w enq ps)
  | step_flush t hs enq ps :
      tracer_step (mkWorld t hs Ended enq ps)
        (mkWorld (flush t).2 hs Ended enq (ps ++ (flush t).1)).

Definition initial_world (config : TraceConfig) (trace_id : string) : World :=
  mkWorld (make_tracer config trace_id) [] (Looping 200) [] [].

Record otlp_inv (config : TraceConfig) (w : World) : Prop := {
  oi_config : config_ (tracer w) = config;
  oi_host : endpoint_host_ (tracer w) = (parse_endpoint (endpoint config)).1.1;
  oi_bound : (List.length (completed_spans_ (tracer w)) ≤ kOtlpMaxBufferedSpans)%nat;
  oi_order : List.concat (posts w) ++ completed_spans_ (tracer w) `sublist_of` enqueued w;
  oi_posts : Forall (λ b, b ≠ [] ∧ (List.length b ≤ kOtlpMaxBufferedSpans)%nat) (posts w);
  oi_enabled : endpoint_host_ (tracer w) = "" → posts w = [];
  oi_backoff : match worker w with Looping b => 200 ≤ b ≤ 5000 | _ => True end }.

Lemma concat_posted t spans :
  List.concat (posted t spans) = if is_empty (endpoint_host_ t) then [] else spans.
Proof. unfold posted. destruct spans; [by case_match|]. case_match; [done|]. cbn. by rewrite app_nil_r. Qed.

Lemma posted_sublist t spans : List.concat (posted t spans) `sublist_of` spans.
Proof. rewrite concat_posted. case_match; [apply sublist_nil_l|done]. Qed.

Lemma posted_batches t spans :
  (List.length spans ≤ kOtlpMaxBufferedSpans)%nat →
  Forall (λ b, b ≠ [] ∧ (List.length b ≤ kOtlpMaxBufferedSpans)%nat) (posted t spans).
Proof.
  intros. unfold posted. destruct spans; [by constructor|]. case_match; [by constructor|].
  constructor; [done|by constructor].
Qed.

Lemma posted_disabled t spans : endpoint_host_ t = "" → posted t spans = [].
Proof. intros H. unfold posted. rewrite H. by destruct spans. Qed.

Lemma take_batch_Some t batch t' :
  take_batch t = Some (batch, t') →
  ∃ n, batch = take n (completed_spans_ t) ∧ t' = with_queue (drop n (completed_spans_ t)) t ∧ (n ≤ kOtlpBatchSize)%nat.
Proof.
  unfold take_batch. intros. case_match; [done|]. simplify_eq. eexists. split_and!; [done..|lia].
Qed.

Lemma enqueue_queue s t :
  ∃ n, completed_spans_ (enqueue s t).1 = drop n (completed_spans_ t ++ [s])
       ∧ (List.length (completed_spans_ (enqueue s t).1) ≤ kOtlpMaxBufferedSpans)%nat.
Proof.
  unfold enqueue. cbn [fst completed_spans_ with_queue].
  destruct (kOtlpMaxBufferedSpans <? _)%nat eqn:E.
  - eexists. split; [done|]. rewrite length_drop. apply Nat.ltb_lt in E. lia.
  - exists 0%nat. split; [done|]. by apply Nat.ltb_ge in E.
Qed.

(** Handing a part of the queue over and keeping a later part of it. *)
Lemma sublist_consume {A} (ps : list A) (q : list A) done_ rest enq :
  ps ++ q `sublist_of` enq → done_ ++ rest `sublist_of` q → (ps ++ done_) ++ rest `sublist_of` enq.
Proof. intros H1 H2. rewrite <-(assoc_L (++)). etrans; [|exact H1]. by apply sublist_app. Qed.

Lemma concat_snoc_posted (ps : list (list SpanData)) t spans :
  List.concat (ps ++ posted t spans) = List.concat ps ++ List.concat (posted t spans).
Proof. apply concat_app. Qed.

Lemma otlp_inv_step config w w' : otlp_inv config w → tracer_step w w' → otlp_inv config w'.
Proof.
  intros [Hc Hh Hb Ho Hp He Hk] Hs.
  destruct Hs as [name e b id draw t t' o hs wk enq ps H|now draw t t' s hs wk enq ps H|k v t hs wk enq ps
    |t hs1 s hs2 wk enq ps|t batch t' ok b hs enq ps H|t b hs enq ps H|t hs enq ps|t hs wk enq ps|t hs enq ps];
    cbn [tracer hands worker enqueued posts] in *.
  - unfold start_span_locked in H. by simplify_eq.
  - unfold end_span_locked in H. case_match; [done|]. by simplify_eq.
  - done.
  - destruct (enqueue_queue s t) as (n & Hq & Hn). split; cbn [tracer posts enqueued worker]; try done.
    rewrite Hq. etrans; [|apply sublist_app; [exact Ho|reflexivity]]. rewrite <-(assoc_L (++)).
    apply sublist_app; [done|]. apply sublist_drop.
  - apply take_batch_Some in H as (n & -> & -> & Hn).
    split; cbn [tracer posts enqueued worker completed_spans_ with_queue config_ endpoint_host_]; try done.
    + rewrite length_drop. lia.
    + rewrite concat_snoc_posted. eapply sublist_consume; [exact Ho|].
      etrans; [apply sublist_app; [apply posted_sublist|reflexivity]|]. by rewrite take_drop.
    + apply Forall_app_2; [done|]. apply posted_batches. rewrite length_take. unfold kOtlpMaxBufferedSpans in *. lia.
    + intros H. rewrite He, posted_disabled by done. done.
    + unfold next_backoff. repeat case_match; lia.
  - done.
  - split; cbn [tracer posts enqueued worker completed_spans_ with_queue config_ endpoint_host_]; try done.
    + cbn. unfold kOtlpMaxBufferedSpans. lia.
    + rewrite concat_snoc_posted. eapply sublist_consume; [exact Ho|]. rewrite app_nil_r. apply posted_sublist.
    + apply Forall_app_2; [done|]. by apply posted_batches.
    + intros H. by rewrite He, posted_disabled.
  - done.
  - split; cbn [tracer posts enqueued worker completed_spans_ with_queue config_ endpoint_host_ flush fst snd]; try done.
    + cbn. unfold kOtlpMaxBufferedSpans. lia.
    + rewrite concat_snoc_posted. eapply sublist_consume; [exact Ho|]. rewrite app_nil_r. apply posted_sublist.
    + apply Forall_app_2; [done|]. by apply posted_batches.
    + intros H. by rewrite He, posted_disabled.
Qed.

Lemma otlp_inv_init config id : otlp_inv config (initial_world config id).
Proof.
  unfold initial_world, make_tracer. destruct (parse_endpoint (endpoint config)) as [[h p] tg] eqn:E.
  split; cbn; rewrite ?E; try done; lia.
Qed.

(** C21.  The exporter with any number of threads: in every reachable state the queue holds
    at most 4096 spans; what was posted followed by what is still queued is, in order, a
    selection of what was queued, so that no span is exported twice or out of order; a
    post is never empty; with no endpoint nothing is posted; and the worker waits between
    200 and 5000 ms. *)
Theorem spans_exported_once config id w :
  rtc tracer_step (initial_world config id) w →
  (List.length (completed_spans_ (tracer w)) ≤ 4096)%nat
  ∧ (List.concat (posts w) ++ completed_spans_ (tracer w)) `sublist_of` enqueued w
  ∧ ([] ∉ posts w)
  ∧ (endpoint config = "" → posts w = [])
  ∧ match worker w with Looping b => 200 ≤ b ≤ 5000 | _ => True end.
Proof.
  intros Hr. assert (otlp_inv config w) as [Hc Hh Hb Ho Hp He Hk].
  { remember (initial_world config id) as w0 eqn:E.
    assert (otlp_inv config w0) by (subst; apply otlp_inv_init). clear E.
    induction Hr; eauto using otlp_inv_step. }
  split_and!; [done..| | |done].
  - intros H. rewrite Forall_forall in Hp. by apply Hp in H as [].
  - intros H. apply He. rewrite Hh, H. done.
Qed.

(** ** The end of the run *)

Lemma export_loop_drains fuel ok backoff t :
  stop_ t = true → (List.length (completed_spans_ t) + 64 ≤ 64 * fuel)%nat →
  ∃ ps t', export_loop fuel ok backoff t = Some (ps, t')
    ∧ completed_spans_ t' = []
    ∧ List.concat ps = if is_empty (endpoint_host_ t) then [] else completed_spans_ t.
Proof.
  revert backoff t. induction fuel as [|n IH]; intros backoff t Hs Hl; [lia|]. cbn [export_loop].
  unfold take_batch. rewrite Hs. destruct (completed_spans_ t) as [|s q] eqn:Eq; cbn [andb].
  - do 2 eexists. split; [done|]. split; [done|]. by rewrite concat_posted.
  - set (m := Nat.min kOtlpBatchSize _). set (t1 := with_queue _ t).
    assert (Hm : (1 ≤ m ∧ m ≤ List.length (s :: q) ∧ (m = 64 ∨ m = List.length (s :: q)))%nat)
      by (unfold m, kOtlpBatchSize; cbn [List.length]; lia).
    destruct (IH (next_backoff t1 (ok (take m (s :: q))) backoff) t1) as (ps & t' & E & Hq & Hc); [done| |].
    { unfold t1. cbn [completed_spans_ with_queue]. rewrite length_drop. lia. }
    rewrite E. do 2 eexists. split; [done|]. split; [done|].
    rewrite concat_app, concat_posted, Hc. unfold t1. cbn [endpoint_host_ completed_spans_ with_queue].
    destruct (is_empty (endpoint_host_ t)); [done|]. by rewrite take_drop.
Qed.


(** The value of an attribute: the braces make it the array ["stringValue", v], not
    the object with the member [stringValue] that OTLP/JSON prescribes. *)
Theorem attribute_value_is_array (k v : string) :
  attribute_json k v = JObj [("key", JStr k); ("value", JArr [JStr "stringValue"; JStr v])].
Proof. reflexivity. Qed.

(** The endpoint's default port: an endpoint without a port is sent to 80, or 443 for
    https; the OTLP port 4318 is used only when the port is written but empty.  The path
    defaults to /v1/traces. *)
Theorem endpoint_default_port (u : UrlSpec) :
  wf_url u = true → print_url u ≠ "" →
  parse_endpoint (print_url u) =
    (u_host u,
     match u_port u with
     | Some p => if is_empty p then "4318" else p
     | None => if (match u_scheme u with Some s => is_tls_scheme s | None => false end) then "443" else "80"
     end,
     if is_empty (u_path u) || (u_path u =? "/")%string then "/v1/traces" else u_path u).
Proof.
  intros Hwf Hne. unfold parse_endpoint. rewrite (parse_url_expected u Hwf).
  destruct (is_empty (print_url u)) eqn:E; [by apply is_empty_spec in E|].
  unfold expected_parts. cbn [url_host url_port url_path]. f_equal; [f_equal|].
  - destruct (u_port u); [done|]. destruct (u_scheme u) as [sc|]; [by destruct (is_tls_scheme sc)|done].
  - destruct (u_path u) as [|c r]; [done|]. cbn [is_empty orb]. by rewrite orb_false_r.
Qed.

(** A span cannot enclose another: starting one while another is under way ends the
    first there and then, with its attributes, and the end of the outer span after that
    of the inner one does nothing. *)
Theorem inner_span_ends_outer (t : Tracer) name e b id draw now draw' e' draw'' :
  span_active_ t = true → sample_rate (config_ t) = d_of_Z 1 →
  (S (List.length (completed_spans_ t)) < 4096)%nat →
  let t1 := start_span name e b id draw t in
  let t2 := end_span now draw' t1 in
  completed_spans_ t2
    = completed_spans_ t ++ [finished_span t e; finished_span t1 now]
  ∧ sp_end (finished_span t e) = e
  ∧ sp_parent (finished_span t1 now) = current_span_id_ t
  ∧ end_span e' draw'' t2 = t2.
Proof.
  intros Ha Hr Hl. unfold start_span, start_span_locked. rewrite Ha, Hr. cbn [andb].
  replace (dgeb (d_of_Z 1) (d_of_Z 1)) with true by (vm_compute; reflexivity). cbn [orb].
  assert (Hq : ∀ s t, (S (List.length (completed_spans_ t)) ≤ 4096)%nat →
    (enqueue s t).1 = with_queue (completed_spans_ t ++ [s]) t).
  { intros s t0 H. unfold enqueue, kOtlpMaxBufferedSpans. rewrite length_app. cbn [List.length].
    by replace (4096 <? _)%nat with false by (symmetry; apply Nat.ltb_ge; lia). }
  rewrite Hq by (cbn [completed_spans_]; lia). cbn [completed_spans_ with_queue].
  unfold end_span, end_span_locked, end_span_kept. cbn [span_active_ with_queue negb config_].
  rewrite Hr. replace (dltb (d_of_Z 1) (d_of_Z 1)) with false by (vm_compute; reflexivity). cbn [andb negb].
  rewrite Hq by (cbn [completed_spans_ with_queue]; rewrite length_app; cbn [List.length]; lia).
  cbn [completed_spans_ with_queue span_active_ negb]. rewrite <-(assoc_L (++)).
  split_and!; try done.
Qed.


(** ** A concrete run *)

Definition demo_config : TraceConfig := mkTraceConfig "http://collector:4318" (d_of_Z 1) "volley" "1.1.0".

Definition demo_tracer : Tracer :=
  (start_span_locked "load_test" 0 10 "aaaa" (d_of_Z 0) (make_tracer demo_config "cafe")).1.

Definition demo_span : SpanData := finished_span demo_tracer 30.

Definition demo_ended : Tracer :=
  default demo_tracer (fst <$> end_span_locked 30 demo_tracer).

(** A span is started, ended, queued and posted, and the tracer told to stop. *)
Definition demo_world : World :=
  mkWorld (with_stop (with_queue [] (enqueue demo_span demo_ended).1)) [] (Looping 200) [demo_span] [[demo_span]].

Lemma demo_world_reachable : rtc tracer_step (initial_world demo_config "cafe") demo_world.
Proof.
  eapply rtc_l; [eapply (step_start "load_test" 0 10 "aaaa" (d_of_Z 0)); reflexivity|].
  eapply rtc_l; [eapply (step_end 30 (d_of_Z 0)); reflexivity|].
  eapply rtc_l.
  { replace (([] ++ option_list None) ++ _) with ([] ++ demo_span :: []) by (vm_compute; reflexivity).
    apply step_enqueue. }
  eapply rtc_l; [eapply (step_round _ _ _ true); reflexivity|].
  eapply rtc_l; [apply step_stop|]. apply rtc_refl.
Qed.

Lemma spans_exported_once_witness :
  (List.concat (posts demo_world) ++ completed_spans_ (tracer demo_world)) `sublist_of` [demo_span]
  ∧ [demo_span] ∈ posts demo_world.
Proof.
  split; [|by left].
  exact (proj1 (proj2 (spans_exported_once demo_config "cafe" demo_world demo_world_reachable))).
Defined.

(** A tracer stopped with a span still queued. *)
Definition demo_pending : World :=
  mkWorld (with_stop (enqueue demo_span demo_ended).1) [] (Looping 200) [demo_span] [].

Lemma demo_pending_reachable : rtc tracer_step (initial_world demo_config "cafe") demo_pending.
Proof.
  eapply rtc_l; [eapply (step_start "load_test" 0 10 "aaaa" (d_of_Z 0)); reflexivity|].
  eapply rtc_l; [eapply (step_end 30 (d_of_Z 0)); reflexivity|].
  eapply rtc_l.
  { replace (([] ++ option_list None) ++ _) with ([] ++ demo_span :: []) by (vm_compute; reflexivity).
    apply step_enqueue. }
  eapply rtc_l; [apply step_stop|]. apply rtc_refl.
Qed.


Lemma endpoint_default_port_witness :
  parse_endpoint (print_url (mkUrlSpec (Some "http") false "collector" None "")) = ("collector", "80", "/v1/traces").
Proof.
  exact (endpoint_default_port (mkUrlSpec (Some "http") false "collector" None "") eq_refl ltac:(done)).
Defined.

Lemma inner_span_ends_outer_witness :
  let t2 := end_span 25 (d_of_Z 0) (start_span "GET /" 20 21 "bbbb" (d_of_Z 0) demo_tracer) in
  end_span 99 (d_of_Z 0) t2 = t2 ∧ sp_end (finished_span demo_tracer 20) = 20.
Proof.
  pose proof (inner_span_ends_outer demo_tracer "GET /" 20 21 "bbbb" (d_of_Z 0) 25 (d_of_Z 0) 99 (d_of_Z 0)
    eq_refl eq_refl ltac:(vm_compute; lia)) as (_ & He & _ & Hn).
  split; [exact Hn|exact He].
Defined.
