(* ===== verification/CliArgs.v ===== *)
(** * The command line tool: arguments

    [tools/main.cpp], the options and their values, sizes and log levels.  [CliMain] holds
    what is done with them. *)

From S2P Require Import Prelude CppString Result Double Config.

Local Open Scope Z_scope.

(** [src/tools/main.cpp:42-48] LogLevel *)
Inductive LogLevel := Trace | Debug | Info | Warn | ErrorLevel.

(** The members that are strings are kept under their names ([strs], the empty string
    when absent).  [a_max_body_bytes] is [None] where the conversion of the number given is
    undefined. *)
(** [src/tools/main.cpp:50-77] CliArgs *)
Record CliArgs := mkCli {
  a_strs : gmap string string; a_rps : Z; a_duration : Z; a_duration_set : bool; a_help : bool;
  a_version : bool; a_verbose : bool; a_error : bool; a_dry_run : bool; a_no_progress : bool;
  a_log_level : LogLevel; a_max_body_bytes : option Z }.

Definition a_str (name : string) (a : CliArgs) : string := default "" (a_strs a !! name).

Definition kDefaultMaxBody : Z := 100 * 1024 * 1024.

Definition default_args : CliArgs :=
  mkCli ∅ 100 60 false false false false false false false Info (Some kDefaultMaxBody).

(** Assignments to the members. *)
Definition set_str (name v : string) (a : CliArgs) : CliArgs :=
  mkCli (<[name := v]> (a_strs a)) (a_rps a) (a_duration a) (a_duration_set a) (a_help a) (a_version a)
    (a_verbose a) (a_error a) (a_dry_run a) (a_no_progress a) (a_log_level a) (a_max_body_bytes a).
Definition set_rps (v : Z) (a : CliArgs) : CliArgs :=
  mkCli (a_strs a) v (a_duration a) (a_duration_set a) (a_help a) (a_version a) (a_verbose a)
    (a_error a) (a_dry_run a) (a_no_progress a) (a_log_level a) (a_max_body_bytes a).
Definition set_duration (v : Z) (a : CliArgs) : CliArgs :=
  mkCli (a_strs a) (a_rps a) v (a_duration_set a) (a_help a) (a_version a) (a_verbose a) (a_error a)
    (a_dry_run a) (a_no_progress a) (a_log_level a) (a_max_body_bytes a).
Definition set_duration_set (v : bool) (a : CliArgs) : CliArgs :=
  mkCli (a_strs a) (a_rps a) (a_duration a) v (a_help a) (a_version a) (a_verbose a) (a_error a)
    (a_dry_run a) (a_no_progress a) (a_log_level a) (a_max_body_bytes a).
Definition set_help (v : bool) (a : CliArgs) : CliArgs :=
  mkCli (a_strs a) (a_rps a) (a_duration a) (a_duration_set a) v (a_version a) (a_verbose a) (a_error a)
    (a_dry_run a) (a_no_progress a) (a_log_level a) (a_max_body_bytes a).
Definition set_version (v : bool) (a : CliArgs) : CliArgs :=
  mkCli (a_strs a) (a_rps a) (a_duration a) (a_duration_set a) (a_help a) v (a_verbose a) (a_error a)
    (a_dry_run a) (a_no_progress a) (a_log_level a) (a_max_body_bytes a).
Definition set_verbose (v : bool) (a : CliArgs) : CliArgs :=
  mkCli (a_strs a) (a_rps a) (a_duration a) (a_duration_set a) (a_help a) (a_version a) v (a_error a)
    (a_dry_run a) (a_no_progress a) (a_log_level a) (a_max_body_bytes a).
Definition set_error (v : bool) (a : CliArgs) : CliArgs :=
  mkCli (a_strs a) (a_rps a) (a_duration a) (a_duration_set a) (a_help a) (a_version a) (a_verbose a) v
    (a_dry_run a) (a_no_progress a) (a_log_level a) (a_max_body_bytes a).
Definition set_dry_run (v : bool) (a : CliArgs) : CliArgs :=
  mkCli (a_strs a) (a_rps a) (a_duration a) (a_duration_set a) (a_help a) (a_version a) (a_verbose a)
    (a_error a) v (a_no_progress a) (a_log_level a) (a_max_body_bytes a).
Definition set_no_progress (v : bool) (a : CliArgs) : CliArgs :=
  mkCli (a_strs a) (a_rps a) (a_duration a) (a_duration_set a) (a_help a) (a_version a) (a_verbose a)
    (a_error a) (a_dry_run a) v (a_log_level a) (a_max_body_bytes a).
Definition set_log_level (v : LogLevel) (a : CliArgs) : CliArgs :=
  mkCli (a_strs a) (a_rps a) (a_duration a) (a_duration_set a) (a_help a) (a_version a) (a_verbose a)
    (a_error a) (a_dry_run a) (a_no_progress a) v (a_max_body_bytes a).
Definition set_max_body_bytes (v : option Z) (a : CliArgs) : CliArgs :=
  mkCli (a_strs a) (a_rps a) (a_duration a) (a_duration_set a) (a_help a) (a_version a) (a_verbose a)
    (a_error a) (a_dry_run a) (a_no_progress a) (a_log_level a) v.

(** [src/tools/main.cpp:79-90] parse_log_level *)
Definition parse_log_level (s : string) : LogLevel :=
  let low := stolower s in
  if (low =? "trace")%string then Trace
  else if (low =? "debug")%string then Debug
  else if (low =? "info")%string then Info
  else if (low =? "warn")%string || (low =? "warning")%string then Warn
  else if (low =? "err")%string || (low =? "error")%string then ErrorLevel
  else Info.

(** ** Sizes *)

Fixpoint rtrim (s : string) : string :=
  match s with
  | "" => ""
  | String c r => let r' := rtrim r in if is_empty r' && isspace c then "" else String c r'
  end.
Definition ltrim (s : string) : string := sdrop (span_len isspace s) s.

(** [None]: the conversion to [size_t] is undefined. *)
(** [src/tools/main.cpp:92-123] parse_size_bytes *)
Definition parse_size_bytes (s : string) : option Z :=
  let v := rtrim (ltrim s) in
  match last_char v with
  | None => Some kDefaultMaxBody
  | Some c =>
      let '(suffix, v) := if isdigit c then (None, v) else (Some (tolower c), drop_last 1 v) in
      let v := rtrim v in
      if is_empty v then Some kDefaultMaxBody
      else match stod v with
      | StodOk base =>
          let base := match suffix with
                      | Some "k"%char => dmul base (d_of_Z 1024)
                      | Some "m"%char => dmul base (d_of_Z (1024 * 1024))
                      | Some "g"%char => dmul base (d_of_Z (1024 * 1024 * 1024))
                      | _ => base
                      end in
          if dltb base (Fin 0) then Some kDefaultMaxBody
          else if dgtb base (d_of_Z SIZE_MAX) then Some SIZE_MAX
          else d_to_u64 base
      | _ => Some kDefaultMaxBody
      end
  end.

(** ** Options *)

(** [src/tools/main.cpp:140-156] parse_args *)
Definition read_rps (s : string) (a : CliArgs) : CliArgs :=
  match stoi s with
  | StoOk v => if (v <? 1) || (v >? 1000000) then set_error true a else set_rps v a
  | _ => set_error true a
  end.

(** [src/tools/main.cpp:157-174] parse_args *)
Definition read_duration (s : string) (a : CliArgs) : CliArgs :=
  let a := set_duration_set true a in
  match stoi s with
  | StoOk v => if (v <? 0) || (v >? 315360000) then set_error true a else set_duration v a
  | _ => set_error true a
  end.

(** What an option does: with or without a value. *)
Inductive Action := Flag (f : CliArgs → CliArgs) | Value (f : string → CliArgs → CliArgs).

(** [src/tools/main.cpp:138-200] parse_args *)
Definition option_action (key : string) : Action :=
  let opt k := (key =? k)%string in
  if opt "--config" || opt "-c" then Value (set_str "config")
  else if opt "--target" || opt "-t" then Value (set_str "target")
  else if opt "--rps" || opt "-r" then Value read_rps
  else if opt "--duration" || opt "-d" then Value read_duration
  else if opt "--auth-type" then Value (set_str "auth_type")
  else if opt "--auth-token" then Value (set_str "auth_token")
  else if opt "--client-id" then Value (set_str "client_id")
  else if opt "--client-secret" then Value (set_str "client_secret")
  else if opt "--token-endpoint" then Value (set_str "token_endpoint")
  else if opt "--vault-addr" then Value (set_str "vault_addr")
  else if opt "--vault-token" then Value (set_str "vault_token")
  else if opt "--otlp-endpoint" then Value (set_str "otlp_endpoint")
  else if opt "--verbose" then Flag (λ a, set_log_level Debug (set_verbose true a))
  else if opt "--log-level" then
    Value (λ v a, set_log_level (parse_log_level v) (set_str "log_level_str" v a))
  else if opt "--json" then Value (set_str "json_path")
  else if opt "--dry-run" || opt "--validate-config" then Flag (set_dry_run true)
  else if opt "--no-progress" then Flag (set_no_progress true)
  else if opt "--init" then Value (set_str "init_preset")
  else if opt "--output" || opt "-o" then Value (set_str "init_output")
  else if opt "--max-body" then
    Value (λ v a, set_max_body_bytes (parse_size_bytes v) (set_str "max_body_str" v a))
  else Flag (set_error true).

(** The text before and, if there is one, after the first equals sign. *)
Definition split_arg (arg : string) : string * option string :=
  match find_char "=" arg with
  | Some eq => (substr 0 eq arg, Some (substr_from (eq + 1) arg))
  | None => (arg, None)
  end.

(** The loop over the arguments after the program's name: an option without an equals
    sign takes the next argument as its value, the empty string if there is none. *)
(** [src/tools/main.cpp:125-203] parse_args *)
Fixpoint parse_args_from (args : CliArgs) (argv : list string) : CliArgs :=
  match argv with
  | [] => args
  | arg :: rest =>
      if (arg =? "--help")%string || (arg =? "-h")%string then set_help true args
      else if (arg =? "--version")%string || (arg =? "-v")%string then set_version true args
      else
        let (key, value) := split_arg arg in
        match option_action key with
        | Flag f => parse_args_from (f args) rest
        | Value f =>
            match value with
            | Some v => parse_args_from (f v args) rest
            | None =>
                match rest with
                | v :: rest => parse_args_from (f v args) rest
                | [] => f "" args
                end
            end
        end
  end.

Definition parse_args (argv : list string) : CliArgs := parse_args_from default_args argv.

Example parse_args_example :
  let a := parse_args ["--config=a=b.yaml"; "-r"; "250"; "--duration"; "0"; "--max-body"; " 2k "; "--verbose"] in
  a_str "config" a = "a=b.yaml" ∧ a_rps a = 250 ∧ a_duration a = 0 ∧ a_duration_set a = true
  ∧ a_max_body_bytes a = Some 2048 ∧ a_log_level a = Debug ∧ a_error a = false.
Proof. vm_compute. by repeat split. Qed.

(** ** What the parser guarantees *)

(** The ranges of the numbers, whatever the arguments. *)
Record args_wf (a : CliArgs) : Prop := {
  wf_rps : 1 ≤ a_rps a ≤ 1000000;
  wf_duration : 0 ≤ a_duration a ≤ 315360000;
  wf_body : ∀ n, a_max_body_bytes a = Some n → 0 ≤ n ≤ UINT64_MAX }.

Lemma d_to_u64_range x n : d_to_u64 x = Some n → 0 ≤ n ≤ UINT64_MAX.
Proof.
  unfold d_to_u64, d_to_int. destruct x; try done. case_match; intros; simplify_eq. reflect_bool. lia.
Qed.

Lemma parse_size_bytes_range s n : parse_size_bytes s = Some n → 0 ≤ n ≤ UINT64_MAX.
Proof.
  assert (H : ∀ m, m = kDefaultMaxBody ∨ m = SIZE_MAX → 0 ≤ m ≤ UINT64_MAX)
    by (unfold kDefaultMaxBody, SIZE_MAX, UINT64_MAX; lia).
  unfold parse_size_bytes. destruct (last_char _) as [c|]; [|intros [= <-]; by apply H; left].
  destruct (if isdigit c then _ else _) as [suf v].
  destruct (is_empty (rtrim v)); [intros [= <-]; by apply H; left|].
  destruct (stod (rtrim v)) as [b| |]; [|intros [= <-]; by apply H; left..].
  match goal with |- context [dltb ?b _] => set (base := b) end. clearbody base. destruct (dltb base _); [intros [= <-]; by apply H; left|].
  destruct (dgtb base _); [intros [= <-]; by apply H; right|apply d_to_u64_range].
Qed.

Definition action_wf (act : Action) : Prop :=
  match act with
  | Flag f => ∀ a, args_wf a → args_wf (f a)
  | Value f => ∀ v a, args_wf a → args_wf (f v a)
  end.

Lemma option_action_wf key : action_wf (option_action key).
Proof.
  unfold option_action. repeat case_match; cbn; try (intros; by destruct select (args_wf _)).
  - intros v a [? ? ?]. unfold read_rps. repeat case_match; by split; cbn; reflect_bool; auto; lia.
  - intros v a [? ? ?]. unfold read_duration. repeat case_match; by split; cbn; reflect_bool; auto; lia.
  - intros v a [? ? ?]. split; cbn; [done..|]. apply parse_size_bytes_range.
Qed.

Lemma parse_args_from_wf n a argv : (List.length argv ≤ n)%nat → args_wf a → args_wf (parse_args_from a argv).
Proof.
  revert a argv. induction n as [|n IH]; intros a [|arg rest] Hn Ha; try done; cbn [List.length] in Hn; [lia|].
  cbn [parse_args_from]. case_match; [by destruct Ha|]. case_match; [by destruct Ha|].
  destruct (split_arg arg) as [key value]. pose proof (option_action_wf key) as Hact.
  destruct (option_action key) as [f|f]; cbn in Hact; [apply IH; [lia|auto]|].
  destruct value as [v|]; [apply IH; [lia|auto]|].
  destruct rest as [|v rest]; [auto|]. apply IH; [cbn in Hn; lia|auto].
Qed.

Lemma parse_args_in_range (argv : list string) : args_wf (parse_args argv).
Proof.
  eapply parse_args_from_wf; [reflexivity|]. split; cbn; try lia.
  intros n [= <-]. unfold kDefaultMaxBody, UINT64_MAX. lia.
Qed.

(** No option takes the error flag down again. *)
Lemma option_action_error key :
  match option_action key with
  | Flag f => ∀ a, a_error a = true → a_error (f a) = true
  | Value f => ∀ v a, a_error a = true → a_error (f v a) = true
  end.
Proof.
  unfold option_action. repeat case_match; simplify_eq; try done.
  all: intros v a Ha; unfold read_rps, read_duration; by repeat case_match.
Qed.

Lemma parse_args_from_error n a argv :
  (List.length argv ≤ n)%nat → a_error a = true → a_error (parse_args_from a argv) = true.
Proof.
  revert a argv. induction n as [|n IH]; intros a [|arg rest] Hn Ha; try done; cbn [List.length] in Hn; [lia|].
  cbn [parse_args_from]. case_match; [done|]. case_match; [done|].
  destruct (split_arg arg) as [key value]. pose proof (option_action_error key) as Hact.
  destruct (option_action key) as [f|f]; [apply IH; [lia|auto]|].
  destruct value as [v|]; [apply IH; [lia|auto]|].
  destruct rest as [|v rest]; [auto|]. apply IH; [cbn in Hn; lia|auto].
Qed.



Lemma split_arg_eq key v : lacks "=" key = true → split_arg (key +:+ "=" +:+ v) = (key, Some v).
Proof.
  intros Hk. unfold split_arg, substr, substr_from. change ("=" +:+ v) with (String "=" v).
  rewrite find_char_app by done. cbn [sdrop]. rewrite stake_app.
  by rewrite (sdrop_app_ge key (String "=" v) 1).
Qed.

Lemma split_arg_none key : lacks "=" key = true → split_arg key = (key, None).
Proof. intros Hk. unfold split_arg. by rewrite (proj2 (find_char_None _ _) Hk). Qed.

(** The two ways of giving a value: for every option that takes one, --key=value and
    --key value mean the same, at every place of the command line and for every value,
    one that looks like an option or holds equals signs included. *)
Theorem option_value_forms (a : CliArgs) (key v : string) (rest : list string) f :
  option_action key = Value f → lacks "=" key = true →
  parse_args_from a ((key +:+ "=" +:+ v) :: rest) = parse_args_from a (key :: v :: rest)
  ∧ parse_args_from a (key :: v :: rest) = parse_args_from (f v a) rest.
Proof.
  intros Hact Hk.
  assert (Hh : ∀ h, option_action h = Flag (set_error true) → lacks "=" h = true →
    (key =? h)%string = false ∧ (key +:+ "=" +:+ v =? h)%string = false).
  { intros h Hh Hl. split; apply String.eqb_neq; intros E; [congruence|].
    rewrite <-E in Hl. unfold lacks in *. rewrite !sforall_app in Hl. by reflect_bool. }
  destruct (Hh "--help" eq_refl eq_refl) as [H1 H2], (Hh "-h" eq_refl eq_refl) as [H3 H4],
    (Hh "--version" eq_refl eq_refl) as [H5 H6], (Hh "-v" eq_refl eq_refl) as [H7 H8].
  cbn [parse_args_from]. rewrite H1, H2, H3, H4, H5, H6, H7, H8. cbn [orb].
  rewrite split_arg_eq, split_arg_none, Hact by done. done.
Qed.

Lemma option_value_forms_witness :
  parse_args_from default_args ["--config=--help=1"; "-r"; "5"]
  = parse_args_from (set_str "config" "--help=1" default_args) ["-r"; "5"].
Proof.
  destruct (option_value_forms default_args "--config" "--help=1" ["-r"; "5"] (set_str "config") eq_refl eq_refl)
    as [H1 H2].
  rewrite H2 in H1. exact H1.
Defined.

(** ** Sizes *)

Lemma rtrim_last p c : isspace c = false → rtrim (p +:+ String c "") = p +:+ String c "".
Proof.
  intros Hc. induction p as [|a p IH]; cbn; [by rewrite Hc|]. rewrite IH. by destruct p.
Qed.

(** A string whose first and last characters are not space is not trimmed. *)
Lemma ltrim_id c s : isspace c = false → ltrim (String c s) = String c s.
Proof. intros Hc. unfold ltrim. cbn. by rewrite Hc. Qed.

(** Digits are a first and, with what precedes it, a last one. *)
Lemma digits_ends ds :
  sforall isdigit ds = true → ds ≠ "" →
  (∃ c r, ds = String c r ∧ isspace c = false) ∧ ∃ p c, ds = p +:+ String c "" ∧ isdigit c = true.
Proof.
  intros Hd Hne. destruct ds as [|a r]; [done|]. split.
  - exists a, r. split; [done|]. cbn in Hd. apply andb_prop in Hd as [Hd _]. by apply isdigit_not_space.
  - clear Hne. revert a Hd. induction r as [|b r IH]; intros a Hd; cbn in Hd; apply andb_prop in Hd as [Ha Hd].
    + by exists "", a.
    + destruct (IH b Hd) as (p & c & E & Hc). exists (String a p), c. by rewrite E.
Qed.

(** The number before the suffix. *)
Lemma parse_size_digits ds (suffix : option ascii) :
  sforall isdigit ds = true → ds ≠ "" →
  (∀ c, suffix = Some c → isdigit c = false ∧ isspace c = false) →
  parse_size_bytes (ds +:+ match suffix with Some c => String c "" | None => "" end)
  = match stod ds with
    | StodOk base =>
        let base := match (tolower <$> suffix) with
                    | Some "k"%char => dmul base (d_of_Z 1024)
                    | Some "m"%char => dmul base (d_of_Z (1024 * 1024))
                    | Some "g"%char => dmul base (d_of_Z (1024 * 1024 * 1024))
                    | _ => base
                    end in
        if dltb base (Fin 0) then Some kDefaultMaxBody
        else if dgtb base (d_of_Z SIZE_MAX) then Some SIZE_MAX
        else d_to_u64 base
    | _ => Some kDefaultMaxBody
    end.
Proof.
  intros Hd Hne Hs. destruct (digits_ends ds Hd Hne) as [(c0 & r & E0 & Hc0) (p & c1 & E1 & Hc1)].
  assert (Hrt : rtrim ds = ds) by (rewrite E1; apply rtrim_last, isdigit_not_space, Hc1).
  assert (Hem : is_empty ds = false) by (by rewrite E0).
  unfold parse_size_bytes. destruct suffix as [c|].
  - destruct (Hs c eq_refl) as [Hnd Hns].
    assert (Hlt : ltrim (ds +:+ String c "") = ds +:+ String c "")
      by (rewrite E0; cbn [String.append]; by apply ltrim_id).
    rewrite Hlt, rtrim_last, last_char_snoc, Hnd by done.
    assert (Hdl : drop_last 1 (ds +:+ String c "") = ds) by apply (drop_last_app ds (String c "")).
    by rewrite Hdl, Hrt, Hem.
  - assert (Hlt : ltrim ds = ds) by (rewrite E0; by apply ltrim_id).
    assert (Hlc : last_char ds = Some c1) by (rewrite E1; apply last_char_snoc).
    by rewrite sapp_nil_r, Hlt, Hrt, Hlc, Hc1, Hrt, Hem.
Qed.

(** The suffixes of the help text and their factors. *)
Definition size_units : list (option ascii * Z) :=
  [(None, 1); (Some "k"%char, 1024); (Some "K"%char, 1024); (Some "m"%char, 1024 * 1024);
   (Some "M"%char, 1024 * 1024); (Some "g"%char, 1024 * 1024 * 1024); (Some "G"%char, 1024 * 1024 * 1024)].

Lemma size_in_range n :
  0 ≤ n ≤ 2 ^ 53 →
  (if dltb (Fin (n * one_k)) (Fin 0) then Some kDefaultMaxBody
   else if dgtb (Fin (n * one_k)) (d_of_Z SIZE_MAX) then Some SIZE_MAX
   else d_to_u64 (Fin (n * one_k))) = Some n.
Proof.
  intros Hn. pose proof one_k_pos.
  replace (dltb (Fin (n * one_k)) (Fin 0)) with false by (symmetry; apply Z.ltb_ge; nia).
  assert (Hle : dleb (d_of_Z n) (d_of_Z SIZE_MAX) = true)
    by (apply d_of_Z_mono; unfold SIZE_MAX, UINT64_MAX; lia).
  rewrite (d_of_Z_small n) in Hle by lia.
  destruct (d_of_Z_fin SIZE_MAX) as (k & Ek & _); [unfold SIZE_MAX, UINT64_MAX; lia|]. rewrite Ek in *.
  cbn [dleb dltb] in *. apply Z.leb_le in Hle.
  destruct (Z.ltb_spec k (n * one_k)); [lia|]. apply d_to_u64_whole. unfold is_u64, UINT64_MAX. lia.
Qed.

(** Sizes: a whole number with one of the documented suffixes (k, m, g or none) is
    read exactly.  A trailing b is not part of the format: the digits after which it
    stands are taken without the k, so that 10kb is ten bytes on the command line, while
    the same text in a scenario file is 10240 bytes. *)
Theorem parse_size_exact (n k : Z) (u : option ascii) :
  (u, k) ∈ size_units → 0 ≤ n → n * k ≤ 2 ^ 53 →
  parse_size_bytes (to_string n +:+ match u with Some c => String c "" | None => "" end) = Some (n * k)
  ∧ parse_size_bytes "10kb" = Some 10 ∧ parse_bytesize "10kb" = Some 10240.
Proof.
  intros Hu Hn Hb. pose proof (to_string_digits n Hn) as Hd.
  assert (Hne : to_string n ≠ "") by (intros E; pose proof (to_string_nonempty n Hn); by rewrite E in *).
  split; [|split; vm_compute; reflexivity].
  assert (Hk : 1 ≤ k ≤ 2 ^ 30) by (unfold size_units in Hu; set_solver by lia).
  assert (Hnb : 0 ≤ n ≤ 2 ^ 53) by nia.
  rewrite (parse_size_digits (to_string n) u); [|done..|].
  2:{ intros c ->. unfold size_units in Hu. set_solver. }
  rewrite stod_to_string by done.
  assert (Hm : ∀ z, 0 ≤ z ≤ 2 ^ 30 → k = z → dmul (Fin (n * one_k)) (d_of_Z z) = Fin (n * k * one_k)).
  { intros z Hz ->. rewrite (d_of_Z_small z) by lia. apply dmul_whole. nia. }
  replace (match tolower <$> u with Some _ => _ | None => _ end) with (Fin (n * k * one_k)).
  { apply size_in_range. nia. }
  unfold size_units in Hu. rewrite !elem_of_cons, elem_of_nil in Hu.
  destruct_or!; simplify_eq/=; rewrite ?Z.mul_1_r; symmetry; try done; by apply Hm.
Qed.

Lemma parse_size_exact_witness :
  parse_size_bytes (to_string 10 +:+ String "k" "") = Some (10 * 1024).
Proof.
  assert (H : (Some "k"%char, 1024) ∈ size_units) by (right; left).
  exact (proj1 (parse_size_exact 10 1024 (Some "k"%char) H ltac:(lia) ltac:(lia))).
Defined.
