(* ===== verification/Templates.v ===== *)
(** * The scenario templates of [--init]

    [tools/main.cpp]: the four YAML documents the tool writes ([kTplMinimal],
    [kTplEcommerce], [kTplAuth], [kTplSpike]) and the table that names them.  Each is given
    as its lines, with a back quote where the text has a double quote; [template_docs] is
    the document YAML reads in each.  Substituting the environment into a document with
    references ([substitute_env] of [yaml_parser.cpp]) is shown to give the document with
    the values in their places. *)

From S2P Require Import Prelude CppString Config.

(** ** The texts *)

Definition unquote (c : ascii) : ascii := if Ascii.eqb c "`" then ascii_of_nat 34 else c.

(** The lines of a raw string literal, every one ended by a newline. *)
Definition raw (lines : list string) : string :=
  String.concat "" ((λ l, smap unquote l +:+ String (ascii_of_nat 10) "") <$> lines).

(** [src/tools/main.cpp:259-291] kTplMinimal *)
Definition kTplMinimal : string :=
  raw [
    "# @generated by volley --init=minimal";
    "# Minimal working load scenario. See README for field reference.";
    "version: `1.0`                         # Schema version (string, required)";
    "test_id: `minimal-smoke-${USER:-anon}` # Unique test identifier (string, required)";
    "";
    "target:";
    "  base_url: ${TARGET_URL:-http://127.0.0.1:8080}  # Target host + base path (required)";
    "  protocol: http1.1                   # Protocol: http1.1 | tcp | websocket";
    "  tls:";
    "    verify: true                      # Verify TLS certificates (bool)";
    "";
    "# Load stages. Remove this block to use CLI --rps/--duration as a single default stage.";
    "load_profile:";
    "  - stage: steady                     # Human-readable stage name";
    "    duration: 30s                     # Duration: Ns / Nm / Nh";
    "    target_rps: 100                   # Target requests/second for this stage";
    "    concurrent_users: 10              # Number of parallel worker threads";
    "";
    "scenarios:";
    "  - name: `health_check`              # Scenario name for reporting";
    "    weight: 100                        # Selection weight: 0..1000 (higher = picked more often)";
    "    steps:";
    "      - http:";
    "          method: GET                 # HTTP method: GET | POST | PUT | DELETE | PATCH | HEAD | OPTIONS";
    "          path: `/health`             # Request path";
    "          assertions:                 # Optional: fail request unless every assertion passes";
    "            - status_code == 200";
    "            - latency < 500ms";
    "";
    "sla:";
    "  error_rate: `< 1%`                  # Max allowed error percentage (0-100)";
    "  p99_latency: `< 1000ms`             # Max allowed P99 response latency"].

(** [src/tools/main.cpp:293-367] kTplEcommerce *)
Definition kTplEcommerce : string :=
  raw [
    "# @generated by volley --init=ecommerce";
    "version: `1.0`";
    "test_id: `ecommerce-checkout-${BUILD_ID:-local}`";
    "";
    "target:";
    "  base_url: ${TARGET_URL:-http://gateway:8080}";
    "  protocol: http1.1";
    "  tls:";
    "    verify: true";
    "";
    "authentication:";
    "  type: oauth2";
    "  token_endpoint: ${AUTH_URL:-https://auth.internal/oauth/token}";
    "  client_credentials:";
    "    client_id: ${CLIENT_ID}";
    "    client_secret: ${CLIENT_SECRET}";
    "";
    "load_profile:";
    "  - stage: rampup";
    "    duration: 5m";
    "    target_rps: 1000";
    "    concurrent_users: 10";
    "  - stage: steady";
    "    duration: 30m";
    "    target_rps: 5000";
    "    concurrent_users: 50";
    "  - stage: spike";
    "    duration: 2m";
    "    target_rps: 15000";
    "    concurrent_users: 100";
    "";
    "scenarios:";
    "  - name: `browse_products`";
    "    weight: 60";
    "    steps:";
    "      - http:";
    "          method: GET";
    "          path: `/api/v1/products`";
    "          assertions: [status_code == 200, latency < 200ms]";
    "      - http:";
    "          method: GET";
    "          path: `/api/v1/products/${PRODUCT_ID:-42}`";
    "          assertions: [status_code == 200, latency < 250ms]";
    "  - name: `user_checkout_flow`";
    "    weight: 40";
    "    steps:";
    "      - http:";
    "          method: POST";
    "          path: `/api/v1/cart`";
    "          body: '{`item_id`: `${ITEM_ID:-1001}`,`qty`:1}'";
    "          headers: {Content-Type: `application/json`}";
    "          assertions: [status_code == 201, latency < 300ms]";
    "      - http:";
    "          method: POST";
    "          path: `/api/v1/checkout`";
    "          body: '{`payment_method`:`card`}'";
    "          headers: {Content-Type: `application/json`}";
    "          assertions: [status_code == 200, latency < 500ms]";
    "";
    "observability:";
    "  metrics:";
    "    prometheus:";
    "      enabled: true";
    "      port: 9095";
    "  tracing:";
    "    otlp_endpoint: ${OTLP_ENDPOINT:-http://jaeger:4318}";
    "    sample_rate: 0.1";
    "  logging:";
    "    level: info";
    "    format: json";
    "";
    "sla:";
    "  error_rate: `< 0.1%`";
    "  p99_latency: `< 500ms`"].

(** [src/tools/main.cpp:369-403] kTplAuth *)
Definition kTplAuth : string :=
  raw [
    "# @generated by volley --init=auth";
    "version: `1.0`";
    "test_id: `auth-flow-${CI_BUILD:-dev}`";
    "";
    "target:";
    "  base_url: ${TARGET_URL:-http://api.internal}";
    "  tls: { verify: true }";
    "";
    "load_profile:";
    "  - stage: steady";
    "    duration: 10m";
    "    target_rps: 500";
    "    concurrent_users: 20";
    "";
    "scenarios:";
    "  - name: `login_and_profile`";
    "    weight: 100";
    "    steps:";
    "      - http:";
    "          method: POST";
    "          path: `/oauth/token`";
    "          body: 'grant_type=password&username=${TEST_USER}&password=${TEST_PASS}'";
    "          headers: {Content-Type: `application/x-www-form-urlencoded`}";
    "          assertions: [status_code == 200]";
    "      - http:";
    "          method: GET";
    "          path: `/api/v1/me/profile`";
    "          assertions: [status_code == 200, latency < 150ms]";
    "      - http:";
    "          method: POST";
    "          path: `/api/v1/logout`";
    "          assertions: [status_code == 204]";
    "";
    "sla: { error_rate: `< 1%`, p99_latency: `< 1000ms` }"].

(** [src/tools/main.cpp:405-439] kTplSpike *)
Definition kTplSpike : string :=
  raw [
    "# @generated by volley --init=spike";
    "version: `1.0`";
    "test_id: `spike-traffic-test`";
    "";
    "target:";
    "  base_url: ${TARGET_URL:-http://edge-lb:80}";
    "";
    "load_profile:";
    "  - stage: baseline duration=2m target_rps=100 concurrent_users=5";
    "  - stage: spike1   duration=1m target_rps=5000 concurrent_users=200";
    "  - stage: recovery duration=2m target_rps=500 concurrent_users=30";
    "  - stage: spike2   duration=1m target_rps=20000 concurrent_users=500";
    "  - stage: cool     duration=5m target_rps=200 concurrent_users=10";
    "";
    "scenarios:";
    "  - name: `spike_get`";
    "    weight: 90";
    "    steps:";
    "      - http:";
    "          method: GET";
    "          path: ${SPIKE_PATH:-/api/v1/items}";
    "          headers: {Accept-Encoding: `gzip,br`}";
    "          assertions: [status_code == 200]";
    "  - name: `spike_post`";
    "    weight: 10";
    "    steps:";
    "      - http:";
    "          method: POST";
    "          path: `/api/v1/events`";
    "          body: '{`ts`:0,`evt`:`bench`}'";
    "          headers: {Content-Type: `application/json`}";
    "          assertions: [status_code == 202]";
    "";
    "sla: { error_rate: `< 5%`, p99_latency: `< 5000ms` }"].

(** [src/tools/main.cpp:257-257] InitTemplate *)
Definition InitTemplate : Type := string * string.

(** [src/tools/main.cpp:441-447] kTemplates *)
Definition kTemplates : list InitTemplate :=
  [("minimal", kTplMinimal); ("ecommerce", kTplEcommerce); ("auth", kTplAuth); ("spike", kTplSpike)].

(** The template of a preset, from the first entry of the table with that name. *)
(** [src/tools/main.cpp:456-459] do_init *)
Definition find_template (preset : string) : option string :=
  snd <$> List.find (λ t, (t.1 =? preset)%string) kTemplates.

(** ** Documents with references *)

(** A YAML document whose scalars may refer to variables; keys do not. *)
Inductive Doc :=
  | DScalar (t : Template)
  | DSequence (l : list Doc)
  | DMap (l : list (string * Doc)).

(** The document as it is written, and with the references replaced by their values. *)
Fixpoint doc_map (f : Template → string) (d : Doc) : Node :=
  match d with
  | DScalar t => Scalar (f t)
  | DSequence l => Sequence (map (doc_map f) l)
  | DMap l => Map (map (λ kv, (Scalar kv.1, doc_map f kv.2)) l)
  end.

Definition print_doc : Doc → Node := doc_map print_template.
Definition doc_value (env : string → option string) : Doc → Node := doc_map (template_value env).

(** The variables that have neither a value nor a default, in the order of the document. *)
Fixpoint doc_missings (env : string → option string) (d : Doc) : list string :=
  match d with
  | DScalar t => omap (λ lr, ref_missing env lr.2) t.1
  | DSequence l => List.concat (map (doc_missings env) l)
  | DMap l => List.concat (map (λ kv, doc_missings env kv.2) l)
  end.

Fixpoint wf_doc (d : Doc) : bool :=
  match d with
  | DScalar t => wf_template t
  | DSequence l => forallb wf_doc l
  | DMap l => forallb (λ kv, wf_doc kv.2) l
  end.

Lemma Doc_nested_ind (P : Doc → Prop) :
  (∀ t, P (DScalar t)) → (∀ l, Forall P l → P (DSequence l)) → (∀ l, Forall (λ kv, P kv.2) l → P (DMap l)) →
  ∀ d, P d.
Proof.
  intros Hs Hl Hm. fix go 1. intros [t|l|l].
  - apply Hs.
  - apply Hl. induction l as [|d l IH]; constructor; [apply go|apply IH].
  - apply Hm. induction l as [|[k d] l IH]; constructor; [apply go|apply IH].
Qed.

(** The variable reported: the one there was before, or the first of the list. *)
Definition report (missing : string) (l : list string) : string :=
  if is_empty missing then default "" (head l) else missing.

Lemma report_app missing l1 l2 :
  Forall (λ v, is_empty v = false) l1 → report (report missing l1) l2 = report missing (l1 ++ l2).
Proof.
  intros Hl. unfold report. destruct (is_empty missing) eqn:E; [|by rewrite E].
  destruct l1 as [|v l1]; [done|]. apply Forall_cons in Hl as [Hv _]. cbn. by rewrite Hv.
Qed.

Lemma ref_missing_nonempty env r v : wf_ref r = true → ref_missing env r = Some v → is_empty v = false.
Proof.
  intros Hwf Hr. destruct r as [n|n d]; cbn in Hr; [|done]. case_match; simplify_eq.
  unfold wf_ref in Hwf. cbn in Hwf. by destruct v.
Qed.

Lemma wf_template_refs t lr : wf_template t = true → lr ∈ t.1 → wf_ref lr.2 = true.
Proof.
  unfold wf_template. intros [Hall _]%andb_prop Hin. rewrite forallb_forall in Hall.
  apply list_elem_of_In in Hin. by apply Hall, andb_prop in Hin as [_ ?].
Qed.

Lemma doc_missings_nonempty env d : wf_doc d = true → Forall (λ v, is_empty v = false) (doc_missings env d).
Proof.
  induction d as [t|l IH|l IH] using Doc_nested_ind; cbn [wf_doc doc_missings]; intros Hwf.
  - apply Forall_forall. intros v (lr & Hin & Hr)%list_elem_of_omap.
    eapply ref_missing_nonempty; [|done]. by eapply wf_template_refs.
  - apply Forall_concat, Forall_fmap. rewrite forallb_forall in Hwf. rewrite Forall_forall in IH |- *.
    intros d Hd. apply IH; [done|]. apply Hwf. by apply list_elem_of_In.
  - apply Forall_concat, Forall_fmap. rewrite forallb_forall in Hwf. rewrite Forall_forall in IH |- *.
    intros d Hd. apply IH; [done|]. apply Hwf. by apply list_elem_of_In.
Qed.

Lemma substitute_doc (env : string → option string) (d : Doc) (missing : string) :
  wf_doc d = true →
  substitute_env env (print_doc d) missing = (doc_value env d, report missing (doc_missings env d)).
Proof.
  unfold print_doc, doc_value. revert missing.
  induction d as [[lrs tl]|l IH|l IH] using Doc_nested_ind; intros missing Hwf; cbn [doc_map substitute_env].
  - unfold expand_scalar. pose proof (print_template_length (lrs, tl)) as Hlen. cbn [fst] in Hlen.
    rewrite expand_template; [done|done|lia].
  - match goal with |- (let '(_, _) := ?g _ _ in _) = _ => set (go := g) end.
    assert (Hgo : go (map (doc_map print_template) l) missing
      = (map (doc_map (template_value env)) l, report missing (doc_missings env (DSequence l)))).
    { cbn [doc_missings wf_doc] in *. revert missing. induction l as [|d l IHl]; intros missing.
      - unfold report. cbn. by destruct missing.
      - apply Forall_cons in IH as [Hd IH]. cbn [forallb] in Hwf. apply andb_prop in Hwf as [Hwd Hwl].
        cbn [map List.concat]. cbn. rewrite Hd by done. fold go. rewrite IHl by done. 
        rewrite report_app by by apply doc_missings_nonempty. done. }
    by rewrite Hgo.
  - match goal with |- (let '(_, _) := ?g _ _ in _) = _ => set (go := g) end.
    assert (Hgo : go (map (λ kv, (Scalar kv.1, doc_map print_template kv.2)) l) missing
      = (map (λ kv, (Scalar kv.1, doc_map (template_value env) kv.2)) l, report missing (doc_missings env (DMap l)))).
    { cbn [doc_missings wf_doc] in *. revert missing. induction l as [|[k d] l IHl]; intros missing.
      - unfold report. cbn. by destruct missing.
      - apply Forall_cons in IH as [Hd IH]. cbn [forallb] in Hwf. apply andb_prop in Hwf as [Hwd Hwl].
        cbn [map List.concat fst snd] in *. cbn. rewrite Hd by done. fold go. rewrite IHl by done.
        rewrite report_app by by apply doc_missings_nonempty. done. }
    by rewrite Hgo.
Qed.

(** C27.  Environment substitution gives every document its values: in a document of any
    shape whose scalars are made of literal text and references [${NAME}] or
    [${NAME:-default}], each reference becomes the variable's value, or its default (nothing
    without one) when the variable is unset or empty, keys and structure stay as they are,
    and the variable reported is the first in document order that has neither. *)
Theorem substitute_env_document (env : string → option string) (d : Doc) (missing : string) :
  wf_doc d = true →
  substitute_env env (print_doc d) missing = (doc_value env d, report missing (doc_missings env d)).
Proof. apply substitute_doc. Qed.

Lemma substitute_env_document_witness :
  let env := λ n, if String.eqb n "HOST" then Some "h" else None in
  substitute_env env (Map [(Scalar "a", Sequence [Scalar "http://${HOST}:${PORT:-80}/${X}"]); (Scalar "b", Scalar "${Y}")]) ""
  = (Map [(Scalar "a", Sequence [Scalar "http://h:80/"]); (Scalar "b", Scalar "")], "X").
Proof.
  intros env.
  exact (substitute_env_document env (DMap [("a", DSequence [DScalar ([("http://", Var "HOST"); (":", VarOr "PORT" "80");
    ("/", Var "X")], "")]); ("b", DScalar ([("", Var "Y")], ""))]) "" eq_refl).
Defined.

(** ** The documents of the templates *)

Definition lit (s : string) : Doc := DScalar ([], s).
Definition lits (l : list (string * string)) : list (string * Doc) := map (λ kv, (kv.1, lit kv.2)) l.
Definition scalars (l : list (string * string)) : Doc := DMap (lits l).
(** [pre${name:-d}] and [${name}] *)
Definition or_else (pre name d : string) : Doc := DScalar ([(pre, VarOr name d)], "").
Definition var (name : string) : Doc := DScalar ([("", Var name)], "").

Definition stage_node (name duration rps users : string) : Doc :=
  scalars [("stage", name); ("duration", duration); ("target_rps", rps); ("concurrent_users", users)].

(** A step: its scalar fields, its headers if it has any, its assertions. *)
Definition http_node (l : list (string * Doc)) (hs : list (string * string)) (asserts : list string) : Doc :=
  DMap [("http", DMap (l
    ++ (if hs is [] then [] else [("headers", scalars hs)])
    ++ [("assertions", DSequence (map lit asserts))]))].

Definition scenario_node (name weight : string) (steps : list Doc) : Doc :=
  DMap [("name", lit name); ("weight", lit weight); ("steps", DSequence steps)].

Definition sla_node (error_rate p99 : string) : Doc :=
  scalars [("error_rate", error_rate); ("p99_latency", p99)].

Definition unquoted (s : string) : string := smap unquote s.

Definition minimal_doc : Doc := DMap [
  ("version", lit "1.0");
  ("test_id", or_else "minimal-smoke-" "USER" "anon");
  ("target", DMap [("base_url", or_else "" "TARGET_URL" "http://127.0.0.1:8080");
                     ("protocol", lit "http1.1"); ("tls", scalars [("verify", "true")])]);
  ("load_profile", DSequence [stage_node "steady" "30s" "100" "10"]);
  ("scenarios", DSequence [scenario_node "health_check" "100"
     [http_node [("method", lit "GET"); ("path", lit "/health")] [] ["status_code == 200"; "latency < 500ms"]]]);
  ("sla", sla_node "< 1%" "< 1000ms")].

Definition ecommerce_doc : Doc := DMap [
  ("version", lit "1.0");
  ("test_id", or_else "ecommerce-checkout-" "BUILD_ID" "local");
  ("target", DMap [("base_url", or_else "" "TARGET_URL" "http://gateway:8080");
                     ("protocol", lit "http1.1"); ("tls", scalars [("verify", "true")])]);
  ("authentication", DMap [("type", lit "oauth2");
     ("token_endpoint", or_else "" "AUTH_URL" "https://auth.internal/oauth/token");
     ("client_credentials", DMap [("client_id", var "CLIENT_ID"); ("client_secret", var "CLIENT_SECRET")])]);
  ("load_profile", DSequence [stage_node "rampup" "5m" "1000" "10"; stage_node "steady" "30m" "5000" "50";
                             stage_node "spike" "2m" "15000" "100"]);
  ("scenarios", DSequence [
     scenario_node "browse_products" "60"
       [http_node [("method", lit "GET"); ("path", lit "/api/v1/products")] [] ["status_code == 200"; "latency < 200ms"];
        http_node [("method", lit "GET"); ("path", or_else "/api/v1/products/" "PRODUCT_ID" "42")] []
          ["status_code == 200"; "latency < 250ms"]];
     scenario_node "user_checkout_flow" "40"
       [http_node [("method", lit "POST"); ("path", lit "/api/v1/cart");
                   ("body", DScalar ([(unquoted "{`item_id`: `", VarOr "ITEM_ID" "1001")], unquoted "`,`qty`:1}"))]
          [("Content-Type", "application/json")] ["status_code == 201"; "latency < 300ms"];
        http_node [("method", lit "POST"); ("path", lit "/api/v1/checkout");
                   ("body", lit (unquoted "{`payment_method`:`card`}"))]
          [("Content-Type", "application/json")] ["status_code == 200"; "latency < 500ms"]]]);
  ("observability", DMap [
     ("metrics", DMap [("prometheus", scalars [("enabled", "true"); ("port", "9095")])]);
     ("tracing", DMap [("otlp_endpoint", or_else "" "OTLP_ENDPOINT" "http://jaeger:4318"); ("sample_rate", lit "0.1")]);
     ("logging", scalars [("level", "info"); ("format", "json")])]);
  ("sla", sla_node "< 0.1%" "< 500ms")].

Definition auth_doc : Doc := DMap [
  ("version", lit "1.0");
  ("test_id", or_else "auth-flow-" "CI_BUILD" "dev");
  ("target", DMap [("base_url", or_else "" "TARGET_URL" "http://api.internal"); ("tls", scalars [("verify", "true")])]);
  ("load_profile", DSequence [stage_node "steady" "10m" "500" "20"]);
  ("scenarios", DSequence [scenario_node "login_and_profile" "100"
     [http_node [("method", lit "POST"); ("path", lit "/oauth/token");
                 ("body", DScalar ([("grant_type=password&username=", Var "TEST_USER"); ("&password=", Var "TEST_PASS")], ""))]
        [("Content-Type", "application/x-www-form-urlencoded")] ["status_code == 200"];
      http_node [("method", lit "GET"); ("path", lit "/api/v1/me/profile")] [] ["status_code == 200"; "latency < 150ms"];
      http_node [("method", lit "POST"); ("path", lit "/api/v1/logout")] [] ["status_code == 204"]]]);
  ("sla", sla_node "< 1%" "< 1000ms")].

(** Each entry of its load profile is a mapping of one key, [stage], whose value is the
    rest of the line: a plain scalar goes on over the blanks and the equals signs. *)
Definition spike_doc : Doc := DMap [
  ("version", lit "1.0");
  ("test_id", lit "spike-traffic-test");
  ("target", DMap [("base_url", or_else "" "TARGET_URL" "http://edge-lb:80")]);
  ("load_profile", DSequence [
     scalars [("stage", "baseline duration=2m target_rps=100 concurrent_users=5")];
     scalars [("stage", "spike1   duration=1m target_rps=5000 concurrent_users=200")];
     scalars [("stage", "recovery duration=2m target_rps=500 concurrent_users=30")];
     scalars [("stage", "spike2   duration=1m target_rps=20000 concurrent_users=500")];
     scalars [("stage", "cool     duration=5m target_rps=200 concurrent_users=10")]]);
  ("scenarios", DSequence [
     scenario_node "spike_get" "90"
       [http_node [("method", lit "GET"); ("path", or_else "" "SPIKE_PATH" "/api/v1/items")]
          [("Accept-Encoding", "gzip,br")] ["status_code == 200"]];
     scenario_node "spike_post" "10"
       [http_node [("method", lit "POST"); ("path", lit "/api/v1/events"); ("body", lit (unquoted "{`ts`:0,`evt`:`bench`}"))]
          [("Content-Type", "application/json")] ["status_code == 202"]]]);
  ("sla", sla_node "< 5%" "< 5000ms")].

(** Which document is in which text. *)
Definition template_docs : list (string * Doc) :=
  [(kTplMinimal, minimal_doc); (kTplEcommerce, ecommerce_doc); (kTplAuth, auth_doc); (kTplSpike, spike_doc)].
