(* ===== verification/CliMain.v ===== *)
(** * The command line tool: what it does

    [tools/main.cpp] after its arguments are read: template generation, the dry run, the
    authentication chosen, the plan of a direct run, the progress display, and the exit
    code of the process.  The run itself is [Engine]'s; its outcome, and what the
    operating system answers, are arguments ([MainEnv]). *)

From S2P Require Import Prelude CppString Result Url Double Constants Collector Config Engine Auth CliArgs Templates.

Local Open Scope Z_scope.

(** How the process ends: an exit code, or [std::terminate] for an exception that leaves
    [main].  [None], where it occurs, is undefined behaviour. *)
Inductive Exit := Code (n : Z) | Terminated (what : string).

(** [src/include/cppload/core/constants.hpp:34-39] ExitCode *)
Definition EXIT_OK : Exit := Code 0.
Definition EXIT_CONFIG : Exit := Code 1.
Definition EXIT_SLA : Exit := Code 2.
Definition EXIT_RUNTIME : Exit := Code 3.

(** ** Authentication *)

Definition no_auth : AuthConfig := mkAuthConfig NONE "" "" "" "" "" "" "" "".

(** [src/tools/main.cpp:500-523] build_auth_config *)
Definition build_auth_config (args : CliArgs) (cfg : option ScenarioConfig) : AuthConfig :=
  let t := a_str "auth_type" args in
  let tok := a_str "auth_token" args in
  if negb (is_empty t) then
    if (t =? "bearer")%string && negb (is_empty tok)
    then mkAuthConfig BEARER_TOKEN "" tok "" "" "" "" "" ""
    else if (t =? "apikey")%string && negb (is_empty tok)
    then mkAuthConfig API_KEY tok "" "" "" "" "" "" ""
    else if (t =? "oauth2")%string
    then mkAuthConfig OAUTH2 "" "" (a_str "client_id" args) (a_str "client_secret" args)
           (a_str "token_endpoint" args) "" "" ""
    else no_auth
  else match cfg with
  | Some cfg =>
      let auth := authentication cfg in
      if (Config.auth_type auth =? "oauth2")%string
      then mkAuthConfig OAUTH2 "" "" (Config.client_id auth) (Config.client_secret auth)
             (Config.token_endpoint auth) "" "" ""
      else no_auth
  | None => no_auth
  end.

(** ** Direct runs *)

(** The port of the target, or the reason it is refused. *)
(** [src/tools/main.cpp:660-676] run_direct *)
Definition direct_port (u : UrlParts) : Result Z string :=
  let parsed := if is_empty (url_port u) then StoOk (if url_tls u then 443 else 80) else stol (url_port u) in
  match parsed with
  | StoOk p => if (p <=? 0) || (p >? 65535) then Error "Port out of range in target URL" else Ok (u16 p)
  | _ => Error "Invalid port in target URL"
  end.

(** [src/tools/main.cpp:678-681] run_direct *)
Definition direct_concurrency (rps : Z) : Z :=
  let c := u32 (Z.min (rps `quot` 10) 64) in
  let c := if c =? 0 then 1 else c in
  if c >? 100000 then 100000 else c.

(** [None]: no end. *)
(** [src/tools/main.cpp:692-694] run_direct *)
Definition direct_end (duration test_start : Z) : option Z :=
  if duration >? 0 then Some (test_start + duration * 1000000000) else None.

(** Rate and burst of the bucket. *)
(** [src/tools/main.cpp:697-697] run_direct *)
Definition direct_bucket (rps : Z) : double * double :=
  let rate := d_of_Z rps in (rate, if dltb (d_of_Z 100) rate then rate else d_of_Z 100).

(** The time between two slots of a worker, in nanoseconds. *)
(** [src/tools/main.cpp:752-757] run_direct *)
Definition direct_period (rps concurrency : Z) : option Z :=
  let rate := d_of_Z rps in
  let rate := if dleb rate (Fin 0) then d_of_Z 1 else rate in
  let p := dmul (ddiv (d_of_Z concurrency) rate) (d_of_Z 1000000000) in
  let p := if dltb p (d_of_Z 1) then d_of_Z 1 else p in
  let p := if dgtb p (d_of_Z (10 ^ 18)) then d_of_Z (10 ^ 18) else p in
  d_to_i64 p.

(** The first slot of worker [w]. *)
(** [src/tools/main.cpp:758-760] run_direct *)
Definition direct_first_slot (now period w concurrency : Z) : Z := now + (period * w) `quot` concurrency.

(** The request every worker sends, without the headers of the authentication. *)
(** [src/tools/main.cpp:789-794] run_direct *)
Definition direct_request (u : UrlParts) (target_port : Z) : string * string * string * Z * bool :=
  ("GET", url_path u, url_host u, target_port, url_tls u).

(** What the handler records as the status. *)
(** [src/tools/main.cpp:801-801] run_direct *)
Definition direct_code (ec : option Err) (status : Z) : Z := match ec with Some _ => 0 | None => status end.

Section Results.
Context `{NthElement}.

(** [src/tools/main.cpp:848-850] run_direct *)
Definition direct_sla (m : MetricsCollector) : option bool :=
  if dleb (error_rate m) (d_of_Z 10)
  then snap ← snapshot m; Some (m_p99_latency_us snap <=? 5 * 1000 * 1000)
  else Some false.

(** The end of a direct run, from the number of workers that failed and the metrics. *)
(** [src/tools/main.cpp:839-857] run_direct *)
Definition direct_exit (failures : Z) (m : MetricsCollector) : option Exit :=
  sla ← direct_sla m;
  Some (if failures >? 0 then EXIT_RUNTIME else if (sla : bool) then EXIT_OK else EXIT_SLA).

(** A direct run: the checks before it, and the exit code it ends with.  The load itself
    is in [outcome]; its parts are the definitions above. *)
(** [src/tools/main.cpp:647-659] run_direct *)
Definition run_direct (args : CliArgs) (outcome : Z * MetricsCollector) : option Exit :=
  if a_rps args <=? 0 then Some EXIT_CONFIG
  else
    let u := parse_url (a_str "target" args) in
    if is_empty (url_host u) then Some EXIT_CONFIG
    else match direct_port u with
    | Error _ => Some EXIT_CONFIG
    | Ok _ => direct_exit outcome.1 outcome.2
    end.

End Results.

(** ** The progress display of a scenario run *)

(** The index and the name of the stage shown [el] seconds after the start: the first
    whose cumulated length is not over. *)
(** [src/tools/main.cpp:1021-1031] main *)
Fixpoint progress_loop (el acc : Z) (i : nat) (last : nat * string) (sts : list Stage) : nat * string :=
  match sts with
  | [] => last
  | st :: sts =>
      let acc := u64 (acc + Z.max 1 (stage_duration st)) in
      if u64 (el * 1000) <? acc then (i, stage_name st) else progress_loop el acc (S i) last sts
  end.

(** [src/tools/main.cpp:1015-1031] main *)
Definition progress_stage (el : Z) (sts : list Stage) : nat * string :=
  match last sts with
  | None => (0%nat, "default")
  | Some st => progress_loop el 0 0 ((List.length sts - 1)%nat, stage_name st) sts
  end.

(** The status [main]'s callback records: a failed assertion counts as no answer. *)
(** [src/tools/main.cpp:1055-1058] main *)
Definition recorded_code (step : HttpStep) (r : Observed) : Z :=
  if negb (status_code r =? 0) && negb (evaluate_assertions step r) then 0 else status_code r.

(** ** Results *)

Inductive Value_ := VInt (n : Z) | VDouble (x : double) | VText (s : string) | VBool (b : bool)
  | VObject (fields : list (string * Value_)).

(** [src/tools/main.cpp:559-572] snapshot_to_json *)
Definition snapshot_to_json (m : RequestMetrics) : list (string * Value_) :=
  [("total_requests", VInt (m_total_requests m));
   ("successful_requests", VInt (m_successful_requests m));
   ("failed_requests", VInt (m_failed_requests m));
   ("total_bytes_sent", VInt (m_total_bytes_sent m));
   ("total_bytes_received", VInt (m_total_bytes_received m));
   ("mean_latency_us", VDouble (m_mean_latency_us m));
   ("min_latency_us", VInt (u64 (m_min_latency m)));
   ("max_latency_us", VInt (u64 (m_max_latency m)));
   ("p95_latency_us", VInt (m_p95_latency_us m));
   ("p99_latency_us", VInt (m_p99_latency_us m))].

(** [started_at]: milliseconds since the epoch. *)
(** [src/tools/main.cpp:615-628] print_results *)
Definition results_json (args : CliArgs) (m : RequestMetrics) (test_id : string) (elapsed started_at : Z)
    (sla_passed : bool) (actual_rps err_rate : double) : list (string * Value_) :=
  [("version", VText kVersion); ("tool", VText "volley"); ("test_id", VText test_id);
   ("elapsed_s", VInt elapsed); ("started_at", VText (to_string started_at));
   ("target_rps", VInt (u64 (a_rps args))); ("duration_s", VInt (a_duration args));
   ("sla_passed", VBool sla_passed); ("metrics", VObject (snapshot_to_json m));
   ("actual_rps", VDouble actual_rps); ("error_rate_pct", VDouble err_rate)].

(** ** [main] *)

(** What the arguments set on the engine before it runs: the rate and, in milliseconds,
    the length of the run. *)
Record Overrides := mkOverrides { o_target_rps : option Z; o_max_duration : option Z }.

(** [src/tools/main.cpp:945-950] main *)
Definition overrides (args : CliArgs) : Overrides :=
  mkOverrides (if 0 <? a_rps args then Some (u32 (a_rps args)) else None)
    (if a_duration_set args && (0 <? a_duration args) then Some (a_duration args * 1000) else None).

(** What the tool finds outside: environment variables, files, whether a path can be
    written, whether the authentication provider's constructor throws (its first token
    request fails), the outcome of a direct run (failed workers, metrics) and of a
    scenario run: [None] if [run] threw, otherwise whether a worker failed and the
    metrics. *)
Record MainEnv := mkMainEnv {
  e_env : string → option string;
  e_file : string → option string;
  e_writable : string → bool;
  e_auth_throws : AuthConfig → bool;
  e_direct : Z * MetricsCollector;
  e_run : Overrides → ScenarioConfig → option (bool * MetricsCollector) }.

Section Main.
Context `{YamlLib} `{NthElement}.

(** [src/core/scenario/engine.cpp:587-595] ScenarioEngine::Impl::load_config *)
Definition load_config (e : MainEnv) (path : string) (file : option string) : Result ScenarioConfig ConfigError :=
  parse_config_file (e_env e) path file.

(** [src/core/scenario/engine.cpp:167-175] ScenarioEngine::Impl::validate_schema *)
Definition validate_schema (cfg : ScenarioConfig) : option string := validate_scenario_config cfg.

(** Run [k] on the configuration: a configuration that is rejected is a usage error, an
    exception of the parser ends the process. *)
Definition with_config (r : Result ScenarioConfig ConfigError) (k : ScenarioConfig → option Exit) : option Exit :=
  match r with
  | Ok cfg => k cfg
  | Error (Rejected _) => Some EXIT_CONFIG
  | Error (Thrown what) => Some (Terminated what)
  | Error Undefined => None
  end.

(** The template written is read back from the file. *)
(** [src/tools/main.cpp:451-498] do_init *)
Definition do_init (e : MainEnv) (args : CliArgs) : option Exit :=
  match find_template (stolower (a_str "init_preset" args)) with
  | None => Some EXIT_CONFIG
  | Some contents =>
      let out_path := if is_empty (a_str "init_output" args) then "volley-scenario.yaml"
                      else a_str "init_output" args in
      if negb (e_writable e out_path) then Some EXIT_CONFIG
      else
        with_config (load_config e out_path (Some contents)) (λ cfg,
          match validate_schema cfg with Some _ => Some EXIT_CONFIG | None => Some EXIT_OK end)
  end.

(** [src/tools/main.cpp:525-557] do_dry_run *)
Definition do_dry_run (e : MainEnv) (config_path : string) : option Exit :=
  with_config (load_config e config_path (e_file e config_path)) (λ cfg,
    match validate cfg with
    | Some _ => Some EXIT_CONFIG
    | None => match validate_schema cfg with Some _ => Some EXIT_CONFIG | None => Some EXIT_OK end
    end).

(** After the run: the exit code from the metrics of the callback. *)
(** [src/tools/main.cpp:1076-1110] main *)
Definition finish_run (cfg : ScenarioConfig) (outcome : option (bool * MetricsCollector)) : option Exit :=
  match outcome with
  | None => Some EXIT_RUNTIME
  | Some (aborted, m) =>
      ok ← check_sla (sla cfg) m;
      let sla_ok := (ok : bool) && negb aborted in
      Some (if (aborted : bool) then EXIT_RUNTIME else if sla_ok then EXIT_OK else EXIT_SLA)
  end.

(** Set the authentication up and go on, unless its constructor throws. *)
(** [src/tools/main.cpp:910-921] main *)
Definition with_auth (e : MainEnv) (args : CliArgs) (cfg : option ScenarioConfig) (k : option Exit) : option Exit :=
  let a := build_auth_config args cfg in
  if negb (bool_decide (Auth.auth_type a = NONE)) && e_auth_throws e a then Some EXIT_CONFIG else k.

(** (The Vault connection, the tracer, the Prometheus exporter and the progress display
    do not bear on the exit code; they are [Vault], [Otlp], [Prometheus] and
    [progress_stage].) *)
(** [src/tools/main.cpp:859-921] main *)
Definition main (e : MainEnv) (argv : list string) : option Exit :=
  let args := parse_args argv in
  let config := a_str "config" args in
  if a_error args then Some EXIT_CONFIG
  else if a_help args then Some EXIT_OK
  else if a_version args then Some EXIT_OK
  else if negb (is_empty (a_str "init_preset" args)) then do_init e args
  else if a_dry_run args then
    if is_empty config then Some EXIT_CONFIG else do_dry_run e config
  else if negb (is_empty config) then
    with_config (load_config e config (e_file e config)) (λ cfg,
      match validate cfg with
      | Some _ => Some EXIT_CONFIG
      | None =>
          match validate_schema cfg with
          | Some _ => Some EXIT_CONFIG
          | None => with_auth e args (Some cfg) (finish_run cfg (e_run e (overrides args) cfg))
          end
      end)
  else if is_empty (a_str "target" args) then Some EXIT_CONFIG
  else with_auth e args None (run_direct args (e_direct e)).

(** ** Exit codes *)

(** The arguments ask for a scenario run, not for help, a template or a check. *)
Definition run_mode (args : CliArgs) : bool :=
  negb (a_error args) && negb (a_help args) && negb (a_version args)
  && is_empty (a_str "init_preset" args) && negb (a_dry_run args) && negb (is_empty (a_str "config" args)).

(** The configuration a run starts with. *)
Definition accepts (e : MainEnv) (path : string) (cfg : ScenarioConfig) : Prop :=
  load_config e path (e_file e path) = Ok cfg ∧ validate cfg = None ∧ validate_schema cfg = None.

Definition auth_fails (e : MainEnv) (args : CliArgs) (cfg : ScenarioConfig) : bool :=
  let a := build_auth_config args (Some cfg) in
  negb (bool_decide (Auth.auth_type a = NONE)) && e_auth_throws e a.

Lemma main_run_mode e argv :
  run_mode (parse_args argv) = true →
  main e argv =
    let args := parse_args argv in
    let config := a_str "config" args in
    with_config (load_config e config (e_file e config)) (λ cfg,
      match validate cfg with
      | Some _ => Some EXIT_CONFIG
      | None =>
          match validate_schema cfg with
          | Some _ => Some EXIT_CONFIG
          | None => with_auth e args (Some cfg) (finish_run cfg (e_run e (overrides args) cfg))
          end
      end).
Proof.
  unfold run_mode, main. cbv zeta. intros Hm. reflect_bool.
  repeat match goal with Hb : _ = true |- _ => rewrite Hb | Hb : _ = false |- _ => rewrite Hb end. done.
Qed.

Lemma main_accepts e argv cfg :
  run_mode (parse_args argv) = true → accepts e (a_str "config" (parse_args argv)) cfg →
  main e argv = if auth_fails e (parse_args argv) cfg then Some EXIT_CONFIG
    else finish_run cfg (e_run e (overrides (parse_args argv)) cfg).
Proof.
  intros Hm (Hl & H1 & H2). rewrite (main_run_mode e argv Hm). cbv zeta. rewrite Hl. cbn [with_config].
  by rewrite H1, H2.
Qed.

Lemma main_not_accepted e argv :
  run_mode (parse_args argv) = true → do_dry_run e (a_str "config" (parse_args argv)) ≠ Some EXIT_OK →
  main e argv = do_dry_run e (a_str "config" (parse_args argv)).
Proof.
  intros Hm. rewrite (main_run_mode e argv Hm). cbv zeta. unfold do_dry_run, with_config.
  destruct (load_config _ _ _) as [cfg|[]]; try done.
  destruct (validate cfg); [done|]. by destruct (validate_schema cfg).
Qed.

Lemma dry_run_ok e path :
  do_dry_run e path = Some EXIT_OK ↔ ∃ cfg, accepts e path cfg.
Proof.
  unfold do_dry_run, with_config, accepts. destruct (load_config _ _ _) as [cfg|[]]; [|naive_solver..].
  destruct (validate cfg) eqn:E1; [naive_solver|]. destruct (validate_schema cfg) eqn:E2; naive_solver.
Qed.


(** Exit codes of a scenario run that was started: 0 exactly when no worker failed
    and the service-level objective holds of the recorded metrics, 2 exactly when no worker
    failed and it does not, 3 exactly when the run threw or a worker failed. *)
Theorem run_exit_codes e argv cfg :
  let args := parse_args argv in
  run_mode args = true → accepts e (a_str "config" args) cfg → auth_fails e args cfg = false →
  (∀ ab m, e_run e (overrides args) cfg = Some (ab, m) → is_Some (check_sla (sla cfg) m)) →
  (main e argv = Some EXIT_OK ↔ ∃ m, e_run e (overrides args) cfg = Some (false, m) ∧ check_sla (sla cfg) m = Some true)
  ∧ (main e argv = Some EXIT_SLA ↔ ∃ m, e_run e (overrides args) cfg = Some (false, m) ∧ check_sla (sla cfg) m = Some false)
  ∧ (main e argv = Some EXIT_RUNTIME ↔ e_run e (overrides args) cfg = None ∨ ∃ m, e_run e (overrides args) cfg = Some (true, m)).
Proof.
  intros args Hm Ha Hf Hd. rewrite (main_accepts e argv cfg Hm Ha). fold args. rewrite Hf.
  unfold finish_run. destruct (e_run e (overrides args) cfg) as [[ab m]|] eqn:Er.
  - destruct (Hd ab m eq_refl) as [ok Hok]. rewrite Hok. cbn [mbind option_bind].
    destruct ab, ok; cbn [andb negb]; naive_solver.
  - naive_solver.
Qed.

(** A scalar without a dollar sign is left alone. *)
Lemma expand_scalar_plain env s missing : lacks "$" s = true → expand_scalar env s missing = (s, missing).
Proof.
  intros Hs. unfold expand_scalar. cbn [expand]. destruct s as [|c r]; [done|]. cbn [is_empty].
  by rewrite find_sub_lacks.
Qed.

(** A value of the wrong type in the scenario ends the process: the parser's exception
    leaves [main], so that the run and the dry run are killed instead of ending with the
    exit code 1 the help text gives for an invalid configuration. *)
Theorem malformed_value_terminates e argv text what url :
  let args := parse_args argv in
  let path := a_str "config" args in
  let doc := Map [(Scalar "test_id", Scalar "t"); (Scalar "target", Map [(Scalar "base_url", Scalar url)]);
                  (Scalar "load_profile", Sequence [Map [(Scalar "target_rps", Scalar "many")]])] in
  run_mode args = true → e_file e path = Some text → yaml_load text = Ok doc →
  lacks "$" url = true → as_uint32 (Scalar "many") = Error what →
  main e argv = Some (Terminated what) ∧ do_dry_run e path = Some (Terminated what).
Proof.
  intros args path doc Hm Hf Hy Hu Hw.
  assert (Hsub : substitute_env (e_env e) doc "" = (doc, "")).
  { unfold doc. cbn [substitute_env]. by rewrite !expand_scalar_plain. }
  assert (Hp : load_config e path (Some text) = Error (Thrown what)).
  { unfold load_config, parse_config_file. rewrite Hy. unfold parse_document. rewrite Hsub.
    unfold doc, parse_target, read2, read. cbn [is_map]. rewrite !subscript_map.
    cbn [map_field]. cbn. rewrite !subscript_map. cbn. rewrite !as_string_scalar. cbn.
    unfold parse_stage, read. rewrite !subscript_map. cbn. by rewrite Hw. }
  assert (Hd : do_dry_run e path = Some (Terminated what))
    by (unfold do_dry_run, with_config; rewrite Hf, Hp; done).
  split; [|done]. rewrite <-Hd. apply main_not_accepted; [done|]. fold args path. by rewrite Hd.
Qed.

End Main.

(** ** Direct runs and the display *)

(** The plan of a direct run, for every command line the parser accepts: between 1 and 64
    workers, one for every ten requests per second in between, and a port that is one. *)
Theorem direct_plan (argv : list string) (u : UrlParts) p :
  let rps := a_rps (parse_args argv) in
  let c := direct_concurrency rps in
  1 ≤ c ≤ 64 ∧ c = Z.max 1 (Z.min (rps / 10) 64)
  ∧ (direct_port u = Ok p → 1 ≤ p ≤ 65535
       ∧ (url_port u = "" → p = if url_tls u then 443 else 80)
       ∧ (url_port u ≠ "" → stol (url_port u) = StoOk p)).
Proof.
  intros rps c. assert (Hr : 1 ≤ rps) by apply parse_args_in_range.
  assert (Hc : c = Z.max 1 (Z.min (rps / 10) 64)).
  { unfold c, direct_concurrency. rewrite Z.quot_div_nonneg by lia.
    assert (0 ≤ rps / 10) by (apply Z.div_pos; lia). rewrite wrap_small by lia.
    destruct (Z.eqb_spec (Z.min (rps / 10) 64) 0) as [E|E]; [rewrite E; done|].
    destruct (Z.gtb_spec (Z.min (rps / 10) 64) 100000); lia. }
  split_and!; [lia..|]. unfold direct_port. intros Hp.
  destruct (is_empty (url_port u)) eqn:He.
  - apply is_empty_spec in He. destruct (url_tls u); cbn in Hp; injection Hp as <-;
      (split_and!; [vm_compute; done..|by intros _; rewrite wrap_small|done]).
  - destruct (stol (url_port u)) as [v| |] eqn:Ev; try done.
    destruct (Z.leb_spec v 0); [done|]. destruct (Z.gtb_spec v 65535); [done|]. cbn [orb] in Hp.
    injection Hp as <-. rewrite wrap_small by lia. split_and!; [lia..| |done].
    intros E. by rewrite E in He.
Qed.

Fixpoint stages_total (sts : list Stage) : Z :=
  match sts with [] => 0 | st :: sts => Z.max 1 (stage_duration st) + stages_total sts end.

Lemma stages_total_nonneg sts : 0 ≤ stages_total sts.
Proof. induction sts; cbn; lia. Qed.

Lemma stages_total_app a b : stages_total (a ++ b) = stages_total a + stages_total b.
Proof. induction a; cbn; lia. Qed.

Lemma stages_total_take sts i : stages_total (take i sts) ≤ stages_total sts.
Proof.
  rewrite <-(take_drop i sts) at 2. rewrite stages_total_app. pose proof (stages_total_nonneg (skipn i sts)). lia.
Qed.

Lemma progress_loop_spec el lst pre sts :
  0 ≤ el → el * 1000 < 2 ^ 64 → stages_total (pre ++ sts) < 2 ^ 64 →
  stages_total pre ≤ el * 1000 →
  (progress_loop el (stages_total pre) (List.length pre) lst sts = lst ∧ stages_total (pre ++ sts) ≤ el * 1000)
  ∨ ∃ i st, progress_loop el (stages_total pre) (List.length pre) lst sts = (i, stage_name st)
      ∧ (pre ++ sts) !! i = Some st ∧ stages_total (take i (pre ++ sts)) ≤ el * 1000
      ∧ el * 1000 < stages_total (take (S i) (pre ++ sts)).
Proof.
  intros Hel Hms. revert pre. induction sts as [|st sts IH]; intros pre Ht Hp; [left; by rewrite app_nil_r|].
  cbn [progress_loop]. pose proof (stages_total_nonneg pre). pose proof (stages_total_nonneg sts).
  assert (Hsn : stages_total (pre ++ [st]) = stages_total pre + Z.max 1 (stage_duration st))
    by (rewrite stages_total_app; cbn; lia).
  assert (Happ : pre ++ st :: sts = (pre ++ [st]) ++ sts) by (by rewrite <-(assoc_L (++))).
  rewrite Happ in Ht |- *. rewrite stages_total_app in Ht.
  rewrite !wrap_small by lia. destruct (Z.ltb_spec (el * 1000) (stages_total pre + Z.max 1 (stage_duration st))).
  - right. exists (List.length pre), st. split_and!; [done| | |].
    + rewrite <-(assoc_L (++)), lookup_app_r, Nat.sub_diag by lia. done.
    + rewrite <-(assoc_L (++)), take_app_length. done.
    + replace (S (List.length pre)) with (List.length (pre ++ [st])) by (rewrite length_app; cbn; lia).
      rewrite take_app_length. lia.
  - rewrite <-Hsn. replace (S (List.length pre)) with (List.length (pre ++ [st])) by (rewrite length_app; cbn; lia).
    apply IH; [by rewrite stages_total_app|lia].
Qed.

(** The stage the display names is the one the plan is in: the stages before it have
    taken no more than the time elapsed and, unless it is the last, the ones up to it take
    longer. *)
Theorem progress_stage_current el sts :
  sts ≠ [] → 0 ≤ el → el * 1000 < 2 ^ 64 → stages_total sts < 2 ^ 64 →
  ∃ i st, progress_stage el sts = (i, stage_name st) ∧ sts !! i = Some st
    ∧ stages_total (take i sts) ≤ el * 1000
    ∧ (el * 1000 < stages_total (take (S i) sts) ∨ S i = List.length sts).
Proof.
  intros Hne Hel Hms Ht. unfold progress_stage. destruct (last sts) as [lst|] eqn:El;
    [|by apply last_None in El].
  pose proof (progress_loop_spec el ((List.length sts - 1)%nat, stage_name lst) [] sts Hel Hms Ht) as Hs.
  cbn [List.length stages_total app] in Hs.
  destruct Hs as [[E Hall]|(i & st & E & Hi & H1 & H2)]; [lia| |by eauto 7].
  exists (List.length sts - 1)%nat, lst. rewrite last_lookup in El.
  replace (pred (List.length sts)) with (List.length sts - 1)%nat in El by lia.
  split_and!; [done|done|etrans; [apply stages_total_take|done]|right].
  destruct sts; [done|cbn; lia].
Qed.

Lemma progress_stage_current_witness :
  ∃ i st, progress_stage 90 [mkStage "ramp" 60000 10 1; mkStage "steady" 0 10 1; mkStage "spike" 60000 10 1]
          = (i, stage_name st) ∧ i = 2%nat.
Proof.
  destruct (progress_stage_current 90 [mkStage "ramp" 60000 10 1; mkStage "steady" 0 10 1; mkStage "spike" 60000 10 1])
    as (i & st & E & _ & _ & _); [done|lia|lia|vm_compute; reflexivity|].
  exists i, st. split; [exact E|]. vm_compute in E. injection E as <-. reflexivity.
Defined.

(** ** A concrete YAML library and runs *)

(** Scalars are read as yaml-cpp reads plain decimal numbers and booleans; two documents
    stand for two files. *)
Module DemoYaml.

Definition decimal (bound : Z) (n : Node) : Result Z string :=
  match n with
  | Scalar s => if negb (is_empty s) && sforall isdigit s && (digits_val 0 s <? bound)
                then Ok (digits_val 0 s) else Error "bad conversion"
  | _ => Error "bad conversion"
  end.

Definition document (profile : list (Node * Node)) : Node :=
  Map [(Scalar "test_id", Scalar "t"); (Scalar "target", Map [(Scalar "base_url", Scalar "http://h")]);
       (Scalar "load_profile", Sequence [Map profile])].

Definition step_node : Node :=
  Map [(Scalar "http", Map [(Scalar "method", Scalar "GET"); (Scalar "path", Scalar "/")])].

Definition good_document : Node :=
  Map [(Scalar "version", Scalar "1.0"); (Scalar "test_id", Scalar "t");
       (Scalar "target", Map [(Scalar "base_url", Scalar "http://h")]);
       (Scalar "scenarios", Sequence [Map [(Scalar "name", Scalar "s"); (Scalar "steps", Sequence [step_node])]])].

Lemma decimal_to_string bound n : 0 ≤ n < bound → decimal bound (Scalar (to_string n)) = Ok n.
Proof.
  intros Hn. unfold decimal. rewrite to_string_nonempty, to_string_digits, digits_val_to_string by lia.
  cbn [negb andb]. by destruct (Z.ltb_spec n bound); [|lia].
Qed.

#[export, refine] Instance demo_yaml : YamlLib := {|
  yaml_load text := Ok (if (text =? "bad")%string then document [(Scalar "target_rps", Scalar "many")]
                        else good_document);
  subscript n key := match n with Map kvs => Ok (map_field kvs key) | Null => Ok None | _ => Error "bad subscript" end;
  as_string n := match n with Scalar s => Ok s | Null => Ok "null" | _ => Error "bad conversion" end;
  as_uint32 := decimal (2 ^ 32);
  as_uint16 := decimal (2 ^ 16);
  as_bool n := match n with
               | Scalar s => if (s =? "true")%string then Ok true
                             else if (s =? "false")%string then Ok false else Error "bad conversion"
               | _ => Error "bad conversion"
               end;
  as_double n := match n with
                 | Scalar s => match stod s with StodOk x => Ok x | _ => Error "bad conversion" end
                 | _ => Error "bad conversion"
                 end;
  emit _ := "" |}.
Proof.
  - done.
  - done.
  - apply decimal_to_string.
  - apply decimal_to_string.
  - by intros [].
Defined.

End DemoYaml.
Import DemoYaml.

(** Both files exist; a run sends nothing and no worker fails. *)
Definition demo_env : MainEnv :=
  mkMainEnv (λ _, None) (λ path, Some path) (λ _, true) (λ _, true)
    (0, make_collector 0) (λ _ _, Some (false, make_collector 0)).

Lemma malformed_value_terminates_witness :
  main demo_env ["--config=bad"] = Some (Terminated "bad conversion")
  ∧ do_dry_run demo_env "bad" = Some (Terminated "bad conversion").
Proof.
  exact (malformed_value_terminates demo_env ["--config=bad"] "bad" "bad conversion" "http://h"
    eq_refl eq_refl eq_refl eq_refl eq_refl).
Defined.

(** The configuration of the other file. *)
Definition demo_config : ScenarioConfig :=
  mkConfig "1.0" "t" (mkTarget "http://h" "http1.1" true 0) default_auth default_obs []
    [mkScenario "s" 100 [mkStep "GET" "/" "" ∅ "" "80" false []]] default_sla.

Lemma demo_accepts : accepts demo_env "good" demo_config.
Proof. split_and!; vm_compute; reflexivity. Qed.


Lemma run_exit_codes_witness :
  main demo_env ["--config"; "good"] = Some EXIT_OK
  ↔ ∃ m, e_run demo_env (mkOverrides (Some 100) None) demo_config = Some (false, m) ∧ check_sla (sla demo_config) m = Some true.
Proof.
  refine (proj1 (run_exit_codes demo_env ["--config"; "good"] demo_config eq_refl demo_accepts eq_refl _)).
  intros ab m E. injection E as _ <-. vm_compute. eexists. reflexivity.
Defined.
