(* ===== verification/Presets.v ===== *)
(** * Every preset of [--init] gives a scenario that is accepted

    [tools/main.cpp], [do_init]: the template is written, read back through the parser of
    [yaml_parser.cpp] and validated.  Here the documents of [Templates] go through [Config]
    and [CliMain], for every environment. *)

From S2P Require Import Prelude CppString Result Double Config Engine CliArgs Templates CliMain.

Local Open Scope Z_scope.

(** ** Reading a document *)

Section Read.
Context `{YamlLib}.

Lemma read_map {A} kvs key (f : Node → Result A string) d :
  read (Map kvs) key f d = match map_field kvs key with None => Ok d | Some x => f x end.
Proof. unfold read. by rewrite subscript_map. Qed.

Lemma as_uint32_lit s n : to_string n = s → 0 ≤ n < 2 ^ 32 → as_uint32 (Scalar s) = Ok n.
Proof. intros <-. apply as_uint32_decimal. Qed.

Lemma as_uint16_lit s n : to_string n = s → 0 ≤ n < 2 ^ 16 → as_uint16 (Scalar s) = Ok n.
Proof. intros <-. apply as_uint16_decimal. Qed.

Lemma as_bool_true : as_bool (Scalar "true") = Ok true.
Proof. apply (as_bool_literal true). Qed.

End Read.

Lemma or_value_nonempty env pre n d : d ≠ "" → is_empty (template_value env ([(pre, VarOr n d)], "")) = false.
Proof.
  intros Hd. unfold template_value. cbn -[ref_value]. rewrite sapp_nil_r. destruct pre as [|c pre]; [|done]. cbn -[ref_value].
  unfold ref_value. cbn. destruct (is_empty (default "" (env n))) eqn:E; [by destruct d|done].
Qed.

(** ** The parts of a template *)

Section Parts.
Context `{YamlLib} (env : string → option string).

Lemma doc_value_map l : doc_value env (DMap l) = Map (map (λ kv, (Scalar kv.1, doc_value env kv.2)) l).
Proof. done. Qed.

Lemma doc_value_seq l : doc_value env (DSequence l) = Sequence (map (doc_value env) l).
Proof. done. Qed.

Lemma doc_value_scalar t : doc_value env (DScalar t) = Scalar (template_value env t).
Proof. done. Qed.

Lemma doc_value_lit s : doc_value env (lit s) = Scalar s.
Proof. done. Qed.

Fixpoint doc_field (l : list (string * Doc)) (key : string) : option Doc :=
  match l with [] => None | (k, d) :: l => if (k =? key)%string then Some d else doc_field l key end.

Lemma subscript_doc l key : subscript (doc_value env (DMap l)) key = Ok (doc_value env <$> doc_field l key).
Proof.
  rewrite doc_value_map, subscript_map. f_equal. induction l as [|[k d] l IH]; [done|]. cbn -[doc_value].
  by destruct (k =? key)%string.
Qed.

Lemma read_doc {A} l key (f : Node → Result A string) dflt :
  read (doc_value env (DMap l)) key f dflt
  = match doc_field l key with None => Ok dflt | Some d => f (doc_value env d) end.
Proof. unfold read. rewrite subscript_doc. by destruct (doc_field l key). Qed.

Lemma parse_stage_doc name duration rps users ms r u :
  parse_duration duration = Some ms → to_string r = rps → to_string u = users → 0 ≤ r < 2 ^ 32 → 0 ≤ u < 2 ^ 32 →
  parse_stage (doc_value env (stage_node name duration rps users)) = Ok (mkStage name ms r u).
Proof.
  intros Hd Hr Hu ? ?. unfold parse_stage, stage_node, scalars. rewrite doc_value_map, !read_map. cbn -[parse_duration].
  rewrite !as_string_scalar, (as_uint32_lit rps r), (as_uint32_lit users u) by done. cbn -[parse_duration]. by rewrite Hd.
Qed.

(** An entry with the one key [stage] gets the defaults. *)
Lemma parse_stage_name name :
  parse_stage (doc_value env (scalars [("stage", name)])) = Ok (mkStage name 0 0 10).
Proof. unfold parse_stage, scalars. rewrite doc_value_map, !read_map. cbn. by rewrite as_string_scalar. Qed.

Lemma parse_headers_lits hs m :
  parse_headers (map (λ kv, (Scalar kv.1, doc_value env kv.2)) (lits hs)) m
  = Ok (foldl (λ m kv, <[kv.1 := kv.2]> m) m hs).
Proof.
  revert m. induction hs as [|[k v] hs IH]; intros m; [done|]. unfold lits in *. cbn [map parse_headers fst snd foldl].
  rewrite doc_value_lit, !as_string_scalar. cbn [and_then]. apply IH.
Qed.

Lemma as_strings asserts :
  result_mapM as_string (List.filter (λ a, match a with Scalar _ => true | _ => false end) (map (doc_value env) (map lit asserts)))
  = Ok asserts.
Proof. induction asserts as [|a l IH]; [done|]. cbn. rewrite as_string_scalar. cbn. by setoid_rewrite IH. Qed.

(** A step of a template, with or without a body. *)
Definition step_of (m : string) (path : Template) (body : option Template) (hs : list (string * string))
    (asserts : list string) : Doc :=
  http_node (("method", lit m) :: ("path", DScalar path) :: (if body is Some b then [("body", DScalar b)] else [])) hs asserts.

Definition step_read (m : string) (path : Template) (body : option Template) (hs : list (string * string))
    (asserts : list string) : HttpStep :=
  mkStep m (template_value env path) (if body is Some b then template_value env b else "")
    (foldl (λ m kv, <[kv.1 := kv.2]> m) ∅ hs) "" "80" false asserts.

Lemma parse_step_doc m path body hs asserts :
  parse_step (doc_value env (step_of m path body hs asserts)) = Ok (Some (step_read m path body hs asserts)).
Proof.
  unfold parse_step, step_of, http_node, step_read. rewrite doc_value_map, subscript_map.
  cbn -[doc_value read as_string]. rewrite doc_value_map, !read_map.
  destruct body as [b|], hs as [|h hs]; cbn -[doc_value as_string scalars parse_headers];
    rewrite ?doc_value_lit, ?doc_value_scalar, ?doc_value_seq, !as_string_scalar; cbn [and_then is_seq];
    unfold scalars; rewrite ?doc_value_map; cbn [is_map]; rewrite ?parse_headers_lits; cbn [and_then];
    by rewrite as_strings.
Qed.

Lemma parse_scenario_doc name weight w (steps : list Doc) (rs : list HttpStep) :
  to_string w = weight → 0 ≤ w < 2 ^ 32 → Forall2 (λ d r, parse_step (doc_value env d) = Ok (Some r)) steps rs →
  parse_scenario (doc_value env (scenario_node name weight steps)) = Ok (mkScenario name w rs).
Proof.
  intros Hw ? Hsteps. unfold parse_scenario, scenario_node. rewrite doc_value_map, !read_map.
  cbn -[doc_value]. rewrite doc_value_lit, as_string_scalar. cbn -[doc_value]. rewrite doc_value_lit, (as_uint32_lit weight w) by done.
  cbn -[doc_value]. rewrite doc_value_seq. cbn [is_seq].
  assert (E : result_mapM parse_step (map (doc_value env) steps) = Ok (map Some rs)).
  { induction Hsteps as [|d r ds rs Hd _ IH]; [done|]. cbn. rewrite Hd. cbn. by rewrite IH. }
  rewrite E. cbn. do 2 f_equal. clear. by induction rs as [|r rs IH]; [|cbn; rewrite IH].
Qed.

Lemma parse_sla_doc l er p99 rate ms :
  doc_field l "sla" = Some (sla_node er p99) → parse_error_rate er = rate → parse_latency p99 = Some ms →
  parse_sla (doc_value env (DMap l)) = Ok (mkSLA rate ms).
Proof.
  intros Hl <- Hp. unfold parse_sla, read2. rewrite !read_doc, Hl. unfold sla_node, scalars. rewrite !read_doc.
  cbn -[doc_value parse_error_rate parse_latency]. rewrite !doc_value_lit, !as_string_scalar.
  cbn -[parse_error_rate parse_latency]. by rewrite Hp.
Qed.

(** A section that is absent is the default. *)
Lemma parse_auth_absent l : doc_field l "authentication" = None → parse_auth (doc_value env (DMap l)) = Ok default_auth.
Proof. intros Hl. unfold parse_auth. by rewrite read_doc, Hl. Qed.

Lemma parse_observability_absent l :
  doc_field l "observability" = None → parse_observability (doc_value env (DMap l)) = Ok default_obs.
Proof. intros Hl. unfold parse_observability. by rewrite read_doc, Hl. Qed.

(** A target: its address is not empty, whatever variable may be missing. *)
Lemma parse_target_doc l tl v i u p tls missing :
  doc_field l "version" = Some (lit v) → doc_field l "test_id" = Some (DScalar i) →
  doc_field tl "base_url" = Some (DScalar u) → is_empty (template_value env u) = false →
  doc_field tl "protocol" = (lit <$> p) → doc_field tl "tls" = (if (tls : bool) then Some (scalars [("verify", "true")]) else None) →
  doc_field tl "max_body_bytes" = None →
  parse_target (doc_value env (DMap l)) (doc_value env (DMap tl)) missing
  = Ok (v, template_value env i, mkTarget (template_value env u) (default "http1.1" p) true 0).
Proof.
  intros Hv Hi Hu Hne Hp Ht Hm. unfold parse_target. rewrite (doc_value_map tl). cbn [is_map]. rewrite <-doc_value_map.
  unfold read2. rewrite !read_doc, Hv, Hi, Hu, Hp, Ht, Hm. rewrite doc_value_lit, !doc_value_scalar, !as_string_scalar.
  destruct p as [p|], tls; cbn -[doc_value]; rewrite ?doc_value_lit, ?as_string_scalar; cbn -[doc_value];
    unfold scalars; rewrite ?read_doc; cbn -[doc_value]; rewrite ?doc_value_lit, ?as_bool_true; cbn; by rewrite Hne, andb_false_r.
Qed.

(** The parts of a document make its configuration. *)
Lemma parse_document_parts l tl v i tgt stages rstages scs rscs auth obs s :
  wf_doc (DMap l) = true → doc_field l "target" = Some (DMap tl) →
  (∀ missing, parse_target (doc_value env (DMap l)) (doc_value env (DMap tl)) missing = Ok (v, i, tgt)) →
  doc_field l "load_profile" = Some (DSequence stages) →
  Forall2 (λ d r, parse_stage (doc_value env d) = Ok r) stages rstages →
  doc_field l "scenarios" = Some (DSequence scs) →
  Forall2 (λ d r, parse_scenario (doc_value env d) = Ok r) scs rscs →
  parse_auth (doc_value env (DMap l)) = Ok auth → parse_observability (doc_value env (DMap l)) = Ok obs →
  parse_sla (doc_value env (DMap l)) = Ok s →
  parse_document env (print_doc (DMap l)) = Ok (mkConfig v i tgt auth obs rstages rscs s).
Proof.
  assert (Hmap : ∀ {A E} (f : Node → Result A E) ds rs,
    Forall2 (λ d r, f (doc_value env d) = Ok r) ds rs → result_mapM f (map (doc_value env) ds) = Ok rs).
  { intros A E f ds rs. induction 1 as [|d r ds rs Hd _ IH]; [done|]. cbn. rewrite Hd. cbn. by rewrite IH. }
  intros Hwf Ht Htgt Hst Hsts Hsc Hscs Ha Ho Hs. unfold parse_document. rewrite substitute_doc by done.
  rewrite (doc_value_map l) at 1. cbn [is_map]. rewrite subscript_doc, Ht. cbn [fmap option_fmap option_map]. rewrite Htgt.
  cbn [and_then]. rewrite !read_doc, Hst, Hsc, !doc_value_seq. cbn [is_seq default from_option id and_then lift transform_error].
  rewrite (Hmap _ _ _ _ _ Hsts), (Hmap _ _ _ _ _ Hscs), Ha, Ho, Hs. done.
Qed.

End Parts.

(** ** The configuration of each preset *)

Section Configs.
Context (env : string → option string).

Definition or_value (pre name d : string) : string := template_value env ([(pre, VarOr name d)], "").

Definition minimal_config : ScenarioConfig :=
  mkConfig "1.0" (or_value "minimal-smoke-" "USER" "anon")
    (mkTarget (or_value "" "TARGET_URL" "http://127.0.0.1:8080") "http1.1" true 0)
    default_auth default_obs
    [mkStage "steady" 30000 100 10]
    [mkScenario "health_check" 100
       [step_read env "GET" ([], "/health") None [] ["status_code == 200"; "latency < 500ms"]]]
    (mkSLA (d_of_Z 1) 1000).

Definition ecommerce_config : ScenarioConfig :=
  mkConfig "1.0" (or_value "ecommerce-checkout-" "BUILD_ID" "local")
    (mkTarget (or_value "" "TARGET_URL" "http://gateway:8080") "http1.1" true 0)
    (mkAuth "oauth2" (or_value "" "AUTH_URL" "https://auth.internal/oauth/token")
       (template_value env ([("", Var "CLIENT_ID")], "")) (template_value env ([("", Var "CLIENT_SECRET")], "")))
    (mkObs true 9095 (or_value "" "OTLP_ENDPOINT" "http://jaeger:4318") (d_lit 1 10) "info" "json")
    [mkStage "rampup" 300000 1000 10; mkStage "steady" 1800000 5000 50; mkStage "spike" 120000 15000 100]
    [mkScenario "browse_products" 60
       [step_read env "GET" ([], "/api/v1/products") None [] ["status_code == 200"; "latency < 200ms"];
        step_read env "GET" ([("/api/v1/products/", VarOr "PRODUCT_ID" "42")], "") None []
          ["status_code == 200"; "latency < 250ms"]];
     mkScenario "user_checkout_flow" 40
       [step_read env "POST" ([], "/api/v1/cart")
          (Some ([(unquoted "{`item_id`: `", VarOr "ITEM_ID" "1001")], unquoted "`,`qty`:1}"))
          [("Content-Type", "application/json")] ["status_code == 201"; "latency < 300ms"];
        step_read env "POST" ([], "/api/v1/checkout") (Some ([], unquoted "{`payment_method`:`card`}"))
          [("Content-Type", "application/json")] ["status_code == 200"; "latency < 500ms"]]]
    (mkSLA (d_lit 1 10) 500).

Definition auth_config : ScenarioConfig :=
  mkConfig "1.0" (or_value "auth-flow-" "CI_BUILD" "dev")
    (mkTarget (or_value "" "TARGET_URL" "http://api.internal") "http1.1" true 0)
    default_auth default_obs
    [mkStage "steady" 600000 500 20]
    [mkScenario "login_and_profile" 100
       [step_read env "POST" ([], "/oauth/token")
          (Some ([("grant_type=password&username=", Var "TEST_USER"); ("&password=", Var "TEST_PASS")], ""))
          [("Content-Type", "application/x-www-form-urlencoded")] ["status_code == 200"];
        step_read env "GET" ([], "/api/v1/me/profile") None [] ["status_code == 200"; "latency < 150ms"];
        step_read env "POST" ([], "/api/v1/logout") None [] ["status_code == 204"]]]
    (mkSLA (d_of_Z 1) 1000).

(** Its stages have no duration, no rate and ten users each. *)
Definition spike_config : ScenarioConfig :=
  mkConfig "1.0" "spike-traffic-test"
    (mkTarget (or_value "" "TARGET_URL" "http://edge-lb:80") "http1.1" true 0)
    default_auth default_obs
    [mkStage "baseline duration=2m target_rps=100 concurrent_users=5" 0 0 10;
     mkStage "spike1   duration=1m target_rps=5000 concurrent_users=200" 0 0 10;
     mkStage "recovery duration=2m target_rps=500 concurrent_users=30" 0 0 10;
     mkStage "spike2   duration=1m target_rps=20000 concurrent_users=500" 0 0 10;
     mkStage "cool     duration=5m target_rps=200 concurrent_users=10" 0 0 10]
    [mkScenario "spike_get" 90
       [step_read env "GET" ([("", VarOr "SPIKE_PATH" "/api/v1/items")], "") None
          [("Accept-Encoding", "gzip,br")] ["status_code == 200"]];
     mkScenario "spike_post" 10
       [step_read env "POST" ([], "/api/v1/events") (Some ([], unquoted "{`ts`:0,`evt`:`bench`}"))
          [("Content-Type", "application/json")] ["status_code == 202"]]]
    (mkSLA (d_of_Z 5) 5000).

Definition preset_configs : list (string * ScenarioConfig) :=
  [("minimal", minimal_config); ("ecommerce", ecommerce_config); ("auth", auth_config); ("spike", spike_config)].

End Configs.

(** ** Every preset is read and accepted *)

Section Accepted.
Context `{YamlLib} (env : string → option string).

(** The parts of a template are found by their shape; numbers are evaluated. *)
Ltac number := vm_compute; first [reflexivity | by split].
Ltac sections := eapply parse_document_parts; try reflexivity; [ | | | | | ].
Ltac target i p tls := intros ?; apply (parse_target_doc _ _ _ _ i _ p tls); try reflexivity; by apply or_value_nonempty.
Ltac stages := repeat constructor; first [apply parse_stage_name | apply parse_stage_doc; number].
Ltac step :=
  match goal with |- _ = Ok (Some (step_read ?env ?m ?path ?body ?hs ?asserts)) =>
    exact (parse_step_doc env m path body hs asserts) end.
Ltac steps := repeat (apply Forall2_cons; split; [step|]); constructor.
Ltac scenarios := repeat (apply Forall2_cons; split; [apply parse_scenario_doc; [number|number|steps]|]); constructor.
Ltac sla := eapply parse_sla_doc; [reflexivity|number|number].

Lemma minimal_parsed : parse_document env (print_doc minimal_doc) = Ok (minimal_config env).
Proof.
  sections; [target uconstr:(_) (Some "http1.1") true|stages|scenarios|by apply parse_auth_absent|by apply parse_observability_absent|sla].
Qed.

Lemma auth_parsed : parse_document env (print_doc auth_doc) = Ok (auth_config env).
Proof.
  sections; [target uconstr:(_) (@None string) true|stages|scenarios|by apply parse_auth_absent|by apply parse_observability_absent|sla].
Qed.

Lemma spike_parsed : parse_document env (print_doc spike_doc) = Ok (spike_config env).
Proof.
  sections; [target (@nil (string * Ref), "spike-traffic-test") (@None string) false|stages|scenarios|by apply parse_auth_absent|by apply parse_observability_absent|sla].
Qed.

Context (tenth : as_double (Scalar "0.1") = Ok (d_lit 1 10)).

Lemma ecommerce_parsed : parse_document env (print_doc ecommerce_doc) = Ok (ecommerce_config env).
Proof.
  sections; [target uconstr:(_) (Some "http1.1") true|stages|scenarios| | |sla].
  - unfold parse_auth, read2. repeat progress (rewrite ?read_doc; cbn -[doc_value read]).
    unfold lit, or_else, var. rewrite !doc_value_scalar, !as_string_scalar. done.
  - unfold parse_observability, read2. repeat progress (rewrite ?read_doc; cbn -[doc_value read]).
    unfold scalars. rewrite !read_doc. cbn -[doc_value]. rewrite !doc_value_lit. unfold or_else. rewrite doc_value_scalar.
    by rewrite as_bool_true, (as_uint16_lit "9095" 9095), tenth, !as_string_scalar by number.
Qed.

Lemma preset_config_valid name cfg : (name, cfg) ∈ preset_configs env → validate_scenario_config cfg = None.
Proof.
  unfold preset_configs. rewrite !elem_of_cons, elem_of_nil.
  intros [E|[E|[E|[E|[]]]]]; injection E as _ ->;
    unfold minimal_config, ecommerce_config, auth_config, spike_config, or_value, step_read, template_value, ref_value;
    cbn [foldr fst snd ref_name]; destruct (env "TARGET_URL") as [[|]|]; try (vm_compute; reflexivity);
    destruct (env "SPIKE_PATH") as [[|]|]; vm_compute; reflexivity.
Qed.
End Accepted.

Lemma find_template_absent name : name ∉ kTemplates.*1 → find_template name = None.
Proof.
  unfold find_template. induction kTemplates as [|[n t] l IH]; [done|]. rewrite fmap_cons, not_elem_of_cons. intros [Hn Hl].
  cbn [List.find fst]. destruct (String.eqb_spec n name) as [->|_]; [done|]. by apply IH.
Qed.

(** The file [--init] writes. *)
Definition init_path (args : CliArgs) : string :=
  if is_empty (a_str "init_output" args) then "volley-scenario.yaml" else a_str "init_output" args.


(** The stages of the spike template, as they are read: none has a rate or an end of its
    own, so that without [--duration] the first stage of a run is never over. *)
Theorem spike_preset_unbounded (env : string → option string) (max_duration_ms target_rps now : Z) :
  let sts := effective_stages (spike_config env) max_duration_ms target_rps in
  List.length sts = 5%nat
  ∧ Forall (λ st, Config.target_rps st = 0 ∧ stage_deadline now (stage_duration st) INT64_MAX = Some INT64_MAX) sts.
Proof. split; [done|]. repeat constructor. Qed.

(** ** A reader that knows the four texts *)

Definition template_yaml : YamlLib.
Proof.
  refine {| yaml_load text :=
              match List.find (λ td, (td.1 =? text)%string) template_docs with
              | Some td => Ok (print_doc td.2)
              | None => Error "unknown document"
              end;
            subscript := DemoYaml.demo_yaml.(subscript); as_string := DemoYaml.demo_yaml.(as_string);
            as_uint32 := DemoYaml.demo_yaml.(as_uint32); as_uint16 := DemoYaml.demo_yaml.(as_uint16);
            as_bool := DemoYaml.demo_yaml.(as_bool); as_double := DemoYaml.demo_yaml.(as_double);
            emit := DemoYaml.demo_yaml.(emit) |}; apply DemoYaml.demo_yaml.
Defined.

Lemma template_yaml_loads : Forall (λ td, @yaml_load template_yaml td.1 = Ok (print_doc td.2)) template_docs.
Proof. repeat constructor; vm_compute; reflexivity. Qed.

