(* ===== verification/Prometheus.v ===== *)
(** * The Prometheus exporters

    [core/metrics/prometheus_exporter.cpp] hands the collector's numbers to the
    prometheus-cpp library ([Module PromCpp]);
    [core/metrics/prometheus_exporter_embedded.cpp] is built instead where that library
    is missing and serves them itself ([Module Embedded]).

    The library's objects are seen through the calls made on them: a counter is the
    list of its increments, a histogram the list of its observations, a gauge the value
    last set, if any. *)

From S2P Require Import Prelude CppString Double Ostream Ring Collector.

Local Open Scope Z_scope.
Local Open Scope cpp_scope.

Module PromCpp.

(** What [start] registers with the library. *)
(** [src/core/metrics/prometheus_exporter.cpp:146-153] PrometheusExporterImpl *)
Record Registered := mkRegistered {
  total_requests_ : list double;
  successful_requests_ : list double;
  failed_requests_ : list double;
  bytes_sent_ : list double;
  bytes_received_ : list double;
  latency_histogram_ : list double;
  rps_gauge_ : option double;
  error_rate_gauge_ : option double
}.

(** The last values read of the five counters. *)
(** [src/core/metrics/prometheus_exporter.cpp:156-160] PrometheusExporterImpl *)
Record Last := mkLast {
  last_total_ : Z; last_successful_ : Z; last_failed_ : Z; last_bytes_sent_ : Z; last_bytes_received_ : Z
}.

(** All pointers are null or none is; [exposer_] is set exactly when they are. *)
(** [src/core/metrics/prometheus_exporter.cpp:141-160] PrometheusExporterImpl *)
Record Exporter := mkExporter {
  bind_address_ : string;
  registered : option Registered;
  last_ : Last
}.

(** [src/core/metrics/prometheus_exporter.cpp:19-22] PrometheusExporterImpl::PrometheusExporterImpl *)
Definition make (bind_address : string) : Exporter :=
  mkExporter bind_address None (mkLast 0 0 0 0 0).

(** [exposes]: whether the library's constructor could bind the address. *)
(** [src/core/metrics/prometheus_exporter.cpp:24-84] PrometheusExporterImpl::start *)
Definition start (exposes : bool) (e : Exporter) : bool * Exporter :=
  if exposes
  then (true, mkExporter (bind_address_ e) (Some (mkRegistered [] [] [] [] [] [] None None)) (last_ e))
  else (false, e).

(** [src/core/metrics/prometheus_exporter.cpp:86-98] PrometheusExporterImpl::stop *)
Definition stop (e : Exporter) : Exporter := mkExporter (bind_address_ e) None (last_ e).

(** [src/core/metrics/prometheus_exporter.cpp:100-103] PrometheusExporterImpl::is_running *)
Definition is_running (e : Exporter) : bool := bool_decide (is_Some (registered e)).

(** The increment, and the value [last] is left with. *)
(** [src/core/metrics/prometheus_exporter.cpp:110-120] delta_or_reset *)
Definition delta_or_reset (curr last : Z) : double * Z :=
  if last <=? curr then (d_of_Z (u64 (curr - last)), curr) else (d_of_Z curr, curr).

Section update.
Context `{NthElement}.

(** [src/core/metrics/prometheus_exporter.cpp:105-134] PrometheusExporterImpl::update_metrics *)
Definition update_metrics (now : Z) (collector : MetricsCollector) (e : Exporter) : option Exporter :=
  match registered e with
  | None => Some e
  | Some r =>
      metrics ← snapshot collector;
      let '(d_total, l_total) := delta_or_reset (m_total_requests metrics) (last_total_ (last_ e)) in
      let '(d_ok, l_ok) := delta_or_reset (m_successful_requests metrics) (last_successful_ (last_ e)) in
      let '(d_failed, l_failed) := delta_or_reset (m_failed_requests metrics) (last_failed_ (last_ e)) in
      let '(d_sent, l_sent) := delta_or_reset (m_total_bytes_sent metrics) (last_bytes_sent_ (last_ e)) in
      let '(d_recv, l_recv) := delta_or_reset (m_total_bytes_received metrics) (last_bytes_received_ (last_ e)) in
      Some (mkExporter (bind_address_ e)
        (Some (mkRegistered
          (total_requests_ r ++ [d_total]) (successful_requests_ r ++ [d_ok])
          (failed_requests_ r ++ [d_failed]) (bytes_sent_ r ++ [d_sent])
          (bytes_received_ r ++ [d_recv])
          (latency_histogram_ r ++ [ddiv (m_mean_latency_us metrics) (d_of_Z 1000000)])
          (Some (requests_per_second now collector)) (Some (error_rate collector))))
        (mkLast l_total l_ok l_failed l_sent l_recv))
  end.
End update.

(** [src/core/metrics/prometheus_exporter.cpp:136-138] PrometheusExporterImpl::endpoint *)
Definition endpoint (e : Exporter) : string := "http://" +:+ bind_address_ e +:+ "/metrics".

(** ** What the counters say

    The five counters and, for each, its reading in a snapshot, what it counts of a list
    of recorded requests, and its increments. *)
Inductive Metric := Total | Successful | Failed | Sent | Received.

Definition reading (k : Metric) (m : RequestMetrics) : Z :=
  match k with
  | Total => m_total_requests m | Successful => m_successful_requests m
  | Failed => m_failed_requests m | Sent => m_total_bytes_sent m
  | Received => m_total_bytes_received m
  end.

Definition count (k : Metric) (os : list Obs) : Z :=
  match k with
  | Total => Z.of_nat (List.length os) | Successful => successes os
  | Failed => Z.of_nat (List.length os) - successes os
  | Sent => zsum o_sent os | Received => zsum o_received os
  end.

Definition increments (k : Metric) (r : Registered) : list double :=
  match k with
  | Total => total_requests_ r | Successful => successful_requests_ r
  | Failed => failed_requests_ r | Sent => bytes_sent_ r | Received => bytes_received_ r
  end.

Definition last_of (k : Metric) (l : Last) : Z :=
  match k with
  | Total => last_total_ l | Successful => last_successful_ l | Failed => last_failed_ l
  | Sent => last_bytes_sent_ l | Received => last_bytes_received_ l
  end.

(** A collector and an exporter in use; [retired] are the counters of exporters'
    earlier lives. *)
Inductive Event :=
  | Record_ (o : Obs)          (** the load generator records a request *)
  | Reset (now : Z)            (** the collector is reset *)
  | Update (now : Z)
  | Start (exposes : bool)
  | Stop.

Record World := mkWorld { w_collector : MetricsCollector; w_exporter : Exporter; retired : list Registered }.

Definition live (e : Exporter) : list Registered := from_option (λ r, [r]) [] (registered e).

Definition exported (k : Metric) (w : World) : list double :=
  List.concat (increments k <$> (retired w ++ live (w_exporter w))).

Section world.
Context `{NthElement}.

Definition step (w : World) (ev : Event) : option World :=
  match ev with
  | Record_ o => c ← record_obs o (w_collector w); Some (mkWorld c (w_exporter w) (retired w))
  | Reset now => Some (mkWorld (reset now (w_collector w)) (w_exporter w) (retired w))
  | Update now =>
      e ← update_metrics now (w_collector w) (w_exporter w); Some (mkWorld (w_collector w) e (retired w))
  | Start exposes =>
      let '(ok, e) := start exposes (w_exporter w) in
      Some (mkWorld (w_collector w) e (retired w ++ if ok then live (w_exporter w) else []))
  | Stop => Some (mkWorld (w_collector w) (stop (w_exporter w)) (retired w ++ live (w_exporter w)))
  end.

Definition run (evs : list Event) (w : World) : option World := foldl (λ w ev, w ≫= λ w, step w ev) (Some w) evs.

Definition recorded (evs : list Event) : list Obs :=
  omap (λ ev, match ev with Record_ o => Some o | _ => None end) evs.

(** Requests whose byte counts are those of sizes, few enough for 64-bit totals. *)
Definition countable (os : list Obs) : Prop :=
  (∀ o, o ∈ os → 0 ≤ o_sent o ∧ 0 ≤ o_received o) ∧ ∀ k, count k os < 2 ^ 64.

Definition total_of (zs : list Z) : Z := foldr Z.add 0 zs.

(** [os]: recorded since the last reset; [all]: recorded in all. *)
Record accounted (k : Metric) (w : World) (os all : list Obs) (whole : bool) : Prop := {
  acc_rep : collector_rep (w_collector w) os;
  acc_tail : tail_ (latency_ring (w_collector w)) = Z.of_nat (List.length all);
  acc_sub : os `suffix_of` all;
  acc_last : 0 ≤ last_of k (last_ (w_exporter w));
  acc_sum : ∃ zs, exported k w = d_of_Z <$> zs ∧ Forall (Z.le 0) zs
    ∧ (total_of zs + count k os ≤ count k all
       ∨ last_of k (last_ (w_exporter w)) ≤ count k os
         ∧ total_of zs + (count k os - last_of k (last_ (w_exporter w))) ≤ count k all)
    ∧ (whole = true → os = all ∧ total_of zs = last_of k (last_ (w_exporter w)) ∧ total_of zs ≤ count k all)
}.

Lemma zsum_app f a b : zsum f (a ++ b) = zsum f a + zsum f b.
Proof. induction a as [|o a IH]; simpl; lia. Qed.

Lemma count_app k a b : count k (a ++ b) = count k a + count k b.
Proof.
  assert (Hs : successes (a ++ b) = successes a + successes b)
    by (unfold successes; rewrite filter_app, length_app; lia).
  destruct k; simpl; rewrite ?zsum_app, ?length_app, ?Hs; lia.
Qed.

Lemma count_nonneg k os : (∀ o, o ∈ os → 0 ≤ o_sent o ∧ 0 ≤ o_received o) → 0 ≤ count k os.
Proof.
  intros Ho. pose proof (successes_range os).
  destruct k; simpl; try lia; apply zsum_nonneg; intros o []%Ho; lia.
Qed.

Lemma countable_app_l a b : countable (a ++ b) → countable a.
Proof.
  intros [Ho Hk]. split; [intros o ?; apply Ho, elem_of_app; by left|].
  intros k. specialize (Hk k). rewrite count_app in Hk.
  pose proof (count_nonneg k b ltac:(intros o ?; apply Ho, elem_of_app; by right)). lia.
Qed.

Lemma countable_suffix a b : a `suffix_of` b → countable b → countable a ∧ ∀ k, 0 ≤ count k a ≤ count k b.
Proof.
  intros [l ->] [Ho Hk].
  assert (Ha : ∀ o, o ∈ a → 0 ≤ o_sent o ∧ 0 ≤ o_received o) by (intros o ?; apply Ho, elem_of_app; by right).
  assert (Hl : ∀ o, o ∈ l → 0 ≤ o_sent o ∧ 0 ≤ o_received o) by (intros o ?; apply Ho, elem_of_app; by left).
  assert (Hb : ∀ k, 0 ≤ count k a ≤ count k (l ++ a)).
  { intros k. rewrite count_app. pose proof (count_nonneg k a Ha). pose proof (count_nonneg k l Hl). lia. }
  split; [|done]. split; [done|]. intros k. specialize (Hk k). specialize (Hb k). lia.
Qed.

(** A snapshot reads the counts exactly. *)
Lemma snapshot_reading c os :
  collector_rep c os → countable os → tail_ (latency_ring c) < 2 ^ 64 →
  ∃ m, snapshot c = Some m ∧ ∀ k, reading k m = count k os.
Proof.
  intros Hr [Ho Hk] Ht. destruct (snapshot_rep c os Hr Ht) as (m & Hm & H1 & H2 & H3 & H4 & H5 & _).
  exists m. split; [done|]. intros k. pose proof (Hk k). pose proof (count_nonneg k os Ho).
  destruct k; simpl in *; [done..| |]; rewrite ?H4, ?H5; by apply wrap_small.
Qed.

(** One [update_metrics] on every counter at once. *)
Lemma update_metrics_each now c e r m :
  registered e = Some r → snapshot c = Some m →
  ∃ e' r', update_metrics now c e = Some e' ∧ registered e' = Some r'
    ∧ ∀ k, increments k r' = increments k r ++ [(delta_or_reset (reading k m) (last_of k (last_ e))).1]
           ∧ last_of k (last_ e') = reading k m.
Proof.
  intros Hr Hm. unfold update_metrics. rewrite Hr, Hm. cbn [mbind option_bind].
  assert (Hsnd : ∀ x y, (delta_or_reset x y).2 = x) by (intros x y; unfold delta_or_reset; by destruct (y <=? x)).
  repeat match goal with |- context [delta_or_reset ?x ?y] =>
    let E := fresh "E" in pose proof (Hsnd x y); destruct (delta_or_reset x y) eqn:E end.
  simpl in *. eexists _, _. split; [done|]. split; [done|].
  intros []; simpl; split; try done; match goal with E : delta_or_reset ?x ?y = _ |- _ ++ _ = _ ++ [(delta_or_reset ?x ?y).1] => by rewrite E end.
Qed.

Lemma exported_snoc k c e e' r r' rt d :
  registered e = Some r → registered e' = Some r' → increments k r' = increments k r ++ [d] →
  exported k (mkWorld c e' rt) = exported k (mkWorld c e rt) ++ [d].
Proof.
  intros Hr Hr' Hi. unfold exported, live. cbn [retired w_exporter]. rewrite Hr, Hr'. cbn [from_option].
  rewrite !fmap_app, !concat_app. cbn. rewrite Hi, !app_nil_r. by rewrite app_assoc.
Qed.

Lemma total_of_snoc zs z : total_of (zs ++ [z]) = total_of zs + z.
Proof. induction zs as [|y zs IH]; simpl; [lia|]. unfold total_of in *. rewrite IH. lia. Qed.

Definition is_reset (ev : Event) : bool := match ev with Reset _ => true | _ => false end.

(** Starting and stopping only moves counters to [retired]. *)
Lemma exported_start k c e rt b :
  exported k (mkWorld c (start b e).2 (rt ++ if (start b e).1 then live e else []))
  = exported k (mkWorld c e rt).
Proof.
  unfold exported, start. destruct b; cbn; rewrite ?app_nil_r; [|done].
  rewrite !fmap_app, !concat_app. destruct k; cbn; by rewrite !app_nil_r.
Qed.

Lemma exported_stop k c e rt : exported k (mkWorld c (stop e) (rt ++ live e)) = exported k (mkWorld c e rt).
Proof. unfold exported. cbn. by rewrite app_nil_r. Qed.

Lemma accounted_record k w os all whole o :
  accounted k w os all whole → countable (all ++ [o]) →
  ∃ w', step w (Record_ o) = Some w' ∧ accounted k w' (os ++ [o]) (all ++ [o]) whole.
Proof.
  intros [Hr Ht [l Hsub] Hl (zs & Hz & Hnn & Hsum & Hw)] Hc. pose proof (proj2 Hc Total) as Hn. simpl in Hn.
  rewrite Hsub, length_app in Ht. rewrite Hsub, !length_app in Hn. cbn [List.length] in Hn.
  destruct (record_request_Some _ os o Hr ltac:(lia) ltac:(lia)) as (c' & Hc' & Hr' & Ht').
  eexists. cbn [step]. rewrite Hc'. split; [reflexivity|]. split; cbn [w_collector w_exporter].
  - done.
  - rewrite Ht', Ht, Hsub, !length_app. simpl. lia.
  - rewrite Hsub. exists l. by rewrite app_assoc.
  - done.
  - exists zs. split; [done|]. split; [done|]. rewrite !count_app.
    assert (H1 : 0 ≤ count k [o]).
    { apply count_nonneg. intros x Hx. apply Hc, elem_of_app. by right. }
    split; [destruct Hsum as [?|[? ?]]; [left|right]; lia|].
    intros ->. destruct (Hw eq_refl) as (-> & ? & ?). split; [done|lia].
Qed.

Lemma accounted_update k w os all whole now :
  accounted k w os all whole → countable all →
  ∃ w', step w (Update now) = Some w' ∧ accounted k w' os all whole
    ∧ is_running (w_exporter w') = is_running (w_exporter w)
    ∧ (is_running (w_exporter w) = true → last_of k (last_ (w_exporter w')) = count k os).
Proof.
  intros [Hr Ht Hsub Hl (zs & Hz & Hnn & Hsum & Hw)] Hc.
  destruct (countable_suffix os all Hsub Hc) as [Hco Hle]. specialize (Hle k).
  pose proof (proj2 Hc Total) as Hn. simpl in Hn.
  cbn [step]. destruct (registered (w_exporter w)) as [r|] eqn:Er.
  2: { exists w. unfold update_metrics. rewrite Er. cbn. split; [by destruct w|].
       split; [by split; eauto|]. unfold is_running. by rewrite Er. }
  destruct (snapshot_reading _ os Hr Hco ltac:(lia)) as (m & Hm & Hk).
  destruct (update_metrics_each now _ _ r m Er Hm) as (e' & r' & -> & Er' & Heach).
  destruct (Heach k) as [Hi Hl']. rewrite Hk in Hi, Hl'. cbn [mbind option_bind].
  eexists. split; [reflexivity|]. cbn [w_exporter w_collector].
  split; [|unfold is_running; by rewrite Er, Er']. split; cbn [w_collector w_exporter]; [done..|lia|].
  set (L := last_of k (last_ (w_exporter w))) in *. set (z := if L <=? count k os then count k os - L else count k os).
  exists (zs ++ [z]). rewrite (exported_snoc k _ (w_exporter w) e' r r' _ _ Er Er' Hi).
  rewrite fmap_app, total_of_snoc, Hl'. destruct w as [c e rt]. cbn [w_exporter w_collector retired] in *.
  rewrite Hz. unfold delta_or_reset, z. pose proof (proj2 Hc k).
  destruct (Z.leb_spec L (count k os)); cbn [fst]; rewrite ?wrap_small by lia.
  - split; [done|]. split; [apply Forall_app; split; [done|]; constructor; [lia|done]|].
    split; [right; destruct Hsum as [?|[? ?]]; lia|]. intros ->. destruct (Hw eq_refl) as (-> & ? & ?). split; [done|lia].
  - split; [done|]. split; [apply Forall_app; split; [done|]; constructor; [lia|done]|].
    split; [right; destruct Hsum as [?|[? ?]]; lia|]. intros ->. destruct (Hw eq_refl) as (-> & ? & ?). lia.
Qed.

Lemma accounted_step k w os all whole ev :
  accounted k w os all whole → countable (all ++ recorded [ev]) →
  ∃ w' os', step w ev = Some w' ∧ accounted k w' os' (all ++ recorded [ev]) (whole && negb (is_reset ev)).
Proof.
  intros Ha Hc. destruct ev as [o|t|now|b|]; cbn [recorded omap list_omap is_reset negb] in *;
    rewrite ?andb_true_r, ?andb_false_r, ?app_nil_r in *.
  - destruct (accounted_record k w os all whole o Ha Hc) as (w' & ? & ?); eauto.
  - destruct Ha as [Hr Ht Hsub Hl (zs & Hz & Hnn & Hsum & _)]. eexists _, []. split; [reflexivity|].
    destruct (reset_rep _ _ (crep_ring _ _ Hr)) as [_ Hrt]. destruct (countable_suffix os all Hsub Hc) as [_ Hle].
    split; cbn [w_collector w_exporter]; [by eapply reset_rep'|by rewrite <-Ht|apply suffix_nil|done|].
    exists zs. split; [done|]. split; [done|]. specialize (Hle k).
    assert (count k [] = 0) by (by destruct k). split; [left; destruct Hsum as [?|[? ?]]; lia|done].
  - destruct (accounted_update k w os all whole now Ha Hc) as (w' & ? & ? & _); eauto.
  - destruct w as [c e rt]. cbn [step w_exporter w_collector retired]. destruct (start b e) as [ok e'] eqn:Es. eexists _, os. split; [reflexivity|].
    cbn [w_exporter w_collector retired].
    assert (Hle : last_ e' = last_ e) by (unfold start in Es; destruct b; by simplify_eq).
    destruct Ha as [Hr Ht Hsub Hl Hsum]. split; cbn [w_collector w_exporter] in *; rewrite ?Hle; [done..|].
    pose proof (exported_start k c e rt b) as Hx. rewrite Es in Hx. cbn [fst snd] in Hx. by rewrite Hx.
  - destruct w as [c e rt]. eexists _, os. split; [reflexivity|]. cbn [w_exporter w_collector retired].
    destruct Ha as [Hr Ht Hsub Hl Hsum]. split; cbn [w_collector w_exporter] in *; [done..|].
    by rewrite exported_stop.
Qed.

Lemma recorded_app a b : recorded (a ++ b) = recorded a ++ recorded b.
Proof. apply omap_app. Qed.

Lemma run_snoc evs ev w : run (evs ++ [ev]) w = run evs w ≫= λ w, step w ev.
Proof. unfold run. by rewrite foldl_snoc. Qed.

Lemma accounted_run k evs t0 addr :
  countable (recorded evs) →
  ∃ w os, run evs (mkWorld (make_collector t0) (make addr) []) = Some w
    ∧ accounted k w os (recorded evs) (forallb (λ ev, negb (is_reset ev)) evs).
Proof.
  induction evs as [|ev evs IH] using rev_ind; intros Hc.
  - eexists _, []. split; [reflexivity|]. split; cbn.
    + apply make_collector_rep.
    + done.
    + done.
    + by destruct k.
    + exists []. split; [done|]. split; [constructor|]. assert (count k [] = 0) by (by destruct k).
      simpl. split; [left; lia|]. by destruct k.
  - rewrite recorded_app in *. destruct (IH (countable_app_l _ _ Hc)) as (w & os & Hw & Ha).
    rewrite run_snoc, Hw, forallb_app. cbn [forallb mbind option_bind]. rewrite andb_true_r.
    by eapply accounted_step.
Qed.

(** C23.  Over any life of a collector and its exporter (requests recorded, the
    collector reset, the exporter started, stopped and updated in any order), every call
    returns and no counter ever counts a request or a byte twice: each increment is a
    non-negative whole number, and the increments of all the exporter's lives together
    are at most what was recorded.  When the collector was never reset they are, after
    an update of a running exporter, exactly what was recorded, also across restarts of
    the exporter. *)
Theorem counters_count_once (k : Metric) (evs : list Event) (t0 now : Z) (addr : string) :
  countable (recorded evs) →
  ∃ w w' zs zs', run evs (mkWorld (make_collector t0) (make addr) []) = Some w
    ∧ exported k w = d_of_Z <$> zs ∧ Forall (Z.le 0) zs
    ∧ total_of zs ≤ count k (recorded evs)
    ∧ step w (Update now) = Some w' ∧ exported k w' = d_of_Z <$> zs'
    ∧ (is_running (w_exporter w) = true → forallb (λ ev, negb (is_reset ev)) evs = true →
       total_of zs' = count k (recorded evs)).
Proof.
  intros Hc. destruct (accounted_run k evs t0 addr Hc) as (w & os & Hw & Ha).
  destruct (accounted_update k w os _ _ now Ha Hc) as (w' & Hw' & Ha' & Hrun & Hlast).
  destruct Ha as [_ _ Hsub _ (zs & Hz & Hnn & Hsum & _)].
  destruct Ha' as [_ _ _ _ (zs' & Hz' & _ & _ & Hex)].
  destruct (countable_suffix _ _ Hsub Hc) as [_ Hle]. specialize (Hle k).
  exists w, w', zs, zs'. split_and!; [done..|destruct Hsum as [?|[? ?]]; lia|done|done|].
  intros H1 H2. specialize (Hlast H1). destruct (Hex H2) as (-> & -> & _). done.
Qed.

End world.

Lemma demo_running :
  (λ w, is_running (w_exporter w)) <$>
    run [Start true; Record_ (mkObs 200 7 10 20); Update 1; Stop; Record_ (mkObs 500 3 1 2); Start true]
      (mkWorld (make_collector 0) (make "127.0.0.1:9090") []) = Some true.
Proof. vm_compute. reflexivity. Qed.

Lemma counters_count_once_witness :
  ∃ w w' zs', run [Start true; Record_ (mkObs 200 7 10 20); Update 1; Stop; Record_ (mkObs 500 3 1 2); Start true]
                (mkWorld (make_collector 0) (make "127.0.0.1:9090") []) = Some w
    ∧ step w (Update 2) = Some w' ∧ exported Sent w' = d_of_Z <$> zs' ∧ total_of zs' = 11.
Proof.
  destruct (counters_count_once Sent
    [Start true; Record_ (mkObs 200 7 10 20); Update 1; Stop; Record_ (mkObs 500 3 1 2); Start true]
    0 2 "127.0.0.1:9090") as (w & w' & zs & zs' & H1 & _ & _ & _ & H2 & H3 & H4).
  - split; [|by intros []]. cbn. intros o Ho. repeat (apply elem_of_cons in Ho as [->|Ho]; [cbn; lia|]). by apply elem_of_nil in Ho.
  - exists w, w', zs'. split; [exact H1|]. split; [exact H2|]. split; [exact H3|]. apply H4; [|done].
    pose proof demo_running as Hr. rewrite H1 in Hr. by injection Hr.
Defined.

End PromCpp.

Module Embedded.

(** ** The address *)

(** [std::string::rfind] of a character. *)
Fixpoint rfind_char (c : ascii) (s : string) : option nat :=
  match s with
  | "" => None
  | String a s' =>
      match rfind_char c s' with
      | Some i => Some (S i)
      | None => if Ascii.eqb a c then Some 0%nat else None
      end
  end.

(** [src/core/metrics/prometheus_exporter_embedded.cpp:34-37] BindAddress *)
Record BindAddress := mkBind { host : string; port : Z }.

(** [None]: [std::stoul] throws. *)
(** [src/core/metrics/prometheus_exporter_embedded.cpp:39-53] parse_bind_address *)
Definition parse_bind_address (address : string) : option BindAddress :=
  result ←
    match rfind_char ":" address with
    | None => Some (mkBind "127.0.0.1" 9090)
    | Some colon =>
        let h := substr 0 colon address in
        let port_str := substr_from (colon + 1) address in
        if negb (is_empty port_str) && sforall isdigit port_str then
          match stoul port_str with
          | StoOk p => Some (mkBind h (if (0 <? p) && (p <=? 65535) then p else 9090))
          | _ => None
          end
        else Some (mkBind h 9090)
    end;
  Some (if is_empty (host result) then mkBind "127.0.0.1" (port result) else result).

Lemma rfind_char_app c a b : lacks c b = true → rfind_char c (a +:+ String c b) = Some (String.length a).
Proof.
  intros Hb. assert (Hn : rfind_char c b = None).
  { revert Hb. induction b as [|d b IH]; [done|]. unfold lacks. cbn [sforall rfind_char]. intros H.
    apply andb_prop in H as [Hd H]. apply negb_true_iff in Hd. by rewrite IH, Hd. }
  induction a as [|d a IH]; [change ("" +:+ String c b) with (String c b); cbn [rfind_char]; by rewrite Hn, Ascii.eqb_refl|].
  change (String d a +:+ String c b) with (String d (a +:+ String c b)). cbn [rfind_char]. by rewrite IH.
Qed.

Lemma rfind_char_spec c s i : rfind_char c s = Some i →
  s = stake i s +:+ String c (sdrop (S i) s) ∧ lacks c (sdrop (S i) s) = true.
Proof.
  revert i. induction s as [|d s IH]; intros i; [done|]. cbn [rfind_char].
  destruct (rfind_char c s) as [j|] eqn:E.
  - intros [= <-]. destruct (IH j eq_refl) as [H1 H2]. split; [|done].
    change (String d s = String d (stake j s +:+ String c (sdrop (S j) s))). by f_equal.
  - destruct (Ascii.eqb_spec d c) as [->|]; [|done]. intros [= <-].
    change (String c s = String c (sdrop 0 s) ∧ lacks c (sdrop 0 s) = true). rewrite sdrop_0. split; [done|].
    clear IH. induction s as [|x s IH]; [done|]. cbn [rfind_char] in E. unfold lacks. cbn [sforall].
    destruct (rfind_char c s); [done|]. destruct (Ascii.eqb x c); [done|]. by apply IH.
Qed.

(** The address parser: printing a host and a port and parsing them back gives
    the same two; whatever is parsed, the host is not empty and the port is one of
    1..65535; and it throws (out of the exporter's constructor) exactly when what
    follows the last colon is a digit string past 64 bits. *)
Theorem parse_bind_address_spec :
  (∀ h p, h ≠ "" → 1 ≤ p ≤ 65535 → parse_bind_address (h +:+ ":" +:+ to_string p) = Some (mkBind h p))
  ∧ (∀ a b, parse_bind_address a = Some b → host b ≠ "" ∧ 1 ≤ port b ≤ 65535)
  ∧ (∀ a, parse_bind_address a = None ↔
       ∃ h ds, a = h +:+ ":" +:+ ds ∧ sforall isdigit ds = true ∧ UINT64_MAX < digits_val 0 ds).
Proof.
  assert (Hat : ∀ h ds, lacks ":" ds = true →
    rfind_char ":" (h +:+ ":" +:+ ds) = Some (String.length h)
    ∧ substr 0 (String.length h) (h +:+ ":" +:+ ds) = h
    ∧ substr_from (String.length h + 1) (h +:+ ":" +:+ ds) = ds).
  { intros h ds Hl. unfold substr, substr_from. rewrite sdrop_0.
    split; [by apply rfind_char_app|]. split; [apply stake_app|].
    change (":" +:+ ds) with (String ":" ds). rewrite sdrop_app_ge. apply sdrop_0. }
  split; [|split].
  - intros h p Hh Hp. pose proof (to_string_digits p ltac:(lia)) as Hd. pose proof (to_string_nonempty p ltac:(lia)) as Hn.
    destruct (Hat h (to_string p)) as (H1 & H2 & H3); [by apply digits_lack|].
    unfold parse_bind_address. rewrite H1, H2, H3, Hn, Hd, stoul_digits, digits_val_to_string by (done || lia).
    unfold UINT64_MAX. destruct (Z.leb_spec p (2 ^ 64 - 1)); [|lia]. cbn [negb andb mbind option_bind host].
    destruct (Z.ltb_spec 0 p), (Z.leb_spec p 65535); try lia. by destruct h.
  - intros a b Hb. unfold parse_bind_address in Hb. apply bind_Some in Hb as ([h p] & Hr & [= <-]). cbn [host port].
    assert (Hp : 1 ≤ p ≤ 65535).
    { destruct (rfind_char ":" a) as [i|]; [|injection Hr; lia].
      destruct (_ && _); [|injection Hr; lia]. destruct (stoul _) as [v| |]; try done.
      injection Hr as _ <-. destruct (Z.ltb_spec 0 v), (Z.leb_spec v 65535); cbn [andb]; lia. }
    destruct (is_empty h) eqn:Eh; cbn [host port]; [by split|]. split; [by destruct h|done].
  - intros a. split.
    + unfold parse_bind_address. destruct (rfind_char ":" a) as [i|] eqn:Ei; [|done].
      destruct (rfind_char_spec _ _ _ Ei) as [Ha _]. rewrite Nat.add_1_r.
      destruct (_ && _) eqn:Ed; [|done]. apply andb_prop in Ed as [He Hd]. apply negb_true_iff in He.
      unfold substr_from in *. rewrite stoul_digits by done.
      destruct (Z.leb_spec (digits_val 0 (sdrop (S i) a)) UINT64_MAX); [done|]. intros _.
      exists (stake i a), (sdrop (S i) a). split; [exact Ha|]. by split.
    + intros (h & ds & -> & Hd & Hv). destruct (Hat h ds) as (H1 & H2 & H3); [by apply digits_lack|].
      unfold parse_bind_address. rewrite H1, H2, H3, Hd.
      assert (Hn : is_empty ds = false) by (by destruct ds). rewrite Hn, stoul_digits by done.
      by destruct (Z.leb_spec (digits_val 0 ds) UINT64_MAX); [lia|].
Qed.

(** ** The server *)

(** A handler thread: still serving its connection, or returned and not yet joined. *)
Inductive Handler := Serving | Returned.

#[global] Instance Handler_eq_dec : EqDecision Handler.
Proof. solve_decision. Defined.

(** [src/core/metrics/prometheus_exporter_embedded.cpp:222-235] PrometheusExporterImpl *)
Record Exporter := mkExporter {
  bind_ : BindAddress;
  running_ : bool;
  thread_ : bool;               (** the accepting thread was started and not joined *)
  handler_threads_ : list Handler;
  active_connections_ : Z;
  metrics_ : RequestMetrics;
  rps_ : double;
  err_rate_ : double
}.

(** [src/core/metrics/prometheus_exporter_embedded.cpp:230-230] kMaxConnections *)
Definition kMaxConnections : Z := 100.

(** [src/core/metrics/prometheus_exporter_embedded.cpp:61-62] PrometheusExporterImpl::PrometheusExporterImpl *)
Definition make (bind_address : string) : option Exporter :=
  b ← parse_bind_address bind_address;
  Some (mkExporter b false false [] 0 (mkMetrics 0 0 0 0 0 INT64_MAX INT64_MIN (Fin 0) 0 0) (Fin 0) (Fin 0)).

Definition set_running (r t : bool) (e : Exporter) : Exporter :=
  mkExporter (bind_ e) r t (handler_threads_ e) (active_connections_ e) (metrics_ e) (rps_ e) (err_rate_ e).

Definition set_handlers (hs : list Handler) (active : Z) (e : Exporter) : Exporter :=
  mkExporter (bind_ e) (running_ e) (thread_ e) hs active (metrics_ e) (rps_ e) (err_rate_ e).

(** [binds]: the address could be bound and listened on. *)
(** [src/core/metrics/prometheus_exporter_embedded.cpp:66-84] PrometheusExporterImpl::start *)
Definition start (binds : bool) (e : Exporter) : bool * Exporter :=
  if running_ e then (true, e)
  else if binds then (true, set_running true true e)
  else (false, set_running false (thread_ e) e).

(** A handler thread ends with the counter's [fetch_sub] on [size_t]. *)
(** [src/core/metrics/prometheus_exporter_embedded.cpp:138-141] PrometheusExporterImpl::do_accept *)
Definition return_handler (i : nat) (e : Exporter) : Exporter :=
  match handler_threads_ e !! i with
  | Some Serving => set_handlers (<[i := Returned]> (handler_threads_ e)) (u64 (active_connections_ e - 1)) e
  | _ => e
  end.

(** [stop] up to the joins, after which connections may still be accepted: *)
(** [src/core/metrics/prometheus_exporter_embedded.cpp:88-96] PrometheusExporterImpl::stop *)
Definition stop_begin (e : Exporter) : Exporter :=
  if running_ e then set_running false (thread_ e) e else e.

(** the joins wait for the accepting thread, then for each handler in turn. *)
(** [src/core/metrics/prometheus_exporter_embedded.cpp:97-108] PrometheusExporterImpl::stop *)
Definition stop_join (e : Exporter) : Exporter :=
  let e := foldl (λ e i, return_handler i e) (set_running (running_ e) false e)
             (List.seq 0 (List.length (handler_threads_ e))) in
  set_handlers [] (active_connections_ e) e.

(** [src/core/metrics/prometheus_exporter_embedded.cpp:86-109] PrometheusExporterImpl::stop *)
Definition stop (e : Exporter) : Exporter := if running_ e then stop_join (stop_begin e) else e.

(** [src/core/metrics/prometheus_exporter_embedded.cpp:111-111] PrometheusExporterImpl::is_running *)
Definition is_running (e : Exporter) : bool := running_ e.

(** The completion of one [async_accept]: [ec] says whether it failed. *)
(** [src/core/metrics/prometheus_exporter_embedded.cpp:126-148] PrometheusExporterImpl::do_accept *)
Definition on_accept (ec : bool) (e : Exporter) : Exporter :=
  if ec then e
  else if kMaxConnections <=? active_connections_ e then e
  else set_handlers (handler_threads_ e ++ [Serving]) (u64 (active_connections_ e + 1)) e.

Section update.
Context `{NthElement}.

(** [src/core/metrics/prometheus_exporter_embedded.cpp:113-119] PrometheusExporterImpl::update_metrics *)
Definition update_metrics (now : Z) (collector : MetricsCollector) (e : Exporter) : option Exporter :=
  m ← snapshot collector;
  Some (mkExporter (bind_ e) (running_ e) (thread_ e) (handler_threads_ e) (active_connections_ e) m
          (requests_per_second now collector) (error_rate collector)).
End update.

(** [src/core/metrics/prometheus_exporter_embedded.cpp:121-123] PrometheusExporterImpl::endpoint *)
Definition endpoint (e : Exporter) : string :=
  "http://" +:+ host (bind_ e) +:+ ":" +:+ to_string (port (bind_ e)) +:+ "/metrics".

(** *** The page *)



(** [src/core/metrics/prometheus_exporter_embedded.cpp:192-220] PrometheusExporterImpl::metrics_text *)
Definition metrics_text (e : Exporter) : string :=
  line "# HELP volley_requests_total Total number of requests" +:+
  line "# TYPE volley_requests_total counter" +:+
  line ("volley_requests_total " +:+ to_string (m_total_requests (metrics_ e))) +:+
  line "# HELP volley_requests_successful_total Total successful requests" +:+
  line "# TYPE volley_requests_successful_total counter" +:+
  line ("volley_requests_successful_total " +:+ to_string (m_successful_requests (metrics_ e))) +:+
  line "# HELP volley_requests_failed_total Total failed requests" +:+
  line "# TYPE volley_requests_failed_total counter" +:+
  line ("volley_requests_failed_total " +:+ to_string (m_failed_requests (metrics_ e))) +:+
  line "# HELP volley_error_rate Current error rate (percent)" +:+
  line "# TYPE volley_error_rate gauge" +:+
  line ("volley_error_rate " +:+ ostream_double (err_rate_ e)) +:+
  line "# HELP volley_requests_per_second Current requests per second" +:+
  line "# TYPE volley_requests_per_second gauge" +:+
  line ("volley_requests_per_second " +:+ ostream_double (rps_ e)) +:+
  line "# HELP volley_mean_latency_us Mean latency in microseconds" +:+
  line "# TYPE volley_mean_latency_us gauge" +:+
  line ("volley_mean_latency_us " +:+ ostream_double (m_mean_latency_us (metrics_ e))) +:+
  line "# HELP volley_p95_latency_us P95 latency in microseconds" +:+
  line "# TYPE volley_p95_latency_us gauge" +:+
  line ("volley_p95_latency_us " +:+ to_string (m_p95_latency_us (metrics_ e))) +:+
  line "# HELP volley_p99_latency_us P99 latency in microseconds" +:+
  line "# TYPE volley_p99_latency_us gauge" +:+
  line ("volley_p99_latency_us " +:+ to_string (m_p99_latency_us (metrics_ e))).

Record Request := mkRequest { method : string; target : string; version : Z }.
Record Response := mkResponse {
  r_status : Z; r_version : Z; r_server : string; r_content_type : string; r_body : string
}.

(** [req]: what [http::read] read, [None] when it failed; the socket's receive timeout
    only bounds when that is. *)
(** [src/core/metrics/prometheus_exporter_embedded.cpp:150-190] PrometheusExporterImpl::handle_request *)
Definition handle_request (req : option Request) (e : Exporter) : option Response :=
  req ← req;
  let '(status, body) :=
    if (method req =? "GET")%string && (target req =? "/metrics")%string then (200, metrics_text e)
    else if (method req =? "GET")%string && (target req =? "/")%string then (200, line "volley prometheus exporter")
    else (404, line "not found") in
  Some (mkResponse status (version req) "volley/1.0" "text/plain; version=0.0.4; charset=utf-8" body).

(** A reader of the exposition format: the lines that are not comments, each a name and
    a value. *)
Definition sample_of (l : string) : option (string * string) :=
  if char_is 0 "#" l then None
  else i ← find_char " " l; Some (stake i l, sdrop (S i) l).

Definition read_samples (body : string) : list (string * string) := omap sample_of (lines_of body).

Definition samples (e : Exporter) : list (string * string) :=
    [("volley_requests_total", to_string (m_total_requests (metrics_ e)));
     ("volley_requests_successful_total", to_string (m_successful_requests (metrics_ e)));
     ("volley_requests_failed_total", to_string (m_failed_requests (metrics_ e)));
     ("volley_error_rate", ostream_double (err_rate_ e));
     ("volley_requests_per_second", ostream_double (rps_ e));
     ("volley_mean_latency_us", ostream_double (m_mean_latency_us (metrics_ e)));
     ("volley_p95_latency_us", to_string (m_p95_latency_us (metrics_ e)));
     ("volley_p99_latency_us", to_string (m_p99_latency_us (metrics_ e)))].

Lemma read_metrics_text e : read_samples (metrics_text e) = samples e.
Proof.
  unfold metrics_text, read_samples.
  repeat (rewrite lines_of_line; [|rewrite ?lacks_app, ?to_string_lacks, ?ostream_double_lacks by done; done]).
  rewrite <-(sapp_nil_r (line _)), lines_of_line by (rewrite ?lacks_app, ?to_string_lacks by done; done).
  reflexivity.
Qed.

(** What is scraped is what was last reported: after [update_metrics] with a
    collector that has recorded [os], [GET /metrics] answers 200 with a page on which a
    reader of the exposition format finds, under their names and in this order, exactly
    the exporter's eight values; the request counters are those of the list.  Any other
    target or method is answered 404, but for [GET /]. *)
Theorem scrape_reports_update `{NthElement} (os : list Obs) (t0 now v : Z) (c : MetricsCollector) (e : Exporter) :
  record_all os (make_collector t0) = Some c → Z.of_nat (List.length os) < 2 ^ 64 →
  ∃ e' r, update_metrics now c e = Some e'
    ∧ handle_request (Some (mkRequest "GET" "/metrics" v)) e' = Some r
    ∧ r_status r = 200 ∧ read_samples (r_body r) = samples e'
    ∧ take 3 (samples e') = [("volley_requests_total", to_string (Z.of_nat (List.length os)));
                             ("volley_requests_successful_total", to_string (successes os));
                             ("volley_requests_failed_total", to_string (Z.of_nat (List.length os) - successes os))]
    ∧ rps_ e' = requests_per_second now c ∧ err_rate_ e' = error_rate c
    ∧ ∀ m t r', handle_request (Some (mkRequest m t v)) e' = Some r' →
        r_status r' = (if bool_decide (m = "GET" ∧ (t = "/metrics" ∨ t = "/")) then 200 else 404).
Proof.
  intros Hc Hn.
  destruct (record_all_rep os _ [] (make_collector_rep t0)) as (c' & Hc' & Hr & Ht); [simpl; lia..|].
  rewrite Hc in Hc'. injection Hc' as <-. simpl in Hr.
  destruct (snapshot_rep c os Hr) as (m & Hm & H1 & H2 & H3 & _); [simpl in Ht; lia|].
  unfold update_metrics. rewrite Hm. cbn [mbind option_bind]. eexists _, _. split; [reflexivity|].
  split; [reflexivity|]. cbn [r_status r_body]. split; [done|]. split; [apply read_metrics_text|].
  split; [unfold samples; cbn [take metrics_]; by rewrite H1, H2, H3|]. split; [done|]. split; [done|].
  intros m' t r' Hh. unfold handle_request in Hh. cbn [mbind option_bind method target version] in Hh.
  destruct (String.eqb_spec m' "GET") as [Hg|Hg], (String.eqb_spec t "/metrics") as [Ht1|Ht1],
    (String.eqb_spec t "/") as [Ht2|Ht2]; cbn [andb] in Hh; injection Hh as <-; cbn [r_status];
    case_bool_decide; (tauto || congruence).
Qed.

Lemma scrape_reports_update_witness :
  ∃ c e e' r, record_all [mkObs 200 7 10 20; mkObs 500 3 1 2] (make_collector 0) = Some c
    ∧ make ":9100" = Some e ∧ update_metrics 1000000000 c e = Some e'
    ∧ handle_request (Some (mkRequest "GET" "/metrics" 11)) e' = Some r
    ∧ take 1 (read_samples (r_body r)) = [("volley_requests_total", "2")].
Proof.
  destruct (record_all [mkObs 200 7 10 20; mkObs 500 3 1 2] (make_collector 0)) as [c|] eqn:E;
    [|by vm_compute in E].
  destruct (make ":9100") as [e|] eqn:Em; [|by vm_compute in Em].
  destruct (scrape_reports_update _ 0 1000000000 11 c e E) as (e' & r & H1 & H2 & _ & H3 & H4 & _); [simpl; lia|].
  exists c, e, e', r. split; [reflexivity|]. split; [reflexivity|]. split; [exact H1|]. split; [exact H2|].
  rewrite H3. change 1%nat with (1 `min` 3)%nat. by rewrite <-take_take, H4.
Defined.

(** *** Every interleaving of the owner's calls, the accepting thread and the handlers *)

Inductive owner_phase := Idle | Stopping.

Section steps.
Context `{NthElement}.

(** The owner calls [start], [stop] and [update_metrics] one after the other. *)
Inductive step : owner_phase * Exporter → owner_phase * Exporter → Prop :=
  | step_start e binds : step (Idle, e) (Idle, (start binds e).2)
  | step_update e now c e' : update_metrics now c e = Some e' → step (Idle, e) (Idle, e')
  | step_stop_begin e : running_ e = true → step (Idle, e) (Stopping, stop_begin e)
  | step_stop_join e : step (Stopping, e) (Idle, stop_join e)
  | step_accept ph e ec : thread_ e = true → step (ph, e) (ph, on_accept ec e)
  | step_return ph e i : handler_threads_ e !! i = Some Serving → step (ph, e) (ph, return_handler i e).

(** The handlers that still serve. *)
Definition serving (e : Exporter) : nat := List.length (filter (λ h, h = Serving) (handler_threads_ e)).

Record exporter_inv (e : Exporter) : Prop := {
  inv_active : active_connections_ e = Z.of_nat (serving e);
  inv_cap : active_connections_ e ≤ kMaxConnections
}.

Lemma serving_insert hs i :
  hs !! i = Some Serving →
  List.length (filter (λ h, h = Serving) hs) = S (List.length (filter (λ h, h = Serving) (<[i:=Returned]> hs))).
Proof.
  intros Hi. rewrite insert_take_drop by (by eapply lookup_lt_Some).
  rewrite <-(take_drop_middle hs i Serving Hi) at 1.
  rewrite !filter_app, filter_cons_True, filter_cons_False by done. rewrite !length_app. simpl. lia.
Qed.

Lemma return_handler_inv i e :
  exporter_inv e → exporter_inv (return_handler i e)
    ∧ (serving (return_handler i e) ≤ serving e)%nat
    ∧ List.length (handler_threads_ (return_handler i e)) = List.length (handler_threads_ e)
    ∧ handler_threads_ (return_handler i e) !! i ≠ Some Serving
    ∧ (∀ j, handler_threads_ e !! j ≠ Some Serving → handler_threads_ (return_handler i e) !! j ≠ Some Serving)
    ∧ running_ (return_handler i e) = running_ e ∧ thread_ (return_handler i e) = thread_ e.
Proof.
  intros [Ha Hc]. unfold return_handler. destruct (handler_threads_ e !! i) as [[]|] eqn:Hi;
    [|split_and!; [by split|lia|done|by rewrite Hi|done..]..].
  pose proof (serving_insert _ _ Hi) as Hs. unfold serving in *. unfold kMaxConnections in *.
  assert (Hlt := lookup_lt_Some _ _ _ Hi). cbn [handler_threads_ set_handlers running_ thread_].
  split_and!; [|lia|by rewrite length_insert|by rewrite list_lookup_insert_eq| |done|done].
  - split; unfold serving; cbn [active_connections_ handler_threads_ set_handlers]; rewrite wrap_small; unfold kMaxConnections; lia.
  - intros j Hj. destruct (decide (i = j)) as [<-|]; [by rewrite list_lookup_insert_eq|by rewrite list_lookup_insert_ne].
Qed.

(** The joins leave no handler serving. *)
Lemma join_all e : exporter_inv e → ∀ n, (n ≤ List.length (handler_threads_ e))%nat →
  let e' := foldl (λ e i, return_handler i e) e (List.seq 0 n) in
  exporter_inv e' ∧ List.length (handler_threads_ e') = List.length (handler_threads_ e)
  ∧ (∀ j, (j < n)%nat → handler_threads_ e' !! j ≠ Some Serving)
  ∧ running_ e' = running_ e ∧ thread_ e' = thread_ e.
Proof.
  intros He n. induction n as [|n IH]; intros Hn; [simpl; split_and!; try done; lia|].
  destruct (IH ltac:(lia)) as (Hi & Hl & Hj & Hr & Ht).
  cbv zeta. rewrite List.seq_S, foldl_app. cbn [foldl Nat.add]. set (e1 := foldl _ e _) in *.
  destruct (return_handler_inv n e1 Hi) as (Hi' & _ & Hl' & Hn' & Hk & Hr' & Ht').
  split_and!; [done|congruence| |congruence|congruence].
  intros j Hlt. destruct (decide (j = n)) as [->|]; [done|]. apply Hk, Hj. lia.
Qed.

Lemma set_running_inv r t e : exporter_inv e → exporter_inv (set_running r t e).
Proof. by intros []. Qed.

Lemma stop_join_spec e : exporter_inv e →
  handler_threads_ (stop_join e) = [] ∧ active_connections_ (stop_join e) = 0
  ∧ running_ (stop_join e) = running_ e ∧ thread_ (stop_join e) = false.
Proof.
  intros He. unfold stop_join.
  destruct (join_all _ (set_running_inv (running_ e) false e He) (List.length (handler_threads_ e)))
    as ([Ha _] & Hl & Hj & Hr & Ht); [done|]. cbn [handler_threads_ set_running running_ thread_] in *.
  set (e1 := foldl _ _ _) in *. cbn [handler_threads_ set_handlers active_connections_ running_ thread_].
  split_and!; [done| |done|done]. rewrite Ha. unfold serving. rewrite filter_none; [done|].
  intros h [i Hi]%list_elem_of_lookup ->. apply (Hj i); [|done]. rewrite <-Hl. by eapply lookup_lt_Some.
Qed.

Lemma on_accept_inv ec e : exporter_inv e → exporter_inv (on_accept ec e).
Proof.
  intros [Ha Hc]. unfold on_accept, kMaxConnections in *. destruct ec; [by split|].
  destruct (Z.leb_spec 100 (active_connections_ e)); [by split|].
  assert (Hs : List.length (filter (λ h, h = Serving) (handler_threads_ e ++ [Serving])) = S (serving e)).
  { unfold serving. rewrite filter_app, filter_cons_True, length_app by done. simpl. lia. }
  split; unfold kMaxConnections; [unfold serving at 1|]; cbn [active_connections_ handler_threads_ set_handlers];
    rewrite wrap_small, ?Hs; lia.
Qed.

Lemma step_inv s s' : step s s' → exporter_inv s.2 → exporter_inv s'.2.
Proof.
  intros Hs He. destruct Hs as [e b|e now c e' Hu|e Hr|e|ph e ec Ht|ph e i Hi]; cbn [snd] in *.
  - unfold start. destruct (running_ e), b; [done..| |]; by apply set_running_inv.
  - unfold update_metrics in Hu. apply bind_Some in Hu as (m & _ & [= <-]). by destruct He.
  - unfold stop_begin. rewrite Hr. by apply set_running_inv.
  - destruct (stop_join_spec e He) as (Hh & Ha & _). split; unfold serving, kMaxConnections; rewrite ?Hh, Ha; [done|lia].
  - by apply on_accept_inv.
  - by apply return_handler_inv.
Qed.

(** C29.  However the owner's calls, the accepting thread and the handler threads
    interleave: the connection counter is the number of handlers still serving, it
    never passes [kMaxConnections] (nor wraps below zero), and once [stop] has returned
    no handler, which would still use the exporter, is left. *)
Theorem connections_capped (addr : string) (e0 : Exporter) (ph : owner_phase) (e : Exporter) :
  make addr = Some e0 → rtc step (Idle, e0) (ph, e) →
  active_connections_ e = Z.of_nat (serving e) ∧ 0 ≤ active_connections_ e ≤ kMaxConnections
  ∧ handler_threads_ (stop_join e) = [] ∧ active_connections_ (stop_join e) = 0
  ∧ thread_ (stop_join e) = false.
Proof.
  intros H0 Hr. assert (He0 : exporter_inv e0).
  { unfold make in H0. apply bind_Some in H0 as (b & _ & [= <-]). split; cbn; [done|]. unfold kMaxConnections. lia. }
  assert (He : exporter_inv e).
  { change e with (ph, e).2. revert He0. change e0 with (Idle, e0).2. generalize dependent (Idle, e0).
    generalize (ph, e). intros s' s Hr. induction Hr as [|s1 s2 s3 Hs Hr IH]; [done|]. intros Hi.
    by apply IH, (step_inv s1 s2). }
  destruct (stop_join_spec e He) as (? & ? & _ & ?). destruct He as [Ha Hc].
  split_and!; [done|lia|done..].
Qed.

End steps.

Lemma connections_capped_witness :
  ∃ e0 e, make "0.0.0.0:9090" = Some e0
    ∧ rtc step (Idle, e0) (Stopping, e) ∧ active_connections_ e = 1 ∧ active_connections_ (stop_join e) = 0.
Proof.
  destruct (make "0.0.0.0:9090") as [e0|] eqn:E0; [|by vm_compute in E0].
  set (e := stop_begin (return_handler 0 (on_accept false (on_accept false (start true e0).2)))).
  assert (Hr : rtc step (Idle, e0) (Stopping, e)).
  { eapply rtc_l; [apply (step_start _ true)|].
    eapply rtc_l; [apply (step_accept _ _ false); vm_compute in E0; by injection E0 as <-|].
    eapply rtc_l; [apply (step_accept _ _ false); vm_compute in E0; by injection E0 as <-|].
    eapply rtc_l; [apply (step_return _ _ 0); vm_compute in E0; by injection E0 as <-|].
    apply rtc_once, step_stop_begin. vm_compute in E0. by injection E0 as <-. }
  destruct (connections_capped _ e0 Stopping e E0 Hr) as (H1 & _ & _ & H2 & _).
  exists e0, e. split; [reflexivity|]. split; [exact Hr|]. split; [|exact H2]. rewrite H1.
  vm_compute in E0. by injection E0 as <-.
Defined.

(** Scrapes that come one after the other never count more than one connection, and yet
    each leaves a thread behind that nothing joins before [stop]. *)
Theorem handlers_accumulate (n : nat) (e : Exporter) :
  handler_threads_ e = [] → active_connections_ e = 0 →
  let e' := Nat.iter n (λ e, return_handler (List.length (handler_threads_ e)) (on_accept false e)) e in
  handler_threads_ e' = replicate n Returned ∧ active_connections_ e' = 0.
Proof.
  intros Hh Ha. induction n as [|n [IHh IHa]]; [done|]. cbv zeta in *. rewrite Nat.iter_succ. set (e1 := Nat.iter n _ e) in *.
  assert (Hacc : on_accept false e1 = set_handlers (handler_threads_ e1 ++ [Serving]) 1 e1)
    by (unfold on_accept; by rewrite IHa).
  rewrite Hacc. unfold return_handler. cbn [handler_threads_ set_handlers active_connections_].
  rewrite list_lookup_middle by done. cbn [handler_threads_ set_handlers active_connections_]. split; [|done].
  rewrite IHh, insert_app_r_alt by (by rewrite length_replicate). rewrite Nat.sub_diag. cbn.
  symmetry. apply (replicate_S_end n Returned).
Qed.

End Embedded.
