(* ===== verification/Workers.v ===== *)
(** * The worker processes and the control plane's entry point

    [workers/http_worker/main.cpp] ([Module HttpWorker]),
    [workers/grpc_worker/main.cpp] ([Module GrpcWorker]) and
    [platform/control-plane/main.cpp] ([Module ControlPlane]): their arguments, the
    requests they send, what they count and report, and how their load loops share an
    [io_context] with the threads that run it. *)

From S2P Require Import Prelude CppString Result Url Double TokenBucket Ring Collector Async Tls Protocol HttpClient CliArgs.

Local Open Scope Z_scope.
Local Open Scope cpp_scope.

(** How a process that reads its arguments goes on: with a configuration, with an exit
    code, or killed by an exception that leaves [main]. *)
Inductive Outcome (A : Type) := Continue (a : A) | Exited (code : Z) | Killed.
Arguments Continue {A} a.
Arguments Exited {A} code.
Arguments Killed {A}.

Module HttpWorker.

(** [src/workers/http_worker/main.cpp:25-36] WorkerConfig *)
Record WorkerConfig := mkWorkerConfig {
  target_host : string; target_port : string; target_path : string; method : string;
  rps : Z; duration_sec : Z; report_interval_sec : Z;
  use_tls : bool; tls_verify : bool; show_help : bool
}.

(** [src/workers/http_worker/main.cpp:25-36] WorkerConfig *)
Definition default_config : WorkerConfig := mkWorkerConfig "localhost" "8080" "/" "GET" 100 60 5 false true false.

(** [src/workers/http_worker/main.cpp:70-72] parse_args *)
Definition to_bool (s : string) : bool :=
  negb ((s =? "0")%string || (s =? "false")%string || (s =? "off")%string || (s =? "no")%string).

(** What an option does with its value; [None]: the value is refused. *)
(** [src/workers/http_worker/main.cpp:74-94] parse_args *)
Definition value_option (key : string) : option (string → WorkerConfig → option WorkerConfig) :=
  let opt k := (key =? k)%string in
  let int (f : Z → WorkerConfig → WorkerConfig) := λ s c, match stoi s with StoOk v => Some (f v c) | _ => None end in
  if opt "--host" then Some (λ s '(mkWorkerConfig _ b c d e f g h i j), Some (mkWorkerConfig s b c d e f g h i j))
  else if opt "--port" then Some (λ s '(mkWorkerConfig a _ c d e f g h i j), Some (mkWorkerConfig a s c d e f g h i j))
  else if opt "--path" then Some (λ s '(mkWorkerConfig a b _ d e f g h i j), Some (mkWorkerConfig a b s d e f g h i j))
  else if opt "--method" then Some (λ s '(mkWorkerConfig a b c _ e f g h i j), Some (mkWorkerConfig a b c s e f g h i j))
  else if opt "--rps" then Some (int (λ v '(mkWorkerConfig a b c d _ f g h i j), mkWorkerConfig a b c d (u32 v) f g h i j))
  else if opt "--duration" then Some (int (λ v '(mkWorkerConfig a b c d e _ g h i j), mkWorkerConfig a b c d e v g h i j))
  else if opt "--report-interval" then Some (int (λ v '(mkWorkerConfig a b c d e f _ h i j), mkWorkerConfig a b c d e f v h i j))
  else if opt "--tls-verify" then Some (λ s '(mkWorkerConfig a b c d e f g h _ j), Some (mkWorkerConfig a b c d e f g h (to_bool s) j))
  else None.

(** [src/workers/http_worker/main.cpp:51-103] parse_args *)
Fixpoint parse_args_from (cfg : WorkerConfig) (argv : list string) : Outcome WorkerConfig :=
  match argv with
  | [] => Continue cfg
  | arg :: rest =>
      let (key, value) := split_arg arg in
      match value_option key with
      | Some f =>
          match value with
          | Some v => match f v cfg with Some cfg => parse_args_from cfg rest | None => Exited 1 end
          | None =>
              match rest with
              | v :: rest => match f v cfg with Some cfg => parse_args_from cfg rest | None => Exited 1 end
              | [] => Exited 1
              end
          end
      | None =>
          let '(mkWorkerConfig a b c d e f g h i j) := cfg in
          if (key =? "--use-tls")%string || (key =? "--tls")%string
          then parse_args_from (mkWorkerConfig a b c d e f g (from_option to_bool true value) i j) rest
          else parse_args_from (mkWorkerConfig a b c d e f g h i true) rest
      end
  end.

Definition parse_args (argv : list string) : Outcome WorkerConfig := parse_args_from default_config argv.

(** The checks before the load starts. *)
(** [src/workers/http_worker/main.cpp:105-111] main *)
Definition begin (argv : list string) : Outcome WorkerConfig :=
  match parse_args argv with
  | Continue cfg => if show_help cfg then Exited 0 else if rps cfg =? 0 then Exited 1 else Continue cfg
  | o => o
  end.

(** The request of one round. *)
(** [src/workers/http_worker/main.cpp:156-164] main *)
Definition request (cfg : WorkerConfig) : Request :=
  let p := match stoul (target_port cfg) with
           | StoOk p => if (0 <? p) && (p <=? 65535) then u16 p else 80
           | _ => 80
           end in
  mkRequest (method cfg) (target_path cfg) "" [] (target_host cfg) p (use_tls cfg) "http1.1".

(** *** The load loop and the thread that runs the [io_context]

    The thread calls [ioc.run()], which by its documentation returns as soon as the
    context has no more work; nothing holds a work guard.  [outstanding] counts the
    requests the context still has to complete, [io_running] says that [run] has not
    returned. *)
Record LoadState := mkLoad {
  running : bool; issued : nat; outstanding : nat; io_running : bool; metrics : MetricsCollector
}.

(** [src/workers/http_worker/main.cpp:151-173] main *)
Inductive step : LoadState → LoadState → Prop :=
  | step_issue n o io m : step (mkLoad true n o io m) (mkLoad true (S n) (S o) io m)
  | step_complete r n o m m' ob :
      record_obs ob m = Some m' → step (mkLoad r n (S o) true m) (mkLoad r n o true m')
  | step_io_return r n m : step (mkLoad r n 0 true m) (mkLoad r n 0 false m)
  | step_signal r n o io m : step (mkLoad r n o io m) (mkLoad false n o io m).

Definition init (now : Z) : LoadState := mkLoad true 0 0 true (make_collector now).

Lemma returned_stays s s' :
  rtc step s s' → io_running s = false → io_running s' = false ∧ metrics s' = metrics s.
Proof. induction 1 as [s|s1 s2 s3 Hs Hr IH]; [done|]. destruct Hs; intros E; try done; by apply IH. Qed.

Lemma issue_many k n o m : rtc step (mkLoad true n o false m) (mkLoad true (k + n) (k + o) false m).
Proof.
  revert n o. induction k as [|k IH]; intros n o; [done|].
  eapply rtc_l; [apply step_issue|]. replace (S k + n)%nat with (k + S n)%nat by lia.
  replace (S k + o)%nat with (k + S o)%nat by lia. apply IH.
Qed.

(** The HTTP worker can send any number of requests of which none is ever
    recorded: nothing keeps its [io_context] alive, so that the thread that runs it
    returns whenever it finds no request outstanding, before the first one as well as
    between two, and from then on no request completes. *)
Theorem http_worker_stalls (now : Z) (n : nat) :
  (∀ s s', rtc step (init now) s → io_running s = false → rtc step s s' → metrics s' = metrics s)
  ∧ ∃ s, rtc step (init now) s ∧ issued s = n ∧ running s = true
      ∧ ∀ s', rtc step s s' → metrics s' = make_collector now.
Proof.
  split.
  - intros s s' _ Hio Hr. by apply (returned_stays s s').
  - exists (mkLoad true (n + 0) (n + 0) false (make_collector now)). split_and!; [|simpl; lia|done|].
    + eapply rtc_l; [apply step_io_return|]. apply issue_many.
    + intros s' Hr. by apply (returned_stays _ s' Hr).
Qed.

End HttpWorker.

Module GrpcWorker.

(** [src/workers/grpc_worker/main.cpp:32-34] total_requests *)
Record Counters := mkCounters { total_requests : Z; successful_requests : Z; failed_requests : Z }.

(** [src/workers/grpc_worker/main.cpp:117-122] GrpcWorker *)
Record Worker := mkWorker { worker_id_ : string; max_rps_ : Z; worker_id_assigned_ : Z }.

(** [src/workers/grpc_worker/main.cpp:42-47] GrpcWorker::GrpcWorker *)
Definition make (worker_id : string) (max_rps : Z) : Worker := mkWorker worker_id max_rps 0.

(** A call of the controller: whether it succeeded, and its answer. *)
Record RegisterReply := mkRegister { reg_ok : bool; accepted : bool; assigned_worker_id : Z }.

(** [src/workers/grpc_worker/main.cpp:49-67] GrpcWorker::register_worker *)
Definition register_worker (r : RegisterReply) (w : Worker) : bool * Worker :=
  if reg_ok r && accepted r
  then (true, mkWorker (worker_id_ w) (max_rps_ w) (assigned_worker_id r))
  else (false, w).

Record Task := mkTask {
  target_url : string; target_rps : Z; duration_seconds : Z; task_headers : list (string * string)
}.

(** [src/workers/grpc_worker/main.cpp:69-76] GrpcWorker::assign_task *)
Definition assign_task (status_ok : bool) (task : option Task) : option Task :=
  if status_ok then task else None.

(** [src/workers/grpc_worker/main.cpp:94-97] GrpcWorker::report_metrics *)
Definition report_error_rate (c : Counters) : double :=
  if total_requests c >? 0
  then dmul (ddiv (d_of_Z (failed_requests c)) (d_of_Z (total_requests c))) (d_of_Z 100)
  else Fin 0.

Record MetricsReport := mkReport {
  worker_id : Z; timestamp_ms : Z; r_total : Z; r_successful : Z; r_failed : Z; r_error_rate : double
}.

(** (The latencies and the current rate of the message are never set.) *)
(** [src/workers/grpc_worker/main.cpp:87-97] GrpcWorker::report_metrics *)
Definition report (now_ms : Z) (w : Worker) (c : Counters) : MetricsReport :=
  mkReport (worker_id_assigned_ w) now_ms (total_requests c) (successful_requests c) (failed_requests c)
    (report_error_rate c).

(** The handler of a request, on the process-wide counters; what it also records in the
    task's own collector is never read. *)
(** [src/workers/grpc_worker/main.cpp:154-169] run_load_test *)
Definition on_response (ec : option Err) (status : Z) (c : Counters) : Counters :=
  match ec with
  | Some _ => mkCounters (total_requests c) (successful_requests c) (failed_requests c + 1)
  | None =>
      if (200 <=? status) && (status <? 400)
      then mkCounters (total_requests c + 1) (successful_requests c + 1) (failed_requests c)
      else mkCounters (total_requests c + 1) (successful_requests c) (failed_requests c + 1)
  end.

(** [src/workers/grpc_worker/main.cpp:134-148] run_load_test *)
Definition request (t : Task) : Request :=
  let u := parse_url (target_url t) in
  let p := match stoul (url_port u) with
           | StoOk p => if (0 <? p) && (p <=? 65535) then u16 p else 80
           | _ => 80
           end in
  mkRequest "GET" (url_path u) "" (task_headers t) (url_host u) p (url_tls u) "http1.1".

(** What [run_load_test] sets up: [None] if the bucket's constructor throws. *)
(** [src/workers/grpc_worker/main.cpp:124-128] run_load_test *)
Definition load_test_bucket (t : Task) (now : Z) : option TokenBucket :=
  make_bucket (d_of_Z (target_rps t)) (d_of_Z 1) now.

(** The arguments: the controller's address, the worker's name and its rate. *)
(** [src/workers/grpc_worker/main.cpp:185-216] main *)
Fixpoint parse_args_from (cfg : string * string * Z) (argv : list string) : Outcome (string * string * Z) :=
  match argv with
  | [] => Continue cfg
  | arg :: rest =>
      let (key, value) := split_arg arg in
      let '(controller, worker_id, max_rps) := cfg in
      let set (v : string) : option (string * string * Z) :=
        if (key =? "--controller")%string then Some (v, worker_id, max_rps)
        else if (key =? "--worker-id")%string then Some (controller, v, max_rps)
        else match stoi v with StoOk n => Some (controller, worker_id, n) | _ => None end in
      if (key =? "--controller")%string || (key =? "--worker-id")%string || (key =? "--max-rps")%string then
        match value with
        | Some v => match set v with Some cfg => parse_args_from cfg rest | None => Exited 1 end
        | None =>
            match rest with
            | v :: rest => match set v with Some cfg => parse_args_from cfg rest | None => Exited 1 end
            | [] => Exited 1
            end
        end
      else if (key =? "--help")%string then Exited 0
      else parse_args_from cfg rest
  end.

Definition parse_args (argv : list string) : Outcome (string * string * Z) :=
  parse_args_from ("localhost:5000", "worker-1", 5000) argv.

(** *** What is reported *)

(** A request's outcome: its error code, or its status. *)
Definition record_outcomes (os : list (option Err * Z)) : Counters :=
  foldl (λ c o, on_response o.1 o.2 c) (mkCounters 0 0 0) os.

Definition transport_failures (os : list (option Err * Z)) : Z :=
  Z.of_nat (List.length (filter (λ o, is_Some o.1) os)).

Lemma record_outcomes_sums os :
  let c := record_outcomes os in
  total_requests c + transport_failures os = Z.of_nat (List.length os)
  ∧ successful_requests c + failed_requests c = Z.of_nat (List.length os)
  ∧ transport_failures os ≤ failed_requests c ∧ 0 ≤ successful_requests c.
Proof.
  unfold record_outcomes, transport_failures.
  induction os as [|[ec st] os IH] using rev_ind; [done|]. cbv zeta in *.
  rewrite foldl_snoc, filter_app, !length_app. set (c := foldl _ _ os) in *. cbn [fst snd List.length].
  unfold filter at 2 4. cbn [list_filter fst]. unfold on_response. destruct ec; cbn [fst].
  - rewrite decide_True by done. cbn. lia.
  - rewrite decide_False by (by intros [? ?]). destruct (_ && _); cbn; lia.
Qed.

(** What the gRPC worker reports as its error rate is not one: a request that
    fails before it has a status is counted as failed and not counted in the total.  The
    counters miss exactly those requests; when every request fails so, the rate
    reported is 0, and it may pass 100 percent. *)
Theorem grpc_error_rate_wrong (os : list (option Err * Z)) (now : Z) (w : Worker) :
  let c := record_outcomes os in
  total_requests c = Z.of_nat (List.length os) - transport_failures os
  ∧ ((∀ o, o ∈ os → is_Some o.1) →
     r_error_rate (report now w c) = Fin 0 ∧ r_failed (report now w c) = Z.of_nat (List.length os))
  ∧ r_error_rate (report now w (record_outcomes [(None, 200); (Some E_connection_refused, 0);
       (Some E_connection_refused, 0); (Some E_connection_refused, 0)])) = d_of_Z 300.
Proof.
  cbv zeta. destruct (record_outcomes_sums os) as (H1 & H2 & H3 & H4). split_and!; [lia| |by vm_compute].
  intros Hall. assert (Hf : transport_failures os = Z.of_nat (List.length os))
    by (unfold transport_failures; by rewrite filter_all).
  unfold report, report_error_rate. cbn [r_error_rate r_failed]. destruct (Z.gtb_spec (total_requests (record_outcomes os)) 0); [lia|]. split; [done|lia].
Qed.

(** A task whose rate is not positive, as it is when the controller leaves the field
    out, ends the process: the bucket's exception is not caught. *)
Theorem grpc_rate_required (t : Task) (now : Z) :
  - 2 ^ 31 ≤ target_rps t < 2 ^ 31 → (load_test_bucket t now = None ↔ target_rps t ≤ 0).
Proof.
  intros Hr. unfold load_test_bucket, make_bucket. rewrite (d_of_Z_small (target_rps t)) by lia.
  unfold d0. cbn [dleb]. pose proof one_k_pos. destruct (Z.leb_spec (target_rps t * one_k) 0); split; try done; nia.
Qed.

End GrpcWorker.

Module ControlPlane.

(** [src/platform/control-plane/main.cpp:13-17] Config *)
Record Config := mkConfig { address : string; port : Z; help : bool }.

(** Arguments that are not options are passed over. *)
(** [src/platform/control-plane/main.cpp:22-29] parse_args *)
Definition parse_arg (cfg : Config) (arg : string) : Outcome Config :=
  if (arg =? "--help")%string || (arg =? "-h")%string then Continue (mkConfig (address cfg) (port cfg) true)
  else if String.prefix "--port=" arg then
    match stoi (substr_from 7 arg) with
    | StoOk p => Continue (mkConfig (address cfg) (u16 p) (help cfg))
    | _ => Killed
    end
  else if String.prefix "--address=" arg then Continue (mkConfig (substr_from 10 arg) (port cfg) (help cfg))
  else Continue cfg.

(** [src/platform/control-plane/main.cpp:19-32] parse_args *)
Definition parse_args (argv : list string) : Outcome Config :=
  foldl (λ o arg, match o with Continue cfg => parse_arg cfg arg | o => o end)
    (Continue (mkConfig "0.0.0.0" 8080 false)) argv.

(** The port is taken modulo [2^16], and a port that is not a number ends the process. *)
Theorem port_option (p : Z) :
  0 ≤ p < 2 ^ 31 →
  parse_args ["--port=" +:+ to_string p] = Continue (mkConfig "0.0.0.0" (u16 p) false)
  ∧ parse_args ["--port=http"] = Killed.
Proof.
  intros Hp. split; [|done]. unfold parse_args, foldl, parse_arg.
  assert (H7 : substr_from 7 ("--port=" +:+ to_string p) = to_string p)
    by (apply (sdrop_app "--port=" (to_string p))).
  assert (Hs : stoi (to_string p) = StoOk p).
  { unfold stoi, sto_signed. rewrite scan_int_to_string by lia. cbn [negb].
    destruct (Z.leb_spec (- 2 ^ 31) p), (Z.leb_spec p (2 ^ 31 - 1)); try lia; done. }
  rewrite H7, Hs, prefix_app. reflexivity.
Qed.

End ControlPlane.
