(* ===== verification/Slots.v ===== *)
(** * Time slots: how a worker thread paces itself

    The load loops of [core/scenario/engine.cpp] (402-426) and of a direct run in
    [tools/main.cpp] (763-786) are driven by absolute time slots: worker [w] polls the
    shared bucket at [start + k * period], sleeps through the bulk of the time to its next
    slot and spins through the last two milliseconds.

    The thread sees the world through two kinds of reads, the steady clock and the stop
    flag.  [clock n] is the [n]-th reading of the clock by this thread, [flag n] the value
    of the flag when it is read after [n] readings of the clock. *)

From S2P Require Import Prelude.

Local Open Scope Z_scope.

Definition kMillisecond : Z := 1000000.

Section Pace.
Context (clock : nat → Z) (flag : nat → bool).

(** Sleep in pieces of at most ten milliseconds: the number of clock readings made, and
    the sleeps.  [None]: out of fuel. *)
(** [src/core/scenario/engine.cpp:412-416] ScenarioEngine::Impl::run *)
Fixpoint coarse_wait (fuel : nat) (wake_at : Z) (n : nat) : option (nat * list Z) :=
  match fuel with
  | O => None
  | S fuel =>
      if (clock n <? wake_at) && negb (flag (S n)) then
        let rem := wake_at - clock (S n) in
        '(n', sleeps) ← coarse_wait fuel wake_at (S (S n));
        Some (n', Z.min rem (10 * kMillisecond) :: sleeps)
      else Some (S n, [])
  end.

(** [src/core/scenario/engine.cpp:418-420] ScenarioEngine::Impl::run *)
Fixpoint spin (fuel : nat) (next_slot : Z) (n : nat) : option nat :=
  match fuel with
  | O => None
  | S fuel => if (clock n <? next_slot) && negb (flag (S n)) then spin fuel next_slot (S n) else Some (S n)
  end.

(** [src/core/scenario/engine.cpp:409-420] ScenarioEngine::Impl::run *)
Definition wait_slot (fuel : nat) (next_slot now : Z) (n : nat) : option nat :=
  let sleep_dur := next_slot - now in
  n ← (if 2 * kMillisecond <? sleep_dur
       then fst <$> coarse_wait fuel (next_slot - 2 * kMillisecond) n
       else Some n);
  spin fuel next_slot n.

(** What a round of the loop comes to before the bucket is polled: it ends, or the bucket
    is polled at [now], for the slot [slot]. *)
Inductive Decision := Leave | Poll (now slot : Z).

(** The round, from the check of the loop's condition on. *)
(** [src/core/scenario/engine.cpp:402-426] ScenarioEngine::Impl::run *)
Definition pace (fuel : nat) (stage_end period : Z) (first_slot : bool) (next_slot : Z) (n : nat) :
    option (Decision * nat) :=
  if flag n then Some (Leave, n)
  else
    let now := clock n in
    let n := S n in
    if stage_end <=? now then Some (Leave, n)
    else if first_slot then Some (Poll now next_slot, n)
    else
      let next_slot := next_slot + period in
      if now <? next_slot then
        n ← wait_slot fuel next_slot now n;
        let now := clock n in
        let n := S n in
        if stage_end <=? now then Some (Leave, n) else Some (Poll now next_slot, n)
      else Some (Poll now next_slot, n).

(** The polls of a worker until it leaves its loop: the times, the slots, and the
    readings made until then; [body k] is the number of readings made by what follows the
    [k]-th poll (the bucket, the request and its callbacks). *)
(** [src/core/scenario/engine.cpp:400-426] ScenarioEngine::Impl::run *)
Fixpoint worker_polls (rounds fuel : nat) (stage_end period : Z) (body : nat → nat)
    (k : nat) (next_slot : Z) (n : nat) : option (list (Z * Z * nat)) :=
  match rounds with
  | O => None
  | S rounds =>
      '(d, n) ← pace fuel stage_end period (k =? 0)%nat next_slot n;
      match d with
      | Leave => Some []
      | Poll now slot =>
          polls ← worker_polls rounds fuel stage_end period body (S k) slot (n + body k)%nat;
          Some ((now, slot, n) :: polls)
      end
  end.

(** ** Waiting *)

(** A wait is over when its time has come or the flag is up. *)
Lemma spin_spec fuel slot n m :
  spin fuel slot n = Some m → (n < m)%nat ∧ (slot ≤ clock (pred m) ∨ flag m = true).
Proof.
  revert n. induction fuel as [|fuel IH]; intros n Hs; [done|]. cbn [spin] in Hs.
  destruct (Z.ltb_spec (clock n) slot) as [Hlt|Hge]; cbn [andb] in Hs.
  - destruct (flag (S n)) eqn:Ef; cbn [negb] in Hs.
    + injection Hs as <-. split; [lia|by right].
    + apply IH in Hs as [? ?]. split; [lia|done].
  - injection Hs as <-. split; [lia|by left].
Qed.

Lemma coarse_wait_mono fuel t n m ds : coarse_wait fuel t n = Some (m, ds) → (n < m)%nat.
Proof.
  revert n m ds. induction fuel as [|fuel IH]; intros n m ds Hs; [done|]. cbn [coarse_wait] in Hs.
  destruct (_ && _); [|injection Hs as <- _; lia].
  apply bind_Some in Hs as ([m' ds'] & Hs & [= <- _]). apply IH in Hs. lia.
Qed.

(** Every single sleep is at most ten milliseconds and not past the time to wake up. *)
Lemma coarse_wait_sleeps fuel t n m ds :
  coarse_wait fuel t n = Some (m, ds) →
  Forall (λ d, d ≤ 10 * kMillisecond ∧ ∃ i, d ≤ t - clock i) ds.
Proof.
  revert n m ds. induction fuel as [|fuel IH]; intros n m ds Hs; [done|]. cbn [coarse_wait] in Hs.
  destruct (_ && _); [|by injection Hs as _ <-].
  apply bind_Some in Hs as ([m' ds'] & Hs & [= _ <-]). constructor; [|by eapply IH].
  split; [lia|]. exists (S n). lia.
Qed.

Lemma wait_slot_spec fuel slot now n m :
  wait_slot fuel slot now n = Some m → (n < m)%nat ∧ (slot ≤ clock (pred m) ∨ flag m = true).
Proof.
  unfold wait_slot. intros (n1 & H1 & Hs)%bind_Some. apply spin_spec in Hs as [Hlt Hs]. split; [|done].
  destruct (_ <? _); [|injection H1 as <-; lia].
  apply fmap_Some in H1 as ([m1 ds] & H1 & ->). apply coarse_wait_mono in H1. cbn [fst] in *. lia.
Qed.

(** With a clock that has passed the time from its [N]-th reading on, a wait returns. *)
Lemma spin_returns N fuel slot n :
  (∀ i, (N ≤ i)%nat → slot ≤ clock i) → (N < fuel + n)%nat → (0 < fuel)%nat → ∃ m, spin fuel slot n = Some m.
Proof.
  intros Hc. revert n. induction fuel as [|fuel IH]; intros n Hf Hp; [lia|]. cbn [spin].
  destruct (Z.ltb_spec (clock n) slot) as [Hlt|]; cbn [andb]; [|eauto].
  destruct (flag (S n)); cbn [negb]; [eauto|]. assert (n < N)%nat.
  { destruct (decide (N ≤ n)%nat) as [Hle|]; [|lia]. specialize (Hc n Hle). lia. }
  apply IH; lia.
Qed.

Lemma coarse_wait_returns N fuel t n :
  (∀ i, (N ≤ i)%nat → t ≤ clock i) → (N < fuel + n)%nat → (0 < fuel)%nat →
  ∃ r, coarse_wait fuel t n = Some r.
Proof.
  intros Hc. revert n. induction fuel as [|fuel IH]; intros n Hf Hp; [lia|]. cbn [coarse_wait].
  destruct (Z.ltb_spec (clock n) t) as [Hlt|]; cbn [andb]; [|eauto].
  destruct (flag (S n)); cbn [negb]; [eauto|]. assert (n < N)%nat.
  { destruct (decide (N ≤ n)%nat) as [Hle|]; [|lia]. specialize (Hc n Hle). lia. }
  destruct (IH (S (S n))) as [[m ds] ->]; [lia..|]. cbn [mbind option_bind]. eauto.
Qed.

Lemma wait_slot_returns N fuel slot now n :
  (∀ i, (N ≤ i)%nat → slot ≤ clock i) → (N < fuel)%nat → ∃ m, wait_slot fuel slot now n = Some m.
Proof.
  intros Hc Hf. unfold wait_slot. destruct (_ <? _).
  - destruct (coarse_wait_returns N fuel (slot - 2 * kMillisecond) n) as [[m ds] ->]; [|lia..|].
    { intros i Hi. specialize (Hc i Hi). unfold kMillisecond. lia. }
    cbn [fmap option_fmap option_map mbind option_bind fst]. apply (spin_returns N); [done|lia..].
  - cbn [mbind option_bind]. apply (spin_returns N); [done|lia..].
Qed.

(** ** The schedule *)

Section Schedule.
Context (steady : ∀ i, clock i ≤ clock (S i)).

Lemma pace_spec fuel stage_end period first slot n d m :
  pace fuel stage_end period first slot n = Some (d, m) →
  (n ≤ m)%nat ∧ ∀ now slot', d = Poll now slot' →
    (n < m)%nat ∧ now < stage_end ∧ slot' = slot + (if first then 0 else period)
    ∧ (first = true ∨ slot' ≤ now ∨ ∃ i, (i ≤ m)%nat ∧ flag i = true).
Proof.
  unfold pace. destruct (flag n); [intros [= <- <-]; split; [lia|done]|].
  destruct (Z.leb_spec stage_end (clock n)); [intros [= <- <-]; split; [lia|done]|].
  destruct first.
  { intros [= <- <-]. split; [lia|]. intros ? ? [= <- <-]. split_and!; [lia..|by left]. }
  destruct (Z.ltb_spec (clock n) (slot + period)) as [Hlt|Hge].
  2: { intros [= <- <-]. split; [lia|]. intros ? ? [= <- <-]. split_and!; [lia..|]. right. left. lia. }
  intros (n1 & Hw & Hd)%bind_Some. apply wait_slot_spec in Hw as [Hn Hw].
  destruct (Z.leb_spec stage_end (clock n1)); injection Hd as <- <-; (split; [lia|]); [done|].
  intros ? ? [= <- <-]. split_and!; [lia..|]. destruct Hw as [Hw|Hw].
  - right. left. pose proof (steady (pred n1)) as Hs. replace (S (pred n1)) with n1 in Hs by lia. lia.
  - right. right. exists n1. split; [lia|done].
Qed.

Lemma worker_polls_spec rounds fuel stage_end period body k slot n polls :
  worker_polls rounds fuel stage_end period body k slot n = Some polls →
  ∀ i now s m, polls !! i = Some (now, s, m) →
    now < stage_end
    ∧ s = slot + (Z.of_nat i + (if (k =? 0)%nat then 0 else 1)) * period
    ∧ ((k + i = 0)%nat ∨ s ≤ now ∨ ∃ j, (j ≤ m)%nat ∧ flag j = true).
Proof.
  revert k slot n polls. induction rounds as [|rounds IH]; intros k slot n polls Hp; [done|].
  cbn [worker_polls] in Hp. apply bind_Some in Hp as ([d n1] & Hpace & Hp).
  apply pace_spec in Hpace as [_ Hpace]. destruct d as [|now1 slot1]; [by injection Hp as <-|].
  destruct (Hpace _ _ eq_refl) as (_ & Hend & -> & Hcase).
  apply bind_Some in Hp as (rest & Hrest & [= <-]). intros [|i] now s m Hi; cbn in Hi.
  - injection Hi as <- <- <-. split_and!; [lia|destruct (k =? 0)%nat; lia|].
    destruct (Nat.eqb_spec k 0) as [->|]; [by left|]. destruct Hcase as [?|?]; [done|]. by right.
  - destruct (IH _ _ _ _ Hrest i now s m Hi) as (H1 & H2 & H3). cbn [Nat.eqb] in H2.
    split_and!; [lia|destruct (k =? 0)%nat; lia|]. destruct H3 as [?|H3]; [lia|]. by right.
Qed.

Lemma worker_polls_returns stage_end period body N M fuel :
  0 ≤ period → (∀ i, (N ≤ i)%nat → stage_end ≤ clock i) →
  ∀ rounds k slot n,
  (N < rounds + n)%nat → (0 < rounds)%nat →
  (∀ i, (M ≤ i)%nat → slot + Z.of_nat rounds * period ≤ clock i) → (M < fuel)%nat →
  ∃ polls, worker_polls rounds fuel stage_end period body k slot n = Some polls.
Proof.
  intros Hper HN. induction rounds as [|rounds IH]; intros k slot n Hr Hp HM Hf; [lia|].
  cbn [worker_polls].
  assert (Hpc : ∃ d m, pace fuel stage_end period (k =? 0)%nat slot n = Some (d, m)).
  { unfold pace. destruct (flag n); [eauto|]. destruct (_ <=? _); [eauto|]. destruct (k =? 0)%nat; [eauto|].
    destruct (_ <? _); [|eauto]. destruct (wait_slot_returns M fuel (slot + period) (clock n) (S n)) as [m ->]; [|done|].
    - intros i Hi. specialize (HM i Hi). nia.
    - cbn [mbind option_bind]. destruct (_ <=? _); eauto. }
  destruct Hpc as (d & m & Hpc). rewrite Hpc. cbn [mbind option_bind]. destruct d as [|now slot']; [eauto|].
  destruct (pace_spec _ _ _ _ _ _ _ _ Hpc) as [_ Hq]. destruct (Hq _ _ eq_refl) as (Hnm & Hend & -> & _).
  assert (n < N)%nat.
  { destruct (decide (N ≤ n)%nat) as [Hle|]; [|lia]. specialize (HN n Hle). unfold pace in Hpc.
    destruct (flag n); [done|]. destruct (Z.leb_spec stage_end (clock n)); [done|lia]. }
  destruct (IH (S k) (slot + (if (k =? 0)%nat then 0 else period)) (m + body k)%nat) as [polls ->]; [lia..| |done|].
  - intros i Hi. specialize (HM i Hi). destruct (k =? 0)%nat; nia.
  - cbn [mbind option_bind]. eauto.
Qed.

End Schedule.
End Pace.

(** C13.  The pacing of a worker.  On a steady clock that passes every time, the loop ends
    (whatever its body does between two rounds, and however much clock time that takes);
    its [k]-th poll is for the slot [start + k * period], whether or not earlier rounds
    were late; every poll is before the end of the stage; and as long as the stop flag is
    down no poll but the first comes before its slot, so that a worker polls at most once
    per period and once more. *)
Theorem slot_schedule (clock : nat → Z) (flag : nat → bool) (stage_end period start : Z) (body : nat → nat) :
  (∀ i, clock i ≤ clock (S i)) → (∀ T, ∃ N, ∀ i, (N ≤ i)%nat → T ≤ clock i) → 0 < period →
  ∃ rounds fuel polls,
    worker_polls clock flag rounds fuel stage_end period body 0 start 0 = Some polls
    ∧ (∀ k now slot m, polls !! k = Some (now, slot, m) →
         now < stage_end ∧ slot = start + Z.of_nat k * period
         ∧ (k ≠ 0%nat → (∀ j, (j ≤ m)%nat → flag j = false) → slot ≤ now))
    ∧ ((∀ j, flag j = false) →
         Z.of_nat (List.length polls) ≤ 1 + Z.max 0 ((stage_end - 1 - start) `div` period)).
Proof.
  intros Hst Hadv Hper. destruct (Hadv stage_end) as [N HN].
  destruct (Hadv (start + Z.of_nat (S N) * period)) as [M HM].
  destruct (worker_polls_returns clock flag Hst stage_end period body N M (S M) ltac:(lia) HN (S N) 0 start 0)
    as [polls Hp]; [lia|lia|done|lia|].
  pose proof (worker_polls_spec clock flag Hst _ _ _ _ _ _ _ _ _ Hp) as Hsp. cbn [Nat.eqb] in Hsp.
  exists (S N), (S M), polls. split; [done|]. split.
  - intros k now slot m Hk. destruct (Hsp _ _ _ _ Hk) as (H1 & H2 & H3). split_and!; [done|lia|].
    intros Hk0 Hflag. destruct H3 as [?|[?|(j & Hj & Hfj)]]; [lia|done|]. by rewrite Hflag in Hfj.
  - intros Hflag. destruct (decide (List.length polls ≤ 1)%nat) as [|Hlong]; [lia|].
    destruct (lookup_lt_is_Some_2 polls (pred (List.length polls))) as [[[now slot] m] Hl]; [lia|].
    destruct (Hsp _ _ _ _ Hl) as (H1 & H2 & [H3|[H3|(j & _ & Hj)]]); [lia| |by rewrite Hflag in Hj].
    assert (Z.of_nat (List.length polls) - 1 ≤ (stage_end - 1 - start) `div` period); [|lia].
    apply Z.div_le_lower_bound; [done|]. nia.
Qed.

Lemma slot_schedule_witness :
  ∃ rounds fuel polls,
    worker_polls (λ n, Z.of_nat n * 700000) (λ _, false) rounds fuel 30000000 8000000 (λ _, 3%nat) 0 1000000 0 = Some polls
    ∧ Z.of_nat (List.length polls) ≤ 4.
Proof.
  destruct (slot_schedule (λ n, Z.of_nat n * 700000) (λ _, false) 30000000 8000000 1000000 (λ _, 3%nat))
    as (rounds & fuel & polls & H1 & _ & H2).
  - intros i. cbv beta. lia.
  - intros T. exists (Z.to_nat T). intros i Hi. lia.
  - lia.
  - exists rounds, fuel, polls. split; [exact H1|]. exact (H2 (λ _, eq_refl)).
Defined.

(** The first poll does not wait for the worker's own slot: all workers of a stage poll at
    once when it starts, and the offset between them only shows from the second poll on. *)
Theorem first_poll_at_once clock flag fuel stage_end period slot n :
  flag n = false → clock n < stage_end →
  pace clock flag fuel stage_end period true slot n = Some (Poll (clock n) slot, S n).
Proof. intros Hf Hn. unfold pace. rewrite Hf. by destruct (Z.leb_spec stage_end (clock n)); [lia|]. Qed.

(** A worker that waits for its slot when the flag goes up does not leave: the waits end
    and it polls, before its slot, and sends one more request. *)
Theorem stop_sends_one_more clock flag fuel stage_end period slot n :
  flag n = false → (∀ m, (n < m)%nat → flag m = true) → (∀ m, clock m < stage_end) →
  clock n < slot + period → (0 < fuel)%nat →
  ∃ now m, pace clock flag fuel stage_end period false slot n = Some (Poll now (slot + period), m).
Proof.
  intros Hf Hup Hend Hn Hfuel. destruct fuel as [|fuel]; [lia|]. unfold pace. rewrite Hf.
  destruct (Z.leb_spec stage_end (clock n)) as [Hle|_]; [specialize (Hend n); lia|].
  destruct (Z.ltb_spec (clock n) (slot + period)); [|lia].
  assert (Hw : ∃ m, wait_slot clock flag (S fuel) (slot + period) (clock n) (S n) = Some m).
  { assert (Hsp : ∀ s k, (n ≤ k)%nat → spin clock flag (S fuel) s k = Some (S k)).
    { intros s k Hk. cbn [spin]. by rewrite (Hup (S k)), andb_false_r by lia. }
    assert (Hco : ∀ s k, (n ≤ k)%nat → coarse_wait clock flag (S fuel) s k = Some (S k, [])).
    { intros s k Hk. cbn [coarse_wait]. by rewrite (Hup (S k)), andb_false_r by lia. }
    unfold wait_slot. destruct (_ <? _); [rewrite Hco by lia|]; cbn [fmap option_fmap option_map mbind option_bind fst];
      rewrite Hsp by lia; eauto. }
  destruct Hw as [m ->]. cbn [mbind option_bind]. specialize (Hend m).
  destruct (Z.leb_spec stage_end (clock m)); [lia|]. eauto.
Qed.
