(* ===== verification/EngineLoop.v ===== *)
(** * The threads of a stage on one [io_context], and the life of an engine

    [core/scenario/engine.cpp]: all workers of a stage send through clients of their own
    but share one [io_context].  A worker that waits for its request runs whatever handler
    is ready next, its own or another worker's ([ioc->run_one()]); the [done] flag of a
    request is set by whichever thread runs its last handler.  [step] is the interleaving
    of the workers, the context and [stop()]; pacing ([Slots]) and the bucket
    ([TokenBucket], [Engine]) decide when a worker sends and are left open here.

    The second part is [ScenarioEngine::Impl] as [run()] and [stop()] see it: the stop flag
    and the pointer to the running context. *)

From S2P Require Import Prelude CppString Config Tls.

(** ** Setting a worker up *)

(** The protocol of the clients, and whether their TLS verifies the peer. *)
(** [src/core/scenario/engine.cpp:194-203] ScenarioEngine::Impl::run *)
Definition run_protocol (cfg : ScenarioConfig) : string * TlsConfig :=
  (if is_empty (protocol (target cfg)) then "http1.1" else protocol (target cfg),
   mkTlsConfig (tls_verify (target cfg)) "" "" "" "" "" false TLS_1_2).

(** What workers leave in the engine: the error and the number of failures. *)
Record Failures := mkFailures { last_error_ : string; worker_failures_ : nat }.

(** [src/core/scenario/engine.cpp:322-326] fail_worker *)
Definition fail_worker (msg : string) (f : Failures) : Failures :=
  mkFailures (if is_empty (last_error_ f) then msg else last_error_ f) (S (worker_failures_ f)).

(** [src/core/scenario/engine.cpp:478-482] ScenarioEngine::Impl::run *)
Definition worker_threw (what : string) (f : Failures) : Failures :=
  mkFailures ("worker thread error: " +:+ what) (S (worker_failures_ f)).

(** A worker before its loop: [pooled] is the client its pool gave it, if there is a pool,
    [created] the one the factory made otherwise. *)
(** [src/core/scenario/engine.cpp:328-368] ScenarioEngine::Impl::run *)
Definition worker_setup (has_pool : bool) (pooled created : option nat) (host proto_name : string)
    (any_steps : bool) (f : Failures) : option nat * Failures :=
  let client := if has_pool then pooled else created in
  match client with
  | None => (None, fail_worker (if has_pool then "connection pool exhausted for " +:+ host
                                else "unsupported protocol: " +:+ proto_name) f)
  | Some c => if any_steps then (Some c, f)
              else (None, fail_worker "scenario configuration has no steps to execute" f)
  end.

(** [src/core/scenario/engine.cpp:542-544] ScenarioEngine::Impl::run_failed *)
Definition run_failed (f : Failures) : bool := (0 <? worker_failures_ f)%nat.

(** ** The loop *)

(** Where a worker is: at the condition of its loop, past it, at the condition of the wait
    for request [r], inside [run_one] for it, or gone, its client to be dropped or not. *)
Inductive Phase :=
  | Top
  | Paced
  | Checking (r : nat)
  | Running (r : nat)
  | Exited (drop : bool)
  | Failed.

(** A request: the worker whose client it is sent with, its [done] flag, and whether the
    context still holds an operation of it. *)
Record Req := mkReq { owner : nat; rq_done : bool; live : bool }.

Record World := mkWorld {
  stopped_ : bool;
  ioc_stopped : bool;
  phases : list Phase;
  last_done : gmap nat nat;
  reqs : list Req
}.

Definition set_phase (w : nat) (p : Phase) (s : World) : World :=
  mkWorld (stopped_ s) (ioc_stopped s) (<[w := p]> (phases s)) (last_done s) (reqs s).

Definition set_req (r : nat) (q : Req) (s : World) : World :=
  mkWorld (stopped_ s) (ioc_stopped s) (phases s) (last_done s) (<[r := q]> (reqs s)).

Definition is_done (r : nat) (s : World) : bool := from_option rq_done false (reqs s !! r).

(** [src/core/scenario/engine.cpp:476-477] ScenarioEngine::Impl::run *)
Definition drop_on_exit (w : nat) (s : World) : bool :=
  match last_done s !! w with Some r => negb (is_done r s) | None => false end.

(** The request is handed to the client, which may call the handler at once. *)
(** [src/core/scenario/engine.cpp:450-468] ScenarioEngine::Impl::run *)
Definition issue (w : nat) (at_once : bool) (s : World) : World :=
  let r := List.length (reqs s) in
  mkWorld (stopped_ s) (ioc_stopped s) (<[w := Checking r]> (phases s)) (<[w := r]> (last_done s))
    (reqs s ++ [mkReq w at_once (negb at_once)]).

(** [src/core/scenario/engine.cpp:402-484] ScenarioEngine::Impl::run *)
Inductive step : World → World → Prop :=
  | step_top w s : phases s !! w = Some Top →
      step s (set_phase w (if stopped_ s then Exited (drop_on_exit w s) else Paced) s)
  | step_deadline w s : phases s !! w = Some Paced → step s (set_phase w (Exited (drop_on_exit w s)) s)
  | step_no_token w s : phases s !! w = Some Paced → step s (set_phase w Top s)
  | step_issue w at_once s : phases s !! w = Some Paced → step s (issue w at_once s)
  | step_throws w s : phases s !! w = Some Paced → step s (set_phase w Failed s)
  | step_check w r s : phases s !! w = Some (Checking r) →
      step s (set_phase w (if is_done r s || stopped_ s then Top else Running r) s)
  | step_handle w r r' q last s :
      phases s !! w = Some (Running r) → ioc_stopped s = false →
      reqs s !! r' = Some q → live q = true →
      step s (set_phase w (Checking r)
                (set_req r' (mkReq (owner q) (rq_done q || last) (negb last)) s))
  | step_handler_throws w r r' q s :
      phases s !! w = Some (Running r) → ioc_stopped s = false →
      reqs s !! r' = Some q → live q = true →
      step s (set_phase w Failed (set_req r' (mkReq (owner q) (rq_done q) false) s))
  | step_run_one_stopped w r s : phases s !! w = Some (Running r) → ioc_stopped s = true →
      step s (set_phase w (Checking r) s)
  | step_stop s : step s (mkWorld true (ioc_stopped s) (phases s) (last_done s) (reqs s))
  | step_stop_ioc s : stopped_ s = true →
      step s (mkWorld true true (phases s) (last_done s) (reqs s)).

(** The start of a stage of [n] workers. *)
Definition init (n : nat) : World := mkWorld false false (replicate n Top) ∅ [].

(** ** One request per client *)

(** All requests of [w] are answered. *)
Definition idle (w : nat) (s : World) : Prop :=
  ∀ r q, reqs s !! r = Some q → owner q = w → rq_done q = true.

Record loop_inv (s : World) : Prop := {
  inv_but_last : ∀ r q, reqs s !! r = Some q → rq_done q = false → last_done s !! owner q = Some r;
  inv_last : ∀ w r, last_done s !! w = Some r → ∃ q, reqs s !! r = Some q ∧ owner q = w;
  inv_paced : ∀ w, phases s !! w = Some Paced → idle w s;
  inv_top : ∀ w, phases s !! w = Some Top → stopped_ s = true ∨ idle w s;
  inv_wait : ∀ w r, phases s !! w = Some (Checking r) ∨ phases s !! w = Some (Running r) → last_done s !! w = Some r;
  inv_exit : ∀ w, phases s !! w = Some (Exited false) → idle w s
}.

Lemma init_inv n : loop_inv (init n).
Proof.
  assert (Hp : ∀ w p, phases (init n) !! w = Some p → p = Top) by (intros w p [-> _]%lookup_replicate; done).
  assert (Hr : ∀ w, idle w (init n)) by (intros w r q Hr; done).
  split; auto.
  - intros r q Hq. done.
  - intros w r Hw. cbn in Hw. by rewrite lookup_empty in Hw.
  - intros w r [Hw|Hw]; by apply Hp in Hw.
Qed.

(** Moving one worker. *)
Lemma set_phase_inv w p s :
  loop_inv s →
  (p = Paced ∨ p = Exited false → idle w s) → (p = Top → stopped_ s = true ∨ idle w s) →
  (∀ r, p = Checking r ∨ p = Running r → last_done s !! w = Some r) →
  loop_inv (set_phase w p s).
Proof.
  intros [H1 H2 H3 H4 H5 H6] Hp Ht Hw.
  assert (Hph : ∀ v x, phases (set_phase w p s) !! v = Some x → (v = w ∧ x = p) ∨ phases s !! v = Some x)
    by (intros v x [(-> & <- & _)|[_ ?]]%list_lookup_insert_Some; auto).
  split; cbn [reqs last_done stopped_ set_phase]; auto.
  - intros v [[-> <-]|?]%Hph; [apply Hp; by left|by apply H3].
  - intros v [[-> <-]|?]%Hph; [by apply Ht|by apply H4].
  - intros v r [[[-> E]|?]%Hph|[[-> E]|?]%Hph]; [apply Hw; auto|apply H5; auto|apply Hw; auto|apply H5; auto].
  - intros v [[-> <-]|?]%Hph; [apply Hp; by right|by apply H6].
Qed.

(** A request changes hands with nobody, and is never undone. *)
Lemma set_req_inv r q q' s :
  reqs s !! r = Some q → owner q' = owner q → (rq_done q = true → rq_done q' = true) →
  loop_inv s → loop_inv (set_req r q' s).
Proof.
  intros Hr Ho Hd [H1 H2 H3 H4 H5 H6].
  assert (Hq : ∀ x y, reqs (set_req r q' s) !! x = Some y → (x = r ∧ y = q') ∨ reqs s !! x = Some y)
    by (intros x y [(-> & <- & _)|[_ ?]]%list_lookup_insert_Some; auto).
  assert (Hid : ∀ w, idle w s → idle w (set_req r q' s)).
  { intros w Hi x y [[-> ->]|Hy]%Hq Hw; [apply Hd, (Hi r q Hr); congruence|by apply (Hi x y)]. }
  split; cbn [phases last_done stopped_ set_req]; auto.
  - intros x y [[-> ->]|Hy]%Hq Hf; [|by apply H1]. rewrite Ho. apply H1; [done|].
    destruct (rq_done q); [|done]. by rewrite Hd in Hf.
  - intros w x Hx. destruct (H2 w x Hx) as (y & Hy & Hw). destruct (decide (x = r)) as [->|Hne].
    + exists q'. cbn [reqs set_req]. split; [apply list_lookup_insert_eq; by eapply lookup_lt_Some|]. congruence.
    + exists y. cbn [reqs set_req]. split; [by rewrite list_lookup_insert_ne|done].
  - intros w Hw. destruct (H4 w Hw); auto.
Qed.

Lemma issue_inv w b s : phases s !! w = Some Paced → loop_inv s → loop_inv (issue w b s).
Proof.
  intros Hw [H1 H2 H3 H4 H5 H6]. pose proof (H3 w Hw) as Hidle.
  set (r := List.length (reqs s)).
  assert (Hq : ∀ x y, reqs (issue w b s) !! x = Some y → (x = r ∧ y = mkReq w b (negb b)) ∨ reqs s !! x = Some y).
  { intros x y Hx. cbn in Hx. apply lookup_app_Some in Hx as [?|[Hle Hx]]; [by right|]. left.
    apply list_lookup_singleton_Some in Hx as [? <-]. split; [unfold r; lia|done]. }
  assert (Hid : ∀ v, v ≠ w → idle v s → idle v (issue w b s)).
  { intros v Hv Hi x y [[-> ->]|Hy]%Hq Ho; [cbn in Ho; congruence|by apply (Hi x y)]. }
  assert (Hph : ∀ v p, phases (issue w b s) !! v = Some p → (v = w ∧ p = Checking r) ∨ (v ≠ w ∧ phases s !! v = Some p))
    by (intros v p [(-> & <- & _)|[? ?]]%list_lookup_insert_Some; auto).
  split; cbn [stopped_ last_done issue].
  - intros x y [[-> ->]|Hy]%Hq Hf; [apply lookup_insert_eq|]. destruct (decide (owner y = w)) as [E|E].
    + rewrite (Hidle x y Hy E) in Hf. done.
    + rewrite lookup_insert_ne by done. by apply H1.
  - intros v x [[<- <-]|[Hne Hx]]%lookup_insert_Some.
    + exists (mkReq w b (negb b)). split; [|done]. cbn. apply list_lookup_middle. done.
    + destruct (H2 v x Hx) as (y & Hy & ?). exists y. split; [|done]. cbn. by apply lookup_app_l_Some.
  - intros v [[_ ?]|[? ?]]%Hph; [done|]. apply Hid; auto.
  - intros v [[_ ?]|[? Hv]]%Hph; [done|]. destruct (H4 v Hv); auto.
  - intros v x [[[-> E]|[Hne Hv]]%Hph|[[-> E]|[Hne Hv]]%Hph]; try (injection E as ->; apply lookup_insert_eq); try done;
      rewrite lookup_insert_ne by done; apply H5; auto.
  - intros v [[_ ?]|[? ?]]%Hph; [done|]. apply Hid; auto.
Qed.

(** On exit the client is kept only if its last request, and so every one, is answered. *)
Lemma drop_on_exit_idle w s : loop_inv s → drop_on_exit w s = false → idle w s.
Proof.
  intros [H1 H2 _ _ _ _] Hd r q Hr Ho. destruct (rq_done q) eqn:E; [done|].
  pose proof (H1 r q Hr E) as Hl. rewrite Ho in Hl. unfold drop_on_exit, is_done in Hd.
  rewrite Hl, Hr in Hd. cbn in Hd. by rewrite E in Hd.
Qed.

Lemma loop_step_inv s s' : step s s' → loop_inv s → loop_inv s'.
Proof.
  intros Hs Hi. destruct Hs as [w s Hw|w s Hw|w s Hw|w b s Hw|w s Hw|w r s Hw|w r r' q b s Hw Hio Hr Hl
    |w r r' q s Hw Hio Hr Hl|w r s Hw Hio|s|s Hst].
  - apply set_phase_inv; [done|..]; destruct (stopped_ s) eqn:E; try done; try (by intros r [? | ?]).
    + intros [?|[= Hd]]; [done|by apply drop_on_exit_idle].
    + intros _. destruct (inv_top s Hi w Hw); [congruence|done].
  - apply set_phase_inv; [done|..]; try done; try (by intros r [? | ?]).
    intros [?|[= Hd]]; [done|by apply drop_on_exit_idle].
  - apply set_phase_inv; [done|..]; try (by intros r [? | ?]); [by intros [?|?]|].
    intros _. right. by apply (inv_paced s Hi).
  - by apply issue_inv.
  - apply set_phase_inv; [done|..]; try done; try (by intros r [? | ?]). by intros [?|?].
  - pose proof (inv_wait s Hi w r (or_introl Hw)) as Hl. apply set_phase_inv; [done|..].
    + destruct (_ || _); by intros [?|?].
    + destruct (is_done r s) eqn:Ed, (stopped_ s) eqn:Es; cbn; try done; auto.
      intros _. right. apply drop_on_exit_idle; [done|]. unfold drop_on_exit. by rewrite Hl, Ed.
    + intros x. destruct (_ || _); intros [?|[= <-]]; done.
  - apply set_phase_inv.
    + eapply set_req_inv; [done|done| |done]. cbn. intros ->. done.
    + by intros [?|?].
    + done.
    + intros x [[= <-]|?]; [|done]. apply (inv_wait s Hi). by right.
  - apply set_phase_inv; try done; try (by intros x [? | ?]); [by eapply set_req_inv|by intros [?|?]].
  - apply set_phase_inv; [done|by intros [?|?]|done|]. intros x [[= <-]|?]; [|done]. apply (inv_wait s Hi). by right.
  - destruct Hi as [H1 H2 H3 H4 H5 H6]. split; auto.
  - destruct Hi as [H1 H2 H3 H4 H5 H6]. split; auto.
Qed.

Lemma loop_reachable_inv n s : rtc step (init n) s → loop_inv s.
Proof.
  intros Hr. pose proof (init_inv n) as H0. induction Hr as [|s1 s2 s3 Hs Hr IH]; [done|].
  by apply IH, (loop_step_inv s1 s2).
Qed.


(** ** Waiting for one another *)

Definition all_waiting (s : World) : Prop := ∀ w p, phases s !! w = Some p → ∃ r, p = Running r.

(** The worker waits for a request the context still works on. *)
Definition awaits_live (w : nat) (s : World) : Prop :=
  ∃ r q, phases s !! w = Some (Running r) ∧ reqs s !! r = Some q ∧ rq_done q = false ∧ live q = true.

Record wait_inv (s : World) : Prop := {
  wi_lost : ∀ r q, reqs s !! r = Some q → rq_done q = false → live q = false →
    ∃ w, phases s !! w = Some Failed;
  wi_progress : stopped_ s = false → all_waiting s → phases s ≠ [] → ∃ w, awaits_live w s
}.

(** A worker that is put anywhere but into [run_one] settles it. *)
Lemma wait_inv_out w p s s' :
  phases s' = <[w := p]> (phases s) → (w < List.length (phases s))%nat →
  (∀ r, p ≠ Running r) →
  (∀ r q, reqs s' !! r = Some q → rq_done q = false → live q = false → ∃ v, phases s' !! v = Some Failed) →
  wait_inv s'.
Proof.
  intros Hp Hw Hne Hl. split; [done|]. intros _ Hall _. destruct (Hall w p) as [r ->].
  - rewrite Hp. by apply list_lookup_insert_eq.
  - by destruct (Hne r).
Qed.

Lemma failed_stays w p s v :
  phases s !! w ≠ Some Failed → phases s !! v = Some Failed → phases (set_phase w p s) !! v = Some Failed.
Proof.
  intros Hw Hv. cbn. destruct (decide (v = w)) as [->|]; [done|]. by rewrite list_lookup_insert_ne.
Qed.

Lemma wait_inv_step s s' : step s s' → loop_inv s → wait_inv s → wait_inv s'.
Proof.
  intros Hs Hi [Hlost Hprog].
  assert (Hkeep : ∀ w p p', phases s !! w = Some p → p ≠ Failed → ∀ r q, reqs s !! r = Some q → rq_done q = false →
    live q = false → ∃ v, phases (set_phase w p' s) !! v = Some Failed).
  { intros w p p' Hw Hp r q Hr Hd Hl. destruct (Hlost r q Hr Hd Hl) as [v Hv]. exists v.
    apply failed_stays; [|done]. congruence. }
  destruct Hs as [w s Hw|w s Hw|w s Hw|w b s Hw|w s Hw|w r s Hw|w r r' q b s Hw Hio Hr Hl
    |w r r' q s Hw Hio Hr Hl|w r s Hw Hio|s|s Hst]; try (pose proof (lookup_lt_Some _ _ _ Hw) as Hlt).
  - eapply (wait_inv_out w); [done|done| |by eapply Hkeep]. intros r. by destruct (stopped_ s).
  - eapply (wait_inv_out w); [done..|by eapply Hkeep].
  - eapply (wait_inv_out w); [done..|by eapply Hkeep].
  - eapply (wait_inv_out w); [done..|]. intros x y Hx Hd Hl.
    cbn in Hx. apply lookup_app_Some in Hx as [Hx|[_ Hx]]; [by eapply (Hkeep w Paced)|].
    apply list_lookup_singleton_Some in Hx as [_ <-]. cbn in Hd, Hl. by subst.
  - eapply (wait_inv_out w); [done..|by eapply Hkeep].
  - destruct (is_done r s || stopped_ s) eqn:E; [eapply (wait_inv_out w); [done..|by eapply Hkeep]|].
    apply orb_false_elim in E as [Ed Es]. split; [by eapply Hkeep|]. intros _ Hall _. exists w.
    destruct (inv_last s Hi w r (inv_wait s Hi w r (or_introl Hw))) as (q & Hq & _).
    assert (Hd : rq_done q = false) by (unfold is_done in Ed; by rewrite Hq in Ed).
    exists r, q. split; [by apply list_lookup_insert_eq|]. split; [done|]. split; [done|].
    destruct (live q) eqn:El; [done|]. destruct (Hkeep w _ (Running r) Hw ltac:(done) r q Hq Hd El) as [v Hv].
    by destruct (Hall v _ Hv).
  - eapply (wait_inv_out w (Checking r) s); [done..|]. intros x y Hx Hd Hl'. cbn in Hx.
    apply list_lookup_insert_Some in Hx as [(-> & <- & _)|[_ Hx]].
    + cbn in Hd, Hl'. destruct b; [by rewrite orb_true_r in Hd|done].
    + by eapply (Hkeep w _ (Checking r) Hw).
  - eapply (wait_inv_out w Failed s); [done..|]. intros x y _ _ _. exists w. by apply list_lookup_insert_eq.
  - eapply (wait_inv_out w); [done..|by eapply Hkeep].
  - by split.
  - by split.
Qed.

(** C9.  No deadlock: in a stage that is not stopped, if every worker is inside [run_one]
    then one of them waits for a request the context still has an operation of, so that a
    handler will run and a worker go on. *)
Theorem stage_no_deadlock (n : nat) (s : World) :
  rtc step (init n) s → (0 < n)%nat → stopped_ s = false → all_waiting s → ∃ w, awaits_live w s.
Proof.
  intros Hr Hn Hs Hall.
  assert (H : loop_inv s ∧ wait_inv s ∧ List.length (phases s) = n).
  { clear Hs Hall. assert (H0 : loop_inv (init n) ∧ wait_inv (init n) ∧ List.length (phases (init n)) = n).
    { split; [apply init_inv|]. split; [|by apply length_replicate]. split; [done|].
      intros _ Hall _. destruct (Hall 0%nat Top); [|done]. by apply lookup_replicate_2. }
    revert H0. induction Hr as [|s1 s2 s3 Hs Hr IH]; [done|]. intros (H1 & H2 & H3). apply IH.
    split; [by apply (loop_step_inv s1)|]. split; [by apply (wait_inv_step s1)|].
    rewrite <-H3. by destruct Hs; cbn; rewrite ?length_insert. }
  destruct H as (_ & Hw & Hl). apply (wi_progress s Hw); [done|done|]. intros E. rewrite E in Hl. cbn in Hl. lia.
Qed.

Ltac take_step tac := eapply rtc_l; [tac; reflexivity|cbn].

Lemma stage_no_deadlock_witness :
  ∃ s, rtc step (init 1) s ∧ all_waiting s ∧ ∃ w, awaits_live w s.
Proof.
  set (s := mkWorld false false [Running 0] {[0%nat := 0%nat]} [mkReq 0 false true]).
  assert (Hr : rtc step (init 1) s).
  { take_step ltac:(apply (step_top 0)). take_step ltac:(apply (step_issue 0 false)).
    apply rtc_once. apply (step_check 0 0). reflexivity. }
  assert (Ha : all_waiting s).
  { intros [|w] p Hp; cbn in Hp; [injection Hp as <-; by exists 0%nat|done]. }
  exists s. split; [exact Hr|]. split; [exact Ha|]. exact (stage_no_deadlock 1 s Hr ltac:(lia) eq_refl Ha).
Defined.


(** A worker whose request was answered on another worker's thread is not told: it stays
    inside [run_one] though it is free to send, until some other handler happens to run
    on its thread. *)
Theorem worker_parked :
  ∃ s, rtc step (init 2) s ∧ stopped_ s = false ∧ phases s !! 0%nat = Some (Running 0) ∧ is_done 0 s = true
    ∧ ∀ r q, reqs s !! r = Some q → live q = false.
Proof.
  eexists. split; [|split; [|split; [|split]]].
  - take_step ltac:(apply (step_top 0)). take_step ltac:(apply (step_top 1)).
    take_step ltac:(apply (step_issue 0 false)). take_step ltac:(apply (step_issue 1 false)).
    take_step ltac:(apply (step_check 0 0)). take_step ltac:(apply (step_check 1 1)).
    (* the second worker runs the last handler of both requests *)
    eapply rtc_l; [eapply (step_handle 1 1 0 _ true); reflexivity|cbn].
    take_step ltac:(apply (step_check 1 1)).
    eapply rtc_l; [eapply (step_handle 1 1 1 _ true); reflexivity|cbn].
    apply rtc_refl.
  - done.
  - done.
  - done.
  - intros [|[|r]] q; cbn; by intros [= <-].
Qed.

(** Request [r] is lost: unanswered, and unknown to the context; its worker [v] waits for
    it or is gone. *)
Definition stranded (r v : nat) (s : World) : Prop :=
  (∃ q, reqs s !! r = Some q ∧ rq_done q = false ∧ live q = false)
  ∧ (phases s !! v = Some (Checking r) ∨ phases s !! v = Some (Running r) ∨ phases s !! v = Some Failed).

Lemma stranded_step r v s s' : step s s' → stopped_ s' = false → stranded r v s → stranded r v s'.
Proof.
  intros Hs Hst [(q & Hq & Hd & Hl) Hv].
  assert (Hph : ∀ w p p', phases s !! w = Some p →
    (v = w → p = Checking r ∨ p = Running r ∨ p = Failed → p' = Checking r ∨ p' = Running r ∨ p' = Failed) →
    let x := <[w := p']> (phases s) !! v in x = Some (Checking r) ∨ x = Some (Running r) ∨ x = Some Failed).
  { intros w p p' Hw Hp. cbv zeta. destruct (decide (v = w)) as [->|]; [|by rewrite list_lookup_insert_ne].
    rewrite list_lookup_insert_eq by (by eapply lookup_lt_Some). rewrite Hw in Hv. assert (Hx : p = Checking r ∨ p = Running r ∨ p = Failed)
      by (destruct Hv as [Hv|[Hv|Hv]]; injection Hv; auto).
    destruct (Hp eq_refl Hx) as [E|[E|E]]; rewrite E; auto. }
  assert (Hrq : ∀ r' q' x, reqs s !! r' = Some q' → live q' = true → <[r' := x]> (reqs s) !! r = Some q)
    by (intros r' q' x Hr' Hl'; rewrite list_lookup_insert_ne; [done|]; intros ->; congruence).
  destruct Hs as [w s Hw|w s Hw|w s Hw|w b s Hw|w s Hw|w r1 s Hw|w r1 r' q' b s Hw Hio Hr' Hl'
    |w r1 r' q' s Hw Hio Hr' Hl'|w r1 s Hw Hio|s|s Hst']; cbn [stopped_ set_phase set_req issue] in Hst; try done;
    (split; [exists q; cbn; eauto using lookup_app_l_Some|]); cbn; (eapply Hph; [done|]); intros E;
    (intros [Hp|[Hp|Hp]]; [try discriminate Hp..]); try (injection Hp as ->); auto.
  subst v. unfold is_done. rewrite Hq. cbn. rewrite Hd, Hst. cbn. auto.
Qed.

(** A request whose handler threw is lost, and its worker, if it is another one, waits for
    it as long as the stage is not stopped. *)
Theorem lost_request_strands (s s' : World) (r v : nat) :
  stranded r v s → rtc step s s' → stopped_ s' = false → stranded r v s'.
Proof.
  intros Hv Hr. revert Hv. induction Hr as [|s1 s2 s3 Hs Hr IH]; [done|]. intros Hv Hst. apply IH; [|done].
  apply (stranded_step r v s1); [done| |done].
  clear -Hr Hst. induction Hr as [|a b c Hs Hr IH]; [done|]. specialize (IH Hst). by destruct Hs.
Qed.

(** A stage of two workers in which the handler of the first worker's request throws on
    the second's thread. *)
Lemma lost_request_strands_witness :
  ∃ s, rtc step (init 2) s ∧ stranded 0 0 s
    ∧ ∀ s', rtc step s s' → stopped_ s' = false → stranded 0 0 s'.
Proof.
  set (s := mkWorld false false [Running 0; Failed] {[1%nat := 1%nat; 0%nat := 0%nat]}
              [mkReq 0 false false; mkReq 1 false true]).
  assert (Hr : rtc step (init 2) s).
  { take_step ltac:(apply (step_top 0)). take_step ltac:(apply (step_top 1)).
    take_step ltac:(apply (step_issue 0 false)). take_step ltac:(apply (step_issue 1 false)).
    take_step ltac:(apply (step_check 0 0)). take_step ltac:(apply (step_check 1 1)).
    apply rtc_once. apply (step_handler_throws 1 1 0 (mkReq 0 false true)); reflexivity. }
  assert (Hs : stranded 0 0 s) by (split; [by exists (mkReq 0 false false)|right; left; done]).
  exists s. split; [exact Hr|]. split; [exact Hs|]. intros s'. exact (lost_request_strands s s' 0 0 Hs).
Defined.

(** ** [run()] and [stop()] *)

Module Life.

(** [stopped_], the pointer [active_ioc_] (a context by its number) and the contexts that
    exist; [next] numbers the next one. *)
(** [src/core/scenario/engine.cpp:573-584] ScenarioEngine::Impl *)
Record Engine := mkEngine { stopped : bool; active_ioc_ : option nat; contexts : list nat; next : nat }.

(** [src/core/scenario/engine.cpp:114-116] ScenarioEngine::Impl::Impl *)
Definition make : Engine := mkEngine false None [] 0.

(** [None]: a context that no longer exists is used. *)
(** [src/core/scenario/engine.cpp:118-122] ScenarioEngine::Impl::stop *)
Definition stop (e : Engine) : option Engine :=
  match active_ioc_ e with
  | Some i => if bool_decide (i ∈ contexts e) then Some (mkEngine true (active_ioc_ e) (contexts e) (next e)) else None
  | None => Some (mkEngine true None (contexts e) (next e))
  end.

(** [src/core/scenario/engine.cpp:179-192] ScenarioEngine::Impl::run *)
Definition run_begin (e : Engine) : Engine :=
  mkEngine false (Some (next e)) (next e :: contexts e) (S (next e)).

(** The end of [run]: the pointer is cleared before the context goes. *)
(** [src/core/scenario/engine.cpp:518-523] ScenarioEngine::Impl::run *)
Definition run_end (e : Engine) : Engine := mkEngine (stopped e) None (tail (contexts e)) (next e).

(** An exception leaves [run]: its local variables are destroyed, and only they. *)
Definition run_throws (e : Engine) : Engine := mkEngine (stopped e) (active_ioc_ e) (tail (contexts e)) (next e).

(** One thread runs the engine, any thread stops it; [true]: a run is under way. *)
Inductive call : bool * Engine → bool * Engine → Prop :=
  | call_begin e : call (false, e) (true, run_begin e)
  | call_end e : call (true, e) (false, run_end e)
  | call_stop b e e' : stop e = Some e' → call (b, e) (b, e').

Lemma stop_defined e : (∀ i, active_ioc_ e = Some i → i ∈ contexts e) → ∃ e', stop e = Some e' ∧ stopped e' = true.
Proof.
  intros H. unfold stop. destruct (active_ioc_ e) as [i|] eqn:E; [|eauto].
  rewrite bool_decide_eq_true_2 by (by apply H). eauto.
Qed.

(** In every life of an engine whose runs all return, whenever [stop()] is called it
    finds a context that exists, or none. *)
Theorem stop_never_dangles (b : bool) (e : Engine) :
  rtc call (false, make) (b, e) → ∃ e', stop e = Some e' ∧ stopped e' = true.
Proof.
  intros Hr. apply stop_defined.
  assert (H : (if b then ∃ i l, active_ioc_ e = Some i ∧ contexts e = i :: l else active_ioc_ e = None)).
  { remember (false, make) as x eqn:Ex. remember (b, e) as y eqn:Ey.
    assert (H0 : if x.1 then ∃ i l, active_ioc_ x.2 = Some i ∧ contexts x.2 = i :: l else active_ioc_ x.2 = None)
      by (by subst).
    clear Ex. replace b with y.1 by (by subst). replace e with y.2 by (by subst). clear Ey.
    induction Hr as [|x1 x2 x3 Hs Hr IH]; [done|]. apply IH. clear IH Hr.
    destruct Hs as [e1|e1|b1 e1 e2 Hs]; cbn [fst snd] in *; [by eexists _, _|done|].
    unfold stop in Hs. destruct (active_ioc_ e1) as [i|] eqn:Ei; [|by injection Hs as <-].
    destruct (bool_decide _); [|done]. injection Hs as <-. cbn. exact H0. }
  intros i Hi. destruct b.
  - destruct H as (j & l & Hj & ->). rewrite Hj in Hi. injection Hi as <-. by left.
  - by rewrite H in Hi.
Qed.

Lemma stop_never_dangles_witness :
  ∃ e e', rtc call (false, make) (true, e) ∧ stop e = Some e' ∧ stopped e' = true.
Proof.
  assert (Hr : rtc call (false, make) (true, run_begin (run_end (run_begin make)))).
  { eapply rtc_l; [apply call_begin|]. eapply rtc_l; [apply call_end|]. apply rtc_once, call_begin. }
  destruct (stop_never_dangles true _ Hr) as (e' & H1 & H2). eexists _, e'. exact (conj Hr (conj H1 H2)).
Defined.

(** After a run that threw, as when the TLS settings cannot be applied, the pointer is
    left behind, and the next [stop()] uses a context that is gone. *)
Theorem stop_after_throw (e : Engine) : next e ∉ contexts e → stop (run_throws (run_begin e)) = None.
Proof. intros Hn. unfold stop. cbn. by rewrite bool_decide_eq_false_2. Qed.

(** The order of [stop()] and the beginning of [run()] decides: called before, it is
    forgotten and the run goes on; called after, the run is stopped. *)
Theorem stop_before_run_lost (b : bool) (e : Engine) :
  rtc call (false, make) (b, e) → active_ioc_ e = None →
  ∃ e1 e2, stop e = Some e1 ∧ stopped (run_begin e1) = false
         ∧ stop (run_begin e) = Some e2 ∧ stopped e2 = true.
Proof.
  intros _ Ha. unfold stop at 1. rewrite Ha. eexists _. 
  destruct (stop_defined (run_begin e)) as (e2 & H1 & H2); [intros i [= <-]; by left|]. eauto.
Qed.

End Life.
