(* ===== verification/Direct.v ===== *)
(** * A worker of a direct run

    [tools/main.cpp], [run_direct]: each worker owns an [io_context] and an HTTP/1.1 client
    ([HttpClient] on the loop of [Async]), paces itself by time slots ([Slots]), takes
    tokens from the shared bucket, sends one request at a time, and before it returns runs
    the context until nothing is outstanding. *)

From S2P Require Import Prelude CppString Result Url Double Constants Ring Collector Async Tls Protocol HttpClient Slots CliMain.

Local Open Scope Z_scope.

(** The pacing is the text of [engine.cpp], with [g_stop_requested] for the flag. *)
(** [src/tools/main.cpp:763-786] run_direct *)
Definition direct_pace (clock : nat → Z) (g_stop_requested : nat → bool) (fuel : nat) (end_ slot_period : Z)
    (first_slot : bool) (next_slot : Z) (n : nat) : option (Decision * nat) :=
  pace clock g_stop_requested fuel end_ slot_period first_slot next_slot n.

Section Worker.
Context (known_verb : string → bool).

Abbreviation Loop := (Sys Request Client Response).

(** The worker's client on its context, with every request it has sent, and the metrics. *)
Record Direct := mkDirect { d_loop : Loop; d_metrics : MetricsCollector }.

(** [Http11Client client(ioc)] and its settings. *)
(** [src/tools/main.cpp:746-750] run_direct *)
Definition direct_client (max_body_bytes : Z) (c : Client) : Client :=
  set_max_body_bytes max_body_bytes (set_timeout kDefaultTimeout c).

(** The request a round sends, with the headers the provider sets. *)
(** [src/tools/main.cpp:789-796] run_direct *)
Definition round_request (u : UrlParts) (target_port : Z) (headers : list (string * string)) : Request :=
  let '(method, path, host, port, use_tls) := direct_request u target_port in
  mkRequest method path "" headers host port use_tls "http1.1".

(** A round of the loop in which the bucket gave a token: the headers of the provider, the
    clock, and how many handlers run before the stop flag is seen. *)
Record Round := mkRound { rd_headers : list (string * string); rd_now : Z; rd_handlers : nat }.

(** [client.async_request(...)] *)
(** [src/tools/main.cpp:797-800] run_direct *)
Definition send (q : Request) (now : Z) (l : Loop) : Loop :=
  let (c, p) := async_request known_verb q now (sys_st l) in
  mkSys c (sys_log l) (sys_reqs l ++ [(q, p)]).

(** [ioc.run_one()]: the operation outstanding completes, with the reply [env] gives for
    the log so far. *)
Definition run_one (env : list (nat * Async.Event) → ∀ o, reply o) (i : nat) (l : Loop) : Loop :=
  match sys_reqs l !! i with
  | Some (q, Await o k) =>
      let a := env (sys_log l) o in
      let (c, p) := k a (sys_st l) in
      mkSys c (sys_log l ++ [(i, mkEvent o a)]) (<[i := (q, p)]> (sys_reqs l))
  | _ => l
  end.

(** What the handler records of a response. *)
(** [src/tools/main.cpp:801-803] run_direct *)
Definition observed (q : Request) (r : Response) : Obs :=
  mkObs (direct_code (ec r) (status_code r)) (latency r)
    (Z.of_nat (String.length (body q))) (Z.of_nat (String.length (resp_body r))).

(** Record the response of request [i], if it is there. *)
Definition record (i : nat) (d : Direct) : option (bool * Direct) :=
  match sys_reqs (d_loop d) !! i with
  | Some (q, Handler r) => m ← record_obs (observed q r) (d_metrics d); Some (true, mkDirect (d_loop d) m)
  | _ => Some (false, d)
  end.

(** The request is sent and waited for. *)
(** [src/tools/main.cpp:797-825] run_direct *)
Definition direct_round (env : list (nat * Async.Event) → ∀ o, reply o) (q : Request) (now : Z) (k : nat)
    (d : Direct) : option (bool * Direct) :=
  let i := List.length (sys_reqs (d_loop d)) in
  record i (mkDirect (Nat.iter k (run_one env i) (send q now (d_loop d))) (d_metrics d)).

(** The rounds of the loop; it is left when a request is not done, for then the flag is
    up. *)
(** [src/tools/main.cpp:763-826] run_direct *)
Fixpoint direct_loop (env : list (nat * Async.Event) → ∀ o, reply o) (u : UrlParts) (target_port : Z)
    (rounds : list Round) (d : Direct) : option (bool * Direct) :=
  match rounds with
  | [] => Some (true, d)
  | r :: rounds =>
      '(done, d) ← direct_round env (round_request u target_port (rd_headers r)) (rd_now r) (rd_handlers r) d;
      if (done : bool) then direct_loop env u target_port rounds d else Some (false, d)
  end.

(** [guard.reset(); ioc.restart(); ioc.run();]: what is outstanding is completed. *)
(** [src/tools/main.cpp:827-829] run_direct *)
Definition drain (env : list (nat * Async.Event) → ∀ o, reply o) (d : Direct) : option Direct :=
  let i := pred (List.length (sys_reqs (d_loop d))) in
  snd <$> record i (mkDirect (Nat.iter 11 (run_one env i) (d_loop d)) (d_metrics d)).

(** [src/tools/main.cpp:744-836] run_direct *)
Definition direct_worker (env : list (nat * Async.Event) → ∀ o, reply o) (u : UrlParts) (target_port : Z)
    (rounds : list Round) (d : Direct) : option Direct :=
  '(done, d) ← direct_loop env u target_port rounds d;
  if (done : bool) then Some d else drain env d.

(** ** Every request is recorded *)

Section Accounts.
Context (throws : SslCall → bool) (config : TlsConfig) (ka : bool) (c0 : Client).
Context (made : make_client throws config ka = Some c0).
Context (env : list (nat * Async.Event) → ∀ o, reply o).

Abbreviation ok := (reachable (starts known_verb) setter c0).

Lemma send_ok q now l : ok l → ok (send q now l).
Proof.
  intros Hl. unfold send. destruct (async_request _ _ _ _) as [c p] eqn:E. apply start_reachable; [done|]. by exists now.
Qed.

Lemma send_reqs q now l : ∃ p, sys_reqs (send q now l) = sys_reqs l ++ [(q, p)] ∧ sys_log (send q now l) = sys_log l.
Proof. unfold send. destruct (async_request _ _ _ _) as [c p]. by exists p. Qed.

Lemma run_one_ok i l : ok l → ok (run_one env i l).
Proof.
  intros Hl. unfold run_one. destruct l as [c log ps]. cbn. destruct (ps !! i) as [[q' [r| |o k]]|] eqn:E; try done.
  destruct (k _ c) as [c' p'] eqn:Ek. eapply rtc_r; [exact Hl|]. by eapply step_complete.
Qed.

(** A handler that runs adds to the log of its own request and touches no other. *)
Lemma run_one_frame i l :
  List.length (sys_reqs (run_one env i l)) = List.length (sys_reqs l)
  ∧ (∀ j, j ≠ i → sys_reqs (run_one env i l) !! j = sys_reqs l !! j)
  ∧ (∀ q' p, sys_reqs l !! i = Some (q', p) →
       (if pending p is Some _ then List.length (own_log i (sys_log (run_one env i l))) = S (List.length (own_log i (sys_log l)))
        else run_one env i l = l) ∧ ∃ p', sys_reqs (run_one env i l) !! i = Some (q', p')).
Proof.
  unfold run_one. destruct (sys_reqs l !! i) as [[q' [r| |o k]]|] eqn:E.
  - split_and!; [done..|]. intros ? ? [= <- <-]. split; [done|by eauto].
  - split_and!; [done..|]. intros ? ? [= <- <-]. split; [done|by eauto].
  - destruct (k _ (sys_st l)) as [c' p']. cbn [sys_reqs sys_log]. split_and!.
    + by rewrite length_insert.
    + intros j Hj. by rewrite list_lookup_insert_ne.
    + intros ? ? [= <- <-]. cbn [pending]. rewrite own_log_snoc, decide_True, length_app by done. cbn. split; [lia|].
      exists p'. apply list_lookup_insert_eq. by eapply lookup_lt_Some.
  - split_and!; [done..|]. by intros ? ?.
Qed.

Lemma run_many_frame k i l :
  let l' := Nat.iter k (run_one env i) l in
  List.length (sys_reqs l') = List.length (sys_reqs l)
  ∧ (∀ j, j ≠ i → sys_reqs l' !! j = sys_reqs l !! j)
  ∧ (ok l → ok l')
  ∧ (∀ q' p, sys_reqs l !! i = Some (q', p) → ∃ p', sys_reqs l' !! i = Some (q', p')
       ∧ (pending p' = None ∨ (k + List.length (own_log i (sys_log l)) ≤ List.length (own_log i (sys_log l')))%nat)).
Proof.
  induction k as [|k (H1 & H2 & H3 & H4)]; cbv zeta.
  { split_and!; [done..|]. intros q' p Hp. exists p. split; [done|]. right. cbn. lia. }
  rewrite Nat.iter_succ. set (l1 := Nat.iter k (run_one env i) l) in *.
  destruct (run_one_frame i l1) as (G1 & G2 & G3). split_and!.
  - congruence.
  - intros j Hj. rewrite G2, H2; done.
  - intros Hl. by apply run_one_ok, H3.
  - intros q' p Hp. destruct (H4 q' p Hp) as (p1 & Hp1 & Hc). destruct (G3 q' p1 Hp1) as [Hr [p2 Hp2]].
    exists p2. split; [done|]. destruct (pending p1) eqn:Epd.
    + right. destruct Hc as [?|Hc]; [done|]. lia.
    + rewrite Hr, Hp1 in Hp2. injection Hp2 as <-. by left.
Qed.

(** Eleven handlers answer any request. *)
Lemma run_eleven n i l q' p :
  ok l → sys_reqs l !! i = Some (q', p) → (11 ≤ n)%nat →
  ∃ r, sys_reqs (Nat.iter n (run_one env i) l) !! i = Some (q', Handler r).
Proof.
  intros Hl Hp Hn. destruct (run_many_frame n i l) as (_ & _ & Hok & Hlast). destruct (Hlast q' p Hp) as (p' & Hp' & Hc).
  specialize (Hok Hl). clear Hlast. revert Hok Hp' Hc. generalize (Nat.iter n (run_one env i) l). intros l' Hok Hp' Hc.
  destruct (request_progress _ _ _ _ _ _ _ _ _ made Hok Hp') as (Hb & Hans & _).
  destruct Hans as [[r Hr]|[o Ho]].
  - destruct p' as [r'| |o k]; [|done..]. by exists r'.
  - rewrite Ho in Hb, Hc. destruct Hc as [?|Hc]; [done|]. lia.
Qed.

Context (t0 : Z).

(** The first [List.length os] requests are answered and recorded, as [os]. *)
Record accounts (d : Direct) (os : list Obs) : Prop := {
  acc_ok : ok (d_loop d);
  acc_metrics : record_all os (make_collector t0) = Some (d_metrics d);
  acc_len : (List.length os ≤ List.length (sys_reqs (d_loop d)))%nat;
  acc_answered : ∀ i o, os !! i = Some o →
    ∃ q' r, sys_reqs (d_loop d) !! i = Some (q', Handler r) ∧ o = observed q' r
}.

Lemma record_more d os o :
  accounts d os → Z.of_nat (S (List.length os)) < 2 ^ 64 →
  ∃ m, record_obs o (d_metrics d) = Some m ∧ record_all (os ++ [o]) (make_collector t0) = Some m.
Proof.
  intros [_ Hm _ _] Hn.
  destruct (record_all_rep os _ [] (make_collector_rep t0)) as (c & Hc & Hr & Ht); [simpl; lia..|].
  rewrite Hm in Hc. injection Hc as <-. simpl in Hr, Ht.
  destruct (record_request_Some (d_metrics d) os o Hr) as (m & Hrec & _ & _); [lia..|]. exists m. split; [done|].
  unfold record_all in *. by rewrite foldl_snoc, Hm.
Qed.

(** The handler of the request that is next to be recorded. *)
Lemma record_next d os i q' r :
  accounts d os → i = List.length os → sys_reqs (d_loop d) !! i = Some (q', Handler r) →
  Z.of_nat (S (List.length os)) < 2 ^ 64 →
  ∃ d', record i d = Some (true, d') ∧ d_loop d' = d_loop d ∧ accounts d' (os ++ [observed q' r]).
Proof.
  intros Ha -> Hr Hn. destruct (record_more d os (observed q' r) Ha Hn) as (m & Hm & Hall). destruct Ha as [Hok _ Hl Hans].
  exists (mkDirect (d_loop d) m). unfold record. rewrite Hr, Hm. split; [done|]. split; [done|].
  split; cbn [d_loop d_metrics]; [done..| |].
  - rewrite length_app. cbn. apply lookup_lt_Some in Hr. lia.
  - intros i o [Hi|[Hge Hi]]%lookup_app_Some; [by apply Hans|].
    apply list_lookup_singleton_Some in Hi as [Hi <-]. exists q', r. split; [|done]. by replace i with (List.length os) by lia.
Qed.

(** Handlers of a later request change nothing of this. *)
Lemma accounts_run d os k i :
  accounts d os → (List.length os ≤ i)%nat →
  accounts (mkDirect (Nat.iter k (run_one env i) (d_loop d)) (d_metrics d)) os.
Proof.
  intros [Hok Hm Hl Hans] Hi. destruct (run_many_frame k i (d_loop d)) as (H1 & H2 & H3 & _).
  split; cbn [d_loop d_metrics]; [by apply H3|done|by rewrite H1|].
  intros j o Hj. rewrite H2; [by apply Hans|]. apply lookup_lt_Some in Hj. lia.
Qed.

Lemma accounts_send q d os now :
  accounts d os → accounts (mkDirect (send q now (d_loop d)) (d_metrics d)) os.
Proof.
  intros [Hok Hm Hl Hans]. destruct (send_reqs q now (d_loop d)) as (p & Hp & _).
  split; cbn [d_loop d_metrics]; [by apply send_ok|done|rewrite Hp, length_app; lia|].
  intros j o Hj. destruct (Hans j o Hj) as (q' & r & Hr & ->). exists q', r. split; [|done].
  rewrite Hp. by apply lookup_app_l_Some.
Qed.

Lemma direct_round_accounts q d os now k :
  accounts d os → List.length os = List.length (sys_reqs (d_loop d)) → Z.of_nat (S (List.length os)) < 2 ^ 64 →
  ∃ b d', direct_round env q now k d = Some (b, d')
    ∧ List.length (sys_reqs (d_loop d')) = S (List.length os)
    ∧ (if (b : bool) then ∃ o, accounts d' (os ++ [o]) else accounts d' os)
    ∧ ((11 ≤ k)%nat → b = true).
Proof.
  intros Ha Hlen Hn. unfold direct_round. set (i := List.length (sys_reqs (d_loop d))).
  destruct (send_reqs q now (d_loop d)) as (p & Hp & _). pose proof (accounts_send q d os now Ha) as Hs.
  assert (Hi : sys_reqs (send q now (d_loop d)) !! i = Some (q, p)) by (rewrite Hp; by apply list_lookup_middle).
  destruct (run_many_frame k i (send q now (d_loop d))) as (H1 & _ & _ & H4). destruct (H4 q p Hi) as (p' & Hp' & _).
  pose proof (accounts_run _ os k i Hs ltac:(lia)) as Hr. cbn [d_loop d_metrics] in Hr.
  assert (H11 : (11 ≤ k)%nat → ∃ r, p' = Handler r).
  { intros Hk. destruct (run_eleven k i _ _ _ (acc_ok _ _ Hs) Hi Hk) as [r Hr11]. exists r. cbn [d_loop] in Hr11.
    rewrite Hp' in Hr11. by injection Hr11. }
  clear H4. revert Hr H1 Hp'. generalize (Nat.iter k (run_one env i) (send q now (d_loop d))). intros l' Hr H1 Hp'.
  assert (Hl' : List.length (sys_reqs l') = S (List.length os)) by (rewrite H1, Hp, length_app; cbn; lia).
  destruct p' as [r| |o' k'].
  - destruct (record_next _ os i q r Hr ltac:(lia) Hp' Hn) as (d' & Hd & Hloop & Hacc).
    exists true, d'. split; [exact Hd|]. rewrite Hloop. cbn [d_loop]. split; [done|]. split; [by eexists|done].
  - exists false. eexists. unfold record. cbn [d_loop]. rewrite Hp'. split; [done|]. split; [done|]. split; [done|].
    intros Hk. by destruct (H11 Hk).
  - exists false. eexists. unfold record. cbn [d_loop]. rewrite Hp'. split; [done|]. split; [done|]. split; [done|].
    intros Hk. by destruct (H11 Hk).
Qed.

Lemma direct_loop_accounts u target_port rounds d os :
  accounts d os → List.length os = List.length (sys_reqs (d_loop d)) →
  Z.of_nat (List.length os + List.length rounds) < 2 ^ 64 →
  ∃ b d' os', direct_loop env u target_port rounds d = Some (b, d')
    ∧ accounts d' os'
    ∧ List.length (sys_reqs (d_loop d')) = (List.length os' + if (b : bool) then 0 else 1)%nat
    ∧ (List.length (sys_reqs (d_loop d')) ≤ List.length os + List.length rounds)%nat
    ∧ (Forall (λ r, 11 ≤ rd_handlers r)%nat rounds → b = true ∧ List.length os' = (List.length os + List.length rounds)%nat).
Proof.
  revert d os. induction rounds as [|r rounds IH]; intros d os Ha Hlen Hn; cbn [direct_loop List.length] in *.
  { exists true, d, os. split; [done|]. split; [done|]. split; [lia|]. split; [lia|]. intros _. split; [done|lia]. }
  set (q := round_request _ _ _).
  destruct (direct_round_accounts q d os (rd_now r) (rd_handlers r) Ha Hlen) as (b & d1 & E & Hl1 & Hb & H11); [lia|].
  rewrite E. cbn [mbind option_bind]. destruct b.
  - destruct Hb as [o Ho].
    assert (Hso : List.length (os ++ [o]) = S (List.length os)) by (rewrite length_app; cbn; lia).
    destruct (IH d1 (os ++ [o]) Ho) as (b' & d' & os' & E' & Ha' & Hl' & Hle & Hall); [lia..|].
    exists b', d', os'. split; [exact E'|]. split; [done|]. split; [done|]. split; [lia|].
    intros [_ Hf]%Forall_cons. destruct (Hall Hf) as [-> ?]. split; [done|lia].
  - exists false, d1, os. split; [done|]. split; [done|]. split; [lia|]. split; [lia|].
    intros [Hk _]%Forall_cons. by specialize (H11 Hk).
Qed.

Lemma drain_accounts d os :
  accounts d os → List.length (sys_reqs (d_loop d)) = S (List.length os) → Z.of_nat (S (List.length os)) < 2 ^ 64 →
  ∃ d' o, drain env d = Some d' ∧ accounts d' (os ++ [o]) ∧ List.length (sys_reqs (d_loop d')) = S (List.length os).
Proof.
  intros Ha Hlen Hn. unfold drain. rewrite Hlen. cbn [pred].
  destruct (lookup_lt_is_Some_2 (sys_reqs (d_loop d)) (List.length os) ltac:(lia)) as [[q' p] Hp].
  pose proof (accounts_run d os 11 (List.length os) Ha ltac:(lia)) as Hr.
  destruct (run_eleven 11 (List.length os) _ _ _ (acc_ok _ _ Ha) Hp ltac:(lia)) as [r Hr11].
  destruct (run_many_frame 11 (List.length os) (d_loop d)) as (Hl & _).
  revert Hr Hr11 Hl. generalize (Nat.iter 11 (run_one env (List.length os)) (d_loop d)). intros l' Hr Hr11 Hl.
  destruct (record_next _ os (List.length os) q' r Hr eq_refl Hr11 Hn) as (d' & E & Hloop & Hacc).
  exists d', (observed q' r). rewrite E. split; [done|]. split; [done|]. rewrite Hloop. cbn [d_loop]. lia.
Qed.

End Accounts.

(** C8.  A worker of a direct run loses no request and counts none twice: however the
    network answers, at whatever moment the stop flag interrupts the wait, the worker returns
    with every request it sent answered, and the collector holds exactly the observations of
    those answers, one per request and in the order of sending; a run that is not
    interrupted sends one request per round. *)
Theorem direct_worker_accounts throws config ka c0 max_body env u target_port rounds t0 :
  make_client throws config ka = Some c0 → Z.of_nat (List.length rounds) < 2 ^ 64 →
  ∃ d os,
    direct_worker env u target_port rounds (mkDirect (mkSys (direct_client max_body c0) [] []) (make_collector t0)) = Some d
    ∧ record_all os (make_collector t0) = Some (d_metrics d)
    ∧ List.length os = List.length (sys_reqs (d_loop d)) ∧ (List.length os ≤ List.length rounds)%nat
    ∧ (∀ i o, os !! i = Some o → ∃ q r, sys_reqs (d_loop d) !! i = Some (q, Handler r) ∧ o = observed q r)
    ∧ (Forall (λ r, 11 ≤ rd_handlers r)%nat rounds → List.length os = List.length rounds).
Proof.
  intros Hc Hn. unfold direct_worker.
  assert (Hok : reachable (starts known_verb) setter c0 (mkSys (direct_client max_body c0) [] [])).
  { eapply rtc_r; [eapply rtc_r; [apply rtc_refl|]|]; apply step_other; constructor. }
  assert (H0 : accounts c0 t0 (mkDirect (mkSys (direct_client max_body c0) [] []) (make_collector t0)) [])
    by (split; [done..|cbn; lia|by intros i o ?]).
  destruct (direct_loop_accounts throws config ka c0 Hc env t0 u target_port rounds _ [] H0 eq_refl Hn)
    as (b & d & os & E & Ha & Hl & Hle & Hall).
  rewrite E. cbn [mbind option_bind List.length Nat.add] in *. destruct b.
  - exists d, os. split; [done|]. destruct Ha as [_ Hm _ Hans]. split; [done|]. split; [lia|]. split; [lia|]. split; [done|].
    intros Hf. by destruct (Hall Hf).
  - destruct (drain_accounts throws config ka c0 Hc env t0 d os Ha) as (d' & o & -> & [_ Hm _ Hans] & Hl'); [lia..|].
    assert (Hso : List.length (os ++ [o]) = S (List.length os)) by (rewrite length_app; cbn; lia).
    exists d', (os ++ [o]). split; [done|]. split; [done|]. split; [lia|]. split; [lia|]. split; [done|].
    intros Hf. by destruct (Hall Hf).
Qed.

End Worker.

(** A worker whose second request is interrupted after two handlers. *)
Lemma direct_worker_accounts_witness :
  ∃ d os,
    direct_worker all_verbs (λ _, HttpClient.demo_env) (mkUrlParts "example.com" "8080" "/a b" false) 8080
      [mkRound [("Authorization", "Bearer t")] 0 11; mkRound [] 5000000 2]
      (mkDirect (mkSys (direct_client 1024 demo_client) [] []) (make_collector 0)) = Some d
    ∧ record_all os (make_collector 0) = Some (d_metrics d)
    ∧ List.length os = List.length (sys_reqs (d_loop d)) ∧ (List.length os ≤ 2)%nat.
Proof.
  destruct (direct_worker_accounts all_verbs (λ _, false) default_tls true demo_client 1024 (λ _, HttpClient.demo_env)
    (mkUrlParts "example.com" "8080" "/a b" false) 8080
    [mkRound [("Authorization", "Bearer t")] 0 11; mkRound [] 5000000 2] 0 demo_made ltac:(done))
    as (d & os & E & Hm & Hl & Hle & _).
  exists d, os. split; [exact E|]. split; [exact Hm|]. split; [exact Hl|exact Hle].
Defined.
