(* ===== verification/DirectRun.v ===== *)
(** * A direct run, from the command line to the exit code

    [tools/main.cpp], [run_direct]: the workers of [Direct], each with its own client and
    [io_context], share one token bucket and one collector.  [run_event] is what one worker
    does at one time; a run is any sequence of such events, so that every interleaving of the
    workers is one.  Pacing ([Slots]) and the stop flag decide when a worker polls and are
    left open here. *)

From S2P Require Import Prelude CppString Result Url Double Constants TokenBucket Ring Collector Async Tls Protocol HttpClient CliArgs CliMain Direct.

Local Open Scope Z_scope.

Abbreviation Loop := (Sys Request Client Response).

(** A worker: its client with all requests it has sent, and whether it waits for the last. *)
Record WorkerState := mkWS { ws_loop : Loop; ws_waiting : bool }.

Record Run := mkRun { r_bucket : TokenBucket; r_metrics : MetricsCollector; r_workers : list WorkerState }.

Inductive RunEvent :=
  | EvPoll (w : nat) (now : Z) (headers : list (string * string)) (start : Z)
  | EvHandler (w : nat).

Section Run.
Context (known_verb : string → bool) (env : nat → list (nat * Async.Event) → ∀ o, reply o).
Context (u : UrlParts) (target_port : Z).

(** Worker [w] after a callback of its last request: if that was the handler, the response
    is recorded and the wait is over. *)
(** [src/tools/main.cpp:797-825] run_direct *)
Definition after_callback (w : nat) (l : Loop) (s : Run) : option Run :=
  match last (sys_reqs l) with
  | Some (q, Handler r) =>
      m ← record_obs (observed q r) (r_metrics s);
      Some (mkRun (r_bucket s) m (<[w := mkWS l false]> (r_workers s)))
  | _ => Some (mkRun (r_bucket s) (r_metrics s) (<[w := mkWS l true]> (r_workers s)))
  end.

(** A worker that waits for nothing polls the bucket and, with a token, sends a request; one
    that waits runs a callback.  [None]: the worker does not do this now. *)
(** [src/tools/main.cpp:787-826] run_direct *)
Definition run_event (e : RunEvent) (s : Run) : option Run :=
  match e with
  | EvPoll w now headers start =>
      ws ← r_workers s !! w;
      if ws_waiting ws then None
      else
        let (ok, b) := try_consume now (r_bucket s) in
        let s := mkRun b (r_metrics s) (r_workers s) in
        if (ok : bool) then after_callback w (send known_verb (round_request u target_port headers) start (ws_loop ws)) s
        else Some s
  | EvHandler w =>
      ws ← r_workers s !! w;
      if ws_waiting ws
      then after_callback w (run_one (env w) (pred (List.length (sys_reqs (ws_loop ws)))) (ws_loop ws)) s
      else None
  end.

Fixpoint run_events (es : list RunEvent) (s : Run) : option Run :=
  match es with
  | [] => Some s
  | e :: es => s ← run_event e s; run_events es s
  end.

(** The state the workers start in, with the bucket and the number of workers the rate asks
    for. *)
(** [src/tools/main.cpp:678-750] run_direct *)
Definition start_run (rps max_body now : Z) (client : Client) : option Run :=
  bucket ← make_bucket (direct_bucket rps).1 (direct_bucket rps).2 now;
  Some (mkRun bucket (make_collector now)
          (replicate (Z.to_nat (direct_concurrency rps)) (mkWS (mkSys (direct_client max_body client) [] []) false))).

(** The clock of the polls, the requests sent, the answers received, the workers waiting. *)
Definition run_polls (es : list RunEvent) : list Z :=
  omap (λ e, match e with EvPoll _ now _ _ => Some now | EvHandler _ => None end) es.

Definition sent (s : Run) : nat := sum_list ((λ ws, List.length (sys_reqs (ws_loop ws))) <$> r_workers s).

Definition answers_of (ws : WorkerState) : list Obs :=
  omap (λ qp, match qp with (q, Handler r) => Some (observed q r) | _ => None end) (sys_reqs (ws_loop ws)).

Definition answers (s : Run) : list Obs := List.concat (answers_of <$> r_workers s).

Definition waiting (s : Run) : nat := List.length (filter (λ ws, ws_waiting ws = true) (r_workers s)).

(** ** The shape of a worker *)

Section Invariant.
Context (throws : SslCall → bool) (config : TlsConfig) (ka : bool) (c0 : Client).
Context (made : make_client throws config ka = Some c0).

Abbreviation ok := (reachable (starts known_verb) setter c0).

Definition closed (qr : Request * Response) : Request * Proc Client Response := (qr.1, Handler qr.2).

(** All its requests are answered, but for the last if it waits. *)
Inductive shape : WorkerState → Prop :=
  | shape_idle l pre : ok l → sys_reqs l = closed <$> pre → shape (mkWS l false)
  | shape_wait l pre q o k : ok l → sys_reqs l = (closed <$> pre) ++ [(q, Await o k)] → shape (mkWS l true).

Lemma omap_closed (pre : list (Request * Response)) :
  omap (λ qp : Request * Proc Client Response, match qp with (q, Handler r) => Some (observed q r) | _ => None end) (closed <$> pre)
  = (λ qr, observed qr.1 qr.2) <$> pre.
Proof. induction pre as [|[q r] pre IH]; cbn; [done|]. by rewrite IH. Qed.

(** A worker has one answer per request, less one if it waits. *)
Lemma shape_count ws :
  shape ws → List.length (sys_reqs (ws_loop ws)) = (List.length (answers_of ws) + if ws_waiting ws then 1 else 0)%nat.
Proof.
  intros [l pre Hok E|l pre q o k Hok E]; unfold answers_of; cbn [ws_loop ws_waiting]; rewrite E.
  - rewrite omap_closed, !length_fmap. lia.
  - rewrite omap_app, omap_closed, !length_app, !length_fmap. cbn. lia.
Qed.

(** What is done to worker [w]. *)
Lemma after_callback_cases w ws s l pre q p t0 os :
  r_workers s !! w = Some ws → ok l → sys_reqs l = (closed <$> pre) ++ [(q, p)] →
  answers_of ws = (λ qr, observed qr.1 qr.2) <$> pre →
  record_all os (make_collector t0) = Some (r_metrics s) → Z.of_nat (S (List.length os)) < 2 ^ 64 → os ≡ₚ answers s →
  Forall shape (r_workers s) →
  ∃ s' os' ws', after_callback w l s = Some s' ∧ r_bucket s' = r_bucket s
    ∧ r_workers s' = <[w := ws']> (r_workers s) ∧ ws_loop ws' = l
    ∧ ws_waiting ws' = (if answered p is Some _ then false else true)
    ∧ record_all os' (make_collector t0) = Some (r_metrics s') ∧ os' ≡ₚ answers s' ∧ Forall shape (r_workers s').
Proof.
  intros Hw Hok E Hans Hrec Hn Hperm Hsh. unfold after_callback. rewrite E, last_snoc.
  assert (Hins : ∀ ws', List.concat (answers_of <$> <[w := ws']> (r_workers s))
    = List.concat (answers_of <$> take w (r_workers s)) ++ answers_of ws' ++ List.concat (answers_of <$> drop (S w) (r_workers s))).
  { intros ws'. rewrite insert_take_drop by by eapply lookup_lt_Some.
    by rewrite fmap_app, fmap_cons, concat_app. }
  assert (Hold : answers s = List.concat (answers_of <$> take w (r_workers s)) ++ answers_of ws ++ List.concat (answers_of <$> drop (S w) (r_workers s))).
  { unfold answers. rewrite <-(take_drop_middle _ _ _ Hw) at 1. by rewrite fmap_app, fmap_cons, concat_app. }
  assert (Hlast : sys_reqs l !! List.length pre = Some (q, p)) by (rewrite E; apply list_lookup_middle; by rewrite length_fmap).
  destruct (request_progress _ _ _ _ _ _ _ _ _ made Hok Hlast) as (_ & Hp & _).
  destruct p as [r| |o k]; [|by destruct Hp as [[? ?]|[? ?]]|]; clear Hp.
  - destruct (record_all_rep os _ [] (make_collector_rep t0)) as (c & Hc & Hr & Ht); [simpl; lia..|].
    rewrite Hrec in Hc. injection Hc as <-. cbn [app] in Hr. simpl in Ht.
    destruct (record_request_Some (r_metrics s) os (observed q r) Hr) as (m & Hm & _ & _); [lia..|].
    rewrite Hm. cbn [mbind option_bind]. do 3 eexists. split; [reflexivity|].
    split; [done|]. split; [reflexivity|]. split; [done|]. split; [done|]. split; [|split].
    + unfold record_all in *. rewrite foldl_snoc, Hrec. exact Hm.
    + rewrite Hperm, Hold, Hans. unfold answers. cbn [r_workers]. rewrite Hins. unfold answers_of at 4. cbn [ws_loop]. rewrite E, omap_app, omap_closed. cbn.
      rewrite <-!(assoc_L (++)). apply Permutation_app_head, Permutation_app_head. rewrite Permutation_app_comm. done.
    + cbn [r_workers]. apply Forall_insert; [done|]. apply (shape_idle l (pre ++ [(q, r)])); [done|]. by rewrite E, fmap_app.
  - do 3 eexists. split; [reflexivity|]. split; [done|]. split; [reflexivity|]. split; [done|]. split; [done|]. split; [exact Hrec|split].
    + rewrite Hperm, Hold, Hans. unfold answers. cbn [r_workers]. rewrite Hins. unfold answers_of at 4. cbn [ws_loop]. rewrite E, omap_app, omap_closed. cbn.
      by rewrite app_nil_r.
    + cbn [r_workers]. apply Forall_insert; [done|]. by eapply shape_wait.
Qed.

(** ** Every event *)

Lemma sent_insert w ws ws' b m b' m' (wss : list WorkerState) :
  wss !! w = Some ws →
  (sent (mkRun b m (<[w := ws']> wss)) + List.length (sys_reqs (ws_loop ws))
   = sent (mkRun b' m' wss) + List.length (sys_reqs (ws_loop ws')))%nat.
Proof.
  intros Hw. unfold sent. cbn [r_workers]. rewrite insert_take_drop by by eapply lookup_lt_Some.
  rewrite <-(take_drop_middle _ _ _ Hw) at 3. rewrite !fmap_app, !fmap_cons.
  assert (Hs : ∀ l1 x l2, sum_list (l1 ++ x :: l2) = (sum_list l1 + x + sum_list l2)%nat).
  { intros l1 x l2. induction l1 as [|y l1 IH]; cbn; [lia|]. rewrite IH. lia. }
  rewrite !Hs. lia.
Qed.

(** The collector holds the answers [os], all that were received. *)
Record run_inv (t0 : Z) (s : Run) (os : list Obs) : Prop := {
  ri_shape : Forall shape (r_workers s);
  ri_rec : record_all os (make_collector t0) = Some (r_metrics s);
  ri_answers : os ≡ₚ answers s }.

Lemma shape_lookup s w ws : Forall shape (r_workers s) → r_workers s !! w = Some ws → shape ws.
Proof. intros Hs Hw. rewrite Forall_forall in Hs. apply Hs. by eapply list_elem_of_lookup_2. Qed.

(** A callback of a worker that waits, on whatever its last request waits for. *)
Lemma handler_event t0 s os w ws :
  run_inv t0 s os → r_workers s !! w = Some ws → ws_waiting ws = true → Z.of_nat (S (List.length os)) < 2 ^ 64 →
  let i := pred (List.length (sys_reqs (ws_loop ws))) in
  ∃ s' os' ws', run_event (EvHandler w) s = Some s' ∧ run_inv t0 s' os' ∧ r_bucket s' = r_bucket s
    ∧ r_workers s' = <[w := ws']> (r_workers s) ∧ sent s' = sent s
    ∧ (ws_waiting ws' = true →
       List.length (sys_reqs (ws_loop ws')) = List.length (sys_reqs (ws_loop ws))
       ∧ List.length (own_log i (sys_log (ws_loop ws'))) = S (List.length (own_log i (sys_log (ws_loop ws))))).
Proof.
  intros [Hsh Hrec Hperm] Hw Hwt Hn i. pose proof (shape_lookup _ _ _ Hsh Hw) as Hs.
  destruct Hs as [l pre Hok E|l pre q o k Hok E]; [done|]. cbn [ws_loop ws_waiting] in *. clear Hwt.
  assert (Hi : i = List.length pre) by (unfold i; rewrite E, length_app, length_fmap; cbn; lia).
  assert (Hl : sys_reqs l !! i = Some (q, Await o k)) by (rewrite E, Hi; apply list_lookup_middle; by rewrite length_fmap).
  destruct (run_one_frame (env w) i l) as (F1 & F2 & F3). destruct (F3 q _ Hl) as [Hlog [p Hp]]. cbn [pending] in Hlog.
  assert (E' : sys_reqs (run_one (env w) i l) = (closed <$> pre) ++ [(q, p)]).
  { apply list_eq. intros j. destruct (decide (j = i)) as [->|Hj].
    - rewrite Hp, Hi. symmetry. apply list_lookup_middle. by rewrite length_fmap.
    - rewrite F2, E by done. destruct (decide (j < i)%nat); [by rewrite !lookup_app_l by (rewrite length_fmap; lia)|].
      by rewrite !lookup_ge_None_2 by (rewrite length_app, length_fmap; cbn; lia). }
  destruct (after_callback_cases w (mkWS l true) s (run_one (env w) i l) pre q p t0 os) as (s' & os' & ws' & Hs' & Hb & Hws & Hlp & Hwt & H1 & H2 & H3);
    try done.
  { by apply run_one_ok. }
  { unfold answers_of. cbn [ws_loop]. rewrite E, omap_app, omap_closed. cbn. by rewrite app_nil_r. }
  exists s', os', ws'. split; [|split; [by split|split; [done|split; [done|split]]]].
  - unfold run_event. rewrite Hw. exact Hs'.
  - destruct s' as [b' m' wss']. cbn [r_workers] in Hws. subst wss'. destruct s as [b m wss]. cbn [r_workers] in *.
    pose proof (sent_insert w (mkWS l true) ws' b' m' b m wss Hw) as Hsum. rewrite Hlp in Hsum. cbn [ws_loop] in Hsum. lia.
  - intros _. rewrite Hlp. by split.
Qed.

(** A poll: the bucket's answer decides whether a request is sent. *)
Lemma poll_event t0 s os w now headers start s' :
  run_inv t0 s os → Z.of_nat (S (List.length os)) < 2 ^ 64 → run_event (EvPoll w now headers start) s = Some s' →
  ∃ os', run_inv t0 s' os' ∧ List.length (r_workers s') = List.length (r_workers s)
    ∧ r_bucket s' = (try_consume now (r_bucket s)).2
    ∧ sent s' = (sent s + if (try_consume now (r_bucket s)).1 then 1 else 0)%nat.
Proof.
  intros [Hsh Hrec Hperm] Hn. unfold run_event. destruct (r_workers s !! w) as [ws|] eqn:Hw; [|done]. cbn [mbind option_bind].
  pose proof (shape_lookup _ _ _ Hsh Hw) as Hs. destruct Hs as [l pre Hok E|]; [|done]. cbn [ws_waiting ws_loop].
  destruct (try_consume now (r_bucket s)) as [tok b]. cbn [fst snd]. destruct tok; cycle 1.
  { intros [= <-]. exists os. split; [by split|]. cbn. split; [done|]. split; [done|]. unfold sent. cbn. lia. }
  set (q := round_request u target_port headers). set (s1 := mkRun b (r_metrics s) (r_workers s)).
  destruct (send_reqs known_verb q start l) as (p & Hp & _). rewrite E in Hp.
  destruct (after_callback_cases w (mkWS l false) s1 (send known_verb q start l) pre q p t0 os) as (s2 & os' & ws' & Hs' & Hb & Hws & Hlp & Hwt & H1 & H2 & H3);
    try done.
  { by apply send_ok. }
  { unfold answers_of. cbn [ws_loop]. by rewrite E, omap_closed. }
  rewrite Hs'. intros [= <-]. exists os'. split; [by split|]. rewrite Hws. cbn [r_workers s1]. rewrite length_insert.
  split; [done|]. split; [by rewrite Hb|]. destruct s2 as [b' m' wss']. cbn [r_workers] in Hws. subst wss'.
  destruct s as [b0 m0 wss]. cbn [r_workers s1] in *.
  pose proof (sent_insert w (mkWS l false) ws' b' m' b0 m0 wss Hw) as Hsum. rewrite Hlp in Hsum. cbn [ws_loop] in Hsum.
  rewrite Hp, E, length_app in Hsum. cbn [List.length] in Hsum. lia.
Qed.

Lemma run_inv_count t0 s os : run_inv t0 s os → sent s = (List.length os + waiting s)%nat.
Proof.
  intros [Hsh _ Hperm]. rewrite Hperm. unfold sent, answers, waiting. clear Hperm.
  induction (r_workers s) as [|ws wss IH]; [done|]. decompose_Forall_hyps. cbn [fmap list_fmap sum_list List.concat].
  rewrite length_app, filter_cons, (shape_count ws) by done. rewrite IH by done.
  destruct (ws_waiting ws); [rewrite decide_True by done|rewrite decide_False by done]; cbn [List.length]; lia.
Qed.

(** ** Every run *)

Lemma run_events_inv t0 es s s' os :
  run_inv t0 s os → Z.of_nat (sent s + List.length es) < 2 ^ 64 - 1 → run_events es s = Some s' →
  ∃ os', run_inv t0 s' os' ∧ List.length (r_workers s') = List.length (r_workers s)
    ∧ run_try (run_polls es) (r_bucket s) = ((sent s' - sent s)%nat, r_bucket s') ∧ (sent s ≤ sent s' ≤ sent s + List.length es)%nat.
Proof.
  revert s os. induction es as [|e es IH]; intros s os Hi Hn Hr; cbn [run_events] in Hr.
  { injection Hr as <-. exists os. split; [done|]. split; [done|]. cbn. split; [by rewrite Nat.sub_diag|lia]. }
  apply bind_Some in Hr as (s1 & He & Hr). pose proof (run_inv_count _ _ _ Hi) as Hc. cbn [List.length] in Hn.
  destruct e as [w now headers start|w].
  - destruct (poll_event t0 s os w now headers start s1 Hi ltac:(lia) He) as (os1 & Hi1 & Hlen & Hb & Hs).
    assert (sent s1 ≤ S (sent s))%nat by (rewrite Hs; destruct (try_consume _ _) as [[] ?]; cbn; lia).
    destruct (IH s1 os1 Hi1 ltac:(lia) Hr) as (os' & Hi' & Hlen' & Ht & Hle). exists os'. split; [done|]. split; [congruence|].
    change (run_polls (EvPoll w now headers start :: es)) with (now :: run_polls es). cbn [run_try].
    destruct (try_consume now (r_bucket s)) as [tok b]. cbn [fst snd] in *. rewrite <-Hb, Ht. cbn [List.length].
    split; [f_equal; destruct tok; lia|destruct tok; lia].
  - cbn [run_event] in He. destruct (r_workers s !! w) as [ws|] eqn:Hw; [|done]. cbn [mbind option_bind] in He.
    destruct (ws_waiting ws) eqn:Hwt; [|done].
    destruct (handler_event t0 s os w ws Hi Hw Hwt ltac:(lia)) as (s2 & os1 & ws' & He' & Hi1 & Hb & Hws & Hs & _).
    cbn [run_event] in He'. rewrite Hw in He'. cbn [mbind option_bind] in He'. rewrite Hwt, He in He'. injection He' as <-.
    destruct (IH s1 os1 Hi1 ltac:(lia) Hr) as (os' & Hi' & Hlen' & Ht & Hle). exists os'. split; [done|].
    split; [rewrite Hlen', Hws; apply length_insert|]. change (run_polls (EvHandler w :: es)) with (run_polls es).
    rewrite Hs, Hb in *. cbn [List.length]. split; [done|lia].
Qed.

(** A worker that waits is done after at most eleven callbacks of its own. *)
Lemma worker_finishes t0 n s os w ws :
  run_inv t0 s os → r_workers s !! w = Some ws → ws_waiting ws = true → Z.of_nat (S (sent s)) < 2 ^ 64 →
  (11 ≤ n + List.length (own_log (pred (List.length (sys_reqs (ws_loop ws)))) (sys_log (ws_loop ws))))%nat →
  ∃ k s' os' ws', (k ≤ n)%nat ∧ run_events (replicate k (EvHandler w)) s = Some s' ∧ run_inv t0 s' os'
    ∧ r_workers s' = <[w := ws']> (r_workers s) ∧ ws_waiting ws' = false ∧ sent s' = sent s.
Proof.
  revert s os ws. induction n as [|n IH]; intros s os ws Hi Hw Hwt Hn Hlog.
  { exfalso. pose proof (shape_lookup _ _ _ (ri_shape _ _ _ Hi) Hw) as Hs. destruct Hs as [|l pre q o k Hok E]; [done|].
    cbn [ws_loop] in Hlog. assert (Hl : sys_reqs l !! pred (List.length (sys_reqs l)) = Some (q, Await o k)).
    { rewrite E. apply list_lookup_middle. rewrite length_app, !length_fmap. cbn. lia. }
    destruct (request_progress _ _ _ _ _ _ _ _ _ made Hok Hl) as (Hb & _). cbn [pending] in Hb. lia. }
  pose proof (run_inv_count _ _ _ Hi) as Hc.
  destruct (handler_event t0 s os w ws Hi Hw Hwt ltac:(lia)) as (s1 & os1 & ws1 & He & Hi1 & Hb & Hws & Hs & Hmore).
  assert (Hw1 : r_workers s1 !! w = Some ws1) by (rewrite Hws; apply list_lookup_insert_eq; by eapply lookup_lt_Some).
  destruct (ws_waiting ws1) eqn:Hwt1.
  - destruct (Hmore eq_refl) as [Hl1 Hl2].
    destruct (IH s1 os1 ws1 Hi1 Hw1 Hwt1) as (k & s' & os' & ws' & Hk & Hr & Hi' & Hws' & Hwt' & Hs'); [lia|rewrite Hl1; lia|].
    exists (S k), s', os', ws'. split; [lia|]. split; [cbn [replicate run_events]; by rewrite He|]. split; [done|].
    split; [rewrite Hws', Hws; apply list_insert_insert_eq|]. split; [done|lia].
  - exists 1%nat, s1, os1, ws1. split; [lia|]. split; [cbn [replicate run_events]; by rewrite He|]. done.
Qed.

Lemma waiting_insert w ws ws' b m b' m' (wss : list WorkerState) :
  wss !! w = Some ws → ws_waiting ws = true → ws_waiting ws' = false →
  S (waiting (mkRun b m (<[w := ws']> wss))) = waiting (mkRun b' m' wss).
Proof.
  intros Hw H1 H2. unfold waiting. cbn [r_workers]. rewrite insert_take_drop by by eapply lookup_lt_Some.
  rewrite <-(take_drop_middle _ _ _ Hw) at 3. rewrite !filter_app, !filter_cons, !length_app.
  rewrite decide_False by (by rewrite H2). rewrite decide_True by done. cbn [List.length]. lia.
Qed.

Lemma run_events_app es es' s : run_events (es ++ es') s = s ← run_events es s; run_events es' s.
Proof. revert s. induction es as [|e es IH]; intros s; [done|]. cbn [app run_events]. destruct (run_event e s); cbn; [apply IH|done]. Qed.

Definition is_handler (e : RunEvent) : Prop := match e with EvHandler _ => True | EvPoll _ _ _ _ => False end.

(** Whatever the network answers, the workers that wait are done after at most eleven
    callbacks each. *)
Lemma all_finish t0 s os :
  run_inv t0 s os → Z.of_nat (S (sent s)) < 2 ^ 64 →
  ∃ es s' os', Forall is_handler es ∧ (List.length es ≤ 11 * waiting s)%nat ∧ run_events es s = Some s'
    ∧ run_inv t0 s' os' ∧ waiting s' = 0%nat ∧ sent s' = sent s.
Proof.
  remember (waiting s) as n eqn:En. revert s os En. induction n as [|n IH]; intros s os En Hi Hn.
  { exists [], s, os. split; [done|]. split; [cbn; lia|]. done. }
  assert (∃ w ws, r_workers s !! w = Some ws ∧ ws_waiting ws = true) as (w & ws & Hw & Hwt).
  { unfold waiting in En. destruct (filter _ (r_workers s)) as [|ws l] eqn:El; [done|].
    assert (Hin : ws ∈ filter (λ ws, ws_waiting ws = true) (r_workers s)) by (rewrite El; by left).
    apply list_elem_of_filter in Hin as [Hwt [w Hw]%list_elem_of_lookup_1]. eauto. }
  destruct (worker_finishes t0 11 s os w ws Hi Hw Hwt Hn ltac:(lia)) as (k & s1 & os1 & ws1 & Hk & Hr & Hi1 & Hws & Hwt1 & Hs1).
  assert (En1 : n = waiting s1).
  { destruct s as [b m wss], s1 as [b1 m1 wss1]. cbn [r_workers] in *. subst wss1.
    pose proof (waiting_insert w ws ws1 b1 m1 b m wss Hw Hwt Hwt1). lia. }
  destruct (IH s1 os1 En1 Hi1 ltac:(lia)) as (es & s' & os' & Hf & Hlen & Hr' & Hi' & Hz & Hs').
  exists (replicate k (EvHandler w) ++ es), s', os'. split; [apply Forall_app; split; [by apply Forall_replicate|done]|].
  split; [rewrite length_app, length_replicate; lia|]. split; [rewrite run_events_app, Hr; exact Hr'|]. split; [done|]. split; [done|lia].
Qed.

Lemma start_run_inv rps max_body t0 :
  1 ≤ rps ≤ 1000000 →
  ∃ s, start_run rps max_body t0 c0 = Some s ∧ run_inv t0 s [] ∧ sent s = 0%nat
    ∧ List.length (r_workers s) = Z.to_nat (direct_concurrency rps)
    ∧ last_refill_ (r_bucket s) = t0
    ∧ bucket_ok (r_bucket s) (rps * one_k) (Z.max 100 rps * one_k) (Z.max 100 rps * one_k).
Proof.
  intros Hr. unfold start_run.
  assert (Hd : direct_bucket rps = (d_of_Z rps, d_of_Z (Z.max 100 rps))).
  { unfold direct_bucket. rewrite !(d_of_Z_small) by lia. cbn [dltb]. f_equal. pose proof one_k_pos.
    destruct (Z.ltb_spec (100 * one_k) (rps * one_k)); do 2 f_equal; nia. }
  rewrite Hd. cbn [fst snd]. destruct (make_bucket_ok rps (Z.max 100 rps) t0 ltac:(lia) ltac:(lia)) as [-> Hok].
  cbn [mbind option_bind]. eexists. split; [reflexivity|]. cbn [r_workers r_bucket].
  assert (Hc : reachable (starts known_verb) setter c0 (mkSys (direct_client max_body c0) [] []))
    by (eapply rtc_r; [eapply rtc_r; [apply rtc_refl|]|]; apply step_other; constructor).
  split; [|split; [|split; [apply length_replicate|split; [reflexivity|exact Hok]]]].
  - split; cbn [r_workers r_metrics]; [|done|].
    + apply Forall_replicate. by apply (shape_idle _ []).
    + unfold answers. cbn [r_workers]. induction (Z.to_nat (direct_concurrency rps)) as [|n IH]; [done|]. exact IH.
  - unfold sent. cbn [r_workers]. induction (Z.to_nat (direct_concurrency rps)) as [|n IH]; [done|]. exact IH.
Qed.

End Invariant.

Section Exit.
Context `{NthElement}.

Lemma direct_exit_defined t0 os m :
  record_all os (make_collector t0) = Some m → Z.of_nat (List.length os) < 2 ^ 64 →
  total_requests_ m = Z.of_nat (List.length os)
  ∧ (direct_exit 0 m = Some EXIT_OK ∨ direct_exit 0 m = Some EXIT_SLA).
Proof.
  intros Hm Hn. destruct (record_all_rep os _ [] (make_collector_rep t0)) as (c & Hc & Hr & Ht); [simpl; lia..|].
  rewrite Hm in Hc. injection Hc as <-. cbn [app] in Hr. simpl in Ht. split; [apply (crep_total _ _ Hr)|].
  destruct (snapshot_rep m os Hr) as (snap & Hs & _); [lia|]. unfold direct_exit, direct_sla.
  destruct (dleb _ _); [rewrite Hs|]; cbn; [destruct (_ <=? _)|]; auto.
Qed.


End Exit.
End Run.

(** Two workers for 20 requests per second: both send, and the first has its answer. *)
Definition demo_events : list RunEvent :=
  [EvPoll 0 5 [] 5; EvPoll 1 6 [] 6] ++ replicate 4 (EvHandler 0).
Definition demo_target : UrlParts := mkUrlParts "example.com" "8080" "/a" false.
Definition demo_run : option Run :=
  s0 ← start_run 20 1024 0 demo_client; run_events all_verbs (λ _ _, HttpClient.demo_env) demo_target 8080 demo_events s0.

Lemma demo_run_defined : is_Some demo_run.
Proof. apply (bool_decide_unpack _). vm_compute. exact I. Qed.

