(* ===== verification/Term.v ===== *)
(** * Terminal colours

    [core/term.hpp]: escape sequences for a terminal, nothing elsewhere or when [NO_COLOR]
    is set, and the labels of the tool's messages. *)

From S2P Require Import Prelude CppString Ostream.

Local Open Scope Z_scope.

(** [src/include/cppload/core/term.hpp:22-41] Color *)
Inductive Color :=
  | Reset | Bold
  | FgBlack | FgRed | FgGreen | FgYellow | FgBlue | FgMagenta | FgCyan | FgWhite
  | FgBrightBlack | FgBrightRed | FgBrightGreen | FgBrightYellow | FgBrightBlue | FgBrightMagenta
  | FgBrightCyan | FgBrightWhite.

Definition color_code (c : Color) : Z :=
  match c with
  | Reset => 0 | Bold => 1
  | FgBlack => 30 | FgRed => 31 | FgGreen => 32 | FgYellow => 33 | FgBlue => 34 | FgMagenta => 35
  | FgCyan => 36 | FgWhite => 37
  | FgBrightBlack => 90 | FgBrightRed => 91 | FgBrightGreen => 92 | FgBrightYellow => 93
  | FgBrightBlue => 94 | FgBrightMagenta => 95 | FgBrightCyan => 96 | FgBrightWhite => 97
  end.

(** What the process finds: [isatty] of its standard output and [NO_COLOR]. *)
Record Terminal := mkTerminal { isatty : bool; no_color : option string }.

(** [src/include/cppload/core/term.hpp:43-45] stdout_is_tty *)
Definition stdout_is_tty (t : Terminal) : bool := isatty t.

(** [src/include/cppload/core/term.hpp:47-50] no_color_env *)
Definition no_color_env (t : Terminal) : bool := match no_color t with Some nc => negb (is_empty nc) | None => false end.

(** [src/include/cppload/core/term.hpp:52-54] use_color *)
Definition use_color (t : Terminal) : bool := stdout_is_tty t && negb (no_color_env t).

Definition esc : ascii := "027".

Section Term.
Context (t : Terminal).

(** [src/include/cppload/core/term.hpp:56-59] ansi *)
Definition ansi (c : Color) : string :=
  if use_color t then String esc "[" +:+ to_string (color_code c) +:+ "m" else "".

(** [src/include/cppload/core/term.hpp:61-73] reset *)
Definition reset : string := ansi Reset.
Definition bold : string := ansi Bold.
Definition red : string := ansi FgRed.
Definition green : string := ansi FgGreen.
Definition yellow : string := ansi FgYellow.
Definition blue : string := ansi FgBlue.
Definition magenta : string := ansi FgMagenta.
Definition cyan : string := ansi FgCyan.
Definition bright_red : string := ansi FgBrightRed.
Definition bright_green : string := ansi FgBrightGreen.
Definition bright_yellow : string := ansi FgBrightYellow.
Definition bright_blue : string := ansi FgBrightBlue.
Definition bright_cyan : string := ansi FgBrightCyan.

(** [src/include/cppload/core/term.hpp:75-78] wrap *)
Definition wrap (text color_code : string) : string :=
  if is_empty color_code then text else color_code +:+ text +:+ reset.

(** [src/include/cppload/core/term.hpp:80-86] ok_label *)
Definition ok_label : string := wrap "[PASS] " (green +:+ bold).
Definition fail_label : string := wrap "[FAIL] " (bright_red +:+ bold).
Definition info_label : string := wrap "[INFO] " (bright_blue +:+ bold).
Definition warn_label : string := wrap "[WARN] " (bright_yellow +:+ bold).
Definition error_label : string := wrap "[ERR ] " (bright_red +:+ bold).
Definition sla_pass_label : string := wrap "SLA PASSED" (bright_green +:+ bold).
Definition sla_fail_label : string := wrap "SLA FAILED" (bright_red +:+ bold).

End Term.

(** ** What is seen *)

(** The text a terminal shows: escape sequences, up to their [m], are not shown. *)
Fixpoint visible_from (in_sequence : bool) (s : string) : string :=
  match s with
  | "" => ""
  | String c s =>
      if in_sequence then visible_from (negb (Ascii.eqb c "m")) s
      else if Ascii.eqb c esc then visible_from true s
      else String c (visible_from false s)
  end.

Definition visible : string → string := visible_from false.

(** A terminal without colours. *)
Definition plain : Terminal := mkTerminal false None.

(** A text shown as itself whatever follows it. *)
Definition shows (s text : string) : Prop := ∀ u, visible (s +:+ u) = text +:+ visible u.

Lemma shows_app s1 t1 s2 t2 : shows s1 t1 → shows s2 t2 → shows (s1 +:+ s2) (t1 +:+ t2).
Proof. intros H1 H2 u. by rewrite !sapp_assoc, H1, H2. Qed.

Lemma shows_lacks s : lacks esc s = true → shows s s.
Proof.
  intros Hs u. induction s as [|c s IH]; [done|]. unfold lacks in Hs. cbn [sforall] in Hs.
  apply andb_prop in Hs as [Hc Hs]. apply negb_true_iff in Hc. unfold visible in *. cbn. rewrite Hc. f_equal. by apply IH.
Qed.

Lemma shows_visible s text : shows s text → visible s = text.
Proof. intros H. specialize (H ""). by rewrite !sapp_nil_r in H. Qed.

Lemma shows_ansi t c : shows (ansi t c) "".
Proof. intros u. unfold ansi. destruct (use_color t); [|done]. by destruct c. Qed.

(** Colours are decoration: the text wrapped in any colours is seen as the text. *)
Lemma shows_wrap t s text cs : shows s text → shows (wrap t s (foldr (λ c a, ansi t c +:+ a) "" cs)) text.
Proof.
  intros Hs. unfold wrap. destruct (is_empty _); [done|]. intros u. rewrite !sapp_assoc.
  assert (Hcs : shows (foldr (λ c a, ansi t c +:+ a) "" cs) "")
    by (induction cs as [|c cs IH]; [done|]; by apply (shows_app _ "" _ ""); [apply shows_ansi|]).
  rewrite Hcs. cbn. rewrite Hs. f_equal. apply shows_ansi.
Qed.

Lemma shows_wrap1 t s text c : shows s text → shows (wrap t s (ansi t c)) text.
Proof. intros H. pose proof (shows_wrap t s text [c] H) as Hw. cbn in Hw. by rewrite sapp_nil_r in Hw. Qed.

Lemma shows_wrap2 t s text c1 c2 : shows s text → shows (wrap t s (ansi t c1 +:+ ansi t c2)) text.
Proof. intros H. pose proof (shows_wrap t s text [c1; c2] H) as Hw. cbn in Hw. by rewrite sapp_nil_r in Hw. Qed.
