(* ===== verification/Report.v ===== *)
(** * What the command line tool prints

    [tools/main.cpp]: the help text, the banners, the progress lines and the summary of a
    run ([print_results]), on the terminal of [Term].  The serialisation of the JSON
    document ([j.dump(2)]) is an argument. *)

From S2P Require Import Prelude CppString Double Ostream Ring Collector Config Redact CliArgs CliMain Term.

Local Open Scope Z_scope.

Definition nl : string := String newline "".
Definition spaces (n : nat) : string := String.concat "" (replicate n " ").
Definition rule : string := String.concat "" (replicate 58 "-").

(** ** The summary *)

(** The lambda [end_color] returns a reference to a string that is destroyed when it
    returns; [end_color] below is whatever is read through that reference. *)
Section Summary.
Context `{NthElement} (t : Terminal) (end_color : string).

(** [src/tools/main.cpp:590-594] print_results *)
Definition report_line (k v : string) (ok_color : bool) : string :=
  "  " +:+ wrap t (k +:+ ":") (bold t)
  +:+ spaces (Z.to_nat (Z.max 1 (20 - Z.of_nat (String.length k))))
  +:+ (if ok_color then wrap t v end_color else v) +:+ nl.

(** The lines of the table: label, value and whether it is coloured. *)
(** [src/tools/main.cpp:595-608] print_results *)
Definition report_rows (m : RequestMetrics) (elapsed : Z) (test_id : string) (actual_rps err_rate : double)
    (mean p50 : Z) : list (string * string * bool) :=
  [("Test ID", test_id, false);
   ("Elapsed", to_string elapsed +:+ " s", false);
   ("Total requests", to_string (m_total_requests m), true);
   ("Successful", to_string (m_successful_requests m), true);
   ("Failed", to_string (m_failed_requests m), true);
   ("Error rate", ostream_prec 3 err_rate +:+ "%", true);
   ("Actual RPS", ostream_prec 1 actual_rps +:+ " req/s", false);
   ("Mean latency", to_string mean +:+ " us", false);
   ("P50 latency", to_string p50 +:+ " us", false);
   ("P95 latency", to_string (m_p95_latency_us m) +:+ " us", false);
   ("P99 latency", to_string (m_p99_latency_us m) +:+ " us", true)].

Definition report_table (rows : list (string * string * bool)) : string :=
  foldr (λ r s, report_line r.1.1 r.1.2 r.2 +:+ s) "" rows.

(** The text on the standard output; [None] where [percentile] or a conversion is undefined. *)
(** [src/tools/main.cpp:574-612] print_results *)
Definition summary (now elapsed : Z) (test_id : string) (sla_passed_in : bool) (metrics : MetricsCollector) :
    option string :=
  m ← snapshot metrics;
  let actual_rps := requests_per_second now metrics in
  let err_rate := error_rate metrics in
  mean ← d_to_u64 (m_mean_latency_us m);
  p50 ← percentile (d_lit 1 2) metrics;
  Some (nl +:+ wrap t "volley — Load Results" (bright_cyan t +:+ bold t) +:+ nl +:+ rule +:+ nl
    +:+ report_table (report_rows m elapsed test_id actual_rps err_rate mean p50)
    +:+ rule +:+ nl
    +:+ "  " +:+ wrap t "SLA:" (bold t) +:+ spaces 21
    +:+ (if sla_passed_in then sla_pass_label t else sla_fail_label t) +:+ nl +:+ nl).

(** Where the output goes: the two streams and the file written, if any. *)
Record Printed := mkPrinted { p_out : string; p_err : string; p_file : option (string * string) }.

(** [dump]: [j.dump(2)]; [writable]: whether the file opens. *)
(** [src/tools/main.cpp:614-645] print_results *)
Definition print_json (args : CliArgs) (dump : list (string * Value_) → string) (writable : string → bool)
    (j : list (string * Value_)) : Printed :=
  let path := a_str "json_path" args in
  if is_empty path then mkPrinted "" "" None
  else
    let body := dump j in
    if (path =? "-")%string then
      mkPrinted (wrap t "JSON results (stdout):" (bright_cyan t +:+ bold t) +:+ nl +:+ body +:+ nl) "" None
    else if writable path then
      mkPrinted (ok_label t +:+ "JSON results written to: " +:+ path +:+ nl) "" (Some (path, body +:+ nl))
    else mkPrinted "" (error_label t +:+ "Cannot write JSON to: " +:+ path +:+ nl) None.

(** [started_at]: milliseconds since the epoch. *)
(** [src/tools/main.cpp:574-645] print_results *)
Definition print_results (metrics : MetricsCollector) (now elapsed : Z) (test_id : string) (sla_passed_in : bool)
    (args : CliArgs) (started_at : Z) (dump : list (string * Value_) → string) (writable : string → bool) :
    option Printed :=
  text ← summary now elapsed test_id sla_passed_in metrics;
  m ← snapshot metrics;
  let p := print_json args dump writable
             (results_json args m test_id elapsed started_at sla_passed_in (requests_per_second now metrics) (error_rate metrics)) in
  Some (mkPrinted (text +:+ p_out p) (p_err p) (p_file p)).

End Summary.

(** ** Banners and progress *)

Section Text.
Context (t : Terminal).

(** [src/tools/main.cpp:683-688] run_direct *)
Definition direct_banner (args : CliArgs) (concurrency : Z) : string :=
  wrap t "volley Load Tester (direct mode)" (bright_cyan t +:+ bold t) +:+ nl
  +:+ info_label t +:+ "Target:      " +:+ a_str "target" args +:+ nl
  +:+ info_label t +:+ "RPS:         " +:+ to_string (a_rps args) +:+ nl
  +:+ info_label t +:+ "Concurrency: " +:+ to_string concurrency +:+ nl
  +:+ info_label t +:+ "Duration:    " +:+ to_string (a_duration args) +:+ "s" +:+ nl
  +:+ rule +:+ nl.

(** [src/tools/main.cpp:958-968] main *)
Definition scenario_banner (args : CliArgs) (cfg : ScenarioConfig) : string :=
  wrap t "volley Load Tester (scenario mode)" (bright_cyan t +:+ bold t) +:+ nl
  +:+ info_label t +:+ "Test ID:  " +:+ test_id cfg +:+ nl
  +:+ info_label t +:+ "Target:   " +:+ base_url (target cfg) +:+ nl
  +:+ info_label t +:+ "CLI RPS:  " +:+ to_string (a_rps args) +:+ nl
  +:+ info_label t +:+ "Duration: " +:+ to_string (a_duration args) +:+ "s" +:+ nl
  +:+ rule +:+ nl
  +:+ (if tls_verify (target cfg) then ""
       else warn_label t +:+ "TLS certificate verification is DISABLED (target.tls.verify=false)" +:+ nl).

(** What is said of the Vault server, [None] without one; the client is used for nothing
    else. *)
(** [src/tools/main.cpp:923-934] main *)
Definition vault_notice (args : CliArgs) (is_connected : string → string → bool) : option string :=
  let addr := a_str "vault_addr" args in
  if is_empty addr then None
  else Some (if is_connected addr (a_str "vault_token" args)
             then ok_label t +:+ "Vault connected: " +:+ addr +:+ nl
             else warn_label t +:+ "Vault not available" +:+ nl).

(** The exporter's address, and what is said of it; [start]: whether it could listen, and
    its endpoint. *)
(** [src/tools/main.cpp:978-988] main *)
Definition prometheus_notice (cfg : ScenarioConfig) (start : string → option string) : string :=
  let bind_address := "127.0.0.1:" +:+ to_string (prometheus_port (observability cfg)) in
  if prometheus_enabled (observability cfg) then
    match start bind_address with
    | Some endpoint => ok_label t +:+ "Prometheus exporter: " +:+ endpoint +:+ nl
    | None => warn_label t +:+ "Prometheus exporter: failed to start" +:+ nl
    end
  else "".

(** The part the two progress lines share, after the name of the stage. *)
Definition progress_text (el p99 : Z) (rps err : double) : string :=
  " elapsed=" +:+ to_string el +:+ "s RPS=" +:+ ostream_fixed 1 rps +:+ " err=" +:+ ostream_fixed 3 err
  +:+ "% p99=" +:+ to_string p99 +:+ "us]".

(** A line that replaces the one before on a terminal, and one of its own elsewhere. *)
(** [src/tools/main.cpp:730-735] run_direct *)
Definition show_line (show_live : bool) (text : string) : string :=
  if show_live then String "013" (String esc "[K") +:+ wrap t text (blue t) else info_label t +:+ text +:+ nl.

(** [src/tools/main.cpp:720-735] run_direct *)
Definition direct_progress `{NthElement} (show_live : bool) (now el : Z) (metrics : MetricsCollector) : option string :=
  snap ← snapshot metrics;
  Some (show_line show_live
    ("[direct" +:+ progress_text el (m_p99_latency_us snap) (requests_per_second now metrics) (error_rate metrics))).

(** [src/tools/main.cpp:1011-1044] main *)
Definition scenario_progress `{NthElement} (show_live : bool) (sts : list Stage) (now el : Z)
    (metrics : MetricsCollector) : option string :=
  snap ← snapshot metrics;
  let '(stage_idx, stage_name) := progress_stage el sts in
  let total := match sts with [] => 1 | _ => Z.of_nat (List.length sts) end in
  Some (show_line show_live
    ("[" +:+ stage_name +:+ " " +:+ to_string (Z.of_nat stage_idx + 1) +:+ "/" +:+ to_string total
     +:+ progress_text el (m_p99_latency_us snap) (requests_per_second now metrics) (error_rate metrics))).

(** The line of a request with [--verbose]: the message of its error, or its status and
    latency. *)
(** [src/tools/main.cpp:804-814] run_direct *)
Definition direct_verbose (ec_message : option string) (code latency_us : Z) : string :=
  match ec_message with
  | Some msg => error_label t +:+ safe_log msg +:+ nl
  | None => wrap t (to_string code +:+ " " +:+ to_string latency_us +:+ "us") (if 400 <=? code then red t else cyan t) +:+ nl
  end.

(** [src/tools/main.cpp:1067-1074] main *)
Definition scenario_verbose (step : HttpStep) (status latency_us : Z) : string :=
  wrap t (step_method step +:+ " " +:+ step_path step +:+ " -> " +:+ to_string status +:+ " " +:+ to_string latency_us +:+ "us")
    (if 400 <=? status then red t else cyan t) +:+ nl.

(** [src/tools/main.cpp:205-253] print_help *)
Definition print_help (prog : string) : string :=
    wrap t "volley" (bright_cyan t +:+ bold t) +:+ nl
    +:+ wrap t "High-performance HTTP/TCP/WS load tester (C++20)" (cyan t) +:+ nl +:+ nl
    +:+ wrap t "Usage:" (bold t) +:+ " " +:+ prog +:+ " [options]" +:+ nl +:+ nl
    +:+ wrap t "Required (one of):" (bold t) +:+ nl
    +:+ "  -c, --config=FILE             " +:+ wrap t "YAML scenario path" (yellow t) +:+ nl
    +:+ "  -t, --target=URL              " +:+ wrap t "Direct target (e.g. http://host:8080/path)" (yellow t) +:+ nl +:+ nl
    +:+ wrap t "Load configuration:" (bold t) +:+ nl
    +:+ "  -r, --rps=N                   " +:+ wrap t "Target requests per second [1,1000000] (default 100)" (yellow t) +:+ nl
    +:+ "  -d, --duration=N              " +:+ wrap t "Duration seconds [0,315360000]; 0=unlimited (default 60)" (yellow t) +:+ nl
    +:+ "      --max-body=SIZE[k|m|g]    " +:+ wrap t "Cap response body bytes (default 100M)" (yellow t) +:+ nl
    +:+ "      --no-progress             " +:+ wrap t "Disable live progress output" (yellow t) +:+ nl +:+ nl
    +:+ wrap t "Authentication:" (bold t) +:+ nl
    +:+ "      --auth-type=TYPE          " +:+ wrap t "none | bearer | apikey | oauth2" (yellow t) +:+ nl
    +:+ "      --auth-token=TOKEN        " +:+ wrap t "Bearer token or API key value" (yellow t) +:+ nl
    +:+ "      --client-id=ID            " +:+ wrap t "OAuth2 client ID" (yellow t) +:+ nl
    +:+ "      --client-secret=SECRET    " +:+ wrap t "OAuth2 client secret (masked in logs)" (yellow t) +:+ nl
    +:+ "      --token-endpoint=URL      " +:+ wrap t "OAuth2 token endpoint URL" (yellow t) +:+ nl +:+ nl
    +:+ wrap t "Secrets & Observability:" (bold t) +:+ nl
    +:+ "      --vault-addr=URL          " +:+ wrap t "HashiCorp Vault server address" (yellow t) +:+ nl
    +:+ "      --vault-token=TOKEN       " +:+ wrap t "Vault access token" (yellow t) +:+ nl
    +:+ "      --otlp-endpoint=URL       " +:+ wrap t "OpenTelemetry OTLP traces endpoint" (yellow t) +:+ nl +:+ nl
    +:+ wrap t "Output & validation:" (bold t) +:+ nl
    +:+ "      --json=PATH               " +:+ wrap t "Write results as JSON (use '-' for stdout)" (yellow t) +:+ nl
    +:+ "      --dry-run                 " +:+ wrap t "Validate config only, do not send requests" (yellow t) +:+ nl
    +:+ "      --validate-config         " +:+ wrap t "Alias for --dry-run" (yellow t) +:+ nl
    +:+ "      --log-level=LEVEL         " +:+ wrap t "trace|debug|info|warn|error (default info)" (yellow t) +:+ nl
    +:+ "      --verbose                 " +:+ wrap t "Alias for --log-level=debug + per-request output" (yellow t) +:+ nl
    +:+ "  -h, --help                    " +:+ wrap t "Show this help and exit" (yellow t) +:+ nl
    +:+ "  -v, --version                 " +:+ wrap t "Show version and exit" (yellow t) +:+ nl +:+ nl
    +:+ wrap t "Scenario templates:" (bold t) +:+ nl
    +:+ "      --init=PRESET             " +:+ wrap t "Generate YAML template: minimal|ecommerce|auth|spike" (yellow t) +:+ nl
    +:+ "  -o, --output=PATH             " +:+ wrap t "Write template to PATH (default volley-scenario.yaml)" (yellow t) +:+ nl +:+ nl
    +:+ wrap t "Exit codes:" (bold t) +:+ nl
    +:+ "   0  " +:+ wrap t "OK" (green t +:+ bold t) +:+ " — test ran, SLA passed" +:+ nl
    +:+ "   1  " +:+ wrap t "USAGE/CONFIG" (bright_red t +:+ bold t) +:+ " — invalid CLI args or config schema" +:+ nl
    +:+ "   2  " +:+ wrap t "SLA FAIL" (bright_yellow t +:+ bold t) +:+ " — test completed, SLA thresholds violated" +:+ nl
    +:+ "   3  " +:+ wrap t "RUNTIME ERR" (bright_red t +:+ bold t) +:+ " — worker/runtime failure, test aborted" +:+ nl +:+ nl
    +:+ wrap t "Environment variables:" (bold t) +:+ nl
    +:+ "  NO_COLOR=1                    " +:+ wrap t "Disable ANSI colors (e.g. non-TTY, CI logs)" (yellow t) +:+ nl +:+ nl
    +:+ wrap t "Examples:" (bold t) +:+ nl
    +:+ "  " +:+ prog +:+ " --config=scenarios/ecommerce/load-test.yaml --rps=500 --duration=120" +:+ nl
    +:+ "  " +:+ prog +:+ " --target=http://localhost:8080/health --rps=1000 --duration=60 --json=results.json" +:+ nl
    +:+ "  " +:+ prog +:+ " --dry-run --config=my-test.yaml" +:+ nl
    +:+ "  " +:+ prog +:+ " --init=ecommerce -o load.yaml && " +:+ prog +:+ " --validate-config --config=load.yaml" +:+ nl
    +:+ "  TARGET_URL=http://127.0.0.1:8080 " +:+ prog +:+ " --config=scenarios/smoke/load-test.yaml --rps=200 -d 10" +:+ nl.

End Text.

(** ** The watchers *)

(** The interval between two progress lines, in nanoseconds. *)
(** [src/tools/main.cpp:712-714] run_direct *)
Definition progress_interval (show_live : bool) : Z := if show_live then 250000000 else 5000000000.

(** [if (now - last >= interval) { last = now; ... }] in the loop of a watcher thread: the
    clock readings of its rounds at which it acts. *)
(** [src/tools/main.cpp:715-737] run_direct *)
Fixpoint watch (interval last : Z) (ticks : list Z) : list Z :=
  match ticks with
  | [] => []
  | now :: ticks => if interval <=? now - last then now :: watch interval now ticks else watch interval last ticks
  end.

(** What the watcher of a direct run prints; [first] is the clock when the thread starts,
    [ticks] its rounds until the flag or the end of the run stops it, [metrics] the state of
    the collector at each. *)
(** [src/tools/main.cpp:710-739] run_direct *)
Definition direct_watcher `{NthElement} (t : Terminal) (no_progress : bool) (test_start first : Z) (ticks : list Z)
    (metrics : Z → MetricsCollector) : option string :=
  let show_progress := negb no_progress && stdout_is_tty t in
  lines ← mapM (λ now, direct_progress t show_progress now ((now - test_start) `quot` 1000000000) (metrics now))
            (watch (progress_interval show_progress) first ticks);
  Some (String.concat "" lines +:+ if show_progress then nl else "").

(** The watcher of a scenario run has two timers; it also tells the engine to stop when
    the flag is up.  The result is what it prints and when it updates the exporter. *)
(** [src/tools/main.cpp:993-1049] main *)
Definition scenario_watcher `{NthElement} (t : Terminal) (no_progress prometheus_running : bool) (sts : list Stage)
    (first started : Z) (ticks : list Z) (metrics : Z → MetricsCollector) : option (string * list Z) :=
  let show_live := negb no_progress && stdout_is_tty t in
  lines ← mapM (λ now, scenario_progress t show_live sts now ((now - started) `quot` 1000000000) (metrics now))
            (watch (progress_interval show_live) first ticks);
  Some (String.concat "" lines +:+ (if show_live then nl else ""),
        if prometheus_running then watch 1000000000 first ticks else []).

(** Two actions of a watcher are at least an interval apart. *)
Lemma watch_spaced interval last ticks :
  0 < interval → ∀ i a b, (last :: watch interval last ticks) !! i = Some a → watch interval last ticks !! i = Some b →
  a + interval ≤ b.
Proof.
  intros Hi. revert last. induction ticks as [|now ticks IH]; intros last i a b Ha Hb; [done|]. cbn [watch] in *.
  destruct (Z.leb_spec interval (now - last)); [|by eapply IH].
  destruct i as [|i]; cbn in Ha, Hb; [simplify_eq; lia|]. by eapply IH.
Qed.

(** ** Reading the summary back *)

Fixpoint drop_spaces (s : string) : string :=
  match s with String " " s' => drop_spaces s' | _ => s end.

(** A row as a reader takes it: two spaces, a label, a colon, spaces, a value. *)
Fixpoint split_label (s : string) : option (string * string) :=
  match s with
  | "" => None
  | String c s =>
      if Ascii.eqb c ":" then Some ("", s)
      else '(k, v) ← split_label s; Some (String c k, v)
  end.

Definition read_row (l : string) : option (string * string) :=
  match l with
  | String " " (String " " r) => '(k, v) ← split_label r; Some (k, drop_spaces v)
  | _ => None
  end.

Definition read_rows (text : string) : list (string * string) := omap read_row (lines_of text).

(** A value that can be read back: one line, no escape sequence, no blank in front. *)
Definition readable (v : string) : bool :=
  lacks newline v && lacks esc v && match v with String " " _ => false | _ => true end.

Lemma split_label_colon k v : lacks ":" k = true → split_label (k +:+ String ":" v) = Some (k, v).
Proof.
  induction k as [|c k IH]; [done|]. unfold lacks. cbn [sforall]. intros [Hc Hk]%andb_prop. apply negb_true_iff in Hc.
  cbn in IH |- *. by rewrite Hc, IH.
Qed.

Lemma spaces_S n : spaces (S n) = " " +:+ spaces n.
Proof. unfold spaces. cbn [replicate]. by destruct n. Qed.

Lemma drop_spaces_spaces n v : readable v = true → drop_spaces (spaces n +:+ v) = v.
Proof.
  intros [_ Hv]%andb_prop. induction n as [|n IH]; [|by rewrite spaces_S; cbn].
  cbn. destruct v as [|[[] [] [] [] [] [] [] []] v]; done.
Qed.

Lemma spaces_lacks c n : Ascii.eqb " " c = false → lacks c (spaces n) = true.
Proof.
  intros Hc. induction n as [|n IH]; [done|]. rewrite spaces_S, lacks_app, IH. unfold lacks. cbn [sforall]. by rewrite Hc.
Qed.

Lemma readable_lines v : readable v = true → lacks newline v = true ∧ lacks esc v = true.
Proof. unfold readable. by intros [[? ?]%andb_prop _]%andb_prop. Qed.

(** A row of the table as it is seen, and read. *)
Definition row_text (k v : string) : string :=
  "  " +:+ k +:+ ":" +:+ spaces (Z.to_nat (Z.max 1 (20 - Z.of_nat (String.length k)))) +:+ v.

Lemma read_row_text k v : lacks ":" k = true → readable v = true → read_row (row_text k v) = Some (k, v).
Proof. intros Hk Hv. unfold row_text, read_row. cbn [String.append]. rewrite split_label_colon by done. cbn. by rewrite drop_spaces_spaces. Qed.

Lemma shows_row t sla k v b :
  lacks esc k = true → readable v = true →
  shows (report_line t (ansi t (if (sla : bool) then FgGreen else FgBrightRed)) k v b) (line (row_text k v)).
Proof.
  intros Hk [Hn He]%readable_lines. unfold report_line, line, row_text, nl. rewrite !sapp_assoc.
  apply shows_app; [by apply shows_lacks|]. rewrite <-(sapp_assoc k ":"). apply shows_app.
  { apply shows_wrap1, shows_lacks. by rewrite lacks_app, Hk. }
  apply shows_app; [by apply shows_lacks, spaces_lacks|]. apply shows_app; [|by apply shows_lacks].
  destruct b; [apply shows_wrap1|]; by apply shows_lacks.
Qed.

(** Rows that can be read back. *)
Definition good_row (r : string * string * bool) : Prop :=
  lacks ":" r.1.1 = true ∧ lacks esc r.1.1 = true ∧ lacks newline r.1.1 = true ∧ readable r.1.2 = true.

Lemma shows_table t sla rows :
  Forall good_row rows →
  shows (report_table t (ansi t (if (sla : bool) then FgGreen else FgBrightRed)) rows)
    (foldr (λ r s, line (row_text r.1.1 r.1.2) +:+ s) "" rows).
Proof.
  induction 1 as [|[[k v] b] rows (_ & Hk & _ & Hv) _ IH]; [done|]. cbn [report_table foldr fst snd].
  apply shows_app; [by apply shows_row|done].
Qed.

Lemma lines_of_table rows u :
  Forall good_row rows →
  omap read_row (lines_of (foldr (λ r s, line (row_text r.1.1 r.1.2) +:+ s) "" rows +:+ u))
  = rows.*1 ++ omap read_row (lines_of u).
Proof.
  induction 1 as [|[[k v] b] rows (Hc & _ & Hk & Hv) _ IH]; [done|]. cbn [foldr fst snd] in *.
  rewrite sapp_assoc, lines_of_line.
  - rewrite fmap_cons. cbn [omap list_omap fst]. rewrite read_row_text by done. cbn [app]. f_equal. exact IH.
  - unfold row_text. destruct (readable_lines v Hv) as [Hn _]. by rewrite !lacks_app, Hk, Hn, spaces_lacks.
Qed.

Lemma readable_number s u :
  (∀ c, number_char c = false → lacks c s = true) → s ≠ "" → lacks newline u = true → lacks esc u = true →
  readable (s +:+ u) = true.
Proof.
  intros Hs Hne Hn He. unfold readable. rewrite !lacks_app, Hn, He, !Hs by done.
  pose proof (Hs " "%char eq_refl) as Hb. destruct s as [|c s]; [done|]. unfold lacks in Hb. cbn [sforall] in Hb.
  apply andb_prop in Hb as [Hc _]. cbn [String.append andb]. by destruct c as [[] [] [] [] [] [] [] []].
Qed.

Lemma readable_to_string n u : lacks newline u = true → lacks esc u = true → readable (to_string n +:+ u) = true.
Proof. intros. apply readable_number; [intros; by apply to_string_lacks|apply to_string_ne|done|done]. Qed.

Lemma readable_ostream p x u : lacks newline u = true → lacks esc u = true → readable (ostream_prec p x +:+ u) = true.
Proof. intros. apply readable_number; [intros; by apply ostream_prec_lacks|apply ostream_prec_ne|done|done]. Qed.

Lemma readable_int n : readable (to_string n) = true.
Proof. rewrite <-(sapp_nil_r (to_string n)). by apply readable_to_string. Qed.

Lemma report_rows_good m elapsed test_id rps err mean p50 :
  readable test_id = true → Forall good_row (report_rows m elapsed test_id rps err mean p50).
Proof.
  intros Hid. unfold report_rows. repeat constructor; cbn [fst snd];
    first [done|by apply readable_to_string|by apply readable_ostream|by apply readable_int].
Qed.

(** What is seen of the summary, and what is read in it. *)
Lemma summary_rows t (sla : bool) rows :
  Forall good_row rows →
  read_rows (visible (nl +:+ wrap t "volley — Load Results" (bright_cyan t +:+ bold t) +:+ nl +:+ rule +:+ nl
    +:+ report_table t (ansi t (if sla then FgGreen else FgBrightRed)) rows
    +:+ rule +:+ nl +:+ "  " +:+ wrap t "SLA:" (bold t) +:+ spaces 21
    +:+ (if sla then sla_pass_label t else sla_fail_label t) +:+ nl +:+ nl))
  = rows.*1 ++ [("SLA", if sla then "SLA PASSED" else "SLA FAILED")].
Proof.
  intros Hrows. set (table := foldr (λ r s, line (row_text r.1.1 r.1.2) +:+ s) "" rows).
  rewrite (shows_visible _ (line "" +:+ line "volley — Load Results" +:+ line rule +:+ table +:+ line rule
    +:+ line ("  SLA:" +:+ spaces 21 +:+ if sla then "SLA PASSED" else "SLA FAILED") +:+ line "")).
  - unfold read_rows. do 3 (rewrite lines_of_line by done; cbn [omap list_omap read_row]).
    etransitivity; [by apply lines_of_table|]. f_equal. by destruct sla.
  - unfold line. rewrite !sapp_assoc. fold nl. rewrite (sapp_assoc "  " "SLA:"). change ("" +:+ ?s) with s.
    repeat first [by apply shows_table | apply shows_wrap1 | apply shows_wrap2 | by apply shows_lacks | apply shows_app].
    destruct sla; apply shows_wrap2; by apply shows_lacks.
Qed.

Lemma percentile_defined `{NthElement} c os p :
  collector_rep c os → tail_ (latency_ring c) < 2 ^ 64 → dleb (Fin 0) p = true → dleb p (Fin one_k) = true →
  ∃ v, percentile p c = Some v.
Proof.
  intros Hr Ht H0 H1. pose proof snapshot_val. pose proof capacity_val.
  pose proof (collect_rep _ _ (crep_ring _ _ Hr) Ht) as Hc. rewrite keep_last_keep_last in Hc by lia.
  destruct (collect_ring_samples (latency_ring c)) as [|x l] eqn:E.
  - exists 0. unfold percentile. rewrite E. by destruct (_ || _).
  - destruct (percentile_order_stat p c (x :: l) E) as (idx & v & _ & _ & Hp); [done| |done..|by eauto].
    rewrite Hc, length_keep_last by lia. lia.
Qed.

(** The summary of a run can be read back whatever the terminal: with the colour codes
    taken out, the rows of the table give the test's name, the numbers of requests,
    successes and failures exactly as they were recorded, the rates and latencies of the
    collector in that order, and the verdict; the text is always produced. *)
Theorem summary_reads_back `{NthElement} (t : Terminal) (os : list Obs) (t0 now elapsed : Z) (id : string) (sla : bool)
    (c : MetricsCollector) :
  record_all os (make_collector t0) = Some c → Z.of_nat (List.length os) < 2 ^ 64 →
  (∀ o, o ∈ os → 0 ≤ o_latency o) → zsum o_latency os ≤ 2 ^ 63 → readable id = true →
  ∃ text m mean p50,
    summary t (ansi t (if sla then FgGreen else FgBrightRed)) now elapsed id sla c = Some text
    ∧ snapshot c = Some m ∧ d_to_u64 (m_mean_latency_us m) = Some mean ∧ percentile (d_lit 1 2) c = Some p50
    ∧ read_rows (visible text) =
        [("Test ID", id); ("Elapsed", to_string elapsed +:+ " s");
         ("Total requests", to_string (Z.of_nat (List.length os))); ("Successful", to_string (successes os));
         ("Failed", to_string (Z.of_nat (List.length os) - successes os));
         ("Error rate", ostream_prec 3 (error_rate c) +:+ "%");
         ("Actual RPS", ostream_prec 1 (requests_per_second now c) +:+ " req/s");
         ("Mean latency", to_string mean +:+ " us"); ("P50 latency", to_string p50 +:+ " us");
         ("P95 latency", to_string (m_p95_latency_us m) +:+ " us");
         ("P99 latency", to_string (m_p99_latency_us m) +:+ " us");
         ("SLA", if sla then "SLA PASSED" else "SLA FAILED")].
Proof.
  intros Hc Hn Hlat Hsum Hid. pose proof (zsum_nonneg o_latency os Hlat) as Hnn.
  destruct (record_all_rep os _ [] (make_collector_rep t0)) as (c' & Hc' & Hr & Ht); [simpl; lia..|].
  rewrite Hc in Hc'. injection Hc' as <-. simpl in Hr, Ht.
  destruct (snapshot_rep c os Hr ltac:(lia)) as (m & Hm & E1 & E2 & E3 & _).
  assert (Hmean : ∃ mean, d_to_u64 (m_mean_latency_us m) = Some mean).
  { assert (m_mean_latency_us m = if 0 <? total_requests_ c then ddiv (d_of_Z (cumulative_latency_us_ c)) (d_of_Z (total_requests_ c)) else Fin 0) as ->.
    { unfold snapshot in Hm. destruct (percentiles _) as [[p95 p99]|]; [|done]. cbn in Hm. by injection Hm as <-. }
    destruct (Z.ltb_spec 0 (total_requests_ c)) as [Hpos|]; [|by exists 0]. apply mean_defined.
    - rewrite (crep_latency _ _ Hr), wrap_small; lia.
    - rewrite (crep_total _ _ Hr) in *. lia. }
  destruct Hmean as [mean Hmean].
  destruct (percentile_defined c os (d_lit 1 2) Hr ltac:(lia)) as [p50 Hp50]; [by vm_compute..|].
  unfold summary. rewrite Hm. cbn [mbind option_bind]. rewrite Hmean. cbn [mbind option_bind]. rewrite Hp50. cbn [mbind option_bind].
  eexists _, m, mean, p50. split; [reflexivity|]. split; [done|]. split; [done|]. split; [done|].
  rewrite summary_rows by by apply report_rows_good. unfold report_rows. rewrite E1, E2, E3. done.
Qed.

Lemma summary_reads_back_witness :
  let os := [Collector.mkObs 200 1500 0 5; Collector.mkObs 503 2500 0 0] in
  let t := mkTerminal true None in
  ∃ c text rows, record_all os (make_collector 0) = Some c
    ∧ summary t (ansi t FgBrightRed) 1000000000 1 "direct" false c = Some text
    ∧ read_rows (visible text) = [("Test ID", "direct"); ("Elapsed", "1 s"); ("Total requests", "2"); ("Successful", "1"); ("Failed", "1")] ++ rows.
Proof.
  intros os t.
  destruct (record_all_rep os _ [] (make_collector_rep 0)) as (c & Hc & _); [simpl; lia..|].
  destruct (summary_reads_back t os 0 1000000000 1 "direct" false c Hc) as (text & m & mean & p50 & E & _ & _ & _ & R).
  - simpl. lia.
  - intros o Ho. repeat (apply elem_of_cons in Ho as [->|Ho]; [cbn; lia|]). by apply elem_of_nil in Ho.
  - simpl. lia.
  - reflexivity.
  - eexists c, text, _. split; [exact Hc|]. split; [exact E|]. rewrite R. reflexivity.
Defined.

(** ** The help and the options *)

(** The options a line of the help describes: the line begins with blanks and an option's
    name, or two names separated by a comma; an equals sign says that it takes a value. *)
Definition help_line (l : string) : list (string * bool) :=
  match List.filter (λ w, negb (is_empty w)) (words_of l) with
  | (String "-" _ as w) :: ws =>
      let long := if bool_decide (last_char w = Some ","%char) then default "" (head ws) else w in
      let (name, value) := split_arg long in
      let takes := bool_decide (is_Some value) in
      if (long =? w)%string then [(name, takes)] else [(drop_last 1 w, takes); (name, takes)]
  | _ => []
  end.

Definition help_options (text : string) : list (string * bool) := List.concat (map help_line (lines_of text)).

(** How [parse_args] takes a name: [None] if it does not know it, else whether it takes a
    value. *)
Definition parser_takes (key : string) : option bool :=
  if bool_decide (key ∈ ["--help"; "-h"; "--version"; "-v"]) then Some false
  else match option_action key with
       | Value _ => Some true
       | Flag f => if a_error (f default_args) then None else Some false
       end.

Definition documented : list (string * bool) := Eval vm_compute in help_options (visible (print_help plain "volley")).

Lemma help_options_documented t : help_options (visible (print_help t "volley")) = documented.
Proof.
  unfold print_help, wrap, bright_cyan, bright_red, bright_yellow, bold, cyan, yellow, green, Term.reset, ansi.
  destruct (use_color t); vm_compute; reflexivity.
Qed.

(** C26.  The help is complete and right: on every terminal, the options its lines describe are
    exactly the options the parser knows, short names and long ones, and a line shows an
    equals sign exactly where the parser takes a value. *)
Theorem help_documents_parser (t : Terminal) (key : string) (value : bool) :
  (key, value) ∈ help_options (visible (print_help t "volley")) ↔ parser_takes key = Some value.
Proof.
  rewrite help_options_documented. split.
  - intros Hin. assert (Hall : Forall (λ kv, parser_takes kv.1 = Some kv.2) documented)
      by (repeat constructor). rewrite Forall_forall in Hall. by apply (Hall (key, value)).
  - unfold parser_takes, option_action. intros H.
    assert (Hin : ∀ b, bool_decide ((key, b) ∈ documented) = true → (key, b) ∈ documented) by (intros b; apply bool_decide_eq_true_1).
    apply Hin. clear Hin. revert H. destruct (bool_decide (key ∈ _)) eqn:E.
    + apply bool_decide_eq_true in E. rewrite !elem_of_cons, elem_of_nil in E.
      intros [= <-]. destruct E as [->|[->|[->|[->|[]]]]]; reflexivity.
    + clear E. repeat match goal with
      | |- context [(key =? ?k)%string] => destruct (String.eqb_spec key k) as [->|?]; [intros [= <-]; reflexivity|]
      end. cbn. done.
Qed.
