(* ===== verification/Spans.v ===== *)
(** * The spans of the command line tool

    [tools/main.cpp]: the calls [run_direct] and the scenario callback make on the tracer
    ([Otlp]) for every response, and the span around the whole run.  The workers of a run
    share one tracer and call it from their own threads. *)

From S2P Require Import Prelude CppString Double Constants Config Otlp CliArgs CliMain.

Local Open Scope Z_scope.

(** The calls on a tracer, each with the readings of the clock, the identifier and the
    random number it draws. *)
Inductive Call :=
  | StartSpan (name : string) (now_end now_start : Z) (span_id : string) (draw : double)
  | AddAttribute (key value : string)
  | EndSpan (now : Z) (draw : double).

Definition call (t : Tracer) (c : Call) : Tracer :=
  match c with
  | StartSpan name e b id draw => start_span name e b id draw t
  | AddAttribute k v => add_attribute k v t
  | EndSpan now draw => end_span now draw t
  end.

Definition calls (cs : list Call) (t : Tracer) : Tracer := foldl call t cs.

(** The tracer's configuration: only the endpoint is set, and only from the command line. *)
(** [src/tools/main.cpp:936-938] main *)
Definition trace_config (args : CliArgs) : TraceConfig :=
  mkTraceConfig (a_str "otlp_endpoint" args) (d_of_Z 1) "volley" "1.1.0".

Section Requests.
Context (now_end now_start now : Z) (span_id : string) (draw draw' : double).

(** The calls of one response. *)
Definition response_calls (method path : string) (status latency_us : Z) : list Call :=
  [StartSpan (method +:+ " " +:+ path) now_end now_start span_id draw;
   AddAttribute "http.method" method; AddAttribute "http.url" path;
   AddAttribute "http.status_code" (to_string status);
   AddAttribute "http.latency_us" (to_string latency_us);
   EndSpan now draw'].

(** [src/tools/main.cpp:815-820] run_direct *)
Definition direct_calls (path : string) (status latency_us : Z) : list Call :=
  response_calls "GET" path status latency_us.

(** [src/tools/main.cpp:1061-1066] main *)
Definition scenario_calls (step : HttpStep) (status latency_us : Z) : list Call :=
  response_calls (step_method step) (step_path step) status latency_us.

(** The span around a run, before the workers start. *)
(** [src/tools/main.cpp:699-703] run_direct *)
Definition direct_run_calls (args : CliArgs) (concurrency : Z) : list Call :=
  [StartSpan "load_test" now_end now_start span_id draw;
   AddAttribute "target" (a_str "target" args); AddAttribute "target_rps" (to_string (a_rps args));
   AddAttribute "duration_s" (to_string (a_duration args)); AddAttribute "concurrency" (to_string concurrency)].

(** [src/tools/main.cpp:970-974] main *)
Definition scenario_run_calls (args : CliArgs) (cfg : ScenarioConfig) : list Call :=
  [StartSpan "load_test" now_end now_start span_id draw;
   AddAttribute "test_id" (test_id cfg); AddAttribute "target" (base_url (target cfg));
   AddAttribute "target_rps" (to_string (a_rps args)); AddAttribute "duration_s" (to_string (a_duration args))].

End Requests.

(** ** One response, one span *)

#[local] Opaque kOtlpMaxBufferedSpans.

Lemma enqueue_room s t :
  (List.length (completed_spans_ t) < kOtlpMaxBufferedSpans)%nat → (enqueue s t).1 = with_queue (completed_spans_ t ++ [s]) t.
Proof.
  intros H. unfold enqueue. rewrite length_app. cbn [List.length].
  by replace (kOtlpMaxBufferedSpans <? _)%nat with false by (symmetry; apply Nat.ltb_ge; lia).
Qed.

Definition service_attributes (c : TraceConfig) : gmap string string :=
  <["service.version" := service_version c]> (<["service.name" := service_name c]> ∅).

(** A tracer between responses: no span under way, nothing left over. *)
Definition idle (t : Tracer) : Prop := span_active_ t = false ∧ attributes_ t = ∅ ∧ sample_rate (config_ t) = d_of_Z 1.

Lemma dltb_one : dltb (d_of_Z 1) (d_of_Z 1) = false.
Proof. vm_compute. reflexivity. Qed.

(** Starting and ending a span when every span is kept and the queue has room. *)
Definition started (name : string) (now_start : Z) (span_id last : string) (attrs : gmap string string) (t : Tracer) : Tracer :=
  mkTracer (config_ t) name
    (<["service.version" := service_version (config_ t)]> (<["service.name" := service_name (config_ t)]> attrs))
    true (trace_id_ t) span_id last last now_start (completed_spans_ t) (stop_ t)
    (endpoint_host_ t) (endpoint_port_ t) (endpoint_target_ t).

Definition ended (t : Tracer) : Tracer :=
  mkTracer (config_ t) (span_name_ t) ∅ false (trace_id_ t) (current_span_id_ t)
    (parent_span_id_ t) (current_span_id_ t) (span_start_ t) (completed_spans_ t) (stop_ t)
    (endpoint_host_ t) (endpoint_port_ t) (endpoint_target_ t).

Lemma start_idle name e b id draw t :
  span_active_ t = false → start_span name e b id draw t = started name b id (last_span_id_ t) (attributes_ t) t.
Proof. intros Ha. unfold start_span, start_span_locked. by rewrite Ha. Qed.

Lemma start_active name e b id draw t :
  span_active_ t = true → sample_rate (config_ t) = d_of_Z 1 →
  (List.length (completed_spans_ t) < kOtlpMaxBufferedSpans)%nat →
  start_span name e b id draw t
  = with_queue (completed_spans_ t ++ [finished_span t e]) (started name b id (current_span_id_ t) ∅ t).
Proof.
  intros Ha Hr Hroom. unfold start_span, start_span_locked. rewrite Ha, Hr.
  replace (dgeb (d_of_Z 1) (d_of_Z 1)) with true by (vm_compute; reflexivity). cbn [andb orb].
  by rewrite enqueue_room.
Qed.

Lemma end_active now draw t :
  span_active_ t = true → sample_rate (config_ t) = d_of_Z 1 →
  (List.length (completed_spans_ t) < kOtlpMaxBufferedSpans)%nat →
  end_span now draw t = with_queue (completed_spans_ t ++ [finished_span t now]) (ended t).
Proof.
  intros Ha Hr Hroom. unfold end_span, end_span_locked, end_span_kept. rewrite Ha. cbn [negb config_].
  rewrite Hr, dltb_one. cbn [andb negb]. by rewrite enqueue_room.
Qed.

Lemma end_idle now draw t : span_active_ t = false → end_span now draw t = t.
Proof. intros Ha. unfold end_span, end_span_locked. by rewrite Ha. Qed.

(** The fields of a tracer after calls. *)
Ltac fields := cbn [with_queue started ended add_attribute finished_span completed_spans_ span_name_ trace_id_ current_span_id_
  parent_span_id_ last_span_id_ span_start_ attributes_ config_ span_active_].

(** The calls of a response that no other thread interrupts queue one span, with the
    name, the times and the attributes of that response and the service's, and leave the
    tracer idle. *)
Theorem response_span_recorded t e b id draw now draw' method path status latency_us :
  idle t → (List.length (completed_spans_ t) < kOtlpMaxBufferedSpans)%nat →
  let t' := calls (response_calls e b now id draw draw' method path status latency_us) t in
  idle t'
  ∧ completed_spans_ t' = completed_spans_ t ++
      [mkSpan (method +:+ " " +:+ path) (trace_id_ t) id (last_span_id_ t) b now
         (<["http.latency_us" := to_string latency_us]> (<["http.status_code" := to_string status]>
           (<["http.url" := path]> (<["http.method" := method]> (service_attributes (config_ t))))))].
Proof.
  intros (Ha & Hattr & Hr) Hroom. cbv zeta. unfold calls, response_calls. cbn [foldl call].
  rewrite start_idle by exact Ha. rewrite end_active; [|reflexivity|exact Hr|exact Hroom]. split.
  - unfold idle. fields. split; [reflexivity|]. split; [reflexivity|exact Hr].
  - fields. by rewrite Hattr.
Qed.

(** Two responses handled at once: the calls of one worker fall between those of another.
    The first span ends without its attributes, the second span carries the method, the
    address and the numbers of the first response, and those of the second response stay
    behind for whatever span starts next. *)
Theorem response_spans_mix t e1 b1 id1 now1 e2 b2 id2 now2 draw p1 p2 s1 s2 l1 l2 :
  idle t → (S (List.length (completed_spans_ t)) < kOtlpMaxBufferedSpans)%nat →
  let first := direct_calls e1 b1 now1 id1 draw draw p1 s1 l1 in
  let second := direct_calls e2 b2 now2 id2 draw draw p2 s2 l2 in
  let t' := calls (take 1 first ++ take 1 second ++ drop 1 first ++ drop 1 second) t in
  completed_spans_ t' = completed_spans_ t ++
    [mkSpan ("GET " +:+ p1) (trace_id_ t) id1 (last_span_id_ t) b1 e2 (service_attributes (config_ t));
     mkSpan ("GET " +:+ p2) (trace_id_ t) id2 id1 b2 now1
       (<["http.latency_us" := to_string l1]> (<["http.status_code" := to_string s1]>
         (<["http.url" := p1]> (<["http.method" := "GET"]> (service_attributes (config_ t))))))]
  ∧ span_active_ t' = false ∧ attributes_ t' !! "http.url" = Some p2.
Proof.
  intros (Ha & Hattr & Hr) Hroom. cbv zeta. unfold calls, direct_calls, response_calls. cbn [take drop app foldl call].
  rewrite (start_idle _ e1) by exact Ha. rewrite (start_active _ e2); [|reflexivity|exact Hr|fields; lia].
  rewrite (end_active now1); [|reflexivity|exact Hr|fields; rewrite length_app; cbn [List.length]; lia].
  rewrite end_idle by reflexivity. fields. rewrite Hattr, <-(assoc_L (++)).
  split; [reflexivity|]. split; [reflexivity|].
  by rewrite lookup_insert_ne, lookup_insert_ne, lookup_insert_eq.
Qed.
