(* ===== verification/GrpcLoad.v ===== *)
(** * The load loop of a gRPC task

    [workers/grpc_worker/main.cpp], [run_load_test]: one HTTP/1.1 client ([HttpClient] on
    the loop of [Async]) on an [io_context] of its own.  A round starts a request whose
    handler writes to the round's local variable [done], runs at most one callback of the
    context and takes a token; after the loop the context is run until nothing is
    outstanding.

    Two rules of the language and of Asio decide what this does.  A local variable lives
    until its block is left: a handler that runs later writes to an object that is gone,
    which is undefined behaviour ([LoadUndefined]).  A context that has run out of work is
    stopped, and [run_one] of a stopped context returns at once, until [restart].  (Beast
    gives the context callbacks of its own, for timers and parts of an operation; they run
    no code of the program and only make a request take more turns than here.) *)

From S2P Require Import Prelude CppString Result Url Double TokenBucket Ring Collector Async Tls Protocol HttpClient Slots CliMain Direct Workers.
Import GrpcWorker.

Local Open Scope Z_scope.

(** The calls that complete without the context. *)
Definition synchronous (o : Op) : bool :=
  match o with
  | SetTlsHostName _ _ | SetVerifyCallback _ _ | SetNonBlocking _ | PeekByte _ => true
  | _ => false
  end.

(** A reading of the loop's condition: the flag, the clock, and the clock when the request
    starts. *)
Record Reading := mkReading { rd_running : bool; rd_clock : Z; rd_start : Z }.

(** How [run_load_test] ends: with an exception, by doing what has no defined meaning, or
    by returning. *)
Inductive LoadOutcome := LoadThrew | LoadUndefined | LoadReturned (c : Counters).

Section Load.
Context (known_verb : string → bool).

Abbreviation Loop := (Sys Request Client Response).

(** The client on its context, the counters of the process, and whether the context is
    stopped. *)
Record Load := mkLoad { l_loop : Loop; l_counters : Counters; l_stopped : bool }.

(** The replies, and which of the operations outstanding completes next. *)
Context (env : list (nat * Async.Event) → ∀ o, reply o) (pick : Loop → nat).

(** A callback goes on until it waits for the context again. *)
Fixpoint settle (fuel : nat) (i : nat) (l : Loop) : Loop :=
  match fuel, sys_reqs l !! i with
  | S n, Some (_, Await o _) => if synchronous o then settle n i (run_one env i l) else l
  | _, _ => l
  end.

Definition is_pending (rp : Request * Proc Client Response) : bool :=
  match rp.2 with Await _ _ => true | _ => false end.

Definition pending_at (i : nat) (l : Loop) : bool := from_option is_pending false (sys_reqs l !! i).

(** The request whose operation completes: the scheduler's choice if it has one
    outstanding, else the first that has. *)
Definition chosen (l : Loop) : option nat :=
  if pending_at (pick l) l then Some (pick l) else fst <$> list_find is_pending (sys_reqs l).

(** The end of request [i] if it has one now.  [frame] is the request of the round under
    way, whose [done] exists. *)
(** [src/workers/grpc_worker/main.cpp:154-169] run_load_test *)
Definition handled (frame : option nat) (i : nat) (l : Loop) (c : Counters) (stopped : bool) : option Load :=
  match sys_reqs l !! i with
  | Some (_, Handler r) =>
      if decide (frame = Some i) then Some (mkLoad l (on_response (ec r) (status_code r) c) stopped) else None
  | _ => Some (mkLoad l c stopped)
  end.

(** One callback; the context is stopped if it was the last. *)
Definition callback (frame : option nat) (i : nat) (g : Load) : option Load :=
  let l := settle 11 i (run_one env i (l_loop g)) in
  handled frame i l (l_counters g) (negb (existsb is_pending (sys_reqs l))).

(** [src/workers/grpc_worker/main.cpp:171-171] run_load_test *)
Definition ioc_run_one (frame : option nat) (g : Load) : option Load :=
  if l_stopped g then Some g
  else match chosen (l_loop g) with
       | Some i => callback frame i g
       | None => Some (mkLoad (l_loop g) (l_counters g) true)
       end.

(** [src/workers/grpc_worker/main.cpp:134-174] run_load_test *)
Definition load_round (t : Task) (now : Z) (g : Load) : option Load :=
  let i := List.length (sys_reqs (l_loop g)) in
  g ← handled (Some i) i (settle 11 i (send known_verb (GrpcWorker.request t) now (l_loop g))) (l_counters g) (l_stopped g);
  if pending_at i (l_loop g) then ioc_run_one (Some i) g else Some g.

(** [src/workers/grpc_worker/main.cpp:133-174] run_load_test *)
Fixpoint load_loop (t : Task) (end_time : Z) (rs : list Reading) (g : Load) : option Load :=
  match rs with
  | [] => Some g
  | r :: rs =>
      if rd_running r && (rd_clock r <? end_time)
      then g ← load_round t (rd_start r) g; load_loop t end_time rs g
      else Some g
  end.

(** [ioc.run()]: callbacks until nothing is outstanding. *)
Fixpoint run_all (fuel : nat) (g : Load) : option Load :=
  match fuel, chosen (l_loop g) with
  | S n, Some i => g ← callback None i g; run_all n g
  | _, _ => Some g
  end.

(** [ioc.restart(); ioc.run();]: no request makes more than eleven operations. *)
(** [src/workers/grpc_worker/main.cpp:176-178] run_load_test *)
Definition load_drain (g : Load) : option Load :=
  run_all (S (11 * List.length (sys_reqs (l_loop g)))) (mkLoad (l_loop g) (l_counters g) false).

(** [now] is the clock when the function is entered. *)
(** [src/workers/grpc_worker/main.cpp:124-179] run_load_test *)
Definition run_load_test (throws : SslCall → bool) (t : Task) (now : Z) (rs : list Reading) (c : Counters) : LoadOutcome :=
  match make_client throws default_tls true, load_test_bucket t now with
  | Some client, Some _ =>
      match g ← load_loop t (now + duration_seconds t * 1000000000) rs (mkLoad (mkSys client [] []) c false); load_drain g with
      | Some g => LoadReturned (l_counters g)
      | None => LoadUndefined
      end
  | _, _ => LoadThrew
  end.

(** The rounds the loop makes: the clock at the start of each. *)
Fixpoint rounds_made (end_time : Z) (rs : list Reading) : list Z :=
  match rs with
  | [] => []
  | r :: rs => if rd_running r && (rd_clock r <? end_time) then rd_start r :: rounds_made end_time rs else []
  end.

(** ** What callbacks leave alone *)

Section Runs.
Context (throws : SslCall → bool) (c0 : Client).
Context (made : make_client throws default_tls true = Some c0).

Abbreviation ok := (reachable (starts known_verb) setter c0).

(** Callbacks of request [i] alone. *)
Record moved (i : nat) (l l' : Loop) : Prop := {
  mv_length : List.length (sys_reqs l') = List.length (sys_reqs l);
  mv_others : ∀ j, j ≠ i → sys_reqs l' !! j = sys_reqs l !! j;
  mv_log : (List.length (sys_log l) ≤ List.length (sys_log l'))%nat;
  mv_ok : ok l → ok l'
}.

Lemma moved_refl i l : moved i l l.
Proof. by split. Qed.

Lemma moved_trans i l1 l2 l3 : moved i l1 l2 → moved i l2 l3 → moved i l1 l3.
Proof. intros [A1 A2 A3 A4] [B1 B2 B3 B4]. split; [congruence|intros j Hj; by rewrite B2, A2|lia|auto]. Qed.

Lemma run_one_moved i l :
  moved i l (run_one env i l) ∧ (pending_at i l = true → (List.length (sys_log l) < List.length (sys_log (run_one env i l)))%nat).
Proof.
  destruct (run_one_frame env i l) as (H1 & H2 & _). unfold pending_at. split.
  - split; [done|done| |apply run_one_ok]. unfold run_one. destruct (sys_reqs l !! i) as [[q [r| |o k]]|]; try done.
    destruct (k _ _). cbn [sys_log]. rewrite length_app. lia.
  - unfold run_one. destruct (sys_reqs l !! i) as [[q [r| |o k]]|]; try done.
    intros _. destruct (k _ _). cbn [sys_log]. rewrite length_app. cbn. lia.
Qed.

Lemma settle_moved n i l : moved i l (settle n i l).
Proof.
  revert l. induction n as [|n IH]; intros l; cbn [settle]; [apply moved_refl|].
  destruct (sys_reqs l !! i) as [[q [r| |o k]]|]; try apply moved_refl. destruct (synchronous o); [|apply moved_refl].
  eapply moved_trans; [apply run_one_moved|apply IH].
Qed.

(** A request that is there is answered or pending. *)
Lemma there i l : ok l → (i < List.length (sys_reqs l))%nat →
  ∃ q p, sys_reqs l !! i = Some (q, p) ∧ ((∃ r, p = Handler r) ∨ (∃ o k, p = Await o k)).
Proof.
  intros Hl [[q p] Hp]%lookup_lt_is_Some_2. exists q, p. split; [done|].
  destruct (request_progress _ _ _ _ _ _ _ _ _ made Hl Hp) as (_ & [[r Hr]|[o Ho]] & _); destruct p; try done; eauto.
Qed.

(** The log is bounded by the number of requests. *)
Lemma log_split {A} (log : list (nat * A)) b n :
  (∀ i, (List.length (filter (λ e, e.1 = i) log) ≤ b)%nat) → (∀ i, (n ≤ i)%nat → filter (λ e, e.1 = i) log = []) →
  (List.length log ≤ b * n)%nat.
Proof.
  revert log. induction n as [|n IH]; intros log Hb Hn.
  - destruct log as [|[i e] log]; [cbn; lia|]. specialize (Hn i ltac:(lia)). by rewrite filter_cons_True in Hn.
  - assert (Hs : List.length log = (List.length (filter (λ e, e.1 = n) log) + List.length (filter (λ e, e.1 ≠ n) log))%nat).
    { clear. induction log as [|e log IH]; [done|]. rewrite !filter_cons. destruct (decide (e.1 = n)) as [E|E].
      - rewrite (decide_False (P := e.1 ≠ n)) by tauto. cbn. lia.
      - rewrite (decide_True (P := e.1 ≠ n)) by done. cbn. lia. }
    assert (Hf : ∀ i, i ≠ n → filter (λ e, e.1 = i) (filter (λ e, e.1 ≠ n) log) = filter (λ e, e.1 = i) log).
    { intros i Hi. rewrite list_filter_filter. apply list_filter_iff. intros e. split; [tauto|]. intros <-. auto. }
    assert (Hl : (List.length (filter (λ e, e.1 ≠ n) log) ≤ b * n)%nat); [|pose proof (Hb n); lia].
    assert (He : filter (λ e, e.1 = n) (filter (λ e, e.1 ≠ n) log) = []).
    { rewrite list_filter_filter. clear. induction log as [|e log IH]; [done|]. by rewrite filter_cons_False by tauto. }
    apply IH; intros i; destruct (decide (i = n)) as [->|Hi]; rewrite ?He, ?Hf by done; cbn; auto with lia.
Qed.

Lemma log_bound l : ok l → (List.length (sys_log l) ≤ 11 * List.length (sys_reqs l))%nat.
Proof.
  intros Hl. assert (Hb : ∀ q s s' p, starts known_verb q s (s', p) → bounded 11 (max_writes q) p).
  { intros q s s' p [now E]. pose proof (async_request_bounded known_verb q now s) as H. by rewrite E in H. }
  destruct (steps_bounded _ _ _ 11 max_writes Hb l Hl) as [Hf Hr]. apply log_split; intros i.
  - destruct (decide (i < List.length (sys_reqs l))%nat) as [[[q p] Hp]%lookup_lt_is_Some_2|Hge].
    + destruct (Hr i q p Hp) as (n' & w' & _ & Hn & _). unfold own_log in Hn. rewrite length_fmap in Hn. lia.
    + pose proof (Hf i ltac:(lia)) as E. apply (f_equal List.length) in E. unfold own_log in E.
      rewrite length_fmap in E. cbn in E. lia.
  - intros Hi. specialize (Hf i Hi). unfold own_log in Hf. by apply fmap_nil_inv in Hf.
Qed.

(** ** A request that is pending when its round is over *)

Lemma handled_Some frame i l c b g : handled frame i l c b = Some g → l_loop g = l ∧ l_stopped g = b.
Proof. unfold handled. repeat case_match; intros; simplify_eq; done. Qed.

Lemma pending_there i l : pending_at i l = true → ∃ q o k, sys_reqs l !! i = Some (q, Await o k).
Proof. unfold pending_at. destruct (sys_reqs l !! i) as [[q [r| |o k]]|]; try done. eauto. Qed.

Lemma pending_lt i l : pending_at i l = true → (i < List.length (sys_reqs l))%nat.
Proof. intros (q & o & k & H)%pending_there. by eapply lookup_lt_Some. Qed.

(** After a callback of [i] request [i] is still pending, or its handler was called. *)
Lemma handled_keeps frame i l c b g j :
  ok l → (i < List.length (sys_reqs l))%nat → handled frame i l c b = Some g → frame ≠ Some i →
  j = i ∨ pending_at j l = true → pending_at j (l_loop g) = true.
Proof.
  intros Hl Hi Hh Hf [->|Hj]; destruct (handled_Some _ _ _ _ _ _ Hh) as [-> _]; [|done].
  destruct (there i l Hl Hi) as (q & p & Hp & [[r ->]|(o & k & ->)]); unfold handled in Hh; rewrite Hp in Hh.
  - by rewrite decide_False in Hh.
  - unfold pending_at. by rewrite Hp.
Qed.

(** The state of a run: reachable, and request [i] pending. *)
Definition hangs (i : nat) (g : Load) : Prop := ok (l_loop g) ∧ pending_at i (l_loop g) = true.

Lemma callback_hangs frame i j g g' :
  hangs i g → frame ≠ Some i → pending_at j (l_loop g) = true → callback frame j g = Some g' →
  hangs i g' ∧ (List.length (sys_log (l_loop g)) < List.length (sys_log (l_loop g')))%nat
  ∧ List.length (sys_reqs (l_loop g')) = List.length (sys_reqs (l_loop g)).
Proof.
  intros [Hok Hi] Hf Hj Hc. unfold callback in Hc. set (l := settle _ _ _) in Hc.
  destruct (run_one_moved j (l_loop g)) as [Hm1 Hlog].
  pose proof (settle_moved 11 j (run_one env j (l_loop g))) as Hm2. fold l in Hm2.
  destruct (moved_trans _ _ _ _ Hm1 Hm2) as [M1 M2 _ M4]. destruct Hm2 as [_ _ L2 _].
  destruct (handled_Some _ _ _ _ _ _ Hc) as [E _]. split; [split|split].
  - rewrite E. auto.
  - destruct (decide (i = j)) as [->|Hne].
    + eapply handled_keeps; [apply M4, Hok| |exact Hc|done|by left]. rewrite M1. by apply pending_lt.
    + rewrite E. unfold pending_at. rewrite M2 by done. exact Hi.
  - rewrite E. specialize (Hlog Hj). lia.
  - by rewrite E.
Qed.

Lemma chosen_pending l i : chosen l = Some i → pending_at i l = true.
Proof.
  unfold chosen. destruct (pending_at (pick l) l) eqn:E; [by intros [= <-]|].
  intros ([j y] & Hf & [= <-])%fmap_Some. cbn. apply list_find_Some in Hf as (Hl & Hp & _). unfold pending_at. rewrite Hl.
  cbn. destruct (is_pending y); [done|by destruct Hp].
Qed.

Lemma pending_chosen l i : pending_at i l = true → ∃ j, chosen l = Some j.
Proof.
  intros Hi. unfold chosen. destruct (pending_at (pick l) l); [by eauto|].
  destruct (pending_there i l Hi) as (q & o & k & Hl). destruct (list_find is_pending (sys_reqs l)) as [[j y]|] eqn:E.
  - by exists j.
  - exfalso. apply list_find_None in E. rewrite Forall_forall in E. apply (E (q, Await o k)); [by eapply list_elem_of_lookup_2|done].
Qed.

(** Running the context to its end calls the handler of a request whose [done] is gone. *)
Lemma run_all_undefined n i g :
  hangs i g → (11 * List.length (sys_reqs (l_loop g)) < n + List.length (sys_log (l_loop g)))%nat → run_all n g = None.
Proof.
  revert g. induction n as [|n IH]; intros g Hg Hn.
  { pose proof (log_bound _ (proj1 Hg)). lia. }
  cbn [run_all]. destruct (pending_chosen _ i (proj2 Hg)) as [j Hj]. rewrite Hj.
  destruct (callback None j g) as [g'|] eqn:E; [|done]. cbn [mbind option_bind].
  destruct (callback_hangs None i j g g' Hg ltac:(done) (chosen_pending _ _ Hj) E) as (Hg' & Hlog & Hlen).
  apply IH; [done|]. rewrite Hlen. lia.
Qed.

Lemma ioc_run_one_hangs frame i g g' :
  hangs i g → frame ≠ Some i → ioc_run_one frame g = Some g' →
  hangs i g' ∧ List.length (sys_reqs (l_loop g')) = List.length (sys_reqs (l_loop g)).
Proof.
  intros Hg Hf. unfold ioc_run_one. destruct (l_stopped g); [by intros [= <-]|].
  destruct (chosen (l_loop g)) as [j|] eqn:Hj; [|by intros [= <-]].
  intros Hc. destruct (callback_hangs frame i j g g' Hg Hf (chosen_pending _ _ Hj) Hc) as (? & _ & ?). done.
Qed.

Lemma load_round_hangs t now i g g' : hangs i g → load_round t now g = Some g' → hangs i g'.
Proof.
  intros [Hok Hi] H. unfold load_round in H. set (n := List.length (sys_reqs (l_loop g))) in *.
  apply bind_Some in H as (g1 & Hh & H). pose proof (pending_lt _ _ Hi) as Hlt. fold n in Hlt.
  destruct (handled_Some _ _ _ _ _ _ Hh) as [E _].
  destruct (settle_moved 11 n (send known_verb (request t) now (l_loop g))) as [_ M2 _ M4].
  destruct (send_reqs known_verb (request t) now (l_loop g)) as (p & Hp & _).
  assert (H1 : hangs i g1).
  { split; rewrite E; [by apply M4, send_ok|]. unfold pending_at. rewrite M2 by lia. rewrite Hp, lookup_app_l by done. exact Hi. }
  destruct (pending_at n (l_loop g1)); [|by injection H as <-].
  eapply ioc_run_one_hangs; [exact H1| |exact H]. intros [= ?]. lia.
Qed.

Lemma load_loop_hangs t end_time rs i g g' : hangs i g → load_loop t end_time rs g = Some g' → hangs i g'.
Proof.
  revert g. induction rs as [|r rs IH]; intros g Hg; cbn [load_loop]; [by intros [= <-]|].
  destruct (_ && _); [|by intros [= <-]]. intros (g1 & H1 & H2)%bind_Some. eapply IH; [|exact H2]. by eapply load_round_hangs.
Qed.

Lemma hangs_undefined t end_time rs i g : hangs i g → (g ← load_loop t end_time rs g; load_drain g) = None.
Proof.
  intros Hg. destruct (load_loop t end_time rs g) as [g'|] eqn:E; [|done]. cbn [mbind option_bind].
  pose proof (load_loop_hangs _ _ _ _ _ _ Hg E) as Hg'. unfold load_drain. eapply (run_all_undefined _ i); [exact Hg'|]. cbn [l_loop]. lia.
Qed.

(** ** The first rounds *)

Context (get_known : known_verb "GET" = true).

Definition resolve_op (t : Task) : Op := AsyncResolve (host (request t)) (to_string (port (request t))).

(** On a client that keeps no connection a request starts with the resolver, which alone
    can answer it with its callback. *)
Lemma send_fresh t now l :
  sys_st l = c0 →
  ∃ k, send known_verb (request t) now l = mkSys c0 (sys_log l) (sys_reqs l ++ [(request t, Await (resolve_op t) k)])
    ∧ (∀ e eps, ∃ r er, k (Some e, eps) c0 = (c0, Handler r) ∧ ec r = Some er)
    ∧ (∀ eps, ∃ c' o k', k (None, eps) c0 = (c', Await o k') ∧ synchronous o = false).
Proof.
  intros Hc. pose proof made as (tc & Ht & Hn & _)%make_client_fields. unfold send. rewrite Hc. unfold async_request.
  rewrite Hn, Ht, bool_decide_false, andb_false_r by done. unfold request_fresh.
  destruct (build_request known_verb (request t) empty_response) as [[m|] r0] eqn:E.
  - eexists. split; [reflexivity|]. split.
    + intros e eps. do 2 eexists. split; reflexivity.
    + intros eps. destruct (use_tls (request t)); unfold connect_tls, connect_tcp, alloc; do 3 eexists; split; reflexivity.
  - exfalso. unfold build_request in E. cbn [method request] in E. rewrite get_known in E. by simplify_eq.
Qed.

Lemma settle_waits n i l q p :
  sys_reqs l !! i = Some (q, p) → (∀ o k, p = Await o k → synchronous o = false) → settle n i l = l.
Proof.
  intros Hl Hp. destruct n as [|n]; [done|]. cbn [settle]. rewrite Hl. destruct p as [r| |o k]; [done..|]. by rewrite (Hp o k).
Qed.

(** Such a round sends, and then calls [run_one]. *)
Lemma load_round_fresh t now g :
  ok (l_loop g) → sys_st (l_loop g) = c0 →
  ∃ k, let n := List.length (sys_reqs (l_loop g)) in
       let l := mkSys c0 (sys_log (l_loop g)) (sys_reqs (l_loop g) ++ [(request t, Await (resolve_op t) k)]) in
       load_round t now g = ioc_run_one (Some n) (mkLoad l (l_counters g) (l_stopped g)) ∧ ok l ∧ pending_at n l = true
    ∧ (∀ e eps, ∃ r er, k (Some e, eps) c0 = (c0, Handler r) ∧ ec r = Some er)
    ∧ (∀ eps, ∃ c' o k', k (None, eps) c0 = (c', Await o k') ∧ synchronous o = false).
Proof.
  intros Hok Hc. destruct (send_fresh t now (l_loop g) Hc) as (k & E & Hk). exists k. cbv zeta.
  pose proof (send_ok known_verb c0 (request t) now _ Hok) as Hok'. rewrite E in Hok'.
  unfold load_round. rewrite E. set (n := List.length (sys_reqs (l_loop g))). set (l := mkSys _ _ _) in *.
  assert (Hn : sys_reqs l !! n = Some (request t, Await (resolve_op t) k)) by by apply list_lookup_middle.
  assert (Hp : pending_at n l = true) by (unfold pending_at; by rewrite Hn).
  rewrite (settle_waits _ _ _ _ _ Hn) by (by intros ?? [= <- _]). unfold handled. rewrite Hn.
  cbn [mbind option_bind l_loop]. rewrite Hp. done.
Qed.

(** A context that is stopped runs nothing, so that the request outlives its round. *)
Lemma load_round_stopped t now g g' :
  ok (l_loop g) → sys_st (l_loop g) = c0 → l_stopped g = true → load_round t now g = Some g' →
  hangs (List.length (sys_reqs (l_loop g))) g'.
Proof.
  intros Hok Hc Hs. destruct (load_round_fresh t now g Hok Hc) as (k & -> & Hok' & Hp & _).
  unfold ioc_run_one. cbn [l_stopped]. rewrite Hs. intros [= <-]. by split.
Qed.

Definition first_load (c : Counters) : Load := mkLoad (mkSys c0 [] []) c false.

(** Of one request, pending or not, it is the one chosen. *)
Lemma chosen_one c log q p :
  chosen (mkSys c log [(q, p)]) = if is_pending (q, p) then Some 0%nat else None.
Proof.
  unfold chosen. set (l := mkSys _ _ _). destruct (pending_at (pick l) l) eqn:E.
  - pose proof (pending_lt _ _ E) as Hlt. cbn in Hlt. replace (pick l) with 0%nat in * by lia. cbn in E. by rewrite E.
  - cbn. by destruct p.
Qed.

(** The first round: its request is answered in it exactly if the resolver fails. *)
Lemma load_round_first t now c :
  match (env [] (resolve_op t)).1 with
  | None => ∃ g, load_round t now (first_load c) = Some g ∧ hangs 0 g
  | Some _ => ∃ l, load_round t now (first_load c)
        = Some (mkLoad l (mkCounters (total_requests c) (successful_requests c) (failed_requests c + 1)) true)
      ∧ ok l ∧ sys_st l = c0 ∧ chosen l = None
  end.
Proof.
  destruct (load_round_fresh t now (first_load c)) as (k & E & Hok & _ & Hfail & Hgo); [apply rtc_refl|done|].
  cbv zeta in *. rewrite E. clear E. cbn [first_load l_loop l_counters l_stopped sys_log sys_reqs app List.length] in *.
  set (l := mkSys _ _ _) in *. unfold ioc_run_one. cbn [l_stopped l_loop]. rewrite (chosen_one _ _ _ _ : chosen l = _).
  cbn [is_pending snd]. pose proof (run_one_ok known_verb c0 env 0 l Hok) as Hok1. unfold callback. cbn [l_loop l_counters].
  assert (Hr : run_one env 0 l = let (c', p) := k (env [] (resolve_op t)) c0 in
                mkSys c' [(0%nat, mkEvent (resolve_op t) (env [] (resolve_op t)))] [(request t, p)])
    by (unfold run_one, l; cbn; by destruct (k _ c0)).
  destruct (env [] (resolve_op t)) as [[e|] eps]; cbn [fst].
  - destruct (Hfail e eps) as (r & er & Ek & Hec). rewrite Ek in Hr. rewrite Hr in *. eexists. split_and!; [|exact Hok1|done|apply chosen_one].
    erewrite settle_waits by done. unfold handled. cbn [sys_reqs lookup list_lookup]. rewrite decide_True by done.
    unfold on_response. by rewrite Hec.
  - destruct (Hgo eps) as (c' & o & k' & Ek & Hs). rewrite Ek in Hr. rewrite Hr in *. 
    rewrite (settle_waits 11 0 _ (request t) (Await o k')) by (done || by intros ?? [= <- _]).
    eexists. split; [reflexivity|by split].
Qed.

Lemma load_loop_rounds t end_time rs g :
  match rounds_made end_time rs with
  | [] => load_loop t end_time rs g = Some g
  | now :: _ => ∃ rs', load_loop t end_time rs g = (g ← load_round t now g; load_loop t end_time rs' g)
                 ∧ rounds_made end_time rs = now :: rounds_made end_time rs'
  end.
Proof. destruct rs as [|r rs]; cbn [rounds_made load_loop]; [done|]. destruct (_ && _); [by exists rs|done]. Qed.

(** Nothing outstanding: the context has nothing to run. *)
Lemma drain_idle g : chosen (l_loop g) = None → load_drain g = Some (mkLoad (l_loop g) (l_counters g) false).
Proof. intros H. unfold load_drain. cbn [run_all l_loop]. by rewrite H. Qed.

Lemma load_body_outcome t end_time rs c :
  l_counters <$> (g ← load_loop t end_time rs (first_load c); load_drain g)
  = match rounds_made end_time rs, (env [] (resolve_op t)).1 with
    | [], _ => Some c
    | [_], Some _ => Some (mkCounters (total_requests c) (successful_requests c) (failed_requests c + 1))
    | _, _ => None
    end.
Proof.
  pose proof (load_loop_rounds t end_time rs (first_load c)) as H. destruct (rounds_made end_time rs) as [|now more].
  { rewrite H. cbn [mbind option_bind]. rewrite drain_idle; [done|]. unfold chosen. by destruct (pending_at _ _) eqn:E. }
  destruct H as (rs' & -> & [= Hmore]). pose proof (load_round_first t now c) as H1.
  destruct (env [] (resolve_op t)).1 as [e|]; cycle 1.
  { destruct H1 as (g & -> & Hg). cbn [mbind option_bind]. rewrite (hangs_undefined _ _ _ _ _ Hg). by destruct more. }
  destruct H1 as (l & -> & Hok & Hc & Hch). cbn [mbind option_bind].
  pose proof (load_loop_rounds t end_time rs' (mkLoad l (mkCounters (total_requests c) (successful_requests c) (failed_requests c + 1)) true)) as H2.
  rewrite <-Hmore in H2. destruct more as [|now' more].
  - rewrite H2. cbn [mbind option_bind]. by rewrite drain_idle.
  - destruct H2 as (rs'' & -> & _). set (g1 := mkLoad _ _ _) in *. destruct (load_round t now' g1) as [g|] eqn:E; [|done].
    cbn [mbind option_bind]. by rewrite (hangs_undefined _ _ _ _ _ (load_round_stopped t now' g1 g Hok Hc eq_refl E)).
Qed.

End Runs.

Lemma run_load_test_cases throws t now rs c :
  known_verb "GET" = true → - 2 ^ 31 ≤ target_rps t < 2 ^ 31 →
  run_load_test throws t now rs c
  = if bool_decide (is_Some (make_client throws default_tls true)) && (0 <? target_rps t)
    then match rounds_made (now + duration_seconds t * 1000000000) rs, (env [] (resolve_op t)).1 with
         | [], _ => LoadReturned c
         | [_], Some _ => LoadReturned (mkCounters (total_requests c) (successful_requests c) (failed_requests c + 1))
         | _, _ => LoadUndefined
         end
    else LoadThrew.
Proof.
  intros Hget Hr. unfold run_load_test. destruct (make_client throws default_tls true) as [c0|] eqn:Hmade; cycle 1.
  { rewrite bool_decide_false; [done|]. by intros [? ?]. }
  rewrite bool_decide_true by done. cbn [andb]. pose proof (grpc_rate_required t now Hr) as Hb.
  destruct (load_test_bucket t now) as [b|]; destruct (Z.ltb_spec 0 (target_rps t)) as [Hpos|Hneg]; try done.
  - pose proof (load_body_outcome throws c0 Hmade Hget t (now + duration_seconds t * 1000000000) rs c) as H.
    unfold first_load in H. destruct (_ ≫= load_drain) as [g|]; cbn [fmap option_fmap option_map] in H;
      destruct (rounds_made _ rs) as [|? [|? ?]], (env [] (resolve_op t)).1; try done; by injection H as ->.
  - by apply Hb in Hneg.
  - destruct Hb as [Hb _]. specialize (Hb eq_refl). lia.
Qed.

(** C33.  A gRPC task is run with a defined meaning in two cases only, whatever the network
    does and whichever operation completes first: the loop makes no round, or it makes
    exactly one and the host of the target does not resolve, which is counted as one failed
    request.  In any other run, one round against a host that resolves included, a handler
    writes to the variable [done] of a round that is over.  A task without a positive rate
    throws. *)
Theorem grpc_load_outcome throws t now rs c :
  known_verb "GET" = true → - 2 ^ 31 ≤ target_rps t < 2 ^ 31 →
  run_load_test throws t now rs c
  = if bool_decide (is_Some (make_client throws default_tls true)) && (0 <? target_rps t)
    then match rounds_made (now + duration_seconds t * 1000000000) rs, (env [] (resolve_op t)).1 with
         | [], _ => LoadReturned c
         | [_], Some _ => LoadReturned (mkCounters (total_requests c) (successful_requests c) (failed_requests c + 1))
         | _, _ => LoadUndefined
         end
    else LoadThrew.
Proof. apply run_load_test_cases. Qed.

End Load.

(** A task that runs for two seconds: the readings of a loop that makes two rounds, and of
    one that is stopped after the first. *)
Definition demo_load_task : Task := mkTask "http://target:8080/x" 100 2 [].
Definition failing_env (o : Op) : reply o :=
  match o return reply o with AsyncResolve _ _ => (Some HostNotFound, []) | o => HttpClient.demo_env o end.

Lemma grpc_load_outcome_witness :
  run_load_test all_verbs (λ _, failing_env) (λ _, 0%nat) (λ _, false) demo_load_task 0
    [mkReading true 5 6; mkReading true 2000000000 7] (mkCounters 0 0 0) = LoadReturned (mkCounters 0 0 1)
  ∧ run_load_test all_verbs (λ _, failing_env) (λ _, 0%nat) (λ _, false) demo_load_task 0
      [mkReading true 5 6; mkReading true 10000000 7] (mkCounters 0 0 0) = LoadUndefined
  ∧ run_load_test all_verbs (λ _, HttpClient.demo_env) (λ _, 0%nat) (λ _, false) demo_load_task 0
      [mkReading true 5 6; mkReading false 10000000 7] (mkCounters 0 0 0) = LoadUndefined.
Proof. split_and!; (rewrite grpc_load_outcome; [vm_compute; reflexivity|reflexivity|split; cbn; lia]). Defined.
