(* ===== verification/WorkerRuns.v ===== *)
(** * The runs of the worker processes

    [workers/http_worker/main.cpp]: what the process prints ([Module HttpReport]);
    [workers/grpc_worker/main.cpp]: the calls it makes on the controller, from the
    registration to the end ([Module GrpcRun]). *)

From S2P Require Import Prelude CppString Double Ostream TokenBucket Ring Collector Async Tls Protocol HttpClient CliArgs Direct Workers GrpcLoad.

Local Open Scope Z_scope.

Module HttpReport.
Import HttpWorker.

(** [src/workers/http_worker/main.cpp:38-49] print_usage *)
Definition print_usage (prog : string) : string :=
  line ("Usage: " +:+ prog +:+ " [options]")
  +:+ line "  --host HOST       Target host (default: localhost)"
  +:+ line "  --port PORT       Target port (default: 8080)"
  +:+ line "  --path PATH       Target path (default: /)"
  +:+ line "  --method METHOD   HTTP method (default: GET)"
  +:+ line "  --rps N           Requests per second (default: 100)"
  +:+ line "  --duration N      Test duration in seconds (default: 60)"
  +:+ line "  --use-tls         Use HTTPS"
  +:+ line "  --tls-verify BOOL Verify TLS certificate (default: true)"
  +:+ line "  --help            Show this help".

(** [src/workers/http_worker/main.cpp:123-129] main *)
Definition banner (cfg : WorkerConfig) : string :=
  line "volley HTTP Worker"
  +:+ line ("Target: " +:+ (if use_tls cfg then "https://" else "http://") +:+ target_host cfg +:+ ":" +:+ target_port cfg
            +:+ target_path cfg)
  +:+ line ("Method: " +:+ method cfg)
  +:+ line ("RPS: " +:+ to_string (rps cfg))
  +:+ line ("Duration: " +:+ to_string (duration_sec cfg) +:+ "s")
  +:+ line "---".

Section Reports.
Context `{NthElement}.

(** One line of the report thread; [now] is in nanoseconds. *)
(** [src/workers/http_worker/main.cpp:139-147] main *)
Definition report_line (start_time now : Z) (metrics : MetricsCollector) : option string :=
  m ← snapshot metrics;
  Some (line ("[" +:+ to_string ((now - start_time) `quot` 1000000000) +:+ "s] req=" +:+ to_string (m_total_requests m)
    +:+ " err=" +:+ ostream_double (error_rate metrics) +:+ "% rps=" +:+ ostream_double (requests_per_second now metrics)
    +:+ " p99=" +:+ to_string (m_p99_latency_us m) +:+ "us")).

(** The report thread: a round per interval, each with the clock, the collector and
    whether [running] is still up after the sleep. *)
(** [src/workers/http_worker/main.cpp:135-149] main *)
Fixpoint reporter (start_time : Z) (rounds : list (Z * MetricsCollector * bool)) : option string :=
  match rounds with
  | [] => Some ""
  | (now, metrics, running) :: rounds =>
      if negb running then Some ""
      else
        l ← report_line start_time now metrics;
        rest ← reporter start_time rounds;
        Some (l +:+ rest)
  end.

(** [src/workers/http_worker/main.cpp:180-193] main *)
Definition final_report (start_time now : Z) (metrics : MetricsCollector) : option string :=
  m ← snapshot metrics;
  Some (line "---"
    +:+ line ("Results (" +:+ to_string ((now - start_time) `quot` 1000000000) +:+ "s):")
    +:+ line ("  Total requests: " +:+ to_string (m_total_requests m))
    +:+ line ("  Successful: " +:+ to_string (m_successful_requests m))
    +:+ line ("  Failed: " +:+ to_string (m_failed_requests m))
    +:+ line ("  Error rate: " +:+ ostream_double (error_rate metrics) +:+ "%")
    +:+ line ("  Mean latency: " +:+ ostream_double (m_mean_latency_us m) +:+ "us")
    +:+ line ("  P95 latency: " +:+ to_string (m_p95_latency_us m) +:+ "us")
    +:+ line ("  P99 latency: " +:+ to_string (m_p99_latency_us m) +:+ "us")
    +:+ line ("  Actual RPS: " +:+ ostream_double (requests_per_second now metrics))).

(** The set-up before anything is printed: the client's TLS context and the bucket may
    throw. *)
(** [src/workers/http_worker/main.cpp:116-121] main *)
Definition set_up (throws : SslCall → bool) (cfg : WorkerConfig) (now : Z) : option (Client * TokenBucket) :=
  client ← make_client throws (mkTlsConfig (tls_verify cfg) "" "" "" "" "" false TLS_1_2) true;
  bucket ← make_bucket (d_of_Z (rps cfg)) (d_of_Z 1) now;
  Some (client, bucket).

(** The process: how it ends and what it has printed.  [rounds] are those of the report
    thread, [now] and [metrics] the clock and the collector after both threads are joined. *)
(** [src/workers/http_worker/main.cpp:105-196] main *)
Definition http_main (prog : string) (argv : list string) (throws : SslCall → bool) (start_time : Z)
    (rounds : list (Z * MetricsCollector * bool)) (now : Z) (metrics : MetricsCollector) : option (Outcome unit * string) :=
  match parse_args argv with
  | Exited n => Some (Exited n, "")
  | Killed => Some (Killed, "")
  | Continue cfg =>
      if show_help cfg then Some (Exited 0, print_usage prog)
      else if rps cfg =? 0 then Some (Exited 1, "")
      else match set_up throws cfg start_time with
           | None => Some (Killed, "")
           | Some _ =>
               reports ← reporter start_time rounds;
               results ← final_report start_time now metrics;
               Some (Exited 0, banner cfg +:+ reports +:+ results)
           end
  end.

Lemma parse_args_from_ends argv cfg :
  0 ≤ rps cfg < 2 ^ 32 →
  match parse_args_from cfg argv with Continue cfg => 0 ≤ rps cfg < 2 ^ 32 | Exited n => n = 1 | Killed => False end.
Proof.
  intros Hc. remember (List.length argv) as n eqn:Hn. revert argv cfg Hc Hn.
  induction n as [n IH] using lt_wf_ind. intros argv cfg Hc Hn. destruct argv as [|arg rest]; [done|]. cbn [parse_args_from].
  destruct (split_arg arg) as [key value].
  assert (Hf : ∀ f v cfg', value_option key = Some f → f v cfg = Some cfg' → 0 ≤ rps cfg' < 2 ^ 32).
  { intros f v cfg' Hf E. destruct cfg as [a b c d e f0 g h i j]. cbn in Hc. unfold value_option in Hf.
    repeat case_match; simplify_eq; repeat case_match; simplify_eq; cbn; try done.
    unfold wrap. apply Z.mod_pos_bound. lia. }
  destruct (value_option key) as [f|] eqn:Ef.
  - destruct value as [v|].
    + destruct (f v cfg) as [cfg'|] eqn:E; [|done]. cbn in Hn. eapply (IH (List.length rest)); [lia|by eapply Hf|done].
    + destruct rest as [|v rest]; [done|]. destruct (f v cfg) as [cfg'|] eqn:E; [|done]. cbn in Hn.
      eapply (IH (List.length rest)); [lia|by eapply Hf|done].
  - destruct cfg as [a b c d e f0 g h i j]. cbn in Hc, Hn. destruct (_ || _); eapply (IH (List.length rest)); [lia|done|done|lia|done|done].
Qed.

(** How the HTTP worker ends, for any arguments: with 0 or 1, or killed exactly if its
    TLS context cannot be made; the bucket never throws, whatever rate was given.  It
    prints its results exactly if it was neither asked for help nor given a bad value. *)
Theorem http_main_ends prog argv throws start_time rounds now metrics o out :
  http_main prog argv throws start_time rounds now metrics = Some (o, out) →
  match begin argv with
  | Continue cfg =>
      if bool_decide (is_Some (make_client throws (mkTlsConfig (tls_verify cfg) "" "" "" "" "" false TLS_1_2) true))
      then o = Exited 0 ∧ ∃ reports results, reporter start_time rounds = Some reports
             ∧ final_report start_time now metrics = Some results ∧ out = banner cfg +:+ reports +:+ results
      else o = Killed ∧ out = ""
  | Exited n => o = Exited n ∧ (n = 0 ∧ out = print_usage prog ∨ n = 1 ∧ out = "")
  | Killed => False
  end.
Proof.
  unfold http_main, begin. pose proof (parse_args_from_ends argv default_config ltac:(cbn; lia)) as Hp.
  fold (parse_args argv) in Hp. destruct (parse_args argv) as [cfg|n|]; [|intros [= <- <-]; naive_solver|done].
  destruct (show_help cfg); [intros [= <- <-]; naive_solver|].
  destruct (Z.eqb_spec (rps cfg) 0) as [|Hr]; [intros [= <- <-]; naive_solver|]. unfold set_up.
  destruct (make_client _ _ _) as [c|]; cycle 1.
  { intros [= <- <-]. rewrite bool_decide_false; [done|]. by intros [? ?]. }
  rewrite bool_decide_true by done. cbn [mbind option_bind]. unfold make_bucket. rewrite (d_of_Z_small (rps cfg)) by lia.
  unfold d0. cbn [dleb]. pose proof one_k_pos. destruct (Z.leb_spec (rps cfg * one_k) 0); [nia|]. cbn [mbind option_bind].
  intros (reports & Hrep & (results & Hres & [= <- <-])%bind_Some)%bind_Some. naive_solver.
Qed.

End Reports.
End HttpReport.

Module GrpcRun.
Import GrpcWorker.

(** The calls on the controller. *)
Inductive Rpc :=
  | RegisterWorker (worker_id address : string) (max_rps : Z)
  | AssignTask (worker_id : Z)
  | ReportMetrics
  | WriteReport (r : MetricsReport)
  | WritesDone
  | Finish
  | UnregisterWorker (worker_id : Z) (reason : string).

(** A round of the reporter: the clock, the counters, and whether the stream took the
    report.  The list ends where [running] is found down. *)
(** [src/workers/grpc_worker/main.cpp:84-100] GrpcWorker::report_metrics *)
Fixpoint report_rounds (w : Worker) (rounds : list (Z * Counters * bool)) : list Rpc :=
  match rounds with
  | [] => []
  | (now_ms, c, ok) :: rounds =>
      WriteReport (report now_ms w c) :: if (ok : bool) then report_rounds w rounds else []
  end.

(** [src/workers/grpc_worker/main.cpp:78-103] GrpcWorker::report_metrics *)
Definition report_metrics (w : Worker) (writer : bool) (rounds : list (Z * Counters * bool)) : list Rpc :=
  ReportMetrics :: if writer then report_rounds w rounds ++ [WritesDone; Finish] else [].

(** [src/workers/grpc_worker/main.cpp:105-113] GrpcWorker::unregister *)
Definition unregister (reason : string) (w : Worker) : list Rpc := [UnregisterWorker (worker_id_assigned_ w) reason].

Section Session.
Context (known_verb : string → bool) (throws : SslCall → bool).

(** An answer of the controller, and what the run of its task meets: the network, the order
    in which operations complete, the clock at its start and the readings of its loop. *)
Record Poll := mkPoll {
  pl_ok : bool; pl_task : option Task;
  pl_env : list (nat * Async.Event) → ∀ o, reply o; pl_pick : Sys Request Client Response → nat;
  pl_now : Z; pl_readings : list Reading
}.

(** The main loop, with how it ends: [LoadThrew] is an exception that leaves [main]. *)
(** [src/workers/grpc_worker/main.cpp:232-245] main *)
Fixpoint poll_tasks (w : Worker) (polls : list Poll) (c : Counters) : LoadOutcome * list Rpc :=
  match polls with
  | [] => (LoadReturned c, [])
  | p :: polls =>
      let '(ended, calls) :=
        match assign_task (pl_ok p) (pl_task p) with
        | None => poll_tasks w polls c
        | Some t =>
            match run_load_test known_verb (pl_env p) (pl_pick p) throws t (pl_now p) (pl_readings p) c with
            | LoadReturned c => poll_tasks w polls c
            | ended => (ended, [])
            end
        end in
      (ended, AssignTask (worker_id_assigned_ w) :: calls)
  end.

(** What the process does: how it ends ([None]: no defined way), the calls before the two
    threads run, those of the main thread and of the reporter, and those after the reporter
    is joined. *)
Record GrpcTrace := mkTrace {
  g_exit : option (Outcome unit); g_before : list Rpc; g_main : list Rpc; g_reporter : list Rpc; g_after : list Rpc }.

(** A process that is killed stops its reporter after any number [cut] of calls. *)
(** [src/workers/grpc_worker/main.cpp:223-253] main *)
Definition grpc_main (worker_id : string) (max_rps : Z) (reply : RegisterReply) (polls : list Poll)
    (writer : bool) (rounds : list (Z * Counters * bool)) (cut : nat) : GrpcTrace :=
  let w := make worker_id max_rps in
  let hello := [RegisterWorker worker_id "localhost:50051" max_rps] in
  match register_worker reply w with
  | (false, _) => mkTrace (Some (Exited 1)) hello [] [] []
  | (true, w) =>
      let '(ended, calls) := poll_tasks w polls (mkCounters 0 0 0) in
      match ended with
      | LoadReturned _ => mkTrace (Some (Exited 0)) hello calls (report_metrics w writer rounds) (unregister "shutdown" w)
      | LoadThrew => mkTrace (Some Killed) hello calls (take cut (report_metrics w writer rounds)) []
      | LoadUndefined => mkTrace None hello calls (take cut (report_metrics w writer rounds)) []
      end
  end.

(** An order in which the calls of two threads reach the controller. *)
Inductive Interleave {A} : list A → list A → list A → Prop :=
  | il_nil : Interleave [] [] []
  | il_left x l r m : Interleave l r m → Interleave (x :: l) r (x :: m)
  | il_right x l r m : Interleave l r m → Interleave l (x :: r) (x :: m).

Definition history (g : GrpcTrace) (h : list Rpc) : Prop :=
  ∃ m, Interleave (g_main g) (g_reporter g) m ∧ h = g_before g ++ m ++ g_after g.

Definition is_unregister (c : Rpc) : bool := match c with UnregisterWorker _ _ => true | _ => false end.

(** The call names the worker by the number [id] the controller gave it. *)
Definition names (id : Z) (c : Rpc) : Prop :=
  match c with
  | AssignTask i => i = id
  | WriteReport r => worker_id r = id
  | UnregisterWorker i _ => i = id
  | _ => True
  end.

Lemma interleave_forall {A} (P : A → Prop) l r m : Interleave l r m → Forall P l → Forall P r → Forall P m.
Proof. induction 1 as [|x l r m _ IH|x l r m _ IH]; intros Hl Hr; [done|..]; decompose_Forall_hyps; constructor; auto. Qed.

Definition running_call (id : Z) (c : Rpc) : Prop := names id c ∧ is_unregister c = false.

Lemma poll_tasks_calls w polls c : Forall (running_call (worker_id_assigned_ w)) (poll_tasks w polls c).2.
Proof.
  revert c. induction polls as [|p polls IH]; intros c; [constructor|]. cbn [poll_tasks].
  destruct (assign_task _ _) as [t|]; [destruct (run_load_test _ _ _ _ _ _ _ _) as [| |c']|];
    try (specialize (IH c')); try (specialize (IH c)); try (destruct (poll_tasks w polls _) as [fine calls]);
    cbn [snd] in *; repeat constructor; done.
Qed.

Lemma report_metrics_calls w writer rounds : Forall (running_call (worker_id_assigned_ w)) (report_metrics w writer rounds).
Proof.
  unfold report_metrics. constructor; [done|]. destruct writer; [|constructor]. apply Forall_app. split; [|by repeat constructor].
  induction rounds as [|[[now c] ok] rounds IH]; [constructor|]. cbn [report_rounds]. constructor; [done|]. by destruct ok.
Qed.

Lemma report_metrics_closed w rounds :
  ∃ pre, report_metrics w true rounds = pre ++ [WritesDone; Finish] ∧ WritesDone ∉ pre.
Proof.
  exists (ReportMetrics :: report_rounds w rounds). split; [done|]. rewrite elem_of_cons. intros [?|Hin]; [done|].
  induction rounds as [|[[now c] ok] rounds IH]; cbn in Hin; [by apply elem_of_nil in Hin|].
  apply elem_of_cons in Hin as [?|Hin]; [done|]. destruct ok; [by apply IH|by apply elem_of_nil in Hin].
Qed.

(** ** Tasks *)

(** The loop of the task makes no round, or one whose target does not resolve. *)
Definition harmless (p : Poll) (t : Task) : Prop :=
  match rounds_made (pl_now p + duration_seconds t * 1000000000) (pl_readings p) with
  | [] => True
  | [_] => is_Some (pl_env p [] (resolve_op t)).1
  | _ => False
  end.

(** An answer without a task, or with one that has a rate and is harmless. *)
Definition poll_fine (p : Poll) : Prop :=
  match assign_task (pl_ok p) (pl_task p) with
  | None => True
  | Some t => 0 < target_rps t < 2 ^ 31 ∧ harmless p t
  end.

Definition poll_without_rate (p : Poll) : Prop :=
  ∃ t, assign_task (pl_ok p) (pl_task p) = Some t ∧ - 2 ^ 31 ≤ target_rps t ≤ 0.

Context (get_known : known_verb "GET" = true) (tls_fine : is_Some (make_client throws default_tls true)).

Lemma fine_runs p t c :
  assign_task (pl_ok p) (pl_task p) = Some t → poll_fine p →
  ∃ c', run_load_test known_verb (pl_env p) (pl_pick p) throws t (pl_now p) (pl_readings p) c = LoadReturned c'.
Proof.
  intros Ht. unfold poll_fine. rewrite Ht. intros [Hr Hh]. rewrite run_load_test_cases by (done || lia).
  rewrite bool_decide_true, (proj2 (Z.ltb_lt _ _)) by (done || lia). cbn [andb]. unfold harmless in Hh.
  destruct (rounds_made _ _) as [|? [|? ?]]; [by eauto| |done]. destruct Hh as [e He]. rewrite He. eauto.
Qed.

Lemma poll_tasks_fine w pre post c :
  Forall poll_fine pre → ∃ c', (poll_tasks w (pre ++ post) c).1 = (poll_tasks w post c').1.
Proof.
  revert c. induction pre as [|p pre IH]; intros c Hf; [by exists c|]. decompose_Forall_hyps. cbn [app poll_tasks].
  destruct (assign_task (pl_ok p) (pl_task p)) as [t|] eqn:Ht.
  - destruct (fine_runs p t c Ht) as [c1 ->]; [done|]. destruct (IH c1) as [c' E]; [done|]. exists c'. rewrite <-E. by destruct (poll_tasks w _ c1).
  - destruct (IH c) as [c' E]; [done|]. exists c'. rewrite <-E. by destruct (poll_tasks w _ c).
Qed.

Lemma poll_tasks_throws w p post c : poll_without_rate p → (poll_tasks w (p :: post) c).1 = LoadThrew.
Proof.
  intros (t & Ht & Hr). cbn [poll_tasks]. rewrite Ht, run_load_test_cases by (done || lia).
  by rewrite (proj2 (Z.ltb_ge 0 (target_rps t))), andb_false_r by lia.
Qed.

(** C34.  The session of a gRPC worker with its controller, however the calls of its two
    threads interleave and whatever its tasks meet: a worker that is not accepted makes the
    one call and exits with 1; an accepted worker uses the number it was given in every
    call.  If every task it is handed has a rate and makes no round, or one round against a
    host that does not resolve, it exits with 0 after unregistering, once and last, with its
    report stream closed before.  After such tasks one without a rate ends the process,
    and the controller is never told. *)
Theorem grpc_session worker_id max_rps reply polls writer rounds cut h :
  let g := grpc_main worker_id max_rps reply polls writer rounds cut in
  let id := assigned_worker_id reply in
  let hello := RegisterWorker worker_id "localhost:50051" max_rps in
  history g h →
  if negb (reg_ok reply && accepted reply)
  then g_exit g = Some (Exited 1) ∧ h = [hello]
  else ∃ m, Forall (running_call id) m
    ∧ (Forall poll_fine polls →
         g_exit g = Some (Exited 0) ∧ h = hello :: m ++ [UnregisterWorker id "shutdown"]
         ∧ (writer = true → ∃ pre, g_reporter g = pre ++ [WritesDone; Finish] ∧ WritesDone ∉ pre))
    ∧ (∀ pre p post, polls = pre ++ p :: post → Forall poll_fine pre → poll_without_rate p →
         g_exit g = Some Killed ∧ h = hello :: m).
Proof.
  intros g id hello (m & Hm & ->). subst g. unfold grpc_main, register_worker in *.
  destruct (reg_ok reply && accepted reply); cbn [negb].
  2:{ split; [done|]. cbn in Hm. by inversion Hm. }
  set (w := mkWorker _ _ _) in *. set (c := mkCounters 0 0 0) in *.
  pose proof (poll_tasks_calls w polls c) as Hcalls. pose proof (report_metrics_calls w writer rounds) as Hrep.
  assert (Hfine : Forall poll_fine polls → ∃ c', (poll_tasks w polls c).1 = LoadReturned c').
  { intros Hf. destruct (poll_tasks_fine w polls [] c Hf) as [c' E]. rewrite app_nil_r in E. by exists c'. }
  assert (Hthrow : ∀ pre p post, polls = pre ++ p :: post → Forall poll_fine pre → poll_without_rate p →
    (poll_tasks w polls c).1 = LoadThrew).
  { intros pre p post -> Hf Hp. destruct (poll_tasks_fine w pre (p :: post) c Hf) as [c' ->]. by apply poll_tasks_throws. }
  destruct (poll_tasks w polls c) as [ended calls]. cbn [fst snd] in *. exists m.
  assert (Hrun : Forall (running_call id) m).
  { destruct ended; cbn [g_main g_reporter] in Hm; (eapply interleave_forall; [exact Hm|done|]); try apply Forall_take; done. }
  split; [done|]. split.
  - intros [c' ->]%Hfine. cbn. split_and!; [done..|]. intros ->. apply report_metrics_closed.
  - intros pre p post E Hf Hp. rewrite (Hthrow pre p post E Hf Hp) in *. cbn. by rewrite app_nil_r.
Qed.

End Session.

(** A worker that is handed one task, whose host does not resolve, and reports once. *)
Definition demo_task : Task := mkTask "http://h:80/" 100 10 [].
Definition demo_poll (task : option Task) : Poll :=
  mkPoll (bool_decide (is_Some task)) task (λ _, failing_env) (λ _, 0%nat) 1000 [mkReading true 2000 2100].
Definition demo_report : Rpc := WriteReport (report 5000 (mkWorker "w" 500 7) (mkCounters 3 3 0)).

Lemma demo_trace :
  grpc_main all_verbs (λ _, false) "w" 500 (mkRegister true true 7) [demo_poll None; demo_poll (Some demo_task)] true
    [(5000, mkCounters 3 3 0, true)] 0
  = mkTrace (Some (Exited 0)) [RegisterWorker "w" "localhost:50051" 500] [AssignTask 7; AssignTask 7]
      [ReportMetrics; demo_report; WritesDone; Finish] [UnregisterWorker 7 "shutdown"].
Proof. vm_compute. reflexivity. Qed.

Lemma grpc_session_witness :
  let h := [RegisterWorker "w" "localhost:50051" 500; ReportMetrics; AssignTask 7; AssignTask 7;
            demo_report; WritesDone; Finish; UnregisterWorker 7 "shutdown"] in
  ∃ m, Forall (running_call 7) m ∧ h = RegisterWorker "w" "localhost:50051" 500 :: m ++ [UnregisterWorker 7 "shutdown"].
Proof.
  intros h.
  destruct (grpc_session all_verbs (λ _, false) eq_refl ltac:(eexists; exact demo_made) "w" 500 (mkRegister true true 7)
    [demo_poll None; demo_poll (Some demo_task)] true [(5000, mkCounters 3 3 0, true)] 0 h) as (m & Hm & Hfine & _).
  - rewrite demo_trace. exists [ReportMetrics; AssignTask 7; AssignTask 7; demo_report; WritesDone; Finish]. split; [|reflexivity].
    apply il_right, il_left, il_left, il_right, il_right, il_right, il_nil.
  - destruct Hfine as (_ & E & _).
    { repeat (apply Forall_cons; split); [exact I| |constructor]. split; [cbn; lia|by eexists]. }
    exists m. split; [exact Hm|exact E].
Defined.

End GrpcRun.
