(* ===== verification/ServerLife.v ===== *)
(** * Starting and stopping the control plane's server

    [core/platform/http_server.cpp]: the constructor, [start], [stop] and the thread that
    runs [accept_loop].  What a session does is [HttpServer]'s; here a session is the time
    the thread spends in [handle_session], which lasts until its client has sent a request
    or gone away. *)

From S2P Require Import Prelude.

(** Where the accepting thread is: before the test of [running_]; before
    [non_blocking(true)]; before [accept]; asleep; before [non_blocking(false)]; in
    [handle_session]; returned. *)
Inductive Loc := Testing | Setting | Accepting | Sleeping | Clearing | Serving | Returned.

#[global] Instance Loc_eq_dec : EqDecision Loc.
Proof. solve_decision. Defined.

(** [s_joining]: a call of [stop] waits in [join]; [s_terminated]: an exception left a
    thread function, or [accept_thread_] was assigned while joinable. *)
(** [src/include/cppload/platform/http_server.hpp:58-61] HttpServer *)
Record Server := mkServer {
  running_ : bool; acceptor_open : bool; accept_thread_ : option Loc; s_joining : bool; s_terminated : bool }.

(** [src/core/platform/http_server.cpp:170-184] HttpServer::HttpServer *)
Definition make_server : Server := mkServer false true None false false.

Definition at_loc (l : Loc) (s : Server) : Server :=
  mkServer (running_ s) (acceptor_open s) (Some l) (s_joining s) (s_terminated s).
Definition abort (s : Server) : Server :=
  mkServer (running_ s) (acceptor_open s) (accept_thread_ s) (s_joining s) true.

(** [src/core/platform/http_server.cpp:190-193] HttpServer::start *)
Definition start (s : Server) : Server :=
  match accept_thread_ s with
  | None => mkServer true (acceptor_open s) (Some Testing) (s_joining s) (s_terminated s)
  | Some _ => mkServer true (acceptor_open s) (accept_thread_ s) (s_joining s) true
  end.

(** Up to the call of [join], which waits if there is a thread. *)
(** [src/core/platform/http_server.cpp:195-200] HttpServer::stop *)
Definition stop_begin (s : Server) : Server :=
  mkServer false false (accept_thread_ s) (bool_decide (is_Some (accept_thread_ s))) (s_terminated s).

(** The steps of the accepting thread, with those of its clients: [accept] finds nothing,
    fails, or has a connection; a session ends when the client has sent its request or closed
    the connection. *)
(** [src/core/platform/http_server.cpp:204-222] HttpServer::accept_loop *)
Inductive thread_step : Server → Server → Prop :=
  | t_test s : accept_thread_ s = Some Testing →
      thread_step s (at_loc (if running_ s then Setting else Returned) s)
  | t_set s : accept_thread_ s = Some Setting →
      thread_step s (if acceptor_open s then at_loc Accepting s else abort s)
  | t_would_block s : accept_thread_ s = Some Accepting → acceptor_open s = true → thread_step s (at_loc Sleeping s)
  | t_error s : accept_thread_ s = Some Accepting → thread_step s (at_loc Testing s)
  | t_accept s : accept_thread_ s = Some Accepting → acceptor_open s = true → thread_step s (at_loc Clearing s)
  | t_wake s : accept_thread_ s = Some Sleeping → thread_step s (at_loc Testing s)
  | t_clear s : accept_thread_ s = Some Clearing →
      thread_step s (if acceptor_open s then at_loc Serving s else abort s)
  | t_served s : accept_thread_ s = Some Serving → thread_step s (at_loc Testing s).

(** The steps of the whole: the owner calls [start] and [stop], one at a time. *)
(** [src/core/platform/http_server.cpp:186-202] HttpServer::stop *)
Inductive server_step : Server → Server → Prop :=
  | ss_thread s s' : s_terminated s = false → thread_step s s' → server_step s s'
  | ss_start s : s_terminated s = false → s_joining s = false → server_step s (start s)
  | ss_stop s : s_terminated s = false → s_joining s = false → server_step s (stop_begin s)
  | ss_join s : s_terminated s = false → s_joining s = true → accept_thread_ s = Some Returned →
      server_step s (mkServer (running_ s) (acceptor_open s) None false false).

(** ** What holds of every run *)

(** While [stop] waits, the flag is down, the acceptor closed, and there is a thread. *)
Definition joining_inv (s : Server) : Prop :=
  s_joining s = true → running_ s = false ∧ acceptor_open s = false ∧ is_Some (accept_thread_ s).

Lemma joining_inv_step s s' : joining_inv s → server_step s s' → joining_inv s'.
Proof.
  intros Hi Hstep. destruct Hstep as [s s' Ht Hs|s Ht Hj|s Ht Hj|s Ht Hj Hr].
  - destruct Hs as [s Hl|s Hl|s Hl Ho|s Hl|s Hl Ho|s Hl|s Hl|s Hl]; unfold joining_inv in *; cbn;
      try (destruct (acceptor_open s) eqn:Eo); cbn; intros Hj; specialize (Hi Hj);
      destruct Hi as (? & ? & ?); by split_and!.
  - unfold joining_inv, start. destruct (accept_thread_ s); cbn; congruence.
  - unfold joining_inv. cbn. intros Hj'%bool_decide_eq_true. done.
  - done.
Qed.

Lemma joining_inv_reachable s : rtc server_step make_server s → joining_inv s.
Proof.
  apply (rtc_ind_r joining_inv); [done|]. intros s1 s2 _ Hs Hi. by eapply joining_inv_step.
Qed.

(** The calls a stopped thread still makes, at most. *)
Definition steps_left (l : Loc) : nat :=
  match l with Returned => 0 | Testing | Setting | Clearing => 1 | Accepting | Sleeping | Serving => 2 end.

Definition shut (s : Server) : Prop := running_ s = false ∧ acceptor_open s = false.

Lemma shut_step s s' l :
  shut s → accept_thread_ s = Some l → s_terminated s = false → thread_step s s' →
  shut s'
  ∧ (if decide (l = Setting ∨ l = Clearing) then s_terminated s' = true
     else s_terminated s' = false ∧ ∃ l', accept_thread_ s' = Some l' ∧ S (steps_left l') = steps_left l ∧ (l' = Returned ∨ l' = Testing)).
Proof.
  intros [Hr Ho] Hl Ht Hs. destruct Hs as [s Hs|s Hs|s Hs Hop|s Hs|s Hs Hop|s Hs|s Hs|s Hs]; rewrite Hs in Hl; injection Hl as <-;
    rewrite ?Hr, ?Ho; try congruence; (split; [by split|]); cbn; try done; (split; [done|]); eexists; (split; [done|]); by auto.
Qed.

(** The thread of a process that has not been terminated. *)
Definition live_step (s s' : Server) : Prop := s_terminated s = false ∧ thread_step s s'.

Lemma thread_can_step s l : accept_thread_ s = Some l → l ≠ Returned → ∃ s', thread_step s s'.
Proof. intros Hl Hne. destruct l; try done; eexists; by constructor. Qed.

(** A thread that is past the calls on the acceptor returns. *)
Lemma shut_returns k s l :
  shut s → accept_thread_ s = Some l → s_terminated s = false → steps_left l = k → ¬ (l = Setting ∨ l = Clearing) →
  ∃ s', nsteps live_step k s s' ∧ accept_thread_ s' = Some Returned ∧ s_terminated s' = false ∧ shut s'
    ∧ s_joining s' = s_joining s.
Proof.
  revert s l. induction k as [|k IH]; intros s l Hs Hl Ht Hk Hne.
  { destruct l; try done. exists s. split; [constructor|done]. }
  destruct (thread_can_step s l Hl) as [s1 H1]; [by intros ->|].
  destruct (shut_step s s1 l Hs Hl Ht H1) as [Hs1 Hd]. rewrite decide_False in Hd by done.
  destruct Hd as (Ht1 & l1 & Hl1 & Hk1 & Hor).
  assert (Hj : s_joining s1 = s_joining s) by (destruct H1; try done; by destruct (acceptor_open _)).
  destruct (IH s1 l1 Hs1 Hl1 Ht1) as (s' & Hn & Hr & Ht' & Hs' & Hj'); [lia|intros [->| ->]; destruct Hor; done|].
  exists s'. split; [|split_and!; [done..|congruence]]. econstructor; [by split|done].
Qed.

Lemma shut_bounded n s s' l :
  nsteps live_step n s s' → shut s → accept_thread_ s = Some l → (n ≤ steps_left l)%nat.
Proof.
  revert s l. induction n as [|n IH]; intros s l Hn Hs Hl; [lia|]. inversion Hn as [|? ? s1 ? [Ht H1] Hn1]; subst.
  destruct (shut_step s s1 l Hs Hl Ht H1) as [Hs1 Hd]. destruct (decide _) as [Hc|].
  - destruct n as [|n]; [destruct Hc as [->| ->]; cbn; lia|]. inversion Hn1 as [|? ? s2 ? [Ht2 _] _]. congruence.
  - destruct Hd as (Ht1 & l1 & Hl1 & Hk1 & _). specialize (IH s1 l1 Hn1 Hs1 Hl1). lia.
Qed.


(** [stop] while the thread is about to ask the acceptor for a connection. *)
Definition demo_stop : Server := stop_begin (at_loc Setting (start make_server)).

Lemma demo_stop_reachable : rtc server_step make_server demo_stop.
Proof.
  eapply rtc_l; [apply ss_start; done|]. eapply rtc_l; [apply ss_thread; [done|by apply t_test]|].
  eapply rtc_l; [apply ss_stop; done|]. apply rtc_refl.
Qed.

