(* ===== verification/ApiHelp.v ===== *)
(** * The control plane's help and its routes

    [platform/control-plane/main.cpp]: the text of [--help], with the list of the
    endpoints, and what [main] does; read against [HttpServer::route]. *)

From S2P Require Import Prelude CppString Result Double Ostream Repo Policy HttpServer Workers ServerLife.

Local Open Scope Z_scope.

(** [src/platform/control-plane/main.cpp:34-54] print_help *)
Definition print_help : string :=
  line "volley-control-plane — REST API for load test management" +:+ line ""
  +:+ line "Usage: volley-control-plane [options]" +:+ line ""
  +:+ line "Options:"
  +:+ line "  --address=ADDR  Bind address (default: 0.0.0.0)"
  +:+ line "  --port=PORT     Bind port (default: 8080)"
  +:+ line "  -h, --help      Show this help" +:+ line ""
  +:+ line "API endpoints:"
  +:+ line "  GET    /health                       Health check"
  +:+ line "  GET    /api/v1/projects              List projects"
  +:+ line "  POST   /api/v1/projects              Create project"
  +:+ line "  GET    /api/v1/projects/:id          Get project"
  +:+ line "  DELETE /api/v1/projects/:id          Delete project"
  +:+ line "  GET    /api/v1/projects/:id/scenarios  List scenarios"
  +:+ line "  POST   /api/v1/projects/:id/scenarios  Create scenario"
  +:+ line "  GET    /api/v1/projects/:id/runs     List runs"
  +:+ line "  POST   /api/v1/projects/:id/runs     Create run"
  +:+ line "  GET    /api/v1/projects/:id/policies List policies"
  +:+ line "  POST   /api/v1/projects/:id/policies Create policy"
  +:+ line "  POST   /api/v1/evaluate              Evaluate policy".

(** How the process ends: [binds] is whether the constructor of the server can listen;
    the accepting thread and [stop] are [ServerLife]'s. *)
(** [src/platform/control-plane/main.cpp:58-78] main *)
Definition control_plane_main (argv : list string) (binds : ControlPlane.Config → bool) :
    Outcome (string * option Server) :=
  match ControlPlane.parse_args argv with
  | Continue cfg =>
      if ControlPlane.help cfg then Continue (print_help, None)
      else if binds cfg then
        Continue (line ("volley control plane listening on " +:+ ControlPlane.address cfg +:+ ":" +:+ to_string (ControlPlane.port cfg)),
                  Some (start make_server))
      else Killed
  | Exited c => Exited c
  | Killed => Killed
  end.

(** ** The endpoints of the help *)

Definition method_verb (w : string) : option verb :=
  if (w =? "GET")%string then Some get else if (w =? "POST")%string then Some post
  else if (w =? "DELETE")%string then Some delete_ else None.

Definition help_endpoint (l : string) : option (verb * string) :=
  match List.filter (λ w, negb (is_empty w)) (words_of l) with
  | m :: path :: _ => v ← method_verb m; Some (v, path)
  | _ => None
  end.

Definition endpoints : list (verb * string) := Eval vm_compute in omap help_endpoint (lines_of print_help).

(** The request paths of a pattern, [:id] standing for the name of a project. *)
Inductive matches : string → string → Prop :=
  | m_plain p : lacks ":" p = true → matches p p
  | m_id suffix pid : lacks "/" pid = true → matches ("/api/v1/projects/:id" +:+ suffix) ("/api/v1/projects/" +:+ pid +:+ suffix).

#[global] Instance verb_eq_dec : EqDecision verb.
Proof. solve_decision. Defined.

(** ** The routes *)

(** A concrete element of the list. *)
Ltac member := match goal with |- ?P => refine (bool_decide_eq_true_1 P _); vm_compute; reflexivity end.

Lemma prefix_split p s : String.prefix p s = true → ∃ r, s = p +:+ r.
Proof.
  revert s. induction p as [|c p IH]; intros [|d s]; [by exists ""|by exists (String d s)|done|]. cbn.
  destruct (ascii_dec c d) as [->|]; [|done]. intros [r ->]%IH. by exists r.
Qed.

Section Routes.
Context `{JsonLib} {S : Type} `{Repository S}.

(** A response that does not reject the method. *)
Definition allowed (r : option Response * S) : Prop := ∀ resp, r.1 = Some resp → status resp ≠ 405.

Lemma created_allowed {T} msg (f : T → json) r : allowed (created msg f r).
Proof. destruct r as [[x|e] s]; intros resp [= <-]; cbn; [done|by destruct e]. Qed.

Lemma with_body_allowed b k s : (∀ j s, allowed (k j s)) → allowed (with_body b k s).
Proof. intros Hk. unfold with_body. destruct (json_parse b); [apply Hk|]. by intros resp [= <-]. Qed.

(** The routes below a project. *)
Lemma route_project env m pid b s :
  lacks "/" pid = true → route env m ("/api/v1/projects/" +:+ pid) b s = handle_project m pid s.
Proof.
  intros Hpid. unfold route. destruct (String.eqb_spec ("/api/v1/projects/" +:+ pid) "/api/v1/projects"); [done|].
  cbv zeta. rewrite prefix_app. change 17%nat with (String.length "/api/v1/projects/"). rewrite sdrop_app.
  by rewrite (proj2 (find_char_None "/" pid)).
Qed.

Lemma route_below env m pid sub b s :
  lacks "/" pid = true →
  route env m ("/api/v1/projects/" +:+ pid +:+ String "/" sub) b s =
    if (sub =? "scenarios")%string then handle_scenarios env m pid b s
    else if (sub =? "runs")%string then handle_runs env m pid b s
    else if (sub =? "policies")%string then handle_policies env m pid b s
    else (Some not_found_response, s).
Proof.
  intros Hpid. unfold route.
  destruct (String.eqb_spec ("/api/v1/projects/" +:+ pid +:+ String "/" sub) "/api/v1/projects"); [done|].
  cbv zeta. rewrite prefix_app. change 17%nat with (String.length "/api/v1/projects/"). rewrite sdrop_app.
  rewrite (find_char_app "/" pid sub) by done. rewrite stake_app, sdrop_app. done.
Qed.

Lemma handlers_allow env m pid b s :
  (m = get ∨ m = post → allowed (handle_projects env m b s) ∧ allowed (handle_scenarios env m pid b s)
     ∧ allowed (handle_runs env m pid b s) ∧ allowed (handle_policies env m pid b s))
  ∧ (m = get ∨ m = delete_ → allowed (handle_project m pid s)) ∧ (m = post → allowed (handle_evaluate m b s)).
Proof.
  assert (Hok : ∀ st msg s, st ≠ 405 → allowed (Some (mkResponse st msg), s)) by (by intros st msg s' Hst resp [= <-]).
  assert (Hthrow : ∀ s, allowed (None, s)) by (by intros s' resp ?).
  assert (He : ∀ e, status_to_http e ≠ 405) by (by intros []).
  split_and!.
  - intros [->| ->]; split_and!; try by apply Hok.
    all: apply with_body_allowed; intros j s'; repeat case_match; try apply Hthrow; apply created_allowed.
  - intros [->| ->]; unfold handle_project, result_to_response; repeat case_match; by apply Hok.
  - intros ->. apply with_body_allowed. intros j s'. repeat case_match; try apply Hthrow; by apply Hok.
Qed.

Lemma handlers_reject env m pid b s :
  (m ≠ get → m ≠ post →
     handle_projects env m b s = (Some method_not_allowed_response, s)
     ∧ handle_scenarios env m pid b s = (Some method_not_allowed_response, s)
     ∧ handle_runs env m pid b s = (Some method_not_allowed_response, s)
     ∧ handle_policies env m pid b s = (Some method_not_allowed_response, s))
  ∧ (m ≠ get → m ≠ delete_ → handle_project m pid s = (Some method_not_allowed_response, s))
  ∧ (m ≠ post → handle_evaluate m b s = (Some method_not_allowed_response, s)).
Proof. destruct m; split_and!; intros; done. Qed.

(** Decide the listing of a concrete endpoint. *)
Ltac listed :=
  match goal with |- context [bool_decide ?P] =>
    let b := eval vm_compute in (bool_decide P) in replace (bool_decide P) with b by (vm_compute; reflexivity) end;
  cbv iota.

Ltac each_pattern H := unfold endpoints in H; cbn [fmap list_fmap snd] in H; rewrite !elem_of_cons, elem_of_nil in H;
  destruct_or! H; try done.

Lemma plain_routes env m p b s :
  p ∈ endpoints.*2 → lacks ":" p = true →
  if bool_decide ((m, p) ∈ endpoints ∨ p = "/health") then allowed (route env m p b s)
  else route env m p b s = (Some method_not_allowed_response, s).
Proof.
  intros Hin Hp. destruct (handlers_allow env m "" b s) as (A1 & _ & A3). destruct (handlers_reject env m "" b s) as (R1 & _ & R3).
  each_pattern Hin; subst p; try done; destruct m; listed;
    first [by apply A1; auto | by apply R1 | by apply A3 | by apply R3 | by intros resp [= <-]].
Qed.

Lemma project_routes env m pid suffix b s :
  lacks "/" pid = true → "/api/v1/projects/:id" +:+ suffix ∈ endpoints.*2 →
  if bool_decide ((m, "/api/v1/projects/:id" +:+ suffix) ∈ endpoints ∨ "/api/v1/projects/:id" +:+ suffix = "/health")
  then allowed (route env m ("/api/v1/projects/" +:+ pid +:+ suffix) b s)
  else route env m ("/api/v1/projects/" +:+ pid +:+ suffix) b s = (Some method_not_allowed_response, s).
Proof.
  intros Hpid Hin. destruct (handlers_allow env m pid b s) as (A1 & A2 & _). destruct (handlers_reject env m pid b s) as (R1 & R2 & _).
  each_pattern Hin; cbn in Hin; injection Hin as ->; rewrite ?sapp_nil_r, ?route_project, ?route_below by done; cbn [String.eqb Ascii.eqb Bool.eqb];
    destruct m; listed; first [by apply A1; auto | by apply R1 | by apply A2; auto | by apply R2].
Qed.

Lemma unknown_routes env m path b s :
  (∀ pattern, pattern ∈ endpoints.*2 → ¬ matches pattern path) → route env m path b s = (Some not_found_response, s).
Proof.
  intros Hno.
  assert (Hplain : ∀ p, p ∈ endpoints.*2 → lacks ":" p = true → path ≠ p) by (intros p Hin Hp ->; by eapply Hno, m_plain).
  assert (Hid : ∀ suffix pid, "/api/v1/projects/:id" +:+ suffix ∈ endpoints.*2 → lacks "/" pid = true →
    path ≠ "/api/v1/projects/" +:+ pid +:+ suffix) by (intros suffix pid Hin Hp ->; by eapply Hno, m_id).
  destruct (String.prefix "/api/v1/projects/" path) eqn:Epre.
  - apply prefix_split in Epre as [rest ->]. destruct (find_char "/" rest) as [i|] eqn:Ei.
    + apply find_char_Some in Ei as (Hrest & Hl & _). revert Hid. rewrite Hrest. set (pid := stake i rest) in *.
      set (sub := sdrop (Datatypes.S i) rest). intros Hid. rewrite route_below by done.
      repeat match goal with |- context [(sub =? ?k)%string] => destruct (String.eqb_spec sub k) as [Ek|_] end; [exfalso..|done].
      * by apply (Hid "/scenarios" pid); [member| |rewrite Ek].
      * by apply (Hid "/runs" pid); [member| |rewrite Ek].
      * by apply (Hid "/policies" pid); [member| |rewrite Ek].
    + apply find_char_None in Ei. exfalso. apply (Hid "" rest); [|done|by rewrite sapp_nil_r]. member.
  - unfold route. rewrite Epre.
    repeat match goal with |- context [(path =? ?k)%string] =>
      destruct (String.eqb_spec path k) as [Ek|_]; [exfalso; apply (Hplain k); [member|done|done]|] end.
    done.
Qed.

(** The help of the control plane lists the routes: for every path it gives, with any
    name for [:id], a method it lists for that path is handled, and any other method is
    answered 405 and changes nothing ([/health] alone takes every method); a path that none
    of its patterns matches is answered 404 and changes nothing. *)
Theorem api_help_documents_routes env (m : verb) (path b : string) (s : S) :
  (∀ pattern, pattern ∈ endpoints.*2 → matches pattern path →
     if bool_decide ((m, pattern) ∈ endpoints ∨ pattern = "/health") then allowed (route env m path b s)
     else route env m path b s = (Some method_not_allowed_response, s))
  ∧ ((∀ pattern, pattern ∈ endpoints.*2 → ¬ matches pattern path) →
     route env m path b s = (Some not_found_response, s)).
Proof.
  split.
  - intros pattern Hin Hm. destruct Hm as [p Hp|suffix pid Hpid].
    + by apply plain_routes.
    + by apply project_routes.
  - apply unknown_routes.
Qed.

End Routes.

Lemma api_help_documents_routes_witness :
  route (S := InMemory) env0 delete_ "/api/v1/evaluate" "" empty_repo = (Some method_not_allowed_response, empty_repo)
  ∧ route (S := InMemory) env0 get "/metrics" "" empty_repo = (Some not_found_response, empty_repo).
Proof.
  split.
  - exact (proj1 (api_help_documents_routes (S := InMemory) env0 delete_ "/api/v1/evaluate" "" empty_repo) "/api/v1/evaluate"
      ltac:(member) (m_plain "/api/v1/evaluate" eq_refl)).
  - apply (proj2 (api_help_documents_routes (S := InMemory) env0 get "/metrics" "" empty_repo)).
    intros pattern Hin Hm. inversion Hm; subst.
    refine (bool_decide_eq_false_1 ("/metrics" ∈ endpoints.*2) _ Hin). vm_compute. reflexivity.
Defined.
