(* ===== verification/Bindings.v ===== *)
(** * The Python module

    [python/bindings.cpp]: what [PYBIND11_MODULE(_volley, m)] registers, class by class in
    the order of the file, with the C++ types of the members it names.  pybind11 itself is
    outside; of it the following documented rules are used.

    - A value crosses the border if its type is built in (numbers, [bool], strings, and by
      [stl.h] and [chrono.h] maps and durations, which are copied) or a class or enumeration
      that was registered.
    - Registering a name twice fails, and so does a default argument whose class is not
      registered when it is given; either makes the import fail.
    - A call converts its arguments first, and raises [TypeError] if one has no conversion
      or a number is out of the range of its type; it converts the result after the C++
      function has run, and raises [TypeError] if its type is unknown. *)

From S2P Require Import Prelude CppString Double TokenBucket Ring Collector.

Local Open Scope Z_scope.

(** ** Registrations *)

(** The types of arguments, results and fields; [Obj] is a class or an enumeration. *)
Inductive Ty :=
  | Void | Bool | UInt (bits : Z) | Int64 | Real | Str | StrMap | Millis | Seconds
  | Obj (cls : string).

#[global] Instance Ty_eq_dec : EqDecision Ty.
Proof. solve_decision. Defined.

(** An argument, and whether it has a default value. *)
Record Arg := mkArg { a_ty : Ty; a_default : bool }.
Definition arg (t : Ty) : Arg := mkArg t false.
Definition opt_arg (t : Ty) : Arg := mkArg t true.

Inductive Member :=
  | Init (args : list Arg)
  | Method (name : string) (args : list Arg) (result : Ty)
  | Field (name : string) (ty : Ty) (writable : bool).

Inductive Entry :=
  | Enum (cls : string) (values : list string)
  | Class (cls : string) (members : list Member).

Abbreviation size_t := (UInt 64).
Definition rw (n : string) (t : Ty) : Member := Field n t true.
Definition ro (n : string) (t : Ty) : Member := Field n t false.
Definition result_of (t : string) : Ty := Obj ("Result<" +:+ t +:+ ", Err>").

(** [src/python/bindings.cpp:33-40] PYBIND11_MODULE *)
Definition bind_Err : Entry :=
  Enum "Err" ["SUCCESS"; "DNS_FAILURE"; "CONNECTION_REFUSED"; "TIMEOUT"; "TLS_HANDSHAKE_FAILED"; "NOT_IMPLEMENTED"].

(** [src/python/bindings.cpp:43-51] PYBIND11_MODULE *)
Definition bind_Request : Entry :=
  Class "Request" [Init []; rw "method" Str; rw "path" Str; rw "body" Str; rw "headers" StrMap; rw "host" Str;
                   rw "port" (UInt 16); rw "use_tls" Bool].

(** [src/python/bindings.cpp:53-59] PYBIND11_MODULE *)
Definition bind_Response : Entry :=
  Class "Response" [Init []; rw "status_code" (UInt 16); rw "body" Str; rw "headers" StrMap; ro "latency_us" Int64].

(** [src/python/bindings.cpp:61-65] PYBIND11_MODULE *)
Definition bind_Http11Client : Entry :=
  Class "Http11Client" [Init [arg (Obj "io_context")]; Method "set_timeout" [arg Millis] Void;
                        Method "set_keep_alive" [arg Bool] Void; Method "name" [] Str].

(** [src/python/bindings.cpp:68-73] PYBIND11_MODULE *)
Definition bind_PoolConfig : Entry :=
  Class "PoolConfig" [Init []; rw "min_connections" size_t; rw "max_connections" size_t; rw "idle_timeout" Seconds;
                      rw "keep_alive" Bool].

(** [src/python/bindings.cpp:75-77] PYBIND11_MODULE *)
Definition bind_ConnectionPool : Entry :=
  Class "ConnectionPool" [Init [arg (Obj "io_context"); opt_arg (Obj "PoolConfig")]].

(** [src/python/bindings.cpp:80-96] PYBIND11_MODULE *)
Definition bind_MetricsCollector : Entry :=
  Class "MetricsCollector"
    [Init []; Method "record_request" [arg (UInt 16); arg (UInt 64); arg size_t; arg size_t] Void;
     Method "requests_per_second" [] Real; Method "error_rate" [] Real; Method "p95_latency_us" [] (UInt 64);
     Method "p99_latency_us" [] (UInt 64); Method "reset" [] Void; Method "snapshot" [] (Obj "RequestMetrics")].

(** [src/python/bindings.cpp:98-104] PYBIND11_MODULE *)
Definition bind_RequestMetrics : Entry :=
  Class "RequestMetrics"
    [Init []; ro "total_requests" (UInt 64); ro "successful_requests" (UInt 64); ro "failed_requests" (UInt 64);
     ro "total_bytes_sent" (UInt 64); ro "total_bytes_received" (UInt 64)].

(** [src/python/bindings.cpp:107-112] PYBIND11_MODULE *)
Definition bind_TokenBucket : Entry :=
  Class "TokenBucket" [Init [arg Real; opt_arg Real]; Method "consume" [] Void; Method "try_consume" [] Bool;
                       Method "set_rate" [arg Real] Void; Method "set_burst" [arg Real] Void].

(** [src/python/bindings.cpp:115-121] PYBIND11_MODULE *)
Definition bind_AuthType : Entry := Enum "AuthType" ["NONE"; "API_KEY"; "BEARER_TOKEN"; "OAUTH2"; "MTLS"].

(** [src/python/bindings.cpp:123-130] PYBIND11_MODULE *)
Definition bind_AuthConfig : Entry :=
  Class "AuthConfig" [Init []; rw "type" (Obj "AuthType"); rw "api_key" Str; rw "token" Str; rw "client_id" Str;
                      rw "client_secret" Str; rw "token_endpoint" Str].

(** [src/python/bindings.cpp:132-138] PYBIND11_MODULE *)
Definition bind_AuthProvider : Entry :=
  Class "AuthProvider" [Init [opt_arg (Obj "AuthConfig")]; Method "apply_headers" [arg StrMap] Void;
                        Method "get_auth_header" [] Str; Method "refresh_token" [] (result_of "bool");
                        Method "is_expired" [] Bool].

(** [src/python/bindings.cpp:141-147] PYBIND11_MODULE *)
Definition bind_TlsConfig : Entry :=
  Class "TlsConfig" [Init []; rw "verify_peer" Bool; rw "cert_chain_file" Str; rw "private_key_file" Str;
                     rw "ca_cert_file" Str; rw "use_mtls" Bool].

(** [src/python/bindings.cpp:149-152] PYBIND11_MODULE *)
Definition bind_TlsContext : Entry :=
  Class "TlsContext" [Init [opt_arg (Obj "TlsConfig")]; Method "is_mtls_enabled" [] Bool].

(** [src/python/bindings.cpp:155-160] PYBIND11_MODULE *)
Definition bind_VaultConfig : Entry :=
  Class "VaultConfig" [Init []; rw "address" Str; rw "token" Str; rw "engine_path" Str; rw "timeout_seconds" (UInt 32)].

(** [src/python/bindings.cpp:162-176] PYBIND11_MODULE *)
Definition bind_VaultClient : Entry :=
  Class "VaultClient"
    [Init [opt_arg (Obj "VaultConfig")]; Method "is_connected" [] Bool;
     Method "get_secret" [arg Str; arg Str] (result_of "string");
     Method "get_secret_map" [arg Str] (result_of "map");
     Method "put_secret" [arg Str; arg StrMap] (result_of "bool");
     Method "get_database_creds" [arg Str] (result_of "string");
     Method "get_approle_token" [arg Str; arg Str] (result_of "string"); Method "last_error" [] Str].

(** [src/python/bindings.cpp:179-183] PYBIND11_MODULE *)
Definition bind_TraceConfig : Entry :=
  Class "TraceConfig" [Init []; rw "endpoint" Str; rw "sample_rate" Real; rw "service_name" Str].

(** [src/python/bindings.cpp:185-191] PYBIND11_MODULE *)
Definition bind_Tracer : Entry :=
  Class "Tracer" [Init [opt_arg (Obj "TraceConfig")]; Method "start_span" [arg Str] Void; Method "end_span" [] Void;
                  Method "add_attribute" [arg Str; arg Str] Void; Method "trace_id" [] Str].

(** [src/python/bindings.cpp:194-196] PYBIND11_MODULE *)
Definition bind_ScenarioConfig : Entry := Class "ScenarioConfig" [Init []; rw "test_id" Str].

(** The module, in the order of registration. *)
(** [src/python/bindings.cpp:29-197] PYBIND11_MODULE *)
Definition volley : list Entry :=
  [bind_Err; bind_Request; bind_Response; bind_Http11Client; bind_PoolConfig; bind_ConnectionPool; bind_MetricsCollector;
   bind_RequestMetrics; bind_TokenBucket; bind_AuthType; bind_AuthConfig; bind_AuthProvider; bind_TlsConfig;
   bind_TlsContext; bind_VaultConfig; bind_VaultClient; bind_TraceConfig; bind_Tracer; bind_ScenarioConfig].

(** ** What pybind11 makes of them *)

Definition entry_name (e : Entry) : string := match e with Enum c _ | Class c _ => c end.
Definition members (e : Entry) : list Member := match e with Enum _ _ => [] | Class _ ms => ms end.

(** Whether the type can be converted when the classes [reg] are registered. *)
Definition converts (reg : list string) (t : Ty) : bool :=
  match t with Obj c => bool_decide (c ∈ reg) | _ => true end.

Definition member_args (m : Member) : list Arg :=
  match m with Init args | Method _ args _ => args | Field _ _ _ => [] end.

(** The import: the classes registered, or [None] if it fails. *)
Fixpoint import_from (reg : list string) (es : list Entry) : option (list string) :=
  match es with
  | [] => Some reg
  | e :: es =>
      if bool_decide (entry_name e ∈ reg) then None
      else
        let reg := reg ++ [entry_name e] in
        if forallb (λ m, forallb (λ a, negb (a_default a) || converts reg (a_ty a)) (member_args m)) (members e)
        then import_from reg es else None
  end.

Definition import (es : list Entry) : option (list string) := import_from [] es.

(** *** The values a program can get

    Objects come from constructors, enumerations, fields and results; [obtains] is the
    least set of types closed under what a program can write. *)
Section Reach.
Context (es : list Entry).

Definition registered (t : Ty) : bool := converts (entry_name <$> es) t.

Inductive obtains : Ty → Prop :=
  | ob_builtin t : (∀ c, t ≠ Obj c) → obtains t
  | ob_value c vs v : Enum c vs ∈ es → v ∈ vs → obtains (Obj c)
  | ob_init c ms args : Class c ms ∈ es → Init args ∈ ms →
      (∀ a, a ∈ args → a_default a = false → obtains (a_ty a)) → obtains (Obj c)
  | ob_call c ms n args r : Class c ms ∈ es → Method n args r ∈ ms → obtains (Obj c) →
      (∀ a, a ∈ args → a_default a = false → obtains (a_ty a)) → registered r = true → obtains r
  | ob_field c ms n t w : Class c ms ∈ es → Field n t w ∈ ms → obtains (Obj c) → registered t = true → obtains t.

(** The same by iteration: the classes of which [known] gives values. *)
Definition suffices (known : list string) (args : list Arg) : bool :=
  forallb (λ a, a_default a || converts known (a_ty a)) args.

Definition gives (t : Ty) : list string :=
  match t with Obj c => if registered (Obj c) then [c] else [] | _ => [] end.

Definition gained_by (known : list string) (c : string) (m : Member) : list string :=
  match m with
  | Init args => if suffices known args then [c] else []
  | Method _ args r => if bool_decide (c ∈ known) && suffices known args then gives r else []
  | Field _ t _ => if bool_decide (c ∈ known) then gives t else []
  end.

Definition gained (known : list string) (e : Entry) : list string :=
  match e with
  | Enum c vs => match vs with [] => [] | _ => [c] end
  | Class c ms => flat_map (gained_by known c) ms
  end.

Definition grow (known : list string) : list string := flat_map (gained known) es.

Lemma suffices_spec known args :
  suffices known args = true ↔ ∀ a, a ∈ args → a_default a = false → converts known (a_ty a) = true.
Proof.
  unfold suffices. rewrite forallb_forall. split; intros H a Ha; specialize (H a).
  - intros Hd. rewrite list_elem_of_In in Ha. specialize (H Ha). by rewrite Hd in H.
  - destruct (a_default a); [done|]. apply H; [by apply list_elem_of_In|done].
Qed.

Lemma elem_of_gives c t : c ∈ gives t ↔ t = Obj c ∧ registered t = true.
Proof.
  unfold gives. destruct t; try (split; [by intros ?%elem_of_nil|by intros [? _]]).
  destruct (registered _) eqn:E; [rewrite list_elem_of_singleton|rewrite elem_of_nil]; split; try naive_solver.
Qed.

Lemma elem_of_gained_by known c c' m :
  c ∈ gained_by known c' m ↔
  match m with
  | Init args => suffices known args = true ∧ c = c'
  | Method _ args r => c' ∈ known ∧ suffices known args = true ∧ c ∈ gives r
  | Field _ t _ => c' ∈ known ∧ c ∈ gives t
  end.
Proof.
  destruct m as [args|n args r|n t w]; cbn [gained_by].
  - destruct (suffices known args); [rewrite list_elem_of_singleton|rewrite elem_of_nil]; naive_solver.
  - destruct (bool_decide_reflect (c' ∈ known)), (suffices known args); cbn [andb]; rewrite ?elem_of_nil; naive_solver.
  - destruct (bool_decide_reflect (c' ∈ known)); rewrite ?elem_of_nil; naive_solver.
Qed.

Lemma elem_of_grow known c :
  c ∈ grow known ↔ (∃ vs v, Enum c vs ∈ es ∧ v ∈ vs) ∨ ∃ c' ms m, Class c' ms ∈ es ∧ m ∈ ms ∧ c ∈ gained_by known c' m.
Proof.
  unfold grow. rewrite list_elem_of_In, in_flat_map. split.
  - intros (e & He & Hc). rewrite <-list_elem_of_In in He. destruct e as [c' [|v vs]|c' ms]; cbn [gained] in Hc; [done| |].
    + destruct Hc as [<-|[]]. left. exists (v :: vs), v. split; [done|by left].
    + apply in_flat_map in Hc as (m & Hm & Hc). right. exists c', ms, m. split; [done|]. split; by apply list_elem_of_In.
  - intros [(vs & v & He & Hv)|(c' & ms & m & He & Hm & Hc)].
    + exists (Enum c vs). rewrite <-list_elem_of_In. split; [done|]. destruct vs; [by apply elem_of_nil in Hv|by left].
    + exists (Class c' ms). rewrite <-list_elem_of_In. split; [done|]. apply in_flat_map. exists m. split; by apply list_elem_of_In.
Qed.

Lemma grow_sound known : (∀ c, c ∈ known → obtains (Obj c)) → ∀ c, c ∈ grow known → obtains (Obj c).
Proof.
  intros Hk c. rewrite elem_of_grow. intros [(vs & v & He & Hv)|(c' & ms & m & He & Hm & Hc)]; [by eapply ob_value|].
  assert (Hargs : ∀ args, suffices known args = true → ∀ a, a ∈ args → a_default a = false → obtains (a_ty a)).
  { intros args Hs a Ha Hd. pose proof (proj1 (suffices_spec _ _) Hs a Ha Hd) as Hv.
    destruct (a_ty a); try (by apply ob_builtin). apply Hk. by apply bool_decide_eq_true in Hv. }
  apply elem_of_gained_by in Hc. destruct m as [args|n args r|n t w].
  - destruct Hc as [Hs ->]. eapply ob_init; eauto.
  - destruct Hc as (Hc & Hs & [-> Hr]%elem_of_gives). eapply ob_call; eauto.
  - destruct Hc as (Hc & [-> Hr]%elem_of_gives). eapply ob_field; eauto.
Qed.

(** What no further step adds to is all of it. *)
Lemma grow_complete known : grow known ⊆ known → ∀ t, obtains t → converts known t = true.
Proof.
  intros Hclosed t Ht.
  assert (Hin : ∀ c, (∃ vs v, Enum c vs ∈ es ∧ v ∈ vs) ∨ (∃ c' ms m, Class c' ms ∈ es ∧ m ∈ ms ∧ c ∈ gained_by known c' m) → c ∈ known)
    by (intros c Hc; apply Hclosed; by apply elem_of_grow).
  assert (Hres : ∀ c' ms m r, Class c' ms ∈ es → m ∈ ms → registered r = true →
    (∀ c, c ∈ gives r → c ∈ gained_by known c' m) → converts known r = true).
  { intros c' ms m r He Hm Hr Hg. destruct r; try done. apply bool_decide_eq_true, Hin. right. exists c', ms, m.
    split_and!; [done..|]. apply Hg. by apply elem_of_gives. }
  induction Ht as [t Hb|c vs v He Hv|c ms args He Hm _ IH|c ms n args r He Hm _ IHc _ IH Hr|c ms n t w He Hm _ IHc Hr].
  - destruct t; try done. by destruct (Hb cls).
  - apply bool_decide_eq_true, Hin. left. eauto.
  - apply bool_decide_eq_true, Hin. right. exists c, ms, (Init args). split_and!; [done..|].
    apply elem_of_gained_by. split; [by apply suffices_spec|done].
  - apply (Hres c ms (Method n args r) r He Hm Hr). intros c1 Hc1. apply elem_of_gained_by.
    split_and!; [by apply bool_decide_eq_true in IHc|by apply suffices_spec|done].
  - apply (Hres c ms (Field n t w) t He Hm Hr). intros c1 Hc1. apply elem_of_gained_by.
    split; [by apply bool_decide_eq_true in IHc|done].
Qed.

(** Iterated until nothing is new. *)
Definition reach (n : nat) : list string := Nat.iter n grow [].

Lemma reach_obtains n c : grow (reach n) ⊆ reach n → obtains (Obj c) ↔ c ∈ reach n.
Proof.
  intros Hc. split; [intros H; by apply (grow_complete _ Hc), bool_decide_eq_true in H|].
  revert c. clear Hc. induction n as [|n IH]; intros c; [by intros ?%elem_of_nil|]. cbn. by apply grow_sound.
Qed.

End Reach.

(** The calls of reachable objects that raise [TypeError] after they have run: their result
    is a [Result], which is not registered. *)
Definition broken_calls : list (string * string) :=
  [("AuthProvider", "refresh_token"); ("VaultClient", "get_secret"); ("VaultClient", "get_secret_map");
   ("VaultClient", "put_secret"); ("VaultClient", "get_database_creds"); ("VaultClient", "get_approle_token")].

(** The classes no program can make: their constructors take an [io_context]. *)
Definition closed_classes : list string := ["Http11Client"; "ConnectionPool"].

Lemma volley_reach : grow volley (reach volley 2) ⊆ reach volley 2.
Proof. apply (bool_decide_unpack _). vm_compute. exact I. Qed.

Lemma volley_members (P : string → Member → bool) :
  forallb (λ e, forallb (P (entry_name e)) (members e)) volley = true →
  ∀ c ms m, Class c ms ∈ volley → m ∈ ms → P c m = true.
Proof.
  rewrite forallb_forall. intros H c ms m He Hm. rewrite list_elem_of_In in He. specialize (H _ He).
  cbn in H. rewrite forallb_forall in H. apply H. by apply list_elem_of_In.
Qed.

Definition call_checked (c : string) (m : Member) : bool :=
  bool_decide (c ∈ closed_classes)
  || match m with
     | Init _ => true
     | Method n args r =>
         forallb (λ a, converts (reach volley 2) (a_ty a)) args
         && Bool.eqb (registered volley r) (negb (bool_decide ((c, n) ∈ broken_calls)))
     | Field _ t _ => registered volley t
     end.


(** ** The functions the module adds *)

(** The conversion of a Python integer to an unsigned type of [w] bits. *)
Definition py_uint (w x : Z) : option Z := if (0 <=? x) && (x <? 2 ^ w) then Some x else None.

(** [std::chrono::microseconds] of an unsigned number: its count is signed. *)
Definition micros (x : Z) : Z := if x <? 2 ^ 63 then x else x - 2 ^ 64.

(** [None] is the [TypeError] of an argument out of range. *)
(** [src/python/bindings.cpp:82-86] PYBIND11_MODULE *)
Definition py_record_request (status latency_us sent received : Z) (m : MetricsCollector) : option (option MetricsCollector) :=
  status ← py_uint 16 status; latency_us ← py_uint 64 latency_us; sent ← py_uint 64 sent; received ← py_uint 64 received;
  Some (record_request status (micros latency_us) sent received m).

Section Metrics.
Context `{NthElement}.

(** [src/python/bindings.cpp:89-91] PYBIND11_MODULE *)
Definition py_p95_latency_us (m : MetricsCollector) : option Z := m_p95_latency_us <$> snapshot m.

(** [src/python/bindings.cpp:92-94] PYBIND11_MODULE *)
Definition py_p99_latency_us (m : MetricsCollector) : option Z := m_p99_latency_us <$> snapshot m.

Lemma u64_micros x : 0 ≤ x < 2 ^ 64 → u64 (micros x) = x.
Proof.
  intros Hx. unfold micros, wrap. destruct (Z.ltb_spec x (2 ^ 63)); [by apply Z.mod_small|].
  symmetry. apply (Z.mod_unique _ _ (-1)); lia.
Qed.

Lemma percentiles_one x : percentiles [x] = Some (u64 x, u64 x).
Proof.
  assert (Hn : ∀ n, nth_element n [x] = [x]).
  { intros n. pose proof (nth_element_perm n [x]) as Hp. by apply Permutation_singleton_r in Hp. }
  unfold percentiles. cbn [List.length]. replace (pct_index (Z.of_nat 1) kP95) with (Some 0%nat) by by vm_compute.
  replace (pct_index (Z.of_nat 1) kP99) with (Some 0%nat) by by vm_compute. cbn. by rewrite Hn.
Qed.

(** What a program records is what it reads back, over the whole range of the argument
    types, although the count of [microseconds] is signed; a number out of range is
    refused. *)
Theorem py_latency_readback (t0 status latency_us sent received : Z) :
  let r := py_record_request status latency_us sent received (make_collector t0) in
  (r = None ↔ ¬ (0 ≤ status < 2 ^ 16 ∧ 0 ≤ latency_us < 2 ^ 64 ∧ 0 ≤ sent < 2 ^ 64 ∧ 0 ≤ received < 2 ^ 64))
  ∧ ∀ m, r = Some m → ∃ c, m = Some c ∧ py_p95_latency_us c = Some latency_us ∧ py_p99_latency_us c = Some latency_us.
Proof.
  intros r.
  assert (Hu : ∀ w x, py_uint w x = None ∧ ¬ (0 ≤ x < 2 ^ w) ∨ py_uint w x = Some x ∧ 0 ≤ x < 2 ^ w).
  { intros w x. unfold py_uint. destruct (Z.leb_spec 0 x), (Z.ltb_spec x (2 ^ w)); cbn; [right|left..]; split; try done; lia. }
  unfold r, py_record_request.
  destruct (Hu 16 status) as [[-> H1]|[-> H1]]; [split; [naive_solver|done]|].
  destruct (Hu 64 latency_us) as [[-> H2]|[-> H2]]; [split; [naive_solver|done]|].
  destruct (Hu 64 sent) as [[-> H3]|[-> H3]]; [split; [naive_solver|done]|].
  destruct (Hu 64 received) as [[-> H4]|[-> H4]]; [split; [naive_solver|done]|].
  split; [naive_solver|]. intros m [= <-]. set (o := mkObs status (micros latency_us) sent received).
  destruct (record_all_rep [o] _ [] (make_collector_rep t0)) as (c & Hc & Hr & Ht); [cbn; lia..|]. exists c. split; [exact Hc|].
  destruct (snapshot_rep c [o] Hr) as (m & Hm & _ & _ & _ & _ & _ & _ & _ & Hp); [rewrite Ht; cbn; lia|].
  change (keep_last kMaxSnapshotSamples (o_latency <$> [o])) with [micros latency_us] in Hp.
  rewrite percentiles_one, (u64_micros latency_us) in Hp by done. injection Hp as Hp95 Hp99.
  unfold py_p95_latency_us, py_p99_latency_us. rewrite Hm. cbn. by rewrite <-Hp95, <-Hp99.
Qed.

End Metrics.

(** [TokenBucket(rate)] is another bucket in Python than in C++: the default burst of the
    module is 0, which the constructor reads as one second's worth of tokens. *)
(** [src/python/bindings.cpp:108-108] PYBIND11_MODULE *)
Definition py_make_bucket (rate : double) (burst : option double) (now : Z) : option TokenBucket :=
  make_bucket rate (from_option id d0 burst) now.

Theorem py_default_burst (rate : double) (now : Z) :
  burst_ <$> py_make_bucket rate None now = if dleb rate d0 then None else Some rate.
Proof. unfold py_make_bucket, make_bucket. cbn. by destruct (dleb rate d0). Qed.
